(* ===== verification/_CoqProject ===== *)
-Q . S2P
Prelude.v
CString.v
Grep.v
Sh.v
ShThms.v
Umalloc.v
UmallocThms.v
Ring.v
Pipe.v
Console.v
Spinlock.v
ProcData.v
Queue.v
Mlfq.v
Kalloc.v
Vm.v
VmInv.v
VmThms.v
Bio.v
BioInv.v
BioThms.v
Ide.v
IdeThms.v
Log.v
LogThms.v
LogCrash.v
LogSpec.v
Fs.v
Dir.v
File.v
FsRep.v
FsAlloc.v
FsFile.v
FsBmap.v
FsRead.v
FsInode.v
FsWrite.v
FsDir.v
FsTxn.v
Mkfs.v
FsThms.v
MkfsThms.v
FileThms.v
PathThms.v
MkfsBoot.v
Proc.v
Kernel.v
Sysfile.v
ArgThms.v
Exec.v
Sched.v
Syscall.v
Trap.v
Aging.v
Inv.v
Lifecycle.v
ProcThms.v
SchedInv.v
SchedThms.v
System.v
Actions.v
SysInv.v
Reachable.v
Boot.v
TrapThms.v
