(* ===== verification/Prelude.v ===== *)
(** * A4teamOS: verification of an xv6 kernel with RR, FCFS and MLFQ scheduling and kernel threads

    The program is the x86 teaching kernel in src/xv6 with three schedulers
    (chosen when it is built), threads made by [clone] and reaped by [join],
    its user library and shell, and mkfs, which makes the disk image.  This
    file holds what every other file uses: the outcomes of C code ([result]),
    the state monad [M], its rules and tactics, machine integers and lists.

    ** How C code is modelled

    A function is a definition in the monad [M S A], where [S] is the state
    it can reach.  It returns ([Ok]), calls [panic] ([Panic] with the
    message), or makes an access that C leaves undefined ([Fault]).  A
    [struct] is a record; a pointer into a table ([struct proc *],
    [struct buf *], [struct inode *], [struct file *]) is an index; other
    pointers are addresses.  A machine integer is a [Z] kept in range by
    [u32] or [s32] wherever the code can wrap.  A character buffer is the
    list of its bytes.

    Code that runs under a spin lock is one run of the monad; a function
    that sleeps is modelled from its entry, or from the return of [sleep], to
    the next [sleep] or [return].  System.v interleaves such pieces for any
    number of CPUs.  The file system (Bio.v to File.v) runs for one process
    at a time: a sleep lock found taken makes the call a [Fault], and
    [begin_op] reports that its caller sleeps.

    ** The parts and the files

    - string.c, ulib.c: CString.v.  grep.c: Grep.v.
    - sh.c, from the line to the command tree: Sh.v; its grammar: ShThms.v.
    - umalloc.c and thread.c: Umalloc.v, UmallocThms.v.
    - pipe.c: Ring.v (ring buffers), Pipe.v.
    - console.c, printf.c: Console.v.
    - spinlock.c, [mycpu] and [myproc]: Spinlock.v, as whole calls and as
      single memory accesses.
    - proc.h, the MLFQ queues of proc.c: ProcData.v, Queue.v, Mlfq.v.
    - kalloc.c: Kalloc.v.  vm.c: Vm.v, VmInv.v, VmThms.v.
    - sleeplock.c, bio.c: Bio.v, BioInv.v, BioThms.v.
    - ide.c, memide.c: Ide.v, IdeThms.v.
    - log.c: Log.v, LogThms.v, LogCrash.v, LogSpec.v.
    - fs.c: Fs.v (blocks and inodes), Dir.v (content, directories, paths);
      FsRep.v, FsAlloc.v, FsFile.v, FsBmap.v, FsRead.v, FsInode.v, FsWrite.v,
      FsDir.v and FsTxn.v build up to FsThms.v and PathThms.v.
    - file.c: File.v, FileThms.v.
    - mkfs.c: Mkfs.v, MkfsThms.v, and MkfsBoot.v together with fs.c.
    - proc.c: Proc.v, Sched.v; Inv.v, Lifecycle.v, ProcThms.v, Aging.v,
      SchedInv.v, SchedThms.v.
    - syscall.c, sysproc.c, sysfile.c, exec.c: Kernel.v, Sysfile.v, Exec.v,
      Syscall.v, ArgThms.v.
    - trap.c: the timer and the policies in Sched.v, the handler in Trap.v
      and TrapThms.v.
    - main.c's last steps and everything at once: System.v, Actions.v,
      SysInv.v, Reachable.v, Boot.v.

    The parts meet at interfaces.  The process table calls memory and files
    through the class [KernelSvc] (Proc.v), so that its theorems hold for any
    code below; [kernel_svc] (Kernel.v) is the instance made of vm.c, file.c
    and fs.c.  The log sees the buffer cache through [abs] (BioThms.v), the
    file system sees the log through [rep] (FsRep.v), and the driver drives
    a disk given by [Controller] (Ide.v).

    ** What the theorems show

    - Processes and CPUs (Boot.v, Reachable.v).  [sys_inv] holds in every
      state reachable from boot, for any number of CPUs and any interleaving:
      a RUNNING process is on exactly one CPU, in an MLFQ build the queues
      hold exactly the RUNNABLE processes, live processes have their stack,
      page table and trap frame, and the code around a context switch never
      panics.  ProcThms.v, SchedThms.v: what fork, clone, exit, wait and join
      do, what each scheduler chooses, and how long a time slice lasts.
    - Locks (Spinlock.v): mutual exclusion access by access.
    - Memory (VmThms.v, ArgThms.v, UmallocThms.v): address spaces share no
      page and lose none, system calls read only the caller's memory, the
      user allocator hands out disjoint blocks and loses none.
    - Storage: the driver serves requests in order and all of them
      (IdeThms.v); the cache is coherent (BioThms.v); transactions are atomic
      across crashes at any write (LogSpec.v); reads return what writes
      wrote, other files are untouched and directories are finite maps
      (FsThms.v, FileThms.v).  A kernel that starts on mkfs's image reads
      what mkfs was given (MkfsBoot.v).
    - Traps (TrapThms.v), pipes, console, paths, grep and the shell's parser
      against their specifications.

    Several theorems state where the code does not do what it means to:
    [wait_never_fails], [growproc_stuck_after_join], [add_misses_last],
    [aging_skips_next], [kill_zero_hits_free_slot], [begin_op_overcommits],
    [grep_drops_short_reads], [malloc_wraps], [thread_stacks_overlap],
    [ide_error_ignored], [append_is_write], [mkfs_root_hole].

    ** Bounds and fuel

    A loop that is not structural has a bound, and running out of it is a
    [Fault].  The bounds are the natural ones and the theorems that state an
    [Ok] outcome show that they are enough: the length of the line times four
    for the parser, the number of 8-byte units of the heap for the
    allocator's lists, the bytes of the path for [namex], the blocks touched
    for [readi] and [writei], the bytes left for [iappend], the pages of the
    range for the loops of vm.c, [NPROC] for the scans of the process table.
    The sizes are those of param.h and fs.h; one bit map block covers the
    [FSSIZE] blocks of the disk.

    ** Not modelled

    Assembly (entry, [swtch], trap entry, the boot loader): [swtch] appears
    as the place where [sched] and [scheduler] are split.  Device
    registers of the interrupt controllers, serial port and keyboard, and the
    tables read by mp.c: they are input and output with no state that the
    rest of the kernel reads.  Of vm.c, [seginit] only loads descriptors.
    The shell's execution of a command tree, the small user programs and the
    test programs only make system calls.  The memory model is sequentially
    consistent, and interrupts arrive in any order. *)

From stdpp Require Import prelude strings relations.

Declare Scope xv6_scope.
Delimit Scope xv6_scope with xv6.

(** ** Outcomes

    A C function either returns, calls [panic], or performs an access that C
    leaves undefined (a null or wild pointer, an index outside its array):
    the last is [Fault]. *)
Inductive result (A : Type) : Type :=
| Ok (a : A)
| Panic (msg : string)
| Fault.
Arguments Ok {A} a.
Arguments Panic {A} msg.
Arguments Fault {A}.

(** ** The state and error monad *)
Definition M (S A : Type) : Type := S -> result (A * S).

#[global] Instance M_ret S : MRet (M S) := fun A a s => Ok (a, s).
#[global] Instance M_bind S : MBind (M S) := fun A B k m s =>
  match m s with
  | Ok (a, s') => k a s'
  | Panic e => Panic e
  | Fault => Fault
  end.

Definition get {S} : M S S := fun s => Ok (s, s).
Definition gets {S A} (f : S -> A) : M S A := fun s => Ok (f s, s).
Definition put {S} (s' : S) : M S unit := fun _ => Ok (tt, s').
Definition modify {S} (f : S -> S) : M S unit := fun s => Ok (tt, f s).
Definition panic {S A} (msg : string) : M S A := fun _ => Panic msg.
Definition fault {S A} : M S A := fun _ => Fault.

(** Dereferencing: [None] is a null or out of range pointer. *)
Definition deref {S A} (o : option A) : M S A :=
  match o with Some a => mret a | None => fault end.

(** The caller goes to sleep and the run of it that is modelled stops. *)
Definition asleep {S A} : M S A := fault.

(** [for(x : l) body], and the same loop left early by a [return] or
    [break] that carries a value. *)
Fixpoint for_each {S X} (l : list X) (body : X -> M S unit) : M S unit :=
  match l with
  | [] => mret tt
  | x :: l' => body x ;; for_each l' body
  end.

Fixpoint for_until {S X R} (l : list X) (body : X -> M S (option R)) : M S (option R) :=
  match l with
  | [] => mret None
  | x :: l' =>
      r ← body x;
      match r with
      | Some v => mret (Some v)
      | None => for_until l' body
      end
  end.

(** ** Machine integers *)
Definition u32 (z : Z) : Z := (z mod 2 ^ 32)%Z.
Definition s32 (z : Z) : Z := ((z + 2 ^ 31) mod 2 ^ 32 - 2 ^ 31)%Z.

(** ** Arrays indexed by machine integers *)
Definition nthZ {A} (l : list A) (i : Z) : option A :=
  if (i <? 0)%Z then None else l !! Z.to_nat i.

Definition updZ {A} (l : list A) (i : Z) (x : A) : option (list A) :=
  if (0 <=? i)%Z && (i <? Z.of_nat (length l))%Z
  then Some (<[Z.to_nat i := x]> l) else None.

(** ** Sleep channels

    [sleep] and [wakeup] identify a channel by an address; the constructors
    name the objects whose addresses the kernel uses. *)
Inductive chan : Type :=
| ChanNull
| ChanProc (p : nat)         (** [&ptable.proc\[p\]]: [wait], [join] *)
| ChanTicks                  (** [&ticks]: [sys_sleep] *)
| ChanInput                  (** [&input.r]: [consoleread] *)
| ChanLog                    (** [&log]: [begin_op] *)
| ChanPipeRead (p : Z)       (** [&p->nread] *)
| ChanPipeWrite (p : Z)      (** [&p->nwrite] *)
| ChanBuf (b : nat)          (** a [struct buf]: [iderw] *)
| ChanSleeplock (l : Z).     (** a [struct sleeplock] *)

#[global] Instance chan_eq_dec : EqDecision chan.
Proof. solve_decision. Defined.

(** ** Specifications of monadic code

    [triple P m Q] is total: from a state in [P] the code returns, without
    panic and without fault, in [Q].  [post P m Q] constrains only the runs
    that return. *)
Definition triple {S A} (P : S -> Prop) (m : M S A) (Q : A -> S -> Prop) : Prop :=
  forall s, P s -> exists a s', m s = Ok (a, s') /\ Q a s'.

Definition post {S A} (P : S -> Prop) (m : M S A) (Q : A -> S -> Prop) : Prop :=
  forall s a s', P s -> m s = Ok (a, s') -> Q a s'.

(** ** Rules for the monad *)
Section MonadRules.
Context {S : Type}.

Lemma bind_Ok {A B} (m : M S A) (k : A -> M S B) s a s' :
  m s = Ok (a, s') -> (m ≫= k) s = k a s'.
Proof. intros H. unfold mbind, M_bind. by rewrite H. Qed.

Lemma bind_cong {A B} (m m' : M S A) (k k' : A -> M S B) s :
  m s = m' s -> (forall a s', k a s' = k' a s') -> (m ≫= k) s = (m' ≫= k') s.
Proof. intros E H. unfold mbind, M_bind. rewrite E. destruct (m' s) as [[a s']| |]; [apply H|done|done]. Qed.

Lemma bind_ext {A B} (m : M S A) (k k' : A -> M S B) s : (forall a s', k a s' = k' a s') -> (m ≫= k) s = (m ≫= k') s.
Proof. intros H. by apply bind_cong. Qed.

Lemma bind_inv {A B} (m : M S A) (k : A -> M S B) s b s'' :
  (m ≫= k) s = Ok (b, s'') ->
  exists a s', m s = Ok (a, s') /\ k a s' = Ok (b, s'').
Proof.
  unfold mbind, M_bind. destruct (m s) as [[a s']| |] eqn:E; naive_solver.
Qed.

Lemma ret_inv {A} (a b : A) (s s' : S) :
  (mret a : M S A) s = Ok (b, s') -> b = a /\ s' = s.
Proof. cbv. naive_solver. Qed.

Lemma triple_ret {A} (P : S -> Prop) (a : A) (Q : A -> S -> Prop) :
  (forall s, P s -> Q a s) -> triple P (mret a) Q.
Proof. intros H s Hs. exists a, s. auto. Qed.

Lemma triple_bind {A B} (P : S -> Prop) (m : M S A) (k : A -> M S B)
    (R : A -> S -> Prop) (Q : B -> S -> Prop) :
  triple P m R -> (forall a, triple (R a) (k a) Q) -> triple P (m ≫= k) Q.
Proof.
  intros Hm Hk s Hs. destruct (Hm s Hs) as (a & s' & E & HR).
  destruct (Hk a s' HR) as (b & s'' & E' & HQ).
  exists b, s''. by rewrite (bind_Ok _ _ _ _ _ E).
Qed.

Lemma triple_consequence {A} (P P' : S -> Prop) (m : M S A) (Q Q' : A -> S -> Prop) :
  triple P' m Q' -> (forall s, P s -> P' s) -> (forall a s, Q' a s -> Q a s) ->
  triple P m Q.
Proof. intros H HP HQ s Hs. destruct (H s (HP s Hs)) as (a & s' & ? & ?). eauto. Qed.

Lemma triple_modify (P : S -> Prop) (f : S -> S) (Q : unit -> S -> Prop) :
  (forall s, P s -> Q tt (f s)) -> triple P (modify f) Q.
Proof. intros H s Hs. exists tt, (f s). auto. Qed.

Lemma triple_for_each {X} (l : list X) (body : X -> M S unit) (I : S -> Prop) :
  (forall x, x ∈ l -> triple I (body x) (fun _ => I)) ->
  triple I (for_each l body) (fun _ => I).
Proof.
  induction l as [|x l IH]; intros H; simpl; [by apply triple_ret|].
  eapply triple_bind; [apply H; set_solver|].
  intros ?. apply IH. intros y Hy. apply H. set_solver.
Qed.

(** A loop that returns has run its body on every element. *)
Lemma for_each_visit {X} (l : list X) (body : X -> M S unit) (I : S -> Prop) s s' x :
  (forall y, post I (body y) (fun _ => I)) -> I s -> for_each l body s = Ok (tt, s') -> x ∈ l ->
  exists s1 s2, I s1 /\ body x s1 = Ok (tt, s2).
Proof.
  intros Hb. revert s. induction l as [|y l IH]; intros s Hs Hrun Hx; [by apply elem_of_nil in Hx|].
  simpl in Hrun. apply bind_inv in Hrun as ([] & s1 & E1 & Hrun).
  apply elem_of_cons in Hx as [->|Hx]; [by exists s, s1|]. eapply IH; [|done..]. by eapply Hb.
Qed.

Lemma post_for_each {X} (l : list X) (body : X -> M S unit) (I : S -> Prop) :
  (forall x, x ∈ l -> post I (body x) (fun _ => I)) ->
  post I (for_each l body) (fun _ => I).
Proof.
  induction l as [|x l IH]; intros H s a s' Hs E; simpl in E.
  - by apply ret_inv in E as [_ ->].
  - apply bind_inv in E as (b & s1 & E1 & E2).
    eapply IH; [|eapply (H x)|exact E2]; [|set_solver|exact Hs|exact E1].
    intros y Hy. apply H. set_solver.
Qed.

Lemma triple_post {A} (P : S -> Prop) (m : M S A) (Q : A -> S -> Prop) :
  triple P m Q -> post P m Q.
Proof. intros H s a s' Hs E. destruct (H s Hs) as (b & s2 & E2 & HQ). rewrite E in E2. by injection E2 as <- <-. Qed.

Lemma post_ret {A} (P : S -> Prop) (a : A) (Q : A -> S -> Prop) :
  (forall s, P s -> Q a s) -> post P (mret a) Q.
Proof. intros H. by apply triple_post, triple_ret. Qed.

Lemma post_bind {A B} (P : S -> Prop) (m : M S A) (k : A -> M S B)
    (R : A -> S -> Prop) (Q : B -> S -> Prop) :
  post P m R -> (forall a, post (R a) (k a) Q) -> post P (m ≫= k) Q.
Proof. intros Hm Hk s b s'' Hs E. apply bind_inv in E as (a & s' & E1 & E2). by eapply Hk; [eapply Hm|]. Qed.

Lemma post_consequence {A} (P P' : S -> Prop) (m : M S A) (Q Q' : A -> S -> Prop) :
  post P' m Q' -> (forall s, P s -> P' s) -> (forall a s, Q' a s -> Q a s) -> post P m Q.
Proof. intros H HP HQ s a s' Hs E. eapply HQ, H; eauto. Qed.

Lemma post_deref {A} (P : S -> Prop) (o : option A) (Q : A -> S -> Prop) :
  (forall a s, o = Some a -> P s -> Q a s) -> post P (deref o) Q.
Proof.
  intros H s a s' Hs E. destruct o as [b|]; simpl in E; [|done].
  apply ret_inv in E as [-> ->]. auto.
Qed.

Lemma triple_deref {A} (P : S -> Prop) (a : A) (Q : A -> S -> Prop) :
  (forall s, P s -> Q a s) -> triple P (deref (Some a)) Q.
Proof. apply triple_ret. Qed.

Lemma post_pure {A} (P : S -> Prop) (phi : Prop) (m : M S A) (Q : A -> S -> Prop) :
  (phi -> post P m Q) -> post (fun s => P s /\ phi) m Q.
Proof. intros H s a s' [HP Hphi]. by apply H. Qed.

Lemma triple_pure {A} (P : S -> Prop) (phi : Prop) (m : M S A) (Q : A -> S -> Prop) :
  (phi -> triple P m Q) -> triple (fun s => P s /\ phi) m Q.
Proof. intros H s [HP Hphi]. by apply H. Qed.

(** A [for] loop with [return]: [I] holds while it runs, [Q] when it is
    left. *)
Lemma triple_for_until {X R} (l : list X) (body : X -> M S (option R))
    (I : S -> Prop) (Q : R -> S -> Prop) :
  (forall x, x ∈ l -> triple I (body x) (fun r s => match r with Some v => Q v s | None => I s end)) ->
  triple I (for_until l body) (fun r s => match r with Some v => Q v s | None => I s end).
Proof.
  induction l as [|x l IH]; intros H; simpl; [by apply triple_ret|].
  eapply triple_bind; [apply H; set_solver|].
  intros [v|]; [by apply triple_ret|]. apply IH. intros y Hy. apply H. set_solver.
Qed.

Lemma post_for_until {X R} (l : list X) (body : X -> M S (option R))
    (I : S -> Prop) (Q : R -> S -> Prop) :
  (forall x, x ∈ l -> post I (body x) (fun r s => match r with Some v => Q v s | None => I s end)) ->
  post I (for_until l body) (fun r s => match r with Some v => Q v s | None => I s end).
Proof.
  induction l as [|x l IH]; intros H; simpl; [by apply post_ret|].
  eapply post_bind; [apply H; set_solver|].
  intros [v|]; [by apply post_ret|]. apply IH. intros y Hy. apply H. set_solver.
Qed.
End MonadRules.

(** ** Machine integer and array lemmas *)
Lemma u32_range z : (0 <= u32 z < 2 ^ 32)%Z.
Proof. apply Z.mod_pos_bound. lia. Qed.

Lemma u32_small z : (0 <= z < 2 ^ 32)%Z -> u32 z = z.
Proof. apply Z.mod_small. Qed.

Lemma s32_range z : (- 2 ^ 31 <= s32 z < 2 ^ 31)%Z.
Proof. unfold s32. pose proof (Z.mod_pos_bound (z + 2 ^ 31) (2 ^ 32)). lia. Qed.

Lemma s32_small z : (- 2 ^ 31 <= z < 2 ^ 31)%Z -> s32 z = z.
Proof. intros H. unfold s32. rewrite Z.mod_small; lia. Qed.

(** The four bytes of a word, little endian. *)
Lemma bytes_word v :
  (v mod 256 + 256 * (Z.shiftr v 8 mod 256 + 256 * (Z.shiftr v 16 mod 256 + 256 * (Z.shiftr v 24 mod 256))) = u32 v)%Z.
Proof.
  unfold u32. rewrite !Z.shiftr_div_pow2 by lia.
  change (2 ^ 32)%Z with (256 * (256 * (256 * 256)))%Z. rewrite !Z.rem_mul_r by lia.
  rewrite !Z.div_div by lia. reflexivity.
Qed.

Lemma nthZ_nat {A} (l : list A) (i : nat) : nthZ l (Z.of_nat i) = l !! i.
Proof. unfold nthZ. destruct (Z.ltb_spec (Z.of_nat i) 0); [lia|]. by rewrite Nat2Z.id. Qed.

Lemma nthZ_lookup {A} (l : list A) (i : Z) : (0 <= i)%Z -> nthZ l i = l !! Z.to_nat i.
Proof. intros H. unfold nthZ. destruct (Z.ltb_spec i 0); [lia|done]. Qed.

Lemma updZ_nat {A} (l : list A) (i : nat) x :
  i < length l -> updZ l (Z.of_nat i) x = Some (<[i := x]> l).
Proof.
  intros H. unfold updZ.
  destruct (Z.leb_spec 0 (Z.of_nat i)); [|lia].
  destruct (Z.ltb_spec (Z.of_nat i) (Z.of_nat (length l))); [|lia].
  simpl. by rewrite Nat2Z.id.
Qed.

Lemma updZ_Some {A} (l l' : list A) (i : Z) x :
  updZ l i x = Some l' -> (0 <= i < Z.of_nat (length l))%Z /\ l' = <[Z.to_nat i := x]> l.
Proof.
  unfold updZ. destruct (Z.leb_spec 0 i); simpl; [|done].
  destruct (Z.ltb_spec i (Z.of_nat (length l))); naive_solver.
Qed.

Lemma updZ_in {A} (l : list A) (i : Z) x :
  (0 <= i < Z.of_nat (length l))%Z -> updZ l i x = Some (<[Z.to_nat i := x]> l).
Proof.
  intros H. rewrite <- (updZ_nat l (Z.to_nat i) x) by lia. f_equal. lia.
Qed.

(** Replacing one element of a list whose parts are collected. *)
Lemma concat_fmap_insert {A B} (f : A -> list B) (l : list A) i x : l !! i = Some x ->
  exists r, concat (f <$> l) ≡ₚ f x ++ r /\ forall y, concat (f <$> <[i := y]> l) ≡ₚ f y ++ r.
Proof.
  intros Hx. pose proof (take_drop_middle _ _ _ Hx) as El.
  exists (concat (f <$> take i l) ++ concat (f <$> drop (S i) l)).
  assert (H : forall y, concat (f <$> (take i l ++ y :: drop (S i) l)) ≡ₚ
    f y ++ concat (f <$> take i l) ++ concat (f <$> drop (S i) l)).
  { intros y. rewrite fmap_app, fmap_cons, concat_app. simpl. rewrite !(assoc_L (++)). by rewrite (Permutation_app_comm (f y)). }
  split.
  - rewrite <- El at 1. apply H.
  - intros y. rewrite insert_take_drop by by eapply lookup_lt_Some. apply H.
Qed.

Lemma omap_insert {A B} (f : A -> option B) (l : list A) i x : l !! i = Some x ->
  exists r, omap f l ≡ₚ option_list (f x) ++ r /\ forall y, omap f (<[i := y]> l) ≡ₚ option_list (f y) ++ r.
Proof.
  intros Hx. destruct (concat_fmap_insert (fun z => option_list (f z)) l i x Hx) as (r & H1 & H2).
  assert (E : forall l, omap f l = concat ((fun z => option_list (f z)) <$> l)).
  { intros l'. induction l' as [|z l' IH]; [done|]. rewrite fmap_cons. cbn [concat]. rewrite <- IH. cbn. by destruct (f z). }
  exists r. split; [by rewrite E|]. intros y. by rewrite E.
Qed.

(** ** Reachability *)
Lemma rtc_invariant {A} (R : relation A) (I : A -> Prop) :
  (forall x y, I x -> R x y -> I y) -> forall x y, rtc R x y -> I x -> I y.
Proof. intros HI x y H. induction H; eauto. Qed.

(** ** Tactics

    [minv H] inverts a run [H : (x ← m; k) s = Ok _] one bind at a time. *)
Ltac minv H :=
  match type of H with
  | mbind _ _ _ = Ok _ =>
      let a := fresh "a" in let s := fresh "s" in
      let E := fresh "E" in
      apply bind_inv in H as (a & s & E & H); minv E; minv H
  | mret _ _ = Ok _ =>
      let E1 := fresh "E" in let E2 := fresh "E" in
      apply ret_inv in H as [E1 E2]; try subst
  | get _ = Ok _ => unfold get in H; injection H as ??; try subst
  | gets _ _ = Ok _ => unfold gets in H; injection H as ??; try subst
  | put _ _ = Ok _ => unfold put in H; injection H as ??; try subst
  | modify _ _ = Ok _ => unfold modify in H; injection H as ??; try subst
  | panic _ _ = Ok _ => discriminate H
  | fault _ = Ok _ => discriminate H
  | _ => idtac
  end.

(** [mrun] evaluates the monad's own operations in the goal, and nothing
    else. *)
Ltac mrun :=
  unfold deref, get, gets, put, modify, panic, fault;
  unfold mbind, M_bind, mret, M_ret; cbv beta iota.

Create HintDb xv6.
#[export] Hint Resolve u32_range s32_range triple_ret triple_modify : xv6.
