(* ===== verification/CString.v ===== *)
(** * Memory and string routines: string.c (kernel) and ulib.c (user)

    [mem] is the byte-addressed memory the [mem*] routines work on; a [char*]
    argument of a [str*] routine is the buffer it points to, as the list of
    the bytes from that address on.  Running off the end of a buffer gives
    [None].  A C string [a] is stored as [a ++ 0 :: r] with no NUL in [a]. *)

From stdpp Require Import prelude strings.
From S2P Require Import Prelude.

Open Scope Z_scope.

Definition mem : Type := Z -> Z.
Definition store8 (m : mem) (a v : Z) : mem := fun x => if x =? a then v else m x.

(** ** x86 string instructions (x86.h) *)
Definition stosb (m : mem) (addr data cnt : Z) : mem := fun x =>
  if (addr <=? x) && (x <? addr + cnt) then data mod 256 else m x.

Definition stosl (m : mem) (addr data cnt : Z) : mem := fun x =>
  if (addr <=? x) && (x <? addr + 4 * cnt)
  then Z.shiftr data (8 * ((x - addr) mod 4)) mod 256 else m x.

(** ** string.c *)
Definition memset (m : mem) (dst c n : Z) : mem :=
  if (dst mod 4 =? 0) && (n mod 4 =? 0) then
    let c := Z.land c 255 in
    stosl m dst (Z.lor (Z.lor (Z.lor (Z.shiftl c 24) (Z.shiftl c 16)) (Z.shiftl c 8)) c) (n / 4)
  else stosb m dst c n.

Fixpoint memcmp (m : mem) (s1 s2 : Z) (n : nat) : Z :=
  match n with
  | O => 0
  | S n' => if m s1 =? m s2 then memcmp m (s1 + 1) (s2 + 1) n' else m s1 - m s2
  end.

(** [while(n-- > 0) *d++ = *s++] *)
Fixpoint copy_up (m : mem) (d s : Z) (n : nat) : mem :=
  match n with
  | O => m
  | S n' => copy_up (store8 m d (m s)) (d + 1) (s + 1) n'
  end.

(** [while(n-- > 0) *--d = *--s] *)
Fixpoint copy_down (m : mem) (d s : Z) (n : nat) : mem :=
  match n with
  | O => m
  | S n' => copy_down (store8 m (d - 1) (m (s - 1))) (d - 1) (s - 1) n'
  end.

Definition memmove (m : mem) (dst src : Z) (n : nat) : mem :=
  if (src <? dst) && (dst <? src + Z.of_nat n)
  then copy_down m (dst + Z.of_nat n) (src + Z.of_nat n) n
  else copy_up m dst src n.

Definition memcpy (m : mem) (dst src : Z) (n : nat) : mem := memmove m dst src n.

Fixpoint strncmp (p q : list Z) (n : nat) : option Z :=
  match n with
  | O => Some 0
  | S n' =>
      match p, q with
      | a :: p', b :: q' =>
          if (a =? 0) || negb (a =? b) then Some (a - b) else strncmp p' q' n'
      | _, _ => None
      end
  end.

(** Second loop of [strncpy]: [while(n-- > 0) *s++ = 0]. *)
Fixpoint zero_fill (s : list Z) (n : nat) : option (list Z) :=
  match n, s with
  | O, _ => Some s
  | S n', _ :: s' => cons 0 <$> zero_fill s' n'
  | S _, [] => None
  end.

Fixpoint strncpy (s t : list Z) (n : nat) : option (list Z) :=
  match n with
  | O => Some s
  | S n' =>
      match s, t with
      | _ :: s', c :: t' =>
          if c =? 0 then cons c <$> zero_fill s' n'
          else cons c <$> strncpy s' t' n'
      | _, _ => None
      end
  end.

(** [*s = 0] *)
Definition terminate (s : list Z) : option (list Z) :=
  match s with _ :: s' => Some (0 :: s') | [] => None end.

(** The loop of [safestrcpy], entered with [S n] bytes left:
    [while(--n > 0 && ( *s++ = *t++) != 0); *s = 0;] *)
Fixpoint safestrcpy_loop (s t : list Z) (n : nat) {struct n} : option (list Z) :=
  match n with
  | O => terminate s
  | S n' =>
      match s, t with
      | _ :: s', c :: t' =>
          if c =? 0 then cons c <$> terminate s'
          else cons c <$> safestrcpy_loop s' t' n'
      | _, _ => None
      end
  end.

Definition safestrcpy (s t : list Z) (n : Z) : option (list Z) :=
  if n <=? 0 then Some s else safestrcpy_loop s t (Z.to_nat (n - 1)).

Fixpoint strlen (s : list Z) : option Z :=
  match s with
  | [] => None
  | c :: s' => if c =? 0 then Some 0 else Z.succ <$> strlen s'
  end.

(** ** ulib.c *)
Module Ulib.
Fixpoint strcpy (s t : list Z) : option (list Z) :=
  match s, t with
  | _ :: s', c :: t' => if c =? 0 then Some (c :: s') else cons c <$> strcpy s' t'
  | _, _ => None
  end.

Fixpoint strcmp (p q : list Z) : option Z :=
  match p, q with
  | a :: p', b :: q' =>
      if (a =? 0) || negb (a =? b) then Some (a - b) else strcmp p' q'
  | _, _ => None
  end.

Definition strlen (s : list Z) : option Z := CString.strlen s.

Definition memset (m : mem) (dst c n : Z) : mem := stosb m dst c n.

(** [Some None] is the null pointer, [Some (Some s)] the suffix found. *)
Fixpoint strchr (s : list Z) (c : Z) : option (option (list Z)) :=
  match s with
  | [] => None
  | a :: s' =>
      if a =? 0 then Some None
      else if a =? c then Some (Some s) else strchr s' c
  end.

Fixpoint atoi_loop (s : list Z) (n : Z) : option Z :=
  match s with
  | [] => None
  | c :: s' =>
      if (48 <=? c) && (c <=? 57) then atoi_loop s' (s32 (n * 10 + c - 48))
      else Some n
  end.

Definition atoi (s : list Z) : option Z := atoi_loop s 0.

Definition memmove (m : mem) (vdst vsrc : Z) (n : nat) : mem := copy_up m vdst vsrc n.
End Ulib.

(** ** Memory lemmas *)
Lemma store8_eq m a v : store8 m a v a = v.
Proof. unfold store8. by rewrite Z.eqb_refl. Qed.

Lemma store8_ne m a v x : x <> a -> store8 m a v x = m x.
Proof. intros H. unfold store8. by destruct (Z.eqb_spec x a). Qed.

Ltac cases_Z :=
  repeat (match goal with
  | |- context [?a <=? ?b] => destruct (Z.leb_spec a b)
  | |- context [?a <? ?b] => destruct (Z.ltb_spec a b)
  | |- context [?a =? ?b] => destruct (Z.eqb_spec a b)
  end; simpl); try lia.

(** Copying upwards is a copy of the original bytes when the destination is
    not inside the part of the source still to be read. *)
Lemma copy_up_spec n : forall m d s x,
  d <= s \/ s + Z.of_nat n <= d ->
  copy_up m d s n x = if (d <=? x) && (x <? d + Z.of_nat n) then m (s + (x - d)) else m x.
Proof.
  induction n as [|n IH]; intros m d s x Hov; simpl copy_up.
  - cases_Z.
  - rewrite IH by lia. unfold store8. cases_Z; try (f_equal; lia).
Qed.

Lemma copy_down_spec n : forall m d s x,
  s <= d \/ d + Z.of_nat n <= s ->
  copy_down m (d + Z.of_nat n) (s + Z.of_nat n) n x =
  if (d <=? x) && (x <? d + Z.of_nat n) then m (s + (x - d)) else m x.
Proof.
  induction n as [|n IH]; intros m d s x Hov; simpl copy_down.
  - cases_Z.
  - replace (d + Z.of_nat (S n) - 1) with (d + Z.of_nat n) by lia.
    replace (s + Z.of_nat (S n) - 1) with (s + Z.of_nat n) by lia.
    rewrite IH by lia. unfold store8. cases_Z; try (f_equal; lia).
Qed.

Lemma memcmp_zero n : forall m a b,
  memcmp m a b n = 0 <-> forall i, 0 <= i < Z.of_nat n -> m (a + i) = m (b + i).
Proof.
  induction n as [|n IH]; intros m a b; simpl; [split; [lia|done]|].
  destruct (Z.eqb_spec (m a) (m b)) as [E|E].
  - rewrite IH. split; intros H i Hi.
    + destruct (Z.eq_dec i 0) as [->|]; [by rewrite !Z.add_0_r|].
      specialize (H (i - 1)). replace (a + 1 + (i - 1)) with (a + i) in H by lia.
      replace (b + 1 + (i - 1)) with (b + i) in H by lia. apply H; lia.
    + specialize (H (i + 1)). replace (a + (i + 1)) with (a + 1 + i) in H by lia.
      replace (b + (i + 1)) with (b + 1 + i) in H by lia. apply H; lia.
  - split; [lia|]. intros H. specialize (H 0). rewrite !Z.add_0_r in H. lia.
Qed.

(** Every byte of the word [memset] builds for [stosl] is the fill byte. *)
Definition fill_word (c : Z) : Z :=
  Z.lor (Z.lor (Z.lor (Z.shiftl c 24) (Z.shiftl c 16)) (Z.shiftl c 8)) c.

Lemma fill_word_byte c k :
  0 <= c < 256 -> 0 <= k < 4 -> Z.shiftr (fill_word c) (8 * k) mod 256 = c.
Proof.
  intros Hc Hk.
  assert (Hall : forallb (fun c => forallb (fun k =>
    Z.shiftr (fill_word c) (8 * k) mod 256 =? c) (seqZ 0 4)) (seqZ 0 256) = true)
    by (vm_compute; reflexivity).
  rewrite forallb_forall in Hall. specialize (Hall c).
  rewrite <- list_elem_of_In, elem_of_seqZ, forallb_forall in Hall.
  apply Z.eqb_eq, Hall; [lia|]. apply list_elem_of_In, elem_of_seqZ. lia.
Qed.

(** ** String lemmas *)
Lemma zero_fill_spec s n :
  (n <= length s)%nat -> zero_fill s n = Some (replicate n 0 ++ drop n s).
Proof.
  revert s. induction n as [|n IH]; intros [|x s] H; simpl in *; try done; [lia|].
  rewrite IH by lia. done.
Qed.

(** A string padded with NULs to [n] bytes: the content of a fixed field. *)
Definition pad0 (a : list Z) (n : nat) : list Z := take n a ++ replicate (n - length a)%nat 0.

Lemma pad0_length a n : length (pad0 a n) = n.
Proof. unfold pad0. rewrite length_app, length_take, length_replicate. lia. Qed.

Lemma strncpy_spec a : forall r s n,
  Forall (fun c => c <> 0) a -> (n <= length s)%nat ->
  strncpy s (a ++ 0 :: r) n = Some (pad0 a n ++ drop n s).
Proof.
  unfold pad0. induction a as [|c a IH]; intros r s n Ha Hn.
  - destruct n as [|n], s as [|x s]; simpl in *; try done; [lia|].
    rewrite zero_fill_spec by lia. done.
  - apply Forall_cons in Ha as [Hc Ha].
    destruct n as [|n], s as [|x s]; simpl in *; try done; [lia|].
    destruct (Z.eqb_spec c 0); [done|]. rewrite IH by (done || lia). done.
Qed.

Lemma strncmp_pad a : forall b n r1 r2,
  Forall (fun c => c <> 0) a -> Forall (fun c => c <> 0) b ->
  exists v, strncmp (a ++ 0 :: r1) (pad0 b n ++ r2) n = Some v /\
            (v = 0 <-> take n a = take n b).
Proof.
  unfold pad0. induction a as [|x a IH]; intros b n r1 r2 Ha Hb.
  - destruct n as [|n]; [by exists 0|]. destruct b as [|y b]; simpl.
    + by exists 0.
    + apply Forall_cons in Hb as [Hy _]. exists (0 - y). split; [done|].
      split; [lia|done].
  - apply Forall_cons in Ha as [Hx Ha]. destruct n as [|n]; [by exists 0|].
    destruct b as [|y b]; simpl; destruct (Z.eqb_spec x 0); try done; simpl.
    + destruct (Z.eqb_spec x 0); [done|]. simpl. exists (x - 0). split; [done|].
      split; [lia|done].
    + apply Forall_cons in Hb as [Hy Hb]. destruct (Z.eqb_spec x y) as [<-|Hxy]; simpl.
      * destruct (IH b n r1 r2 Ha Hb) as (v & -> & Hv). exists v. split; [done|].
        rewrite Hv. split; [by intros ->|]. by intros [= ->].
      * exists (x - y). split; [done|]. split; [lia|]. by intros [= ? _].
Qed.

Lemma safestrcpy_loop_spec a : forall r s n,
  Forall (fun c => c <> 0) a -> (n < length s)%nat ->
  exists r', safestrcpy_loop s (a ++ 0 :: r) n = Some (take n a ++ 0 :: r').
Proof.
  induction a as [|c a IH]; intros r s n Ha Hn.
  - destruct s as [|x s]; [simpl in *; lia|].
    destruct n as [|n]; simpl; [eauto|].
    destruct s as [|y s]; simpl in *; [lia|eauto].
  - apply Forall_cons in Ha as [Hc Ha].
    destruct s as [|x s]; [simpl in *; lia|].
    destruct n as [|n]; simpl; [eauto|]. destruct (Z.eqb_spec c 0); [done|].
    destruct (IH r s n Ha) as [r' ->]; [simpl in *; lia|]. simpl. eauto.
Qed.

Lemma safestrcpy_loop_length n : forall s t s',
  safestrcpy_loop s t n = Some s' -> length s' = length s.
Proof.
  assert (Ht : forall s s', terminate s = Some s' -> length s' = length s).
  { intros [|] s' [= <-]. done. }
  induction n as [|n IH]; intros s t s' H; simpl in H; [exact (Ht _ _ H)|].
  destruct s as [|x s]; [done|]. destruct t as [|c t]; [done|].
  destruct (Z.eqb c 0).
  - apply fmap_Some in H as (s1 & H & ->). simpl. f_equal. eauto.
  - apply fmap_Some in H as (s1 & H & ->). simpl. f_equal. eauto.
Qed.

Lemma safestrcpy_length s t n s' : safestrcpy s t n = Some s' -> length s' = length s.
Proof.
  unfold safestrcpy. destruct (n <=? 0); [by intros [= <-]|]. apply safestrcpy_loop_length.
Qed.

Lemma strlen_spec a r : Forall (fun c => c <> 0) a ->
  strlen (a ++ 0 :: r) = Some (Z.of_nat (length a)).
Proof.
  induction 1 as [|c a Hc Ha IH]; [done|]. simpl. destruct (Z.eqb_spec c 0); [done|].
  rewrite IH. simpl. f_equal. lia.
Qed.

Lemma memmove_spec m dst src n x :
  memmove m dst src n x =
  if (dst <=? x) && (x <? dst + Z.of_nat n) then m (src + (x - dst)) else m x.
Proof.
  unfold memmove. destruct (Z.ltb_spec src dst); simpl; [|apply copy_up_spec; lia].
  destruct (Z.ltb_spec dst (src + Z.of_nat n)).
  - apply copy_down_spec. lia.
  - apply copy_up_spec. lia.
Qed.

Lemma memset_spec m dst c n x :
  memset m dst c n x = if (dst <=? x) && (x <? dst + n) then c mod 256 else m x.
Proof.
  unfold memset. destruct ((dst mod 4 =? 0) && (n mod 4 =? 0)) eqn:E; [|done].
  apply andb_true_iff in E as [Ed En]. apply Z.eqb_eq in Ed, En.
  change 255 with (Z.ones 8). rewrite Z.land_ones by lia.
  change (2 ^ 8) with 256. fold (fill_word (c mod 256)). unfold stosl.
  replace (4 * (n / 4)) with n by (pose proof (Z.div_mod n 4); lia).
  destruct ((dst <=? x) && (x <? dst + n)); [|done].
  apply fill_word_byte; apply Z.mod_pos_bound; lia.
Qed.

(** ** Properties *)

(** The kernel's [memmove] moves the [n] source bytes as they were before the
    call, whatever the overlap of the two regions, and changes nothing
    outside the destination. *)
Theorem memmove_correct m dst src n x :
  memmove m dst src n x =
  if (dst <=? x) && (x <? dst + Z.of_nat n) then m (src + (x - dst)) else m x.
Proof. apply memmove_spec. Qed.

(** [memset]'s two code paths (words when address and length are multiples
    of four, bytes otherwise) both fill exactly the [n] bytes at [dst] with
    the low byte of [c]. *)
Theorem memset_correct m dst c n x :
  memset m dst c n x = if (dst <=? x) && (x <? dst + n) then c mod 256 else m x.
Proof. apply memset_spec. Qed.

(** A name stored by [strncpy] into a field of [n] bytes is found again by
    [strncmp] over [n] bytes: the comparison gives 0 for exactly the names
    that agree on their first [n] characters.  This is what [dirlink] and
    [namecmp] rely on. *)
Theorem strncpy_strncmp_roundtrip (a b r1 r2 s r : list Z) (n : nat)
    (Ha : Forall (fun c => c <> 0) a) (Hb : Forall (fun c => c <> 0) b)
    (Hn : (n <= length s)%nat) :
  exists s' v, strncpy s (b ++ 0 :: r) n = Some s' /\
    strncmp (a ++ 0 :: r1) (s' ++ r2) n = Some v /\ (v = 0 <-> take n a = take n b).
Proof.
  rewrite strncpy_spec by done.
  destruct (strncmp_pad a b n r1 (drop n s ++ r2) Ha Hb) as (v & Hv & H0).
  eexists _, v. split; [done|]. by rewrite <- app_assoc.
Qed.

(** [safestrcpy] never writes outside its [n] byte buffer and always leaves a
    NUL-terminated string: the first [n - 1] characters of the source. *)
Theorem safestrcpy_correct (a r s : list Z) (n : Z)
    (Ha : Forall (fun c => c <> 0) a) (Hn : 0 < n <= Z.of_nat (length s)) :
  exists r', safestrcpy s (a ++ 0 :: r) n = Some (take (Z.to_nat (n - 1)) a ++ 0 :: r') /\
             length (take (Z.to_nat (n - 1)) a ++ 0 :: r') = length s.
Proof.
  unfold safestrcpy. destruct (Z.leb_spec n 0); [lia|].
  destruct (safestrcpy_loop_spec a r s (Z.to_nat (n - 1)) Ha) as [r' Hr']; [lia|].
  exists r'. split; [done|]. by eapply safestrcpy_loop_length.
Qed.

Lemma strncpy_strncmp_roundtrip_witness :
  exists s' v, strncpy (replicate 4 7) ([1; 2; 3; 4; 5] ++ 0 :: []) 4 = Some s' /\
    strncmp ([1; 2; 3; 4; 6] ++ 0 :: []) (s' ++ [9]) 4 = Some v /\
    (v = 0 <-> take 4 [1; 2; 3; 4; 6] = take 4 [1; 2; 3; 4; 5]).
Proof. apply (strncpy_strncmp_roundtrip [1; 2; 3; 4; 6] [1; 2; 3; 4; 5] [] [9] (replicate 4 7) [] 4); [repeat constructor; lia..|]. simpl. lia. Defined.

Lemma safestrcpy_correct_witness :
  exists r', safestrcpy (replicate 4 7) ([1; 2; 3; 4; 5] ++ 0 :: []) 4 = Some (take (Z.to_nat (4 - 1)) [1; 2; 3; 4; 5] ++ 0 :: r') /\
    length (take (Z.to_nat (4 - 1)) [1; 2; 3; 4; 5] ++ 0 :: r') = length (replicate 4 7).
Proof. apply (safestrcpy_correct [1; 2; 3; 4; 5] [] (replicate 4 7) 4); [repeat constructor; lia|]. simpl. lia. Defined.

(** The user library's [memmove] has only the upward loop, so it agrees with
    the kernel's exactly on the overlaps that loop can handle: here for a
    destination at or below the source, or disjoint from it. *)
Lemma ulib_memmove_correct m dst src n x :
  dst <= src \/ src + Z.of_nat n <= dst ->
  Ulib.memmove m dst src n x = memmove m dst src n x.
Proof. intros H. unfold Ulib.memmove. rewrite memmove_spec. by apply copy_up_spec. Qed.

(** On an upward overlap the user [memmove] overwrites source bytes before
    it has read them. *)
Example ulib_memmove_overlap :
  Ulib.memmove (fun x => x) 1 0 3 3 = 0 /\ memmove (fun x => x) 1 0 3 3 = 2.
Proof. by vm_compute. Qed.
