(* ===== verification/Grep.v ===== *)
(** * grep (grep.c): the regular expression matcher and the line loop

    A [char *] is the list of the bytes from there on; [None] is a read past
    the end. *)

From stdpp Require Import prelude list.
From S2P Require Import Prelude CString.

Open Scope Z_scope.

(** [*] [.] [$] [^] and the newline *)
Definition STAR : Z := 42.
Definition DOT : Z := 46.
Definition DOLLAR : Z := 36.
Definition CARET : Z := 94.
Definition NL : Z := 10.

(** ** The matcher *)

(** [here] is [matchhere] on the rest of the expression. *)
Fixpoint matchstar (here : list Z -> option bool) (c : Z) (text : list Z) : option bool :=
  r ← here text;
  if (r : bool) then Some true
  else
    match text with
    | [] => None
    | t :: text' => if negb (t =? 0) && ((t =? c) || (c =? DOT)) then matchstar here c text' else Some false
    end.

Fixpoint matchhere (re text : list Z) : option bool :=
  match re with
  | [] => None
  | c :: re1 =>
      if c =? 0 then Some true
      else
        match re1 with
        | [] => None
        | d :: re2 =>
            if d =? STAR then matchstar (matchhere re2) c text
            else
              match text with
              | [] => None
              | t :: text' =>
                  if (c =? DOLLAR) && (d =? 0) then Some (t =? 0)
                  else if negb (t =? 0) && ((c =? DOT) || (c =? t)) then matchhere re1 text' else Some false
              end
        end
  end.

(** The loop of [match]. *)
Fixpoint match_loop (re text : list Z) : option bool :=
  r ← matchhere re text;
  if (r : bool) then Some true
  else
    match text with
    | [] => None
    | t :: text' => if t =? 0 then Some false else match_loop re text'
    end.

Definition match_ (re text : list Z) : option bool :=
  match re with
  | [] => None
  | c :: re' => if c =? CARET then matchhere re' text else match_loop re text
  end.

(** ** The line loop *)

(** The inner loop: what is written, and the rest from the final [p] on.
    Each turn consumes a newline, so the length is enough fuel. *)
Fixpoint grep_lines (fuel : nat) (pattern p : list Z) : option (list Z * list Z) :=
  r ← Ulib.strchr p NL;
  match r with
  | None => Some ([], p)
  | Some q =>
      match fuel with
      | O => None
      | S fuel' =>
          let line := take (length p - length q) p in
          b ← match_ pattern (line ++ 0 :: tail q);
          o ← grep_lines fuel' pattern (tail q);
          Some (if (b : bool) then line ++ NL :: o.1 else o.1, o.2)
      end
  end.

Definition BUFSIZE : Z := 1024.

(** One turn of the outer loop: [buf] holds [keep], and [read] has returned
    [chunk]; the new [keep] follows the output. *)
Definition grep_turn (pattern keep chunk : list Z) : option (list Z * list Z) :=
  let data := keep ++ chunk in
  o ← grep_lines (length data) pattern (data ++ [0]);
  Some (o.1, if (length o.2 =? S (length data))%nat then [] else take (length o.2 - 1) o.2).

(** The results of [read] in turn, up to the one that is not positive; it
    reads at most [sizeof(buf)-m-1] bytes. *)
Fixpoint grep (pattern keep : list Z) (reads : list (list Z)) : option (list Z) :=
  match reads with
  | [] => Some []
  | chunk :: reads' =>
      if BUFSIZE - Z.of_nat (length keep) - 1 <? Z.of_nat (length chunk) then None
      else
        o ← grep_turn pattern keep chunk;
        r ← grep pattern o.2 reads';
        Some (o.1 ++ r)
  end.

(** ** What a regular expression means

    A sequence of characters, each with or without a star, and maybe the
    end of the line. *)
Fixpoint parse (re : list Z) : list (bool * Z) * bool :=
  match re with
  | [] => ([], false)
  | c :: re1 =>
      match re1 with
      | d :: re2 =>
          if d =? STAR then let p := parse re2 in ((true, c) :: p.1, p.2)
          else let p := parse re1 in ((false, c) :: p.1, p.2)
      | [] => if c =? DOLLAR then ([], true) else ([(false, c)], false)
      end
  end.

Definition atom (a t : Z) : Prop := a = DOT \/ a = t.

Fixpoint lang (l : list (bool * Z)) (p : list Z) : Prop :=
  match l with
  | [] => p = []
  | (false, a) :: l' => exists t p', p = t :: p' /\ atom a t /\ lang l' p'
  | (true, a) :: l' => exists p1 p2, p = p1 ++ p2 /\ Forall (atom a) p1 /\ lang l' p2
  end.

(** The text starts with a match. *)
Definition starts (re text : list Z) : Prop :=
  exists p q, text = p ++ q /\ lang (parse re).1 p /\ ((parse re).2 = true -> q = []).

(** The text contains a match. *)
Definition contains (re text : list Z) : Prop :=
  match re with
  | c :: re' => if c =? CARET then starts re' text else exists u v, text = u ++ v /\ starts re v
  | [] => True
  end.

Definition no_nul (l : list Z) : Prop := Forall (fun c => c <> 0) l.

(** ** The matcher is right *)
Lemma starts_nil text : starts [] text.
Proof. exists [], text. done. Qed.

Lemma starts_star c re text : starts (c :: STAR :: re) text <-> exists u v, text = u ++ v /\ Forall (atom c) u /\ starts re v.
Proof.
  unfold starts. cbn [parse]. rewrite Z.eqb_refl. cbn [fst snd lang]. split.
  - intros (p & q & -> & (p1 & p2 & -> & H1 & H2) & Hq). exists p1, (p2 ++ q). rewrite app_assoc. split_and!; try done. by exists p2, q.
  - intros (u & v & -> & Hu & p & q & -> & Hp & Hq). exists (u ++ p), q. rewrite app_assoc. split_and!; try done. by exists u, p.
Qed.

Lemma starts_char c re text : head re <> Some STAR -> (c = DOLLAR -> re <> []) ->
  starts (c :: re) text <-> exists t text', text = t :: text' /\ atom c t /\ starts re text'.
Proof.
  intros Hs Hd. unfold starts.
  assert (E : parse (c :: re) = ((false, c) :: (parse re).1, (parse re).2)).
  { destruct re as [|d re]; cbn [parse].
    - destruct (Z.eqb_spec c DOLLAR) as [->|]; [by destruct Hd|done].
    - destruct (Z.eqb_spec d STAR) as [->|]; [by destruct Hs|done]. }
  rewrite E. cbn [fst snd lang]. split.
  - intros (p & q & -> & (t & p' & -> & Ht & Hp) & Hq). exists t, (p' ++ q). split_and!; try done. by exists p', q.
  - intros (t & text' & -> & Ht & p & q & -> & Hp & Hq). exists (t :: p), q. split_and!; try done. by exists t, p.
Qed.

Lemma starts_end text : starts [DOLLAR] text <-> text = [].
Proof.
  unfold starts. cbn. split.
  - intros (p & q & -> & -> & Hq). by rewrite Hq.
  - intros ->. by exists [], [].
Qed.

Lemma atom_test c t : (c =? DOT) || (c =? t) = true <-> atom c t.
Proof. unfold atom. rewrite orb_true_iff, !Z.eqb_eq. done. Qed.

Lemma matchstar_run (here : list Z -> option bool) (P : list Z -> Prop) c r text : no_nul text ->
  (forall t, no_nul t -> exists b, here (t ++ 0 :: r) = Some b /\ (b = true <-> P t)) ->
  exists b, matchstar here c (text ++ 0 :: r) = Some b /\ (b = true <-> exists u v, text = u ++ v /\ Forall (atom c) u /\ P v).
Proof.
  intros Ht Hh. induction text as [|t text IH].
  - destruct (Hh [] Ht) as (b & E & Hb). cbn [app] in *. exists b. cbn [matchstar]. rewrite E. cbn [mbind option_bind]. split; [by destruct b|].
    rewrite Hb. split; [by exists [], []|]. by intros ([] & [] & E' & _ & H).
  - destruct (Hh (t :: text) Ht) as (b & E & Hb). apply Forall_cons in Ht as [Ht0 Ht]. destruct (IH Ht) as (b2 & E2 & Hb2).
    cbn [app matchstar] in *. rewrite E. cbn [mbind option_bind]. destruct b.
    { exists true. split; [done|]. split; [|done]. intros _. exists [], (t :: text). split_and!; [done|done|by apply Hb]. }
    destruct (Z.eqb_spec t 0); [done|]. cbn [negb andb]. rewrite (orb_comm (t =? c)), (Z.eqb_sym t).
    destruct ((c =? DOT) || (c =? t)) eqn:Ea.
    + exists b2. split; [done|]. rewrite Hb2. apply atom_test in Ea. split.
      * intros (u & v & -> & Hu & Hv). exists (t :: u), v. split_and!; [done|by constructor|done].
      * intros ([|t' u] & v & E' & Hu & Hv); [simpl in E'; subst v; apply Hb in Hv; done|]. injection E' as <- ->. apply Forall_cons in Hu as [_ Hu]. by exists u, v.
    + exists false. split; [done|]. split; [done|]. intros ([|t' u] & v & E' & Hu & Hv); [simpl in E'; subst v; by apply Hb|].
      injection E' as <- ->. apply Forall_cons in Hu as [Hu _]. apply atom_test in Hu. congruence.
Qed.

Lemma matchhere_run n : forall re text r1 r2, (length re < n)%nat -> no_nul re -> no_nul text ->
  exists b, matchhere (re ++ 0 :: r1) (text ++ 0 :: r2) = Some b /\ (b = true <-> starts re text).
Proof.
  induction n as [|n IH]; intros re text r1 r2 Hn Hr Ht; [lia|]. destruct re as [|c re].
  { exists true. split; [done|]. split; [intros _; apply starts_nil|done]. }
  apply Forall_cons in Hr as [Hc Hr]. cbn [app matchhere]. destruct (Z.eqb_spec c 0); [done|].
  destruct re as [|d re]; cbn [app].
  - change (0 =? STAR) with false. cbv iota. destruct (Z.eqb_spec c DOLLAR) as [->|Hd].
    + cbn [Z.eqb andb]. destruct text as [|t text]; cbn [app]; eexists; (split; [reflexivity|]); rewrite starts_end; [done|].
      apply Forall_cons in Ht as [Ht _]. destruct (Z.eqb_spec t 0); done.
    + cbn [andb]. destruct text as [|t text]; cbn [app].
      * exists false. split; [done|]. rewrite starts_char by done. split; [done|]. by intros (t & text' & ? & _).
      * apply Forall_cons in Ht as [Ht0 Ht]. destruct (Z.eqb_spec t 0); [done|]. cbn [negb andb].
        exists ((c =? DOT) || (c =? t)). split; [by destruct (_ || _)|]. rewrite starts_char, atom_test by done. split.
        -- intros Ha. exists t, text. split_and!; [done|done|apply starts_nil].
        -- by intros (t' & text' & [= <- <-] & Ha & _).
  - pose proof Hr as [Hd Hr2]%Forall_cons. destruct (Z.eqb_spec d STAR) as [->|Hs].
    + destruct (matchstar_run (matchhere (re ++ 0 :: r1)) (starts re) c r2 text Ht) as (b & E & Hb).
      { intros t Htt. apply IH; [simpl in Hn; lia|done|done]. }
      exists b. split; [done|]. by rewrite starts_star.
    + pose proof (starts_char c (d :: re) text ltac:(cbn; congruence) ltac:(done)) as Hsc. destruct (Z.eqb_spec d 0); [done|]. rewrite andb_false_r.
      destruct text as [|t text]; cbn [app].
      * exists false. split; [done|]. rewrite Hsc. split; [done|]. by intros (t & text' & ? & _).
      * apply Forall_cons in Ht as [Ht0 Ht]. destruct (Z.eqb_spec t 0); [done|]. cbn [negb andb].
        destruct ((c =? DOT) || (c =? t)) eqn:Ea.
        -- destruct (IH (d :: re) text r1 r2) as (b & E & Hb); [simpl in *; lia|done|done|]. exists b. split; [done|]. rewrite Hsc, Hb. apply atom_test in Ea.
           split; [intros H; by exists t, text|]. by intros (t' & text' & [= <- <-] & _ & H).
        -- exists false. split; [done|]. rewrite Hsc. split; [done|]. intros (t' & text' & [= <- <-] & Ha & _). apply atom_test in Ha. congruence.
Qed.

Lemma match_loop_run re text r1 r2 : no_nul re -> no_nul text ->
  exists b, match_loop (re ++ 0 :: r1) (text ++ 0 :: r2) = Some b /\ (b = true <-> exists u v, text = u ++ v /\ starts re v).
Proof.
  intros Hr. induction text as [|t text IH]; intros Ht.
  - destruct (matchhere_run (S (length re)) re [] r1 r2) as (b & E & Hb); [lia|done|done|]. exists b. cbn [app match_loop] in *. rewrite E. cbn [mbind option_bind].
    split; [by destruct b|]. rewrite Hb. split; [by exists [], []|]. by intros ([] & [] & E' & H).
  - destruct (matchhere_run (S (length re)) re (t :: text) r1 r2) as (b & E & Hb); [lia|done|done|]. apply Forall_cons in Ht as [Ht0 Ht].
    destruct (IH Ht) as (b2 & E2 & Hb2). cbn [app match_loop] in *. rewrite E. cbn [mbind option_bind]. destruct b.
    { exists true. split; [done|]. split; [|done]. intros _. exists [], (t :: text). split; [done|]. by apply Hb. }
    destruct (Z.eqb_spec t 0); [done|]. exists b2. split; [done|]. rewrite Hb2. split.
    + intros (u & v & -> & H). by exists (t :: u), v.
    + intros ([|t' u] & v & E' & H); [simpl in E'; subst v; by apply Hb in H|]. injection E' as <- ->. by exists u, v.
Qed.

Lemma match_run re text r1 r2 : no_nul re -> no_nul text ->
  exists b, match_ (re ++ 0 :: r1) (text ++ 0 :: r2) = Some b /\ (b = true <-> contains re text).
Proof.
  intros Hr Ht. destruct re as [|c re]; cbn [app match_ contains].
  - change (0 =? CARET) with false. cbv iota. destruct (match_loop_run [] text r1 r2) as (b & E & Hb); [constructor|done|]. exists b. split; [exact E|]. rewrite Hb.
    split; [done|]. intros _. exists [], text. split; [done|]. apply starts_nil.
  - destruct (Z.eqb_spec c CARET) as [->|Hc].
    + apply Forall_cons in Hr as [_ Hr]. by apply (matchhere_run (S (length re))); [lia|..].
    + by apply (match_loop_run (c :: re)).
Qed.

(** Claim C39. The matcher of grep implements regular expressions: on strings it reads
    only up to their NULs, always returns, and answers 1 exactly when the text
    contains a match, at its start when the expression begins with [^] and up
    to its end when it ends with [$]. *)
Theorem match_correct re text r1 r2 : no_nul re -> no_nul text ->
  exists b, match_ (re ++ 0 :: r1) (text ++ 0 :: r2) = Some b /\ (b = true <-> contains re text).
Proof. apply match_run. Qed.

(** [a.*c$] on [xabc]. *)
Lemma match_correct_witness : match_ ([97; 46; 42; 99; 36] ++ 0 :: []) ([120; 97; 98; 99] ++ 0 :: []) = Some true /\ contains [97; 46; 42; 99; 36] [120; 97; 98; 99].
Proof.
  destruct (match_correct [97; 46; 42; 99; 36] [120; 97; 98; 99] [] []) as (b & E & Hb); [by repeat constructor..|].
  vm_compute in E. injection E as <-. split; [reflexivity|]. by apply Hb.
Defined.

(** ** The lines of a text

    The complete lines, without their newlines, and what follows the last
    newline. *)
Fixpoint split_lines (l : list Z) : list (list Z) * list Z :=
  match l with
  | [] => ([], [])
  | c :: l' =>
      let p := split_lines l' in
      if c =? NL then ([] :: p.1, p.2)
      else match p.1 with [] => ([], c :: p.2) | x :: ls => ((c :: x) :: ls, p.2) end
  end.

(** Lines as grep prints them. *)
Definition print_lines (ls : list (list Z)) : list Z := concat ((fun l => l ++ [NL]) <$> ls).

Lemma split_none l : NL ∉ l -> split_lines l = ([], l).
Proof.
  induction l as [|c l IH]; intros H; [done|]. apply not_elem_of_cons in H as [Hc H]. cbn [split_lines]. rewrite IH by done.
  by destruct (Z.eqb_spec c NL).
Qed.

Lemma split_line l1 l2 : NL ∉ l1 -> split_lines (l1 ++ NL :: l2) = (l1 :: (split_lines l2).1, (split_lines l2).2).
Proof.
  induction l1 as [|c l1 IH]; intros H; [done|]. apply not_elem_of_cons in H as [Hc H]. cbn [app split_lines]. rewrite IH by done.
  by destruct (Z.eqb_spec c NL).
Qed.

Lemma split_app l1 l2 : split_lines (l1 ++ l2) = ((split_lines l1).1 ++ (split_lines ((split_lines l1).2 ++ l2)).1, (split_lines ((split_lines l1).2 ++ l2)).2).
Proof.
  induction l1 as [|c l1 IH]; cbn [app split_lines]; [cbn; by destruct (split_lines l2)|]. rewrite IH.
  destruct (Z.eqb_spec c NL) as [->|Hc]; [done|]. cbn [fst snd]. destruct (split_lines l1) as [[|x ls] r]; cbn [fst snd app]; [|done].
  cbn [split_lines]. destruct (Z.eqb_spec c NL); [done|]. by destruct (split_lines (r ++ l2)) as [[|? ?] ?].
Qed.

Lemma split_length l : (length (split_lines l).2 <= length l)%nat.
Proof.
  induction l as [|c l IH]; [done|]. cbn [split_lines]. destruct (c =? NL); [simpl; lia|]. destruct (split_lines l) as [[|x ls] r]; simpl in *; lia.
Qed.

Lemma split_shorter l : NL ∈ l -> (length (split_lines l).2 < length l)%nat.
Proof.
  induction l as [|c l IH]; intros H; [by apply elem_of_nil in H|]. cbn [split_lines]. pose proof (split_length l). destruct (Z.eqb_spec c NL); [simpl; lia|].
  apply elem_of_cons in H as [E|H]; [congruence|]. specialize (IH H). destruct (split_lines l) as [[|x ls] r]; simpl in *; lia.
Qed.

Lemma first_line l : NL ∈ l -> exists l1 l2, l = l1 ++ NL :: l2 /\ NL ∉ l1.
Proof.
  induction l as [|c l IH]; intros H; [by apply elem_of_nil in H|]. destruct (decide (c = NL)) as [->|Hc]; [by exists [], l; split; [|apply not_elem_of_nil]|].
  apply elem_of_cons in H as [E|H]; [congruence|]. destruct (IH H) as (l1 & l2 & -> & Hn). exists (c :: l1), l2. split; [done|]. by apply not_elem_of_cons.
Qed.

Lemma strchr_none l r : no_nul l -> NL ∉ l -> Ulib.strchr (l ++ 0 :: r) NL = Some None.
Proof.
  induction l as [|c l IH]; intros Hn H; [done|]. apply not_elem_of_cons in H as [Hc H]. apply Forall_cons in Hn as [H0 Hn]. simpl.
  destruct (Z.eqb_spec c 0); [done|]. destruct (Z.eqb_spec c NL); [done|]. auto.
Qed.

Lemma strchr_found l1 l2 : no_nul l1 -> NL ∉ l1 -> Ulib.strchr (l1 ++ NL :: l2) NL = Some (Some (NL :: l2)).
Proof.
  induction l1 as [|c l IH]; intros Hn H; [done|]. apply not_elem_of_cons in H as [Hc H]. apply Forall_cons in Hn as [H0 Hn]. simpl.
  destruct (Z.eqb_spec c 0); [done|]. destruct (Z.eqb_spec c NL); [done|]. auto.
Qed.

Section Lines.
(** A regular expression and its decision. *)
Context (re : list Z) (sel : list Z -> bool).
Hypothesis Hre : no_nul re.
Hypothesis Hsel : forall l, no_nul l -> sel l = true <-> contains re l.

Lemma match_sel l r : no_nul l -> match_ (re ++ [0]) (l ++ 0 :: r) = Some (sel l).
Proof using Hre Hsel.
  intros Hl. destruct (match_run re l [] r Hre Hl) as (b & -> & Hb). rewrite <- Hsel in Hb by done. f_equal. destruct b, (sel l); naive_solver.
Qed.

Lemma grep_lines_run n : forall l, (length l < n)%nat -> no_nul l -> forall fuel, (length l <= fuel)%nat ->
  grep_lines fuel (re ++ [0]) (l ++ [0]) = Some (print_lines (filter sel (split_lines l).1), (split_lines l).2 ++ [0]).
Proof using Hre Hsel.
  induction n as [|n IH]; intros l Hn Hl fuel Hf; [lia|]. destruct (decide (NL ∈ l)) as [Hin|Hin].
  - destruct (first_line l Hin) as (l1 & l2 & -> & H1). apply Forall_app in Hl as [Hl1 [_ Hl2]%Forall_cons]. rewrite split_line by done. cbn [fst snd].
    rewrite length_app in Hn, Hf. simpl in Hn, Hf. destruct fuel as [|fuel]; [lia|]. cbn [grep_lines]. rewrite <- app_assoc. cbn [app].
    rewrite strchr_found by done. cbn [mbind option_bind tail]. rewrite length_app, Nat.add_sub, take_app_length.
    rewrite match_sel by done. cbn [mbind option_bind]. rewrite IH by (done || lia). cbn [mbind option_bind fst snd]. rewrite filter_cons. unfold print_lines.
    destruct (sel l1); [rewrite decide_True by done|rewrite decide_False by (by intros [])]; cbn; [by rewrite <- app_assoc|done].
  - rewrite split_none by done. destruct fuel; cbn [grep_lines]; rewrite strchr_none by done; done.
Qed.

(** What [read] returns fits in the buffer. *)
Fixpoint fits (keep : list Z) (reads : list (list Z)) : Prop :=
  match reads with
  | [] => True
  | c :: cs => Z.of_nat (length keep + length c) < BUFSIZE /\ fits (split_lines (keep ++ c)).2 cs
  end.

Lemma grep_turn_run keep chunk : no_nul keep -> no_nul chunk -> NL ∈ chunk ->
  grep_turn (re ++ [0]) keep chunk = Some (print_lines (filter sel (split_lines (keep ++ chunk)).1), (split_lines (keep ++ chunk)).2).
Proof using Hre Hsel.
  intros Hk Hc Hin. unfold grep_turn. rewrite (grep_lines_run (S (length (keep ++ chunk)))) by (try lia; by apply Forall_app). cbn [mbind option_bind fst snd].
  pose proof (split_shorter (keep ++ chunk) ltac:(apply elem_of_app; by right)). rewrite length_app. simpl length.
  destruct (Nat.eqb_spec (length (split_lines (keep ++ chunk)).2 + 1) (S (length (keep ++ chunk)))); [lia|]. by rewrite Nat.add_sub, take_app_length.
Qed.

Lemma split_no_nul l : no_nul l -> no_nul (split_lines l).2.
Proof using Type.
  induction l as [|c l IH]; intros H; [done|]. apply Forall_cons in H as [Hc H]. specialize (IH H). cbn [split_lines]. destruct (c =? NL); [done|].
  destruct (split_lines l) as [[|x ls] r]; simpl in *; [by constructor|done].
Qed.

Lemma print_lines_app l1 l2 : print_lines (l1 ++ l2) = print_lines l1 ++ print_lines l2.
Proof using Type. unfold print_lines. by rewrite fmap_app, concat_app. Qed.

Lemma split_rest l : NL ∉ (split_lines l).2.
Proof using Type.
  induction l as [|c l IH]; [apply not_elem_of_nil|]. cbn [split_lines]. destruct (Z.eqb_spec c NL); [done|].
  destruct (split_lines l) as [[|x ls] r]; simpl in *; [by apply not_elem_of_cons|done].
Qed.

Lemma grep_run reads : forall keep, no_nul keep -> NL ∉ keep -> Forall (fun c => no_nul c /\ NL ∈ c) reads -> fits keep reads ->
  grep (re ++ [0]) keep reads = Some (print_lines (filter sel (split_lines (keep ++ concat reads)).1)).
Proof using Hre Hsel.
  induction reads as [|c cs IH]; intros keep Hk Hkn Hr Hf; [cbn [grep concat]; by rewrite app_nil_r, split_none|].
  apply Forall_cons in Hr as [[Hc Hin] Hr]. destruct Hf as [Hf1 Hf2].
  cbn [grep]. destruct (Z.ltb_spec (BUFSIZE - Z.of_nat (length keep) - 1) (Z.of_nat (length c))); [lia|].
  rewrite grep_turn_run by done. cbn [mbind option_bind fst snd concat]. rewrite app_assoc, (split_app (keep ++ c)). cbn [fst].
  rewrite filter_app, print_lines_app. rewrite IH; [done|apply split_no_nul; by apply Forall_app|apply split_rest|done|done].
Qed.

(** grep prints exactly the lines that contain a match, in order and each
    with its newline, when every [read] brings the end of a line. *)
Theorem grep_correct reads : Forall (fun c => no_nul c /\ NL ∈ c) reads -> fits [] reads ->
  grep (re ++ [0]) [] reads = Some (print_lines (filter sel (split_lines (concat reads)).1)).
Proof using Hre Hsel. intros Hr Hf. by apply grep_run; [constructor|apply not_elem_of_nil|..]. Qed.
End Lines.

(** The two lines ab and ca, in two pieces, with the expression [^a]. *)
Lemma grep_correct_witness : grep [94; 97; 0] [] [[97; 98; 10; 99]; [97; 10]] = Some [97; 98; 10].
Proof.
  refine (grep_correct [94; 97] (fun l => bool_decide (head l = Some 97)) _ _ [[97; 98; 10; 99]; [97; 10]] _ _).
  - by repeat constructor.
  - intros l _. rewrite bool_decide_eq_true. unfold contains. change (94 =? CARET) with true. cbv iota. rewrite starts_char by done. split.
    + destruct l as [|t l]; [done|]. intros [= ->]. exists 97, l. split_and!; [done|by right|apply starts_nil].
    + intros (t & text & -> & [|<-] & _); done.
  - repeat constructor; try done; apply list_elem_of_In; simpl; auto.
  - vm_compute. auto.
Defined.

(** A read that does not bring the end of a line loses data: when the line
    abc arrives in two pieces, as it can from a pipe, grep throws the first
    piece away and does not print the line, although it contains a match; it
    does print it when the line arrives in one piece. *)
Theorem grep_drops_short_reads : contains [97] [97; 98; 99] /\
  grep [97; 0] [] [[97; 98; 99; NL]] = Some [97; 98; 99; NL] /\ grep [97; 0] [] [[97; 98]; [99; NL]] = Some [].
Proof.
  split; [|by vm_compute]. change (contains [97] [97; 98; 99]) with (exists u v, [97; 98; 99] = u ++ v /\ starts [97] v). exists [], [97; 98; 99]. split; [done|].
  rewrite starts_char by done. exists 97, [98; 99]. split_and!; [done|by right|apply starts_nil].
Qed.
