(* ===== verification/Sh.v ===== *)
(** * The shell's parser (sh.c)

    A pointer into the line is a position; the NUL is at position
    [length buf].  A counted string is the pair of its positions.  The
    parser's state is [*ps]; [Panic] carries the message of [panic]. *)

From stdpp Require Import prelude strings list.
From S2P Require Import Prelude.

Open Scope Z_scope.

Definition MAXARGS : nat := 10.
Definition O_RDONLY : Z := 0.
Definition O_WRONLY : Z := 1.
Definition O_CREATE : Z := 512.

(** Characters: [|] [(] [)] [;] [&] [<] [>], and [+] for the token [>>] and
    [a] for a word. *)
Definition cBAR : Z := 124.
Definition cLP : Z := 40.
Definition cRP : Z := 41.
Definition cSEMI : Z := 59.
Definition cAMP : Z := 38.
Definition cLT : Z := 60.
Definition cGT : Z := 62.
Definition cPLUS : Z := 43.
Definition cA : Z := 97.

Definition whitespace : list Z := [32; 9; 13; 10; 11].
Definition symbols : list Z := [cLT; cBAR; cGT; cAMP; cSEMI; cLP; cRP].

(** [strchr(toks, c)] for [c] other than NUL *)
Definition is_in (toks : list Z) (c : Z) : bool := bool_decide (c ∈ toks).
Definition word_char (c : Z) : bool := negb (is_in whitespace c) && negb (is_in symbols c).

Fixpoint span_len (f : Z -> bool) (l : list Z) : nat :=
  match l with
  | [] => O
  | c :: l' => if f c then S (span_len f l') else O
  end.

Definition span : Type := nat * nat.

Inductive cmd : Type :=
| Exec (argv : list span)
| Redir (c : cmd) (file : span) (mode fd : Z)
| Pipe (left right : cmd)
| List (left right : cmd)
| Back (c : cmd).

(** [cmd->argv\[argc\] = q], where the [execcmd] is inside the redirections
    made since. *)
Fixpoint add_arg (a : span) (c : cmd) : cmd :=
  match c with
  | Exec l => Exec (l ++ [a])
  | Redir c' f m d => Redir (add_arg a c') f m d
  | _ => c
  end.

Section Sh.
Context (buf : list Z).

Definition es : nat := length buf.
Definition char_at (p : nat) : Z := default 0 (buf !! p).

Definition skip_white (p : nat) : nat := (p + span_len (is_in whitespace) (drop p buf))%nat.

(** The kind of the token at [s] and its end. *)
Definition token_at (s : nat) : Z * nat :=
  let c := char_at s in
  if c =? 0 then (0, s)
  else if is_in [cBAR; cLP; cRP; cSEMI; cAMP; cLT] c then (c, S s)
  else if c =? cGT then (if char_at (S s) =? cGT then (cPLUS, S (S s)) else (cGT, S s))
  else (cA, (s + span_len word_char (drop s buf))%nat).

(** The result with [*q] and [*eq]. *)
Definition gettoken : M nat (Z * span) :=
  p ← get;
  let s := skip_white p in
  let t := token_at s in
  put (skip_white t.2);; mret (t.1, (s, t.2)).

Definition peek (toks : list Z) : M nat bool :=
  p ← get;
  let s := skip_white p in
  put s;; mret (negb (char_at s =? 0) && is_in toks (char_at s)).

Fixpoint parseredirs (fuel : nat) (c : cmd) : M nat cmd :=
  b ← peek [cLT; cGT];
  if (b : bool) then
    match fuel with
    | O => fault
    | S fuel' =>
        t ← gettoken;
        w ← gettoken;
        if negb (w.1 =? cA) then panic "missing file for redirection"
        else if t.1 =? cLT then parseredirs fuel' (Redir c w.2 O_RDONLY 0)
        else if t.1 =? cGT then parseredirs fuel' (Redir c w.2 (Z.lor O_WRONLY O_CREATE) 1)
        else if t.1 =? cPLUS then parseredirs fuel' (Redir c w.2 (Z.lor O_WRONLY O_CREATE) 1)
        else parseredirs fuel' c
    end
  else mret c.

(** The loop of [parseexec]. *)
Fixpoint parseargs (fuel : nat) (argc : nat) (ret : cmd) : M nat cmd :=
  b ← peek [cBAR; cRP; cAMP; cSEMI];
  if (b : bool) then mret ret
  else
    t ← gettoken;
    if t.1 =? 0 then mret ret
    else if negb (t.1 =? cA) then panic "syntax"
    else
      match fuel with
      | O => fault
      | S fuel' =>
          let ret := add_arg t.2 ret in
          if (MAXARGS <=? S argc)%nat then panic "too many args"
          else ret ← parseredirs fuel' ret; parseargs fuel' (S argc) ret
      end.

(** [while(peek(ps, es, "&"))] in [parseline] *)
Fixpoint parsebacks (fuel : nat) (c : cmd) : M nat cmd :=
  b ← peek [cAMP];
  if (b : bool) then
    match fuel with
    | O => fault
    | S fuel' => gettoken;; parsebacks fuel' (Back c)
    end
  else mret c.

(** Each call is given less fuel; [parse_fuel] is enough for a whole line. *)
Fixpoint parseline (fuel : nat) : M nat cmd :=
  match fuel with
  | O => fault
  | S n =>
      c ← parsepipe n;
      c ← parsebacks (S es) c;
      b ← peek [cSEMI];
      if (b : bool) then gettoken;; r ← parseline n; mret (List c r) else mret c
  end
with parsepipe (fuel : nat) : M nat cmd :=
  match fuel with
  | O => fault
  | S n =>
      c ← parseexec n;
      b ← peek [cBAR];
      if (b : bool) then gettoken;; r ← parsepipe n; mret (Pipe c r) else mret c
  end
with parseexec (fuel : nat) : M nat cmd :=
  match fuel with
  | O => fault
  | S n =>
      b ← peek [cLP];
      if (b : bool) then parseblock n
      else ret ← parseredirs (S es) (Exec []); parseargs (S (S es)) 0 ret
  end
with parseblock (fuel : nat) : M nat cmd :=
  match fuel with
  | O => fault
  | S n =>
      b ← peek [cLP];
      if negb (b : bool) then panic "parseblock"
      else
        gettoken;;
        c ← parseline n;
        b ← peek [cRP];
        if negb (b : bool) then panic "syntax - missing )"
        else gettoken;; parseredirs (S es) c
  end.

Definition parse_fuel : nat := (4 * es + 4)%nat.

(** The positions of the ends of the strings of a command, in the order in
    which [nulterminate] clears them. *)
Fixpoint ends (c : cmd) : list nat :=
  match c with
  | Exec l => snd <$> l
  | Redir c' f _ _ => ends c' ++ [f.2]
  | Pipe l r => ends l ++ ends r
  | List l r => ends l ++ ends r
  | Back c' => ends c'
  end.

(** The bytes of the line and its NUL after [nulterminate]. *)
Definition nulterminate (c : cmd) (m : list Z) : list Z := foldl (fun m i => <[i := 0]> m) m (ends c).

(** The command and the line with its strings terminated. *)
Definition parsecmd : result (cmd * list Z) :=
  match (c ← parseline parse_fuel; _ ← peek []; mret c) O with
  | Ok (c, s) => if decide (s = es) then Ok (c, nulterminate c (buf ++ [0])) else Panic "syntax"
  | Panic e => Panic e
  | Fault => Fault
  end.
End Sh.
