(* ===== verification/ShThms.v ===== *)
(** * The shell's parser against a grammar

    [parsecmd] accepts exactly the lines whose tokens the grammar derives,
    and returns the command that the grammar gives them. *)

From stdpp Require Import prelude strings list.
From S2P Require Import Prelude Sh.

Open Scope Z_scope.

Definition tok : Type := Z * span.

(** ** The grammar *)
Definition redir_op (k : Z) : Prop := k = cLT \/ k = cGT \/ k = cPLUS.
(** How the file of a redirection is opened, and as which descriptor. *)
Definition op_mode (k : Z) : Z := if k =? cLT then O_RDONLY else Z.lor O_WRONLY O_CREATE.
Definition op_fd (k : Z) : Z := if k =? cLT then 0 else 1.

(** [Gredirs c l c']: the redirections [l] around [c] make [c']. *)
Inductive Gredirs : cmd -> list tok -> cmd -> Prop :=
| Gredirs_nil c : Gredirs c [] c
| Gredirs_cons c o w l c' : redir_op o.1 -> w.1 = cA -> Gredirs (Redir c w.2 (op_mode o.1) (op_fd o.1)) l c' -> Gredirs c (o :: w :: l) c'.

(** Words with redirections between them; [argc] come before. *)
Inductive Gargs : nat -> cmd -> list tok -> cmd -> Prop :=
| Gargs_nil n c : Gargs n c [] c
| Gargs_cons n c w l1 c1 l2 c2 : w.1 = cA -> (S n < MAXARGS)%nat -> Gredirs (add_arg w.2 c) l1 c1 -> Gargs (S n) c1 l2 c2 ->
    Gargs n c (w :: l1 ++ l2) c2.

(** [Gbacks c l c']: one [&] after another. *)
Inductive Gbacks : cmd -> list tok -> cmd -> Prop :=
| Gbacks_nil c : Gbacks c [] c
| Gbacks_cons c t l c' : t.1 = cAMP -> Gbacks (Back c) l c' -> Gbacks c (t :: l) c'.

Inductive Gline : list tok -> cmd -> Prop :=
| Gline_one l1 c1 l2 c2 : Gpipe l1 c1 -> Gbacks c1 l2 c2 -> Gline (l1 ++ l2) c2
| Gline_list l1 c1 l2 c2 t l3 c3 : Gpipe l1 c1 -> Gbacks c1 l2 c2 -> t.1 = cSEMI -> Gline l3 c3 -> Gline (l1 ++ l2 ++ t :: l3) (List c2 c3)
with Gpipe : list tok -> cmd -> Prop :=
| Gpipe_one l c : Gexec l c -> Gpipe l c
| Gpipe_pipe l1 c1 t l2 c2 : Gexec l1 c1 -> t.1 = cBAR -> Gpipe l2 c2 -> Gpipe (l1 ++ t :: l2) (Pipe c1 c2)
with Gexec : list tok -> cmd -> Prop :=
| Gexec_block t l1 c1 u l2 c2 : t.1 = cLP -> Gline l1 c1 -> u.1 = cRP -> Gredirs c1 l2 c2 -> Gexec (t :: l1 ++ u :: l2) c2
| Gexec_cmd l1 c1 l2 c2 : Gredirs (Exec []) l1 c1 -> Gargs 0 c1 l2 c2 -> Gexec (l1 ++ l2) c2.

Scheme Gline_mind := Minimality for Gline Sort Prop
with Gpipe_mind := Minimality for Gpipe Sort Prop
with Gexec_mind := Minimality for Gexec Sort Prop.
Combined Scheme grammar_ind from Gline_mind, Gpipe_mind, Gexec_mind.

(** ** Tokens of a line *)
Section Tokens.
Context (buf : list Z).
Hypothesis Hbuf : Forall (fun c => c <> 0) buf.

Notation es := (es buf).
Notation char_at := (char_at buf).
Notation skip_white := (skip_white buf).
Notation token_at := (token_at buf).
Notation gettoken := (gettoken buf).
Notation peek := (peek buf).

Definition tok_at (p : nat) : tok := ((token_at p).1, (p, (token_at p).2)).

(** The tokens from [p] to the end of the line. *)
Inductive lexed : nat -> list tok -> Prop :=
| lexed_end p : (token_at p).1 = 0 -> lexed p []
| lexed_tok p l : (token_at p).1 <> 0 -> lexed (skip_white (token_at p).2) l -> lexed p (tok_at p :: l).

(** A position between tokens. *)
Record at_toks (p : nat) (l : list tok) : Prop := {
  at_norm : skip_white p = p;
  at_lexed : lexed p l;
  at_le : (p <= es)%nat
}.

Lemma span_len_le f l : (span_len f l <= length l)%nat.
Proof using Type. induction l as [|c l IH]; simpl; [done|]. destruct (f c); lia. Qed.

Lemma skip_white_le p : (p <= es)%nat -> (p <= skip_white p <= es)%nat.
Proof using Type. intros H. unfold skip_white. pose proof (span_len_le (is_in whitespace) (drop p buf)) as Hl. rewrite length_drop in Hl. unfold es in *. lia. Qed.

Lemma span_len_idem f l : span_len f (drop (span_len f l) l) = O.
Proof using Type. induction l as [|c l IH]; simpl; [done|]. destruct (f c) eqn:E; simpl; [done|]. by rewrite E. Qed.

Lemma skip_white_idem p : skip_white (skip_white p) = skip_white p.
Proof using Type.
  unfold Sh.skip_white. set (k := span_len (is_in whitespace) (drop p buf)).
  replace (drop (p + k) buf) with (drop k (drop p buf)) by (rewrite drop_drop; f_equal; lia). unfold k at 2 3. rewrite span_len_idem. lia.
Qed.

Lemma drop_char p : (p < es)%nat -> exists l, drop p buf = char_at p :: l.
Proof using Type. intros H. destruct (lookup_lt_is_Some_2 buf p H) as [c E]. exists (drop (S p) buf). unfold char_at. rewrite E. by apply drop_S. Qed.

Lemma char_zero p : char_at p = 0 <-> (es <= p)%nat.
Proof using Hbuf.
  unfold char_at, es. destruct (buf !! p) as [c|] eqn:E; simpl.
  - apply lookup_lt_Some in E as Hl. eapply Forall_lookup_1 in Hbuf; [|done]. split; [done|lia].
  - apply lookup_ge_None in E. done.
Qed.

Lemma norm_char p : skip_white p = p -> (p < es)%nat -> is_in whitespace (char_at p) = false.
Proof using Type.
  intros Hn Hp. destruct (drop_char p Hp) as [l E]. unfold skip_white in Hn. rewrite E in Hn. simpl in Hn. destruct (is_in whitespace (char_at p)); [lia|done].
Qed.

(** The cases of a token. *)
Lemma token_cases p : skip_white p = p -> (p <= es)%nat ->
  (char_at p = 0 /\ token_at p = (0, p)) \/
  (char_at p <> 0 /\ is_in [cBAR; cLP; cRP; cSEMI; cAMP; cLT] (char_at p) = true /\ token_at p = (char_at p, S p)) \/
  (char_at p = cGT /\ ((token_at p).1 = cGT \/ (token_at p).1 = cPLUS)) \/
  (char_at p <> 0 /\ is_in symbols (char_at p) = false /\ (token_at p).1 = cA).
Proof using Type.
  intros Hn Hp. unfold token_at. destruct (Z.eqb_spec (char_at p) 0); [by left|right].
  destruct (is_in [cBAR; cLP; cRP; cSEMI; cAMP; cLT] (char_at p)) eqn:E; [by left|right].
  destruct (Z.eqb_spec (char_at p) cGT) as [Eg|Eg]; [left|right].
  - split; [done|]. destruct (_ =? cGT); auto.
  - split_and!; try done. unfold is_in in *. apply bool_decide_eq_false in E. apply bool_decide_eq_false. intros Hin. apply E.
    unfold symbols in Hin. rewrite !elem_of_cons in *. naive_solver.
Qed.

Lemma token_progress p : skip_white p = p -> (p <= es)%nat -> (token_at p).1 <> 0 -> (p < (token_at p).2 <= es)%nat.
Proof using Hbuf.
  intros Hn Hp Hk. assert (Hlt : (p < es)%nat).
  { destruct (decide (p < es)%nat); [done|]. exfalso. apply Hk. unfold token_at. by rewrite (proj2 (char_zero p)) by lia. }
  revert Hk. unfold token_at. destruct (Z.eqb_spec (char_at p) 0); [done|]. intros _. destruct (is_in _ (char_at p)) eqn:E; [simpl; lia|].
  destruct (Z.eqb_spec (char_at p) cGT).
  - destruct (Z.eqb_spec (char_at (S p)) cGT) as [E2|]; simpl; [|lia]. assert (~ (es <= S p)%nat) by (rewrite <- char_zero, E2; done). lia.
  - simpl. pose proof (norm_char p Hn Hlt) as Hw. destruct (drop_char p Hlt) as [l El]. rewrite El. cbn [span_len].
    assert (Hs : is_in symbols (char_at p) = false).
    { unfold is_in in *. apply bool_decide_eq_false in E. apply bool_decide_eq_false. intros Hin. apply E. unfold symbols in Hin. rewrite !elem_of_cons in *. naive_solver. }
    assert (Hwc : word_char (char_at p) = true) by (unfold word_char; by rewrite Hw, Hs). rewrite Hwc. pose proof (span_len_le word_char l) as Hl. assert (length (drop p buf) = S (length l)) as Hd by (by rewrite El). rewrite length_drop in Hd. unfold es in *. lia.
Qed.

Lemma at_exists p : (p <= es)%nat -> exists l, at_toks (skip_white p) l.
Proof using Hbuf.
  intros Hp. remember (es - p)%nat as n eqn:En. revert p Hp En. induction n as [n IH] using lt_wf_ind. intros p Hp ->.
  pose proof (skip_white_le p Hp) as Hs. pose proof (skip_white_idem p) as Hi.
  destruct (decide ((token_at (skip_white p)).1 = 0)) as [Hz|Hz]; [exists []; split; [done|by constructor|lia]|].
  pose proof (token_progress (skip_white p) Hi ltac:(lia) Hz) as Hpr.
  destruct (IH (es - (token_at (skip_white p)).2)%nat) with (token_at (skip_white p)).2 as (l & [_ Hl _]); [lia|lia|done|].
  exists (tok_at (skip_white p) :: l). split; [done|by constructor|lia].
Qed.

Lemma at_next p t l : at_toks p (t :: l) -> t = tok_at p /\ t.1 <> 0 /\ at_toks (skip_white (token_at p).2) l /\ (p < skip_white (token_at p).2)%nat.
Proof using Hbuf.
  intros [Hn Hl Hp]. inversion Hl as [|? ? Hz Hl']; subst. pose proof (token_progress p Hn Hp Hz) as Hpr. pose proof (skip_white_le (token_at p).2 ltac:(lia)).
  split_and!; try done; [|lia]. split; [apply skip_white_idem|done|lia].
Qed.

Lemma at_length p l : at_toks p l -> (length l + p <= es)%nat.
Proof using Hbuf.
  revert p. induction l as [|t l IH]; intros p H; [apply H|]. destruct (at_next p t l H) as (_ & _ & H' & Hlt). specialize (IH _ H'). simpl. lia.
Qed.

Lemma at_end p : at_toks p [] -> p = es /\ char_at p = 0.
Proof using Hbuf.
  intros [Hn Hl Hp]. inversion Hl as [? Hz|]; subst. assert (Hc : char_at p = 0).
  { destruct (token_cases p Hn Hp) as [[H _]|[(H & H1 & H2)|[(H & H1)|(H & H1 & H2)]]]; [done|rewrite H2 in Hz; done|..]; exfalso; [destruct H1 as [H1|H1]|]; rewrite Hz in *; done. }
  split; [|done]. apply char_zero in Hc. lia.
Qed.

(** ** The lexical functions *)
Lemma gettoken_at p t l : at_toks p (t :: l) -> exists p', gettoken p = Ok (t, p') /\ at_toks p' l.
Proof using Hbuf.
  intros H. destruct (at_next p t l H) as (-> & _ & H' & _). exists (skip_white (token_at p).2). split; [|done].
  unfold gettoken. mrun. by rewrite (at_norm _ _ H).
Qed.

Lemma gettoken_end p : at_toks p [] -> gettoken p = Ok ((0, (p, p)), p).
Proof using Hbuf.
  intros H. destruct (at_end p H) as [_ Hc]. pose proof (at_norm _ _ H) as Hn. unfold gettoken. mrun. rewrite Hn.
  assert (E : token_at p = (0, p)) by (unfold token_at; by rewrite Hc). rewrite E. cbn [fst snd]. by rewrite Hn.
Qed.

Definition kind (l : list tok) : Z := match l with t :: _ => t.1 | [] => 0 end.

Lemma kind_at p l : at_toks p l -> kind l = (token_at p).1.
Proof using Hbuf.
  intros H. destruct l as [|t l]; [|by destruct (at_next p t l H) as (-> & _)]. destruct H as [_ Hl _]. by inversion Hl.
Qed.

Lemma is_in_spec ts c : is_in ts c = true <-> c ∈ ts.
Proof using Type. apply bool_decide_eq_true. Qed.

(** [peek] looks at the kind of the next token. *)
Lemma peek_at ts p l : at_toks p l -> (forall c, c ∈ ts -> c ∈ [cBAR; cLP; cRP; cSEMI; cAMP; cLT]) -> peek ts p = Ok (is_in ts (kind l), p).
Proof using Hbuf.
  intros H Hs. pose proof H as [Hn _ Hp]. unfold peek. mrun. rewrite Hn. f_equal. f_equal. rewrite (kind_at p l H).
  assert (Hno : forall c, is_in [cBAR; cLP; cRP; cSEMI; cAMP; cLT] c = false -> is_in ts c = false).
  { intros c Hc. apply not_true_is_false. rewrite is_in_spec. intros Hin%Hs%is_in_spec. congruence. }
  destruct (token_cases p Hn Hp) as [[H1 H2]|[(H1 & H2 & H3)|[(H1 & H2)|(H1 & H2 & H3)]]].
  - rewrite H1, H2. symmetry. by apply Hno.
  - rewrite H3. destruct (Z.eqb_spec (char_at p) 0); [done|]. done.
  - rewrite H1. destruct (Z.eqb_spec cGT 0); [done|]. cbn [negb andb]. rewrite (Hno cGT eq_refl).
    symmetry. destruct H2 as [-> | ->]; by apply Hno.
  - destruct (Z.eqb_spec (char_at p) 0); [done|]. rewrite H3, (Hno cA eq_refl). cbn [negb andb].
    apply Hno. apply bool_decide_eq_false in H2. apply bool_decide_eq_false. intros Hin. apply H2. unfold symbols. rewrite !elem_of_cons in *. naive_solver.
Qed.

Lemma peek_redir p l : at_toks p l -> peek [cLT; cGT] p = Ok (is_in [cLT; cGT; cPLUS] (kind l), p).
Proof using Hbuf.
  intros H. pose proof H as [Hn _ Hp]. unfold peek. mrun. rewrite Hn. f_equal. f_equal. rewrite (kind_at p l H).
  destruct (token_cases p Hn Hp) as [[H1 H2]|[(H1 & H2 & H3)|[(H1 & H2)|(H1 & H2 & H3)]]].
  - by rewrite H1, H2.
  - rewrite H3. destruct (Z.eqb_spec (char_at p) 0); [done|]. cbn [fst negb andb]. apply is_in_spec in H2. rewrite !elem_of_cons, elem_of_nil in H2.
    by destruct H2 as [->|[->|[->|[->|[->|[->|[]]]]]]].
  - rewrite H1. by destruct H2 as [-> | ->].
  - destruct (Z.eqb_spec (char_at p) 0); [done|]. rewrite H3. cbn [negb andb]. change (is_in [cLT; cGT; cPLUS] cA) with false.
    apply bool_decide_eq_false in H2. apply bool_decide_eq_false. intros Hin. apply H2. unfold symbols. rewrite !elem_of_cons in *. naive_solver.
Qed.

Lemma peek_norm ts p : peek ts p = peek ts (skip_white p).
Proof using Type. unfold peek. mrun. by rewrite skip_white_idem. Qed.

(** ** The parser returns or panics, and what it returns is derived *)
Definition outcome (Q : cmd -> nat -> Prop) (r : result (cmd * nat)) : Prop :=
  match r with Ok (c, p) => Q c p | Panic _ => True | Fault => False end.

(** The tokens [l] begin with tokens of [R]; the rest is at the new position. *)
Definition prefix_of (R : list tok -> cmd -> Prop) (l : list tok) (c : cmd) (p : nat) : Prop :=
  exists l1 l2, l = l1 ++ l2 /\ R l1 c /\ at_toks p l2.

Lemma outcome_bind (Q1 Q : cmd -> nat -> Prop) (m : M nat cmd) (k : cmd -> M nat cmd) p :
  outcome Q1 (m p) -> (forall c p', Q1 c p' -> outcome Q (k c p')) -> outcome Q ((m ≫= k) p).
Proof using Type. intros H Hk. unfold mbind, M_bind. destruct (m p) as [[c p']| |]; [by apply Hk|done..]. Qed.

Lemma outcome_impl (Q1 Q : cmd -> nat -> Prop) r : outcome Q1 r -> (forall c p', Q1 c p' -> Q c p') -> outcome Q r.
Proof using Type. destruct r as [[c p']| |]; naive_solver. Qed.

Lemma is_in_kind ts l : is_in ts (kind l) = true -> 0 ∉ ts -> exists t l', l = t :: l' /\ t.1 ∈ ts.
Proof using Type. rewrite is_in_spec. destruct l as [|t l']; [done|]. eauto. Qed.

Lemma is_in_not ts c : is_in ts c = false <-> c ∉ ts.
Proof using Type. apply bool_decide_eq_false. Qed.

Lemma redir_op_in k : k ∈ [cLT; cGT; cPLUS] <-> redir_op k.
Proof using Type. unfold redir_op. rewrite !elem_of_cons, elem_of_nil. naive_solver. Qed.

(** One redirection of the loop. *)
Lemma parseredirs_step n c p o l : at_toks p (o :: l) -> redir_op o.1 ->
  (exists w l' p', l = w :: l' /\ w.1 = cA /\ at_toks p' l' /\ parseredirs buf (S n) c p = parseredirs buf n (Redir c w.2 (op_mode o.1) (op_fd o.1)) p') \/
  parseredirs buf (S n) c p = Panic "missing file for redirection".
Proof using Hbuf.
  intros H Ho. cbn [parseredirs]. rewrite (bind_Ok _ _ _ _ _ (peek_redir _ _ H)). cbn [kind]. rewrite (proj2 (is_in_spec _ _)) by by apply redir_op_in.
  destruct (gettoken_at _ _ _ H) as (p1 & E1 & H1). rewrite (bind_Ok _ _ _ _ _ E1). destruct l as [|w l'].
  { rewrite (bind_Ok _ _ _ _ _ (gettoken_end _ H1)). by right. }
  destruct (gettoken_at _ _ _ H1) as (p2 & E2 & H2). rewrite (bind_Ok _ _ _ _ _ E2). destruct (Z.eqb_spec w.1 cA) as [Ew|Ew]; [left|by right].
  exists w, l', p2. split_and!; try done. cbn [negb]. by destruct Ho as [->|[-> | ->]].
Qed.

Lemma parseredirs_stop n c p l : at_toks p l -> ~ redir_op (kind l) -> parseredirs buf n c p = Ok (c, p).
Proof using Hbuf.
  intros H Ho. destruct n; cbn [parseredirs]; rewrite (bind_Ok _ _ _ _ _ (peek_redir _ _ H)); rewrite (proj2 (is_in_not _ _)) by (by rewrite redir_op_in); done.
Qed.

Lemma redir_op_dec k : {redir_op k} + {~ redir_op k}.
Proof using Type. unfold redir_op. destruct (Z.eq_dec k cLT), (Z.eq_dec k cGT), (Z.eq_dec k cPLUS); (left; tauto) || (right; tauto). Qed.

Lemma parseredirs_sound n c p l : at_toks p l -> (length l <= n)%nat -> outcome (prefix_of (Gredirs c) l) (parseredirs buf n c p).
Proof using Hbuf.
  revert c p l. induction n as [|n IH]; intros c p l H Hl.
  all: destruct (redir_op_dec (kind l)) as [Ho|Ho]; [|rewrite (parseredirs_stop _ _ _ _ H Ho); exists [], l; split_and!; [done|constructor|done]].
  all: destruct l as [|o l]; [by destruct Ho as [?|[?|?]]|]; simpl in Hl; try lia.
  destruct (parseredirs_step n c p o l H Ho) as [(w & l' & p' & -> & Hw & H' & ->)| ->]; [|done]. simpl in Hl.
  apply outcome_impl with (1 := IH _ _ _ H' ltac:(lia)). intros c' p'' (l1 & l2 & -> & HR & Ha). exists (o :: w :: l1), l2. split_and!; [done|by constructor|done].
Qed.

Definition arg_stop (k : Z) : Prop := k ∈ [0; cBAR; cRP; cAMP; cSEMI].

Lemma parseargs_stop n argc c p l : at_toks p l -> arg_stop (kind l) -> parseargs buf n argc c p = Ok (c, p).
Proof using Hbuf.
  intros H Hk. assert (E : parseargs buf n argc c p = (if is_in [cBAR; cRP; cAMP; cSEMI] (kind l) then mret c
    else t ← gettoken; if t.1 =? 0 then mret c else if negb (t.1 =? cA) then panic "syntax" else
      match n with O => fault | S n' => if (MAXARGS <=? S argc)%nat then panic "too many args" else ret ← parseredirs buf n' (add_arg t.2 c); parseargs buf n' (S argc) ret end) p).
  { destruct n; cbn [parseargs]; rewrite (bind_Ok _ _ _ _ _ (peek_at [cBAR; cRP; cAMP; cSEMI] _ _ H ltac:(intros k; rewrite !elem_of_cons; naive_solver))); done. }
  rewrite E. clear E. destruct (is_in _ _) eqn:E; [done|]. apply is_in_not in E. unfold arg_stop in Hk. rewrite elem_of_cons in Hk. destruct Hk as [Hk|Hk]; [|done].
  destruct l as [|t l]; [by rewrite (bind_Ok _ _ _ _ _ (gettoken_end _ H))|]. destruct (at_next _ _ _ H) as (_ & Ht & _). done.
Qed.

(** One word of the loop. *)
Lemma parseargs_step n argc c p t l : at_toks p (t :: l) -> ~ arg_stop t.1 ->
  (t.1 = cA /\ (S argc < MAXARGS)%nat /\ exists p', at_toks p' l /\
     parseargs buf (S n) argc c p = (ret ← parseredirs buf n (add_arg t.2 c); parseargs buf n (S argc) ret) p') \/
  (t.1 <> cA \/ (MAXARGS <= S argc)%nat) /\ exists e, forall n, parseargs buf (S n) argc c p = Panic e.
Proof using Hbuf.
  intros H Hk. assert (E : forall n, parseargs buf (S n) argc c p = (t ← gettoken; if t.1 =? 0 then mret c else if negb (t.1 =? cA) then panic "syntax" else
      if (MAXARGS <=? S argc)%nat then panic "too many args" else ret ← parseredirs buf n (add_arg t.2 c); parseargs buf n (S argc) ret) p).
  { intros m. cbn [parseargs]; rewrite (bind_Ok _ _ _ _ _ (peek_at [cBAR; cRP; cAMP; cSEMI] _ _ H ltac:(intros k; rewrite !elem_of_cons; naive_solver))).
    rewrite (proj2 (is_in_not _ _)); [done|]. intros Hin. apply Hk. unfold arg_stop. rewrite elem_of_cons. by right. }
  destruct (gettoken_at _ _ _ H) as (p1 & E1 & H1). setoid_rewrite E. setoid_rewrite (bind_Ok _ _ _ _ _ E1).
  destruct (Z.eqb_spec t.1 0) as [Hz|_]; [by destruct (at_next _ _ _ H) as (_ & ? & _)|].
  destruct (Z.eqb_spec t.1 cA) as [Ha|Ha]; cbn [negb]; [|right; split; [by left|by eexists]].
  destruct (Nat.leb_spec MAXARGS (S argc)) as [Hm|Hm]; [right; split; [by right|by eexists]|left]. eauto 6.
Qed.

Lemma prefix_nil R l c p : R [] c -> at_toks p l -> prefix_of R l c p.
Proof using Type. intros HR H. by exists [], l. Qed.

Lemma parseargs_sound n argc c p l : at_toks p l -> (length l <= n)%nat -> outcome (prefix_of (Gargs argc c) l) (parseargs buf n argc c p).
Proof using Hbuf.
  revert argc c p l. induction n as [|n IH]; intros argc c p l H Hl.
  all: destruct (decide (kind l ∈ [0; cBAR; cRP; cAMP; cSEMI])) as [Hk|Hk]; [rewrite (parseargs_stop _ _ _ _ _ H Hk); apply prefix_nil; [constructor|done]|].
  all: destruct l as [|t l]; [by exfalso; apply Hk; left|]; simpl in Hl; try lia.
  destruct (parseargs_step n argc c p t l H Hk) as [(Ht & Hm & p' & H' & ->)|(_ & e & ->)]; [|done].
  eapply outcome_bind; [apply (parseredirs_sound n _ _ _ H'); lia|]. intros c1 p1 (l1 & l2 & -> & HR & H1). rewrite length_app in Hl.
  eapply outcome_impl; [apply (IH (S argc) c1 p1 l2 H1); lia|]. intros c2 p2 (l3 & l4 & -> & HA & H2).
  exists (t :: l1 ++ l3), l4. split_and!; [by simpl; rewrite <- app_assoc|by econstructor|done].
Qed.

Lemma peek_one k p l : at_toks p l -> k ∈ [cBAR; cLP; cRP; cSEMI; cAMP; cLT] ->
  (kind l <> k /\ peek [k] p = Ok (false, p)) \/ (exists t l', l = t :: l' /\ t.1 = k /\ peek [k] p = Ok (true, p)).
Proof using Hbuf.
  intros H Hk. rewrite (peek_at [k] p l H) by (intros c Hc%list_elem_of_singleton; by subst). destruct (decide (kind l = k)) as [E|E].
  - right. assert (k <> 0) by (rewrite !elem_of_cons, elem_of_nil in Hk; intros ->; cbv in Hk; naive_solver). destruct l as [|t l]; [done|].
    exists t, l. split_and!; [done..|]. f_equal. f_equal. apply is_in_spec. rewrite E. by left.
  - left. split; [done|]. f_equal. f_equal. apply is_in_not. by rewrite list_elem_of_singleton.
Qed.

Lemma parsebacks_sound n c p l : at_toks p l -> (length l <= n)%nat -> outcome (prefix_of (Gbacks c) l) (parsebacks buf n c p).
Proof using Hbuf.
  revert c p l. induction n as [|n IH]; intros c p l H Hl; cbn [parsebacks].
  all: destruct (peek_one cAMP p l H) as [(_ & E)|(t & l' & -> & Ht & E)]; [by repeat constructor| |]; rewrite (bind_Ok _ _ _ _ _ E); [apply prefix_nil; [constructor|done]|].
  all: simpl in Hl; try lia. destruct (gettoken_at _ _ _ H) as (p1 & E1 & H1). rewrite (bind_Ok _ _ _ _ _ E1).
  eapply outcome_impl; [apply (IH _ _ _ H1); lia|]. intros c2 p2 (l1 & l2 & -> & HR & H2). exists (t :: l1), l2. split_and!; [done|by constructor|done].
Qed.

Lemma parseblock_sound n p l :
  (forall p l, at_toks p l -> (4 * length l + 3 <= n)%nat -> outcome (prefix_of Gline l) (parseline buf n p)) ->
  at_toks p l -> kind l = cLP -> (4 * length l <= S n)%nat -> outcome (prefix_of Gexec l) (parseblock buf (S n) p).
Proof using Hbuf.
  intros IH H Hk Hn. cbn [parseblock]. destruct (peek_one cLP p l H) as [(? & E)|(t & l' & -> & Ht & E)]; [by repeat constructor|done|]. rewrite (bind_Ok _ _ _ _ _ E). clear E.
  cbn [negb]. simpl in Hn. destruct (gettoken_at _ _ _ H) as (p1 & E1 & H1). rewrite (bind_Ok _ _ _ _ _ E1).
  eapply outcome_bind; [apply (IH _ _ H1); lia|]. intros c1 p2 (l1 & l2 & -> & HR & H2).
  destruct (peek_one cRP p2 l2 H2) as [(? & E)|(u & l3 & -> & Hu & E)]; [by repeat constructor| |]; rewrite (bind_Ok _ _ _ _ _ E); cbn [negb]; [done|].
  destruct (gettoken_at _ _ _ H2) as (p3 & E3 & H3). rewrite (bind_Ok _ _ _ _ _ E3).
  eapply outcome_impl; [apply (parseredirs_sound _ _ _ _ H3); pose proof (at_length _ _ H3); lia|].
  intros c2 p4 (l4 & l5 & -> & HR2 & H4). exists (t :: l1 ++ u :: l4), l5. split_and!; [by simpl; rewrite <- app_assoc|by econstructor|done].
Qed.

Lemma parse_sound n :
  (forall p l, at_toks p l -> (4 * length l + 3 <= n)%nat -> outcome (prefix_of Gline l) (parseline buf n p)) /\
  (forall p l, at_toks p l -> (4 * length l + 2 <= n)%nat -> outcome (prefix_of Gpipe l) (parsepipe buf n p)) /\
  (forall p l, at_toks p l -> (4 * length l + 1 <= n)%nat -> outcome (prefix_of Gexec l) (parseexec buf n p)) /\
  (forall p l, at_toks p l -> kind l = cLP -> (4 * length l <= n)%nat -> outcome (prefix_of Gexec l) (parseblock buf n p)).
Proof using Hbuf.
  induction n as [|n (IHl & IHp & IHe & IHb)].
  { split_and!; intros p l H; intros; try lia. destruct l; [done|simpl in *; lia]. }
  split_and!; intros p l H.
  - intros Hn. cbn [parseline]. eapply outcome_bind; [apply (IHp _ _ H); lia|]. intros c1 p1 (l1 & l2 & -> & HR1 & H1). rewrite length_app in Hn.
    eapply outcome_bind; [apply (parsebacks_sound _ _ _ _ H1); pose proof (at_length _ _ H1); lia|]. intros c2 p2 (l3 & l4 & -> & HR2 & H2). rewrite length_app in Hn.
    destruct (peek_one cSEMI p2 l4 H2) as [(_ & E)|(t & l5 & -> & Ht & E)]; [by repeat constructor| |]; rewrite (bind_Ok _ _ _ _ _ E).
    + exists (l1 ++ l3), l4. split_and!; [by rewrite <- app_assoc|by econstructor|done].
    + destruct (gettoken_at _ _ _ H2) as (p3 & E3 & H3). rewrite (bind_Ok _ _ _ _ _ E3). simpl in Hn. eapply outcome_bind; [apply (IHl _ _ H3); lia|].
      intros c3 p4 (l6 & l7 & -> & HR3 & H4). exists (l1 ++ l3 ++ t :: l6), l7. split_and!; [by rewrite <- !app_assoc|by econstructor|done].
  - intros Hn. cbn [parsepipe]. eapply outcome_bind; [apply (IHe _ _ H); lia|]. intros c1 p1 (l1 & l2 & -> & HR1 & H1). rewrite length_app in Hn.
    destruct (peek_one cBAR p1 l2 H1) as [(_ & E)|(t & l3 & -> & Ht & E)]; [by repeat constructor| |]; rewrite (bind_Ok _ _ _ _ _ E).
    + exists l1, l2. split_and!; [done|by constructor|done].
    + destruct (gettoken_at _ _ _ H1) as (p2 & E2 & H2). rewrite (bind_Ok _ _ _ _ _ E2). simpl in Hn. eapply outcome_bind; [apply (IHp _ _ H2); lia|].
      intros c2 p3 (l4 & l5 & -> & HR2 & H3). exists (l1 ++ t :: l4), l5. split_and!; [by rewrite <- app_assoc|by constructor|done].
  - intros Hn. cbn [parseexec]. destruct (peek_one cLP p l H) as [(_ & E)|(t & l' & -> & Ht & E)]; [by repeat constructor| |]; rewrite (bind_Ok _ _ _ _ _ E).
    + pose proof (at_length _ _ H). eapply outcome_bind; [apply (parseredirs_sound _ _ _ _ H); lia|]. intros c1 p1 (l1 & l2 & -> & HR1 & H1). rewrite length_app in *.
      eapply outcome_impl; [apply (parseargs_sound _ _ _ _ _ H1); lia|]. intros c2 p2 (l3 & l4 & -> & HR2 & H2).
      exists (l1 ++ l3), l4. split_and!; [by rewrite <- app_assoc|by econstructor|done].
    + apply (IHb _ _ H); [done|lia].
  - intros Hk Hn. by apply parseblock_sound.
Qed.

(** ** The parser returns what the grammar derives *)
Definition yields (m : M nat cmd) (p : nat) (c : cmd) (l : list tok) : Prop := exists p', m p = Ok (c, p') /\ at_toks p' l.

Lemma yields_bind (m : M nat cmd) (k : cmd -> M nat cmd) p c1 l1 c l :
  yields m p c1 l1 -> (forall p', at_toks p' l1 -> yields (k c1) p' c l) -> yields (m ≫= k) p c l.
Proof using Type. intros (p1 & E & H) Hk. destruct (Hk p1 H) as (p2 & E2 & H2). exists p2. by rewrite (bind_Ok _ _ _ _ _ E). Qed.

Lemma yields_token (k : tok -> M nat cmd) p t l1 c l :
  at_toks p (t :: l1) -> (forall p', at_toks p' l1 -> yields (k t) p' c l) -> yields (gettoken ≫= k) p c l.
Proof using Hbuf.
  intros H Hk. destruct (gettoken_at _ _ _ H) as (p1 & E & H1). destruct (Hk p1 H1) as (p2 & E2 & H2). exists p2. by rewrite (bind_Ok _ _ _ _ _ E).
Qed.

Lemma yields_peek ch (k : bool -> M nat cmd) p l1 c l : at_toks p l1 -> ch ∈ [cBAR; cLP; cRP; cSEMI; cAMP; cLT] ->
  yields (k (bool_decide (kind l1 = ch))) p c l -> yields (peek [ch] ≫= k) p c l.
Proof using Hbuf.
  intros H Hch (p2 & E2 & H2). exists p2. split; [|done].
  rewrite (bind_Ok _ _ _ _ _ (peek_at [ch] _ _ H ltac:(intros x Hx%list_elem_of_singleton; by subst))). unfold is_in.
  rewrite (bool_decide_ext _ (kind l1 = ch)); [done|apply list_elem_of_singleton].
Qed.

Lemma yields_ret c p l : at_toks p l -> yields (mret c) p c l.
Proof using Type. intros H. by exists p. Qed.

Lemma arg_stop_redir k : arg_stop k -> ~ redir_op k.
Proof using Type. unfold arg_stop. rewrite <- redir_op_in. rewrite !elem_of_cons, !elem_of_nil. cbv. naive_solver. Qed.

Lemma Gredirs_head c l c' l2 : Gredirs c l c' -> redir_op (kind (l ++ l2)) \/ l = [].
Proof using Type. intros [|]; [by right|by left]. Qed.

Lemma Gargs_head n c l c' l2 : Gargs n c l c' -> kind (l ++ l2) = cA \/ l = [].
Proof using Type. intros [|]; [by right|by left]. Qed.

Lemma Gbacks_head c l c' l2 : Gbacks c l c' -> kind (l ++ l2) = cAMP \/ l = [].
Proof using Type. intros [|]; [by right|by left]. Qed.

Lemma parseredirs_complete c l1 c' : Gredirs c l1 c' -> forall n p l2, at_toks p (l1 ++ l2) -> (length (l1 ++ l2) <= n)%nat -> ~ redir_op (kind l2) ->
  yields (parseredirs buf n c) p c' l2.
Proof using Hbuf.
  induction 1 as [c|c o w l c' Ho Hw _ IH]; intros n p l2 H Hn Hk.
  - exists p. by rewrite (parseredirs_stop _ _ _ _ H Hk).
  - destruct n as [|n]; [simpl in Hn; lia|]. cbn [app] in H. unfold yields.
    cbn [parseredirs]. rewrite (bind_Ok _ _ _ _ _ (peek_redir _ _ H)). cbn [kind]. rewrite (proj2 (is_in_spec _ _)) by by apply redir_op_in.
    apply (yields_token _ _ _ _ _ _ H). intros p1 H1. apply (yields_token _ _ _ _ _ _ H1). intros p2 H2. rewrite Hw. simpl in Hn.
    specialize (IH n p2 l2 H2 ltac:(lia) Hk). by destruct Ho as [E|[E|E]]; rewrite E in *.
Qed.

Lemma parseargs_complete n c l1 c' : Gargs n c l1 c' -> forall f p l2, at_toks p (l1 ++ l2) -> (length (l1 ++ l2) <= f)%nat -> arg_stop (kind l2) ->
  yields (parseargs buf f n c) p c' l2.
Proof using Hbuf.
  induction 1 as [n c|n c w l1 c1 l2 c2 Hw Hn HR HA IH]; intros f p l3 H Hf Hk.
  - exists p. by rewrite (parseargs_stop _ _ _ _ _ H Hk).
  - destruct f as [|f]; [simpl in Hf; lia|]. cbn [app] in H. rewrite <- app_assoc in H. simpl in Hf. rewrite <- app_assoc in Hf.
    destruct (parseargs_step f n c p w (l1 ++ l2 ++ l3) H) as [(_ & _ & p' & H' & E)|([?|?] & _)]; [by rewrite Hw; unfold arg_stop; rewrite !elem_of_cons, !elem_of_nil; cbv; naive_solver| |done|lia].
    unfold yields. rewrite E. fold (yields (ret ← parseredirs buf f (add_arg w.2 c); parseargs buf f (S n) ret) p' c2 l3).
    eapply yields_bind; [apply (parseredirs_complete _ _ _ HR f p' (l2 ++ l3) H'); [lia|]|].
    + destruct (Gargs_head _ _ _ _ l3 HA) as [-> | ->]; [unfold redir_op; cbv; naive_solver|by apply arg_stop_redir].
    + intros p2 H2. apply IH; [done| |done]. rewrite length_app in Hf. lia.
Qed.

Lemma parsebacks_complete c l1 c' : Gbacks c l1 c' -> forall n p l2, at_toks p (l1 ++ l2) -> (length (l1 ++ l2) <= n)%nat -> kind l2 <> cAMP ->
  yields (parsebacks buf n c) p c' l2.
Proof using Hbuf.
  induction 1 as [c|c t l c' Ht _ IH]; intros n p l2 H Hn Hk.
  - destruct n; cbn [parsebacks]; apply (yields_peek _ _ _ _ _ _ H); try (by repeat constructor); rewrite bool_decide_false by done; by apply yields_ret.
  - destruct n as [|n]; [simpl in Hn; lia|]. cbn [app] in H. cbn [parsebacks]. apply (yields_peek _ _ _ _ _ _ H); [by repeat constructor|].
    rewrite bool_decide_true by done. apply (yields_token _ _ _ _ _ _ H). intros p1 H1. apply IH; [done|simpl in Hn; lia|done].
Qed.

Definition pipe_stop (k : Z) : Prop := k ∈ [0; cRP; cAMP; cSEMI].
Definition line_stop (k : Z) : Prop := k ∈ [0; cRP].

Lemma line_pipe_stop k : line_stop k -> pipe_stop k.
Proof using Type. unfold line_stop, pipe_stop. rewrite !elem_of_cons. naive_solver. Qed.
Lemma pipe_arg_stop k : pipe_stop k -> arg_stop k.
Proof using Type. unfold pipe_stop, arg_stop. rewrite !elem_of_cons. naive_solver. Qed.

(** What may follow the part of a line that a nonterminal derives, and the
    fuel that its function needs. *)
Definition complete (f : nat -> M nat cmd) (extra : nat) (stop : Z -> Prop) (l1 : list tok) (c : cmd) : Prop :=
  forall n p l2, at_toks p (l1 ++ l2) -> (4 * length (l1 ++ l2) + extra <= n)%nat -> stop (kind l2) -> yields (f n) p c l2.

Lemma backs_follow c l c' l2 : Gbacks c l c' -> pipe_stop (kind l2) -> pipe_stop (kind (l ++ l2)).
Proof using Type. intros HB Hk. destruct (Gbacks_head _ _ _ l2 HB) as [-> | ->]; [|done]. unfold pipe_stop. rewrite !elem_of_cons. naive_solver. Qed.

Lemma block_complete t l1 c1 u l2 c2 : t.1 = cLP -> complete (parseline buf) 3 line_stop l1 c1 -> u.1 = cRP -> Gredirs c1 l2 c2 ->
  complete (parseexec buf) 1 arg_stop (t :: l1 ++ u :: l2) c2.
Proof using Hbuf.
  intros Ht IH Hu HR n p l3 H Hn Hk. cbn [app] in H, Hn. rewrite <- app_assoc in H, Hn. cbn [app] in H, Hn. simpl in Hn.
  destruct n as [|[|n]]; [lia..|]. cbn [parseexec]. apply (yields_peek _ _ _ _ _ _ H); [by repeat constructor|]. rewrite bool_decide_true by done.
  cbn [parseblock]. apply (yields_peek _ _ _ _ _ _ H); [by repeat constructor|]. rewrite bool_decide_true by done. cbn [negb].
  apply (yields_token _ _ _ _ _ _ H). intros p1 H1. eapply yields_bind; [apply (IH n p1 (u :: l2 ++ l3) H1)|].
  - unfold tok in *. lia.
  - simpl. rewrite Hu. by repeat constructor.
  - intros p2 H2. apply (yields_peek _ _ _ _ _ _ H2); [by repeat constructor|]. rewrite bool_decide_true by done. cbn [negb].
    apply (yields_token _ _ _ _ _ _ H2). intros p3 H3. apply (parseredirs_complete _ _ _ HR); [done| |by apply arg_stop_redir].
    pose proof (at_length _ _ H3). lia.
Qed.

Lemma cmd_complete l1 c1 l2 c2 : Gredirs (Exec []) l1 c1 -> Gargs 0 c1 l2 c2 -> complete (parseexec buf) 1 arg_stop (l1 ++ l2) c2.
Proof using Hbuf.
  intros HR HA n p l3 H Hn Hk. destruct n as [|n]; [lia|]. cbn [parseexec]. rewrite <- app_assoc in H, Hn. apply (yields_peek _ _ _ _ _ _ H); [by repeat constructor|].
  assert (H2 : kind (l2 ++ l3) = cA \/ arg_stop (kind (l2 ++ l3))) by (destruct (Gargs_head _ _ _ _ l3 HA) as [? | ->]; auto).
  assert (Hno : ~ redir_op (kind (l2 ++ l3)) /\ kind (l2 ++ l3) <> cLP).
  { destruct H2 as [-> |H2]; [by split; [unfold redir_op; cbv; naive_solver|]|]. split; [by apply arg_stop_redir|]. intros E. rewrite E in H2. unfold arg_stop in H2. rewrite !elem_of_cons, !elem_of_nil in H2. cbv in H2. naive_solver. }
  rewrite bool_decide_false; swap 1 2.
  { destruct (Gredirs_head _ _ _ (l2 ++ l3) HR) as [Hr | ->]; [|apply Hno]. intros E. rewrite E in Hr. by destruct Hr as [?|[?|?]]. }
  pose proof (at_length _ _ H) as Hl.
  eapply yields_bind; [apply (parseredirs_complete _ _ _ HR _ p (l2 ++ l3) H); [lia|apply Hno]|].
  intros p1 H1. apply (parseargs_complete _ _ _ _ HA); [done| |done]. rewrite length_app in Hl. lia.
Qed.

Lemma line_complete l1 c1 l2 c2 l3 n p c l4 :
  complete (parsepipe buf) 2 pipe_stop l1 c1 -> Gbacks c1 l2 c2 -> at_toks p (l1 ++ l2 ++ l3) -> (4 * length (l1 ++ l2 ++ l3) + 2 <= n)%nat ->
  pipe_stop (kind l3) -> kind l3 <> cAMP ->
  (forall p', at_toks p' l3 -> yields (b ← peek [cSEMI]; if (b : bool) then gettoken;; r ← parseline buf n; mret (List c2 r) else mret c2) p' c l4) ->
  yields (parseline buf (S n)) p c l4.
Proof using Hbuf.
  intros IH HB H Hn Hk Ha Hc. cbn [parseline]. eapply yields_bind; [apply (IH n p (l2 ++ l3) H ltac:(lia)); by eapply backs_follow|]. intros p1 H1.
  eapply yields_bind; [apply (parsebacks_complete _ _ _ HB _ p1 l3 H1); [|done]|done]. pose proof (at_length _ _ H1). lia.
Qed.

Lemma parse_complete :
  (forall l c, Gline l c -> complete (parseline buf) 3 line_stop l c) /\
  (forall l c, Gpipe l c -> complete (parsepipe buf) 2 pipe_stop l c) /\
  (forall l c, Gexec l c -> complete (parseexec buf) 1 arg_stop l c).
Proof using Hbuf.
  apply grammar_ind.
  - intros l1 c1 l2 c2 _ IH HB n p l3 H Hn Hk. destruct n as [|n]; [lia|]. rewrite <- app_assoc in H, Hn.
    assert (Hn2 : kind l3 <> cAMP /\ kind l3 <> cSEMI) by (unfold line_stop in Hk; rewrite !elem_of_cons, elem_of_nil in Hk; destruct Hk as [-> |[-> |[]]]; done).
    apply (line_complete _ _ _ _ _ _ _ _ _ IH HB H); [lia|by apply line_pipe_stop|apply Hn2|]. intros p1 H1. unfold tok in *.
    apply (yields_peek _ _ _ _ _ _ H1); [by repeat constructor|]. rewrite bool_decide_false by apply Hn2. by apply yields_ret.
  - intros l1 c1 l2 c2 t l3 c3 _ IH HB Ht _ IHl n p l4 H Hn Hk. destruct n as [|n]; [lia|]. rewrite <- !app_assoc in H, Hn. cbn [app] in H, Hn.
    apply (line_complete _ _ _ _ _ _ _ _ _ IH HB H); [unfold tok in *; lia|simpl; rewrite Ht; by repeat constructor|simpl; by rewrite Ht|]. intros p1 H1. unfold tok in *.
    apply (yields_peek _ _ _ _ _ _ H1); [by repeat constructor|]. rewrite bool_decide_true by done. apply (yields_token _ _ _ _ _ _ H1). intros p2 H2.
    eapply yields_bind; [apply (IHl n p2 l4 H2); [|done]|]; [unfold tok in *; rewrite !length_app in *; simpl in *; rewrite length_app in *; lia|]. intros p3 H3. by apply yields_ret.
  - intros l c _ IH n p l2 H Hn Hk. destruct n as [|n]; [lia|]. cbn [parsepipe]. eapply yields_bind; [apply (IH n p l2 H); [lia|by apply pipe_arg_stop]|]. intros p1 H1. unfold tok in *.
    apply (yields_peek _ _ _ _ _ _ H1); [by repeat constructor|]. rewrite bool_decide_false; [by apply yields_ret|].
    intros E. rewrite E in Hk. unfold pipe_stop in Hk. rewrite !elem_of_cons, elem_of_nil in Hk. cbv in Hk. naive_solver.
  - intros l1 c1 t l2 c2 _ IH Ht _ IHp n p l3 H Hn Hk. destruct n as [|n]; [lia|]. rewrite <- app_assoc in H, Hn. cbn [app] in H, Hn. cbn [parsepipe].
    eapply yields_bind; [apply (IH n p (t :: l2 ++ l3) H); [unfold tok in *; lia|simpl; rewrite Ht; by repeat constructor]|]. intros p1 H1. unfold tok in *.
    apply (yields_peek _ _ _ _ _ _ H1); [by repeat constructor|]. rewrite bool_decide_true by done. apply (yields_token _ _ _ _ _ _ H1). intros p2 H2.
    eapply yields_bind; [apply (IHp n p2 l3 H2); [|done]|]; [unfold tok in *; rewrite !length_app in *; simpl in *; rewrite length_app in *; lia|]. intros p3 H3. by apply yields_ret.
  - intros t l1 c1 u l2 c2 Ht _ IH Hu HR. by eapply block_complete.
  - intros l1 c1 l2 c2 HR HA. by eapply cmd_complete.
Qed.

(** ** Tokens, by the characters of the line *)
Definition white (p q : nat) : Prop := forall i, (p <= i < q)%nat -> is_in whitespace (char_at i) = true.

Inductive token : tok -> Prop :=
| token_word q e : (q < e <= es)%nat -> (forall i, (q <= i < e)%nat -> word_char (char_at i) = true) -> e = es \/ word_char (char_at e) = false ->
    token (cA, (q, e))
| token_symbol q : char_at q ∈ [cBAR; cLP; cRP; cSEMI; cAMP; cLT] -> token (char_at q, (q, S q))
| token_out q : char_at q = cGT -> char_at (S q) <> cGT -> token (cGT, (q, S q))
| token_append q : char_at q = cGT -> char_at (S q) = cGT -> token (cPLUS, (q, S (S q))).

(** The line from [p] is these tokens with white space around them. *)
Inductive lexes : nat -> list tok -> Prop :=
| lexes_end p : (p <= es)%nat -> white p es -> lexes p []
| lexes_tok p k q e l : (p <= q)%nat -> white p q -> token (k, (q, e)) -> lexes e l -> lexes p ((k, (q, e)) :: l).

Lemma span_len_all f l i : (i < span_len f l)%nat -> exists c, l !! i = Some c /\ f c = true.
Proof using Type.
  revert i. induction l as [|c l IH]; intros i Hi; simpl in Hi; [lia|]. destruct (f c) eqn:E; [|lia]. destruct i as [|i]; [by exists c|]. apply IH. lia.
Qed.

Lemma span_len_next f l c : l !! span_len f l = Some c -> f c = false.
Proof using Type. induction l as [|d l IH]; simpl; [done|]. destruct (f d) eqn:E; simpl; [done|]. intros [= ->]. done. Qed.

Lemma span_len_char f p k : (p <= p + k <= es)%nat -> (forall i, (p <= i < p + k)%nat -> f (char_at i) = true) -> (p + k)%nat = es \/ f (char_at (p + k)) = false ->
  span_len f (drop p buf) = k.
Proof using Type.
  intros Hk Hall Hend. destruct (Nat.lt_trichotomy (span_len f (drop p buf)) k) as [H|[H|H]]; [|done|].
  - exfalso. assert (Hp : (p + span_len f (drop p buf) < es)%nat) by lia. destruct (lookup_lt_is_Some_2 buf _ Hp) as [c E].
    specialize (Hall (p + span_len f (drop p buf))%nat ltac:(lia)). unfold char_at in Hall. rewrite E in Hall. simpl in Hall.
    rewrite <- lookup_drop in E. apply span_len_next in E. congruence.
  - exfalso. destruct (span_len_all f _ _ H) as (c & E & Hf). rewrite lookup_drop in E. destruct Hend as [He|He].
    + apply lookup_lt_Some in E. unfold es in He. lia.
    + unfold char_at in He. rewrite E in He. simpl in He. congruence.
Qed.

Lemma span_all_char f p i : (p <= i < p + span_len f (drop p buf))%nat -> f (char_at i) = true.
Proof using Type.
  intros Hi. destruct (span_len_all f (drop p buf) (i - p)) as (c & E & Hf); [lia|]. rewrite lookup_drop in E. unfold char_at. replace i with (p + (i - p))%nat by lia. by rewrite E.
Qed.

Lemma span_end_char f p : (p <= es)%nat -> (p + span_len f (drop p buf))%nat = es \/ f (char_at (p + span_len f (drop p buf))) = false.
Proof using Type.
  intros Hp. pose proof (span_len_le f (drop p buf)) as Hl. rewrite length_drop in Hl. unfold es in *.
  destruct (decide (p + span_len f (drop p buf) = length buf)%nat) as [|Hne]; [by left|right].
  destruct (lookup_lt_is_Some_2 buf (p + span_len f (drop p buf))) as [c E]; [lia|]. unfold char_at. rewrite E. rewrite <- lookup_drop in E. by apply span_len_next in E.
Qed.

(** [gettoken] finds the tokens, and nothing else is a token. *)
Lemma token_char k q e : token (k, (q, e)) -> (q < e <= es)%nat /\ is_in whitespace (char_at q) = false /\ k <> 0.
Proof using Hbuf.
  assert (Hin : forall i ch, char_at i = ch -> ch <> 0 -> (i < es)%nat).
  { intros i ch E Hne. destruct (decide (i < es)%nat); [done|]. exfalso. apply Hne. rewrite <- E. apply char_zero. lia. }
  inversion 1 as [? ? Hr Hall Hend|? Hs|? Hc Hn|? Hc Hn]; subst.
  - split_and!; [lia|lia| |done]. specialize (Hall q ltac:(lia)). unfold word_char in Hall. apply andb_prop in Hall as [Hw _]. by apply negb_true_iff in Hw.
  - assert (char_at q <> 0) by (intros E; rewrite E in Hs; rewrite !elem_of_cons, elem_of_nil in Hs; cbv in Hs; naive_solver). pose proof (Hin q _ eq_refl H0).
    split_and!; [lia|lia| |done]. rewrite !elem_of_cons, elem_of_nil in Hs. by destruct Hs as [-> |[-> |[-> |[-> |[-> |[-> |[]]]]]]].
  - pose proof (Hin q _ Hc ltac:(done)). split_and!; [lia|lia|by rewrite Hc|done].
  - pose proof (Hin (S q) _ Hn ltac:(done)). split_and!; [lia|lia|by rewrite Hc|done].
Qed.

Lemma token_found k q e : token (k, (q, e)) -> token_at q = (k, e).
Proof using Hbuf.
  intros H. pose proof (token_char _ _ _ H) as (Hr & Hw & Hk). assert (Hz : char_at q <> 0) by (rewrite char_zero; lia).
  unfold token_at. rewrite (proj2 (Z.eqb_neq _ _) Hz). inversion H as [? ? _ Hall Hend|? Hs|? Hc Hn|? Hc Hn]; subst.
  - pose proof (Hall q ltac:(lia)) as Hq. unfold word_char in Hq. apply andb_prop in Hq as [_ Hq]. apply negb_true_iff, is_in_not in Hq. unfold symbols in Hq.
    rewrite (proj2 (is_in_not _ _)) by (rewrite !elem_of_cons, elem_of_nil in *; naive_solver).
    rewrite (proj2 (Z.eqb_neq _ _)) by (intros E; apply Hq; rewrite E, !elem_of_cons; naive_solver).
    f_equal. rewrite (span_len_char word_char q (e - q)); [lia|lia|intros i Hi; apply Hall; lia|]. replace (q + (e - q))%nat with e by lia. done.
  - by rewrite (proj2 (is_in_spec _ _) Hs).
  - rewrite Hc. change (is_in _ cGT) with false. cbn [negb]. rewrite Z.eqb_refl. by rewrite (proj2 (Z.eqb_neq _ _) Hn).
  - rewrite Hc, Hn. done.
Qed.

Lemma lexes_lexed p l : lexes p l -> at_toks (skip_white p) l.
Proof using Hbuf.
  induction 1 as [p Hp Hw|p k q e l Hp Hw Ht Hl IH].
  - assert (E : skip_white p = es) by (unfold Sh.skip_white; rewrite (span_len_char _ p (es - p)); [lia|lia|intros i Hi; apply Hw; lia|left; lia]).
    rewrite E. split; [rewrite <- E; by apply skip_white_idem| |done]. constructor. unfold token_at. by rewrite (proj2 (char_zero es)).
  - pose proof (token_char _ _ _ Ht) as (Hr & Hw2 & Hk).
    assert (E : skip_white p = q).
    { unfold Sh.skip_white. rewrite (span_len_char _ p (q - p)); [lia|lia|intros i Hi; apply Hw; lia|]. replace (p + (q - p))%nat with q by lia. by right. }
    pose proof (token_found _ _ _ Ht) as Et. rewrite E. split; [rewrite <- E; by apply skip_white_idem| |lia].
    replace (k, (q, e)) with (tok_at q) by (unfold tok_at; by rewrite Et). constructor; [by rewrite Et|]. rewrite Et. apply IH.
Qed.

Lemma token_sound p : skip_white p = p -> (p <= es)%nat -> (token_at p).1 <> 0 -> token (tok_at p).
Proof using Hbuf.
  intros Hn Hp Hk. pose proof (token_progress p Hn Hp Hk) as Hr. unfold tok_at in *. revert Hk Hr. unfold token_at.
  destruct (Z.eqb_spec (char_at p) 0) as [|Hz]; [done|]. destruct (is_in _ (char_at p)) eqn:E; [by intros; apply token_symbol, is_in_spec|].
  destruct (Z.eqb_spec (char_at p) cGT) as [Eg|Eg].
  { destruct (Z.eqb_spec (char_at (S p)) cGT) as [E2|E2]; intros _ _; by constructor. }
  cbn [fst snd]. intros _ Hr. apply token_word; [done|intros i Hi; by eapply span_all_char|by apply span_end_char].
Qed.

Lemma white_skip p : white p (skip_white p).
Proof using Type. intros i Hi. by apply (span_all_char _ p). Qed.

Lemma lexed_lexes p l : (p <= es)%nat -> at_toks (skip_white p) l -> lexes p l.
Proof using Hbuf.
  revert p. induction l as [|t l IH]; intros p Hp H.
  - destruct (at_end _ H) as [E _]. constructor; [done|]. rewrite <- E. apply white_skip.
  - destruct (at_next _ _ _ H) as (-> & Hk & H' & _). destruct H as [Hn _ Hle]. unfold tok_at in *. pose proof (skip_white_le p Hp).
    pose proof (token_progress _ Hn Hle Hk). constructor; [lia|apply white_skip|by apply token_sound|]. apply IH; [lia|done].
Qed.

Lemma lexes_exists : exists l, lexes 0 l.
Proof using Hbuf. destruct (at_exists 0 ltac:(lia)) as [l Hl]. exists l. apply lexed_lexes; [lia|done]. Qed.

Lemma at_det p l l' : at_toks p l -> at_toks p l' -> l = l'.
Proof using Hbuf.
  revert p l'. induction l as [|t l IH]; intros p l' H H'; destruct l' as [|t' l']; [done| | |].
  - destruct (at_next _ _ _ H') as (-> & Hk & _). apply kind_at in H, H'. cbn in *. congruence.
  - destruct (at_next _ _ _ H) as (-> & Hk & _). apply kind_at in H, H'. simpl in *. congruence.
  - destruct (at_next _ _ _ H) as (-> & _ & H1 & _), (at_next _ _ _ H') as (-> & _ & H2 & _). f_equal. by eapply IH.
Qed.

Lemma lexes_det p l l' : lexes p l -> lexes p l' -> l' = l.
Proof using Hbuf. intros H%lexes_lexed H'%lexes_lexed. by eapply at_det. Qed.

(** ** [parsecmd] *)
Lemma parse_norm n p : parseexec buf n p = parseexec buf n (skip_white p) /\ parsepipe buf n p = parsepipe buf n (skip_white p) /\ parseline buf n p = parseline buf n (skip_white p).
Proof using Type.
  assert (He : forall n, parseexec buf n p = parseexec buf n (skip_white p)).
  { intros [|m]; [done|]. cbn [parseexec]. unfold mbind, M_bind. by rewrite peek_norm. }
  assert (Hp : forall n, parsepipe buf n p = parsepipe buf n (skip_white p)).
  { intros [|m]; [done|]. cbn [parsepipe]. unfold mbind, M_bind. by rewrite He. }
  split_and!; [done..|]. destruct n as [|m]; [done|]. cbn [parseline]. unfold mbind, M_bind. by rewrite Hp.
Qed.

Lemma at_es l : at_toks es l -> l = [].
Proof using Hbuf. intros H. pose proof (at_length _ _ H). destruct l; [done|simpl in *; lia]. Qed.

Lemma parsecmd_spec l : lexes 0 l ->
  parsecmd buf <> Fault /\ forall c m, parsecmd buf = Ok (c, m) <-> Gline l c /\ m = nulterminate c (buf ++ [0]).
Proof using Hbuf.
  intros Hl. apply lexes_lexed in Hl as H. pose proof (at_length _ _ H) as Hlen.
  destruct parse_complete as [Hcomp _]. destruct (parse_sound (parse_fuel buf)) as [Hs _]. specialize (Hs _ _ H ltac:(unfold parse_fuel; lia)).
  assert (Hfin : forall c, Gline l c -> parseline buf (parse_fuel buf) (skip_white 0) = Ok (c, es)).
  { intros c HG. rewrite <- (app_nil_r l) in H. destruct (Hcomp l c HG (parse_fuel buf) _ [] H) as (p' & E & Hp'); [rewrite app_nil_r; unfold parse_fuel; lia|by repeat constructor|].
    rewrite E. destruct (at_end _ Hp') as [-> _]. done. }
  rewrite <- (proj2 (proj2 (parse_norm _ 0))) in Hs. setoid_rewrite <- (proj2 (proj2 (parse_norm (parse_fuel buf) 0))) in Hfin.
  unfold parsecmd. destruct (parseline buf (parse_fuel buf) 0%nat) as [[c1 p1]| |] eqn:E; [| |done].
  - destruct Hs as (l1 & l2 & -> & HG & Hp). rewrite (bind_Ok _ _ _ _ _ E). rewrite (bind_Ok _ _ _ _ _ (peek_at [] _ _ Hp ltac:(intros ? ?%elem_of_nil; done))). cbn.
    destruct (decide (p1 = es)) as [-> |Hne].
    + apply at_es in Hp as ->. rewrite app_nil_r in *. split; [done|]. intros c m. split; [by intros [= -> <-]|]. intros [HG2 ->]. apply Hfin in HG2. congruence.
    + split; [done|]. intros c m. split; [done|]. intros [HG2 _]. apply Hfin in HG2. congruence.
  - assert (E2 : (c ← parseline buf (parse_fuel buf); _ ← peek []; mret c) 0%nat = Panic msg) by (unfold mbind, M_bind; by rewrite E).
    rewrite E2. split; [done|]. intros c m. split; [done|]. intros [HG2 _]. apply Hfin in HG2. congruence.
Qed.
End Tokens.

(** Claim C36. The parser of the shell returns, without running past the end
    of the line, for every line: there is one way to read the line as tokens
    with white space around them (a longest run of word characters, a
    symbol, [>] or [>>]), and [parsecmd] returns a command exactly when the
    grammar derives it from those tokens; otherwise it panics. *)
Theorem parsecmd_correct buf : Forall (fun c => c <> 0) buf ->
  parsecmd buf <> Fault /\
  exists l, lexes buf 0 l /\ (forall l', lexes buf 0 l' -> l' = l) /\ forall c m, parsecmd buf = Ok (c, m) <-> Gline l c /\ m = nulterminate c (buf ++ [0]).
Proof.
  intros Hb. destruct (lexes_exists buf Hb) as [l Hl]. destruct (parsecmd_spec buf Hb l Hl) as [Hf Hspec]. split; [done|]. exists l. split_and!; [done| |done].
  intros l' Hl'. apply (lexes_det buf Hb) with 0%nat; done.
Qed.

(** a >b;(c|d)& *)
Definition sh_line : list Z := [97; 32; 62; 98; 59; 40; 99; 124; 100; 41; 38].

Lemma parsecmd_correct_witness : Forall (fun c => c <> 0) sh_line /\
  (exists l, lexes sh_line 0 l /\ forall c m, parsecmd sh_line = Ok (c, m) <-> Gline l c /\ m = nulterminate c (sh_line ++ [0])) /\
  fst <$> (match parsecmd sh_line with Ok r => Some r | _ => None end) =
    Some (List (Redir (Exec [(0, 1)]) (3, 4) 513 1) (Back (Pipe (Exec [(6, 7)]) (Exec [(8, 9)]))))%nat.
Proof.
  assert (Hb : Forall (fun c => c <> 0) sh_line) by (unfold sh_line; repeat constructor; done).
  split; [done|]. destruct (parsecmd_correct sh_line Hb) as (_ & l & Hl & _ & H). split; [by exists l|by vm_compute].
Defined.

(** ** The strings of a command *)
Fixpoint words (c : cmd) : list span :=
  match c with
  | Exec l => l
  | Redir c' f _ _ => words c' ++ [f]
  | Pipe l r | List l r => words l ++ words r
  | Back c' => words c'
  end.

Lemma ends_words c : ends c = snd <$> words c.
Proof. induction c; simpl; rewrite ?fmap_app; simpl; congruence. Qed.

(** Every [argv] has room for its terminating null pointer. *)
Fixpoint args_fit (c : cmd) : Prop :=
  match c with
  | Exec l => (length l < MAXARGS)%nat
  | Redir c' _ _ _ => args_fit c'
  | Pipe l r | List l r => args_fit l /\ args_fit r
  | Back c' => args_fit c'
  end.

Fixpoint simple (c : cmd) (n : nat) : Prop :=
  match c with
  | Exec l => length l = n
  | Redir c' _ _ _ => simple c' n
  | _ => False
  end.

Definition words_in (l : list tok) (c : cmd) : Prop := forall w, w ∈ words c -> (cA, w) ∈ l.

Lemma tok_word (t : tok) : t.1 = cA -> t = (cA, t.2).
Proof. destruct t. by intros <-. Qed.

Lemma words_add_arg w c n : simple c n -> simple (add_arg w c) (S n) /\ (forall v, v ∈ words (add_arg w c) -> v = w \/ v ∈ words c) /\ (args_fit (add_arg w c) <-> (S n < MAXARGS)%nat).
Proof.
  induction c as [l|c IH f m d| | |]; simpl; try done.
  - intros <-. rewrite length_app, Nat.add_1_r. split_and!; [done| |done]. intros v. rewrite elem_of_app, list_elem_of_singleton. tauto.
  - intros H. destruct (IH H) as (H1 & H2 & H3). split_and!; [done| |done]. intros v. rewrite !elem_of_app. intros [Hv|Hv]; [apply H2 in Hv|]; tauto.
Qed.

Lemma Gredirs_words c l c' : Gredirs c l c' -> (forall w, w ∈ words c' -> w ∈ words c \/ (cA, w) ∈ l) /\ (args_fit c' <-> args_fit c) /\ (forall n, simple c n -> simple c' n).
Proof.
  induction 1 as [c|c o w l c' Ho Hw _ (IH1 & IH2 & IH3)]; [naive_solver|]. simpl in *. split_and!; [|done|done].
  intros v [Hv|Hv]%IH1; [|by right; do 2 right]. rewrite elem_of_app, list_elem_of_singleton in Hv. destruct Hv as [|Hv]; [by left|right]. subst v. apply tok_word in Hw. rewrite <- Hw. right. by left.
Qed.

Lemma Gargs_words n c l c' : Gargs n c l c' -> simple c n -> args_fit c -> (forall w, w ∈ words c' -> w ∈ words c \/ (cA, w) ∈ l) /\ args_fit c'.
Proof.
  induction 1 as [n c|n c w l1 c1 l2 c2 Hw Hn HR HA IH]; [naive_solver|]. intros Hs Hf. destruct (words_add_arg w.2 c n Hs) as (A1 & A2 & A3).
  destruct (Gredirs_words _ _ _ HR) as (B1 & B2 & B3). destruct (IH (B3 _ A1)) as [C1 C2]; [by apply B2, A3|]. split; [|done].
  intros v Hv. rewrite elem_of_cons, elem_of_app. apply tok_word in Hw.
  destruct (C1 v Hv) as [Hv1|]; [|tauto]. destruct (B1 v Hv1) as [Hv2|]; [|tauto]. destruct (A2 v Hv2) as [-> |]; [right; left; by symmetry|tauto].
Qed.

Lemma Gbacks_words c l c' : Gbacks c l c' -> words c' = words c /\ (args_fit c' <-> args_fit c).
Proof. induction 1 as [|c t l c' Ht _ IH]; [done|]. exact IH. Qed.

Lemma grammar_words : (forall l c, Gline l c -> words_in l c /\ args_fit c) /\ (forall l c, Gpipe l c -> words_in l c /\ args_fit c) /\ (forall l c, Gexec l c -> words_in l c /\ args_fit c).
Proof.
  unfold words_in. apply grammar_ind; intros; repeat match goal with H : _ /\ _ |- _ => destruct H end.
  - destruct (Gbacks_words _ _ _ H1) as [E Ef]. split; [|tauto]. intros w. rewrite E, elem_of_app. auto.
  - destruct (Gbacks_words _ _ _ H1) as [E Ef]. split; [|simpl; tauto]. intros w. simpl. rewrite E, !elem_of_app, elem_of_cons. intros [?|?]; auto.
  - auto.
  - split; [|simpl; tauto]. intros w. simpl. rewrite !elem_of_app, elem_of_cons. intros [?|?]; auto.
  - destruct (Gredirs_words _ _ _ H3) as (B1 & B2 & _). split; [|tauto]. intros w Hw. rewrite elem_of_cons, elem_of_app, elem_of_cons. destruct (B1 w Hw); auto.
  - destruct (Gredirs_words _ _ _ H) as (B1 & B2 & B3). destruct (Gargs_words _ _ _ _ H0) as [C1 C2]; [by apply B3|by apply B2; simpl; unfold MAXARGS; lia|].
    split; [|done]. intros w Hw. rewrite elem_of_app. destruct (C1 w Hw) as [Hw'|]; [|auto]. destruct (B1 w Hw') as [[]%elem_of_nil|]. auto.
Qed.

Lemma nul_lookup (js : list nat) m i : foldl (fun m i => <[i := 0]> m) m js !! i = if decide (i ∈ js /\ (i < length m)%nat) then Some 0 else m !! i.
Proof.
  revert m. induction js as [|j js IH]; intros m; cbn [foldl]; [rewrite decide_False; [done|]; by intros [[]%elem_of_nil _]|].
  rewrite IH, length_insert. destruct (decide (i ∈ js /\ (i < length m)%nat)) as [H|H].
  - rewrite decide_True; [done|]. split; [by right; apply H|apply H].
  - destruct (decide (i = j)) as [-> |Hne].
    + destruct (decide (j < length m)%nat) as [Hl|Hl]; [rewrite list_lookup_insert_eq by done; rewrite decide_True; [done|]; split; [by left|done]|].
      rewrite decide_False by tauto. by rewrite list_insert_ge by lia.
    + rewrite list_lookup_insert_ne by done. rewrite decide_False; [done|]. rewrite elem_of_cons. tauto.
Qed.

Lemma lexes_tokens buf p l : lexes buf p l -> forall t, t ∈ l -> token buf t.
Proof. induction 1 as [|p k q e l Hp Hw Ht Hl IH]; intros t; [by intros []%elem_of_nil|]. intros [-> |Ht']%elem_of_cons; auto. Qed.

Lemma word_token buf q e : token buf (cA, (q, e)) -> Forall (fun c => c <> 0) buf ->
  (q < e <= length buf)%nat /\ (forall i, (q <= i < e)%nat -> word_char (char_at buf i) = true) /\ (e = length buf \/ word_char (char_at buf e) = false).
Proof.
  intros Ht Hb. inversion Ht as [? ? Hr Hall Hend|? Hs|? Hc Hn|? Hc Hn]; subst; [done|]. exfalso.
  match goal with H : char_at buf q = cA |- _ => rewrite H in Hs end. rewrite !elem_of_cons, elem_of_nil in Hs. cbv in Hs. naive_solver.
Qed.

(** Claim C37. Every string of a command that [parsecmd] returns (an argument
    or a file of a redirection) is a nonempty run of the line, is unchanged
    by [nulterminate] and ends in a NUL there: terminating one string never
    cuts another.  Every [argv] keeps room for its null pointer. *)
Theorem parsecmd_strings buf c m : Forall (fun c => c <> 0) buf -> parsecmd buf = Ok (c, m) ->
  length m = S (length buf) /\ args_fit c /\
  forall q e, (q, e) ∈ words c ->
    (q < e <= length buf)%nat /\ m !! e = Some 0 /\ forall i, (q <= i < e)%nat -> m !! i = buf !! i /\ m !! i <> Some 0.
Proof.
  intros Hb E. destruct (lexes_exists buf Hb) as [l Hl]. destruct (proj1 (proj2 (parsecmd_spec buf Hb l Hl) c m) E) as [HG ->]. unfold nulterminate.
  destruct (proj1 grammar_words l c HG) as [Hw Hf].
  assert (Htok : forall q e, (q, e) ∈ words c -> token buf (cA, (q, e))) by (intros q e Hin; by apply (lexes_tokens _ _ _ Hl), Hw).
  split_and!; [|done|].
  { rewrite <- (Nat.add_1_r (length buf)). change 1%nat with (length [0]). rewrite <- length_app. generalize (buf ++ [0]). induction (ends c) as [|j js IH]; intros m; simpl; [done|]. by rewrite IH, length_insert. }
  intros q e Hin. destruct (word_token buf q e (Htok _ _ Hin) Hb) as (Hr & Hall & Hend). split; [done|split].
  - rewrite nul_lookup, decide_True; [done|]. rewrite ends_words, length_app. simpl. split; [|lia]. apply list_elem_of_fmap. by exists (q, e).
  - intros i Hi. rewrite nul_lookup, decide_False.
    + rewrite lookup_app_l by lia. split; [done|]. intros E0. by eapply (Forall_lookup_1 _ _ _ _ Hb) in E0.
    + intros [Hi2 _]. rewrite ends_words in Hi2. apply list_elem_of_fmap in Hi2 as ([q' e'] & -> & Hin'). simpl in *.
      destruct (word_token buf q' e' (Htok _ _ Hin') Hb) as (Hr' & _ & [He|He]); [lia|]. specialize (Hall e' Hi). congruence.
Qed.

Lemma parsecmd_strings_witness : exists c m, parsecmd sh_line = Ok (c, m) /\ words c = [(0, 1); (3, 4); (6, 7); (8, 9)]%nat /\ args_fit c /\ m !! 4%nat = Some 0.
Proof.
  assert (Hb : Forall (fun c => c <> 0) sh_line) by (unfold sh_line; repeat constructor; done).
  destruct (parsecmd sh_line) as [[c m]| |] eqn:E; [|vm_compute in E; done..]. exists c, m. destruct (parsecmd_strings sh_line c m Hb E) as (_ & Hf & Hw).
  assert (words c = [(0, 1); (3, 4); (6, 7); (8, 9)]%nat) as Ew by (vm_compute in E; by injection E as <- _).
  split_and!; [done..|]. apply (Hw 3%nat 4%nat). rewrite Ew. right. by left.
Defined.

(** [>>] opens its file as [>] does: the descriptor starts at offset 0. *)
Lemma append_is_write c w o o' : o.1 = cPLUS -> o'.1 = cGT -> w.1 = cA -> forall c', Gredirs c [o; w] c' <-> Gredirs c [o'; w] c'.
Proof.
  intros Ho Ho' Hw c'. split; inversion 1 as [|? ? ? ? ? Hop _ HR]; subst; (constructor; [unfold redir_op; tauto|done|]); rewrite ?Ho, ?Ho' in *; exact HR.
Qed.
