(* ===== verification/Umalloc.v ===== *)
(** * The user memory allocator and the thread library (umalloc.c, thread.c)

    An address is an integer.  A [Header] is two words, [s.ptr] at the
    address and [s.size] four bytes above it; sizes count headers.  [sbrk]
    is a system call: given the break and its argument it gives the new
    break, or [None] when it returns -1. *)

From stdpp Require Import prelude gmap.
From S2P Require Import Prelude.

Open Scope Z_scope.

Record heap : Type := Heap {
  h_mem : gmap Z Z;
  h_freep : Z;
  h_brk : Z
}.

Definition rd (m : gmap Z Z) (a : Z) : Z := default 0 (m !! a).

Definition hptr (p : Z) : M heap Z := gets (fun s => rd (h_mem s) p).
Definition hsize (p : Z) : M heap Z := gets (fun s => rd (h_mem s) (p + 4)).
Definition wr (a v : Z) : M heap unit := modify (fun s => Heap (<[a := v]> (h_mem s)) (h_freep s) (h_brk s)).
Definition set_hptr (p v : Z) : M heap unit := wr p v.
Definition set_hsize (p v : Z) : M heap unit := wr (p + 4) v.
Definition set_freep (p : Z) : M heap unit := modify (fun s => Heap (h_mem s) p (h_brk s)).

(** The search of [free] for the free block below [bp]. *)
Fixpoint free_loop (fuel : nat) (bp p : Z) : M heap Z :=
  q ← hptr p;
  if (p <? bp) && (bp <? q) then mret p
  else if (q <=? p) && ((p <? bp) || (bp <? q)) then mret p
  else match fuel with O => fault | S f => free_loop f bp q end.

(** There are at most this many free blocks. *)
Definition block_fuel (s : heap) : nat := S (Z.to_nat (h_brk s / 8)).

Definition free (ap : Z) : M heap unit :=
  let bp := ap - 8 in
  fuel ← gets block_fuel;
  p ← gets h_freep;
  p ← free_loop fuel bp p;
  n ← hsize bp;
  q ← hptr p;
  (if u32 (bp + 8 * n) =? q then
     m ← hsize q; set_hsize bp (u32 (n + m));;
     r ← hptr q; set_hptr bp r
   else set_hptr bp q);;
  k ← hsize p;
  (if u32 (p + 8 * k) =? bp then
     n ← hsize bp; set_hsize p (u32 (k + n));;
     r ← hptr bp; set_hptr p r
   else set_hptr p bp);;
  set_freep p.

Definition nunits_of (nbytes : Z) : Z := u32 (nbytes + 8 - 1) / 8 + 1.

Section Umalloc.
Context (sbrk : Z -> Z -> option Z) (base : Z).

Definition morecore (nu : Z) : M heap Z :=
  let nu := if nu <? 4096 then 4096 else nu in
  b ← gets h_brk;
  match sbrk b (u32 (nu * 8)) with
  | None => mret 0
  | Some b' =>
      modify (fun s => Heap (h_mem s) (h_freep s) b');;
      set_hsize b nu;;
      free (b + 8);;
      gets h_freep
  end.

(** The free block [p] after [prevp] is large enough. *)
Definition take_block (nunits prevp p : Z) : M heap Z :=
  n ← hsize p;
  p ← (if n =? nunits then q ← hptr p; set_hptr prevp q;; mret p
       else
         set_hsize p (u32 (n - nunits));;
         n' ← hsize p;
         let p' := u32 (p + 8 * n') in
         set_hsize p' nunits;; mret p');
  set_freep prevp;;
  mret (p + 8).

Fixpoint malloc_loop (fuel : nat) (nunits prevp p : Z) : M heap Z :=
  n ← hsize p;
  if nunits <=? n then take_block nunits prevp p
  else
    match fuel with
    | O => fault
    | S f =>
        freep ← gets h_freep;
        if p =? freep then
          r ← morecore nunits;
          if r =? 0 then mret 0 else q ← hptr r; malloc_loop f nunits r q
        else q ← hptr p; malloc_loop f nunits p q
    end.

Definition malloc (nbytes : Z) : M heap Z :=
  let nunits := nunits_of nbytes in
  fuel ← gets block_fuel;
  prevp ← gets h_freep;
  prevp ← (if prevp =? 0 then set_freep base;; set_hptr base base;; set_hsize base 0;; mret base else mret prevp);
  p ← hptr prevp;
  malloc_loop (2 * fuel + 2) nunits prevp p.

(** ** thread.c: [clone] and [join] are system calls *)
Definition PGSIZE : Z := 4096.

Definition thread_create (clone : Z -> M heap Z) : M heap Z :=
  stack ← malloc PGSIZE;
  if stack =? 0 then mret (-1)
  else
    let stack := if negb (stack mod PGSIZE =? 0) then stack + (PGSIZE - stack mod PGSIZE) else stack in
    clone stack.
End Umalloc.

(** [join] gives the exit status of the thread and its stack. *)
Definition thread_join (join : M heap (Z * Z)) : M heap Z :=
  r ← join;
  free r.2;;
  mret r.1.

(** What [clone] writes on the stack of the new thread. *)
Definition clone_push (arg stack : Z) : M heap unit :=
  wr (stack + PGSIZE - 1 * 4) arg;;
  wr (stack + PGSIZE - 2 * 4) 4294967295.
