(* ===== verification/UmallocThms.v ===== *)
(** * The memory allocator hands out disjoint blocks and loses none

    The free list is a circular list in the order of addresses, starting at
    [base]; no two free blocks touch. *)

From stdpp Require Import prelude gmap.
From S2P Require Import Prelude Umalloc.

Open Scope Z_scope.

Notation blk := (Z * Z)%type.

(** [b] lies above [a] and does not touch it; a header takes 8 bytes. *)
Definition below (a b : blk) : Prop := a.1 + 8 * a.2 < b.1 /\ a.1 + 8 <= b.1.
Definition inside (x : Z) (b : blk) : Prop := b.1 <= x < b.1 + 8 * b.2.
Definition region (l : list blk) (x : Z) : Prop := exists b, b ∈ l /\ inside x b.

Definition head_addr (l : list blk) (e : Z) : Z := match l with b :: _ => b.1 | [] => e end.

(** The headers of [l], linked, the last to [e]. *)
Fixpoint chain (m : gmap Z Z) (l : list blk) (e : Z) : Prop :=
  match l with
  | [] => True
  | b :: l' => rd m (b.1 + 4) = b.2 /\ rd m b.1 = head_addr l' e /\ chain m l' e
  end.

Fixpoint ordered (l : list blk) : Prop :=
  match l with
  | [] => True
  | a :: l' => Forall (below a) l' /\ ordered l'
  end.

Lemma chain_app m l1 l2 e : chain m (l1 ++ l2) e <-> chain m l1 (head_addr l2 e) /\ chain m l2 e.
Proof.
  induction l1 as [|b l1 IH]; simpl; [tauto|]. rewrite IH. assert (head_addr (l1 ++ l2) e = head_addr l1 (head_addr l2 e)) as -> by (by destruct l1). tauto.
Qed.

Lemma ordered_app l1 l2 : ordered (l1 ++ l2) <-> ordered l1 /\ ordered l2 /\ forall a b, a ∈ l1 -> b ∈ l2 -> below a b.
Proof.
  induction l1 as [|a l1 IH]; simpl.
  - split; [|tauto]. intros H. split_and!; [done..|]. by intros ? ? []%elem_of_nil.
  - rewrite IH, Forall_app, !Forall_forall. setoid_rewrite elem_of_cons. naive_solver.
Qed.

(** A write outside the headers of [l] does not change the chain. *)
Lemma free_chain_frame m m' l e : chain m l e -> (forall b, b ∈ l -> rd m' b.1 = rd m b.1 /\ rd m' (b.1 + 4) = rd m (b.1 + 4)) -> chain m' l e.
Proof.
  induction l as [|b l IH]; simpl; [done|]. intros (H1 & H2 & H3) Hf. destruct (Hf b ltac:(left)) as [E1 E2]. rewrite E1, E2. split_and!; [done..|].
  apply IH; [done|]. intros b' Hb. apply Hf. by right.
Qed.

Lemma rd_insert m a v x : rd (<[a := v]> m) x = if decide (x = a) then v else rd m x.
Proof. unfold rd. destruct (decide (x = a)) as [-> |Hne]; [by rewrite lookup_insert_eq|by rewrite lookup_insert_ne]. Qed.

(** ** The invariant

    [fl] are the free blocks above [base], [al] the blocks handed out; the
    heap is the memory from [lo] to the break. *)
Record heap_ok (base lo : Z) (s : heap) (fl : list blk) (al : gmap Z Z) : Prop := {
  ho_chain : chain (h_mem s) ((base, 0) :: fl) base;
  ho_order : ordered ((base, 0) :: fl);
  ho_freep : exists n, (h_freep s, n) ∈ (base, 0) :: fl;
  ho_free : forall b, b ∈ fl -> 0 < b.2 /\ lo <= b.1 /\ b.1 + 8 * b.2 <= h_brk s;
  ho_alloc : forall a n, al !! a = Some n -> 0 < n /\ lo <= a /\ a + 8 * n <= h_brk s /\ rd (h_mem s) (a + 4) = n;
  ho_apart : forall a n x, al !! a = Some n -> inside x (a, n) -> ~ region fl x;
  ho_disj : forall a n a' n' x, al !! a = Some n -> al !! a' = Some n' -> inside x (a, n) -> inside x (a', n') -> a = a';
  ho_cover : forall x, lo <= x < h_brk s -> region fl x \/ exists a n, al !! a = Some n /\ inside x (a, n);
  ho_lo : 0 < base /\ base + 8 <= lo /\ lo <= h_brk s;
  ho_brk : h_brk s <= 2 ^ 31
}.

(** The bytes of the blocks of [al] are the same. *)
Definition keeps (al : gmap Z Z) (s s' : heap) : Prop :=
  forall a n x, al !! a = Some n -> inside x (a, n) -> rd (h_mem s') x = rd (h_mem s) x.

(** ** [free] *)
Lemma run_hptr p s : hptr p s = Ok (rd (h_mem s) p, s).
Proof. done. Qed.
Lemma run_hsize p s : hsize p s = Ok (rd (h_mem s) (p + 4), s).
Proof. done. Qed.

Lemma free_loop_eq fuel bp p s :
  free_loop fuel bp p s =
    let q := rd (h_mem s) p in
    if (p <? bp) && (bp <? q) then Ok (p, s)
    else if (q <=? p) && ((p <? bp) || (bp <? q)) then Ok (p, s)
    else match fuel with O => Fault | S f => free_loop f bp q s end.
Proof.
  destruct fuel; cbn [free_loop]; rewrite (bind_Ok _ _ _ _ _ (run_hptr p s)); cbv zeta; destruct (_ && _); [done| |done|]; by destruct (_ && _).
Qed.

Lemma head_addr_in (l : list blk) b e : exists c, c ∈ l ++ [b] /\ head_addr (l ++ [b]) e = c.1.
Proof. destruct l as [|c l]; [exists b|exists c]; (split; [by left|done]). Qed.

Section FreeLoop.
Context (s : heap) (base bp : Z) (L : list blk) (a : blk) (R : list blk).
Context (Hch : chain (h_mem s) (L ++ a :: R) base) (Hord : ordered (L ++ a :: R)) (Hbase : head_addr (L ++ [a]) base = base).
Context (Ha : a.1 < bp) (HR : forall b, b ∈ R -> bp < b.1) (Hlow : base < bp).

Lemma up_to_a x : x ∈ L ++ [a] -> x.1 <= a.1.
Proof using Hord. intros [Hx|Hx%list_elem_of_singleton]%elem_of_app; [|subst; lia]. apply ordered_app in Hord as (_ & _ & H). destruct (H x a Hx ltac:(left)). lia. Qed.

Lemma base_low : base <= a.1.
Proof using Hord Hbase. destruct (head_addr_in L a base) as (c & Hc & E). apply up_to_a in Hc. lia. Qed.

(** The link of a block. *)
Lemma link_at L1 x L2 : L ++ a :: R = L1 ++ x :: L2 -> rd (h_mem s) x.1 = head_addr L2 base /\ Forall (below x) L2.
Proof using Hch Hord. intros E. rewrite E in Hch, Hord. apply chain_app in Hch as [_ (_ & E2 & _)]. apply ordered_app in Hord as (_ & [Hb _] & _). done. Qed.

(** At [a] the search stops. *)
Lemma free_loop_here fuel : free_loop fuel bp a.1 s = Ok (a.1, s).
Proof using Hch Ha HR Hlow Hord Hbase.
  rewrite free_loop_eq. cbv zeta. destruct (link_at L a R eq_refl) as [E _]. rewrite E, (proj2 (Z.ltb_lt _ _) Ha). cbn [andb orb].
  pose proof base_low as Hle. destruct R as [|r R']; simpl.
  - destruct (bp <? base); [done|]. by rewrite (proj2 (Z.leb_le _ _) Hle).
  - specialize (HR r ltac:(left)). by rewrite (proj2 (Z.ltb_lt _ _) HR).
Qed.

(** Below [a] it goes up. *)
Lemma free_loop_up L2 : forall L1 fuel, L = L1 ++ L2 -> (length L2 <= fuel)%nat -> free_loop fuel bp (head_addr (L2 ++ [a]) base) s = Ok (a.1, s).
Proof using Hch Ha HR Hlow Hord Hbase.
  induction L2 as [|x L2 IH]; intros L1 fuel HL Hf; [apply free_loop_here|]. simpl. rewrite free_loop_eq. cbv zeta.
  destruct (link_at L1 x (L2 ++ a :: R)) as [E Hb]; [by rewrite HL, <- app_assoc|].
  assert (E2 : head_addr (L2 ++ a :: R) base = head_addr (L2 ++ [a]) base) by (by destruct L2). rewrite E, E2.
  destruct (head_addr_in L2 a base) as (c & Hc & Ec). rewrite Ec.
  assert (Hx : x.1 < c.1).
  { rewrite Forall_forall in Hb. destruct (Hb c); [|lia]. rewrite elem_of_app, list_elem_of_singleton in Hc. rewrite elem_of_app, elem_of_cons. tauto. }
  assert (Hc2 : c.1 <= a.1) by (apply up_to_a; rewrite HL, <- app_assoc; apply elem_of_app; right; by right).
  destruct (Z.ltb_spec bp c.1); [lia|]. destruct (Z.leb_spec c.1 x.1); [lia|]. rewrite andb_false_r. cbn [andb].
  destruct fuel as [|f]; [simpl in Hf; lia|]. rewrite <- Ec. apply (IH (L1 ++ [x])); [by rewrite <- app_assoc|simpl in Hf; lia].
Qed.

(** Above [a] it goes to the end and on from [base]. *)
Lemma free_loop_wrap R2 : forall R1 fuel, R = R1 ++ R2 -> (length L + length R2 <= fuel)%nat -> free_loop fuel bp (head_addr R2 base) s = Ok (a.1, s).
Proof using Hch Ha HR Hlow Hord Hbase.
  induction R2 as [|x R2 IH]; intros R1 fuel HE Hf; simpl.
  - rewrite <- Hbase. apply (free_loop_up L []); [done|lia].
  - rewrite free_loop_eq. cbv zeta. destruct (link_at (L ++ a :: R1) x R2) as [E Hb]; [by rewrite HE, <- app_assoc|]. rewrite E.
    assert (Hx : bp < x.1) by (apply HR; rewrite HE; apply elem_of_app; right; left). destruct (Z.ltb_spec x.1 bp); [lia|]. cbn [andb orb].
    assert (Hno : (head_addr R2 base <=? x.1) && (bp <? head_addr R2 base) = false).
    { destruct R2 as [|y R2']; simpl; [destruct (Z.ltb_spec bp base); [lia|by rewrite andb_false_r]|].
      apply Forall_cons in Hb as [[_ Hb] _]. destruct (Z.leb_spec y.1 x.1); [lia|done]. }
    rewrite Hno. simpl in Hf. destruct fuel as [|f]; [lia|]. apply (IH (R1 ++ [x])); [by rewrite <- app_assoc|lia].
Qed.

Lemma free_loop_run fuel p n : (p, n) ∈ L ++ a :: R -> (length L + length R <= fuel)%nat -> free_loop fuel bp p s = Ok (a.1, s).
Proof using Hch Ha HR Hlow Hord Hbase.
  intros Hp Hf. apply list_elem_of_split in Hp as (L1 & L2 & E). apply app_eq_inv in E as [(k & E1 & E2)|(k & E1 & E2)].
  - destruct k as [|k K]; simpl in *; injection E2 as Ea E2; [change p with (p, n).1; rewrite Ea; apply free_loop_here|].
    apply (free_loop_up ((p, n) :: K) L1); [by rewrite Ea|]. rewrite E1, length_app in Hf. simpl in *; lia.
  - destruct k as [|k K]; simpl in *; injection E2 as Ea E2; [change p with (p, n).1; rewrite <- Ea; apply free_loop_here|].
    apply (free_loop_wrap ((p, n) :: L2) K); [done|]. rewrite E2, length_app in Hf. simpl in *; lia.
Qed.
End FreeLoop.

(** The blocks that [free] makes of [b] and the list above it, and of the
    block below and the result. *)
Definition merge_blk (b : blk) (l : list blk) : list blk :=
  match l with
  | r :: l' => if b.1 + 8 * b.2 =? r.1 then (b.1, b.2 + r.2) :: l' else b :: l
  | [] => [b]
  end.

Lemma region_nil x : region [] x <-> False.
Proof. split; [|done]. by intros (b & []%elem_of_nil & _). Qed.
Lemma region_cons b l x : region (b :: l) x <-> inside x b \/ region l x.
Proof. unfold region. setoid_rewrite elem_of_cons. naive_solver. Qed.
Lemma region_app l1 l2 x : region (l1 ++ l2) x <-> region l1 x \/ region l2 x.
Proof. unfold region. setoid_rewrite elem_of_app. naive_solver. Qed.

Lemma join_region b l x : 0 <= b.2 -> (forall r, r ∈ l -> 0 <= r.2) -> region (merge_blk b l) x <-> inside x b \/ region l x.
Proof.
  intros Hb Hl. destruct l as [|r l']; cbn [merge_blk]; [by rewrite region_cons|]. destruct (Z.eqb_spec (b.1 + 8 * b.2) r.1) as [E|E]; rewrite !region_cons; [|done].
  specialize (Hl r ltac:(left)). unfold inside. simpl. assert (b.1 <= x < b.1 + 8 * (b.2 + r.2) <-> b.1 <= x < b.1 + 8 * b.2 \/ r.1 <= x < r.1 + 8 * r.2) by lia. tauto.
Qed.

Lemma join_head b l e : head_addr (merge_blk b l) e = b.1.
Proof. destruct l as [|r l']; [done|]. cbn [merge_blk]. by destruct (_ =? _). Qed.

Lemma join_length b l : (length (merge_blk b l) <= S (length l))%nat.
Proof. destruct l as [|r l']; [done|]. cbn [merge_blk]. destruct (_ =? _); simpl; lia. Qed.

Lemma join_in b l c : c ∈ merge_blk b l -> c.1 = b.1 \/ c ∈ l.
Proof.
  destruct l as [|r l']; cbn [merge_blk]; [intros ->%list_elem_of_singleton; by left|]. destruct (_ =? _); rewrite !elem_of_cons; intros [-> |?]; simpl; auto.
Qed.

Lemma join_ordered b l : ordered l -> (forall r, r ∈ l -> b.1 + 8 * b.2 <= r.1 /\ b.1 + 8 <= r.1 /\ 0 < r.2) -> ordered (merge_blk b l).
Proof.
  intros Ho Hl. destruct l as [|r l']; cbn [merge_blk]; [by repeat constructor|]. destruct (Z.eqb_spec (b.1 + 8 * b.2) r.1) as [E|E].
  - destruct Ho as [Hr Ho]. split; [|done]. rewrite Forall_forall in *. intros c Hc. destruct (Hr c Hc) as [H1 H2]. destruct (Hl r ltac:(left)) as (_ & ? & ?). split; simpl; lia.
  - split; [|done]. rewrite Forall_forall. destruct Ho as [Hr Ho]. rewrite Forall_forall in Hr. pose proof (Hl r ltac:(left)) as (? & ? & ?).
    intros c [-> |Hc]%elem_of_cons; split; [lia|lia| |]; destruct (Hr c Hc); lia.
Qed.

(** Below [c] before the merge, below all after it. *)
Lemma join_below c b l : (forall r, r ∈ l -> below c r) -> below c b -> Forall (below c) (merge_blk b l).
Proof.
  intros Hl Hb. rewrite Forall_forall. intros d [E|Hd]%join_in; [|auto]. destruct Hb. split; lia.
Qed.

(** A block to be freed lies between two free blocks. *)
Lemma ordered_split l bp : ordered l -> (exists b, head l = Some b /\ b.1 < bp) -> (forall b, b ∈ l -> b.1 <> bp) ->
  exists L a R, l = L ++ a :: R /\ a.1 < bp /\ forall r, r ∈ R -> bp < r.1.
Proof.
  induction l as [|b l IH]; intros Ho (b0 & Hh & Hb0) Hne; [done|]. injection Hh as <-. destruct Ho as [Hb Ho]. rewrite Forall_forall in Hb.
  destruct l as [|c l']; [exists [], b, []; split_and!; [done..|by intros ? []%elem_of_nil]|].
  destruct (decide (c.1 < bp)) as [Hc|Hc].
  - destruct IH as (L & a & R & E & Ha & HR); [done|by exists c|intros; apply Hne; by right|]. exists (b :: L), a, R. by rewrite E.
  - exists [], b, (c :: l'). split_and!; [done..|]. pose proof (Hne c ltac:(right; left)). intros r [-> |Hr]%elem_of_cons; [lia|].
    destruct Ho as [Hc2 _]. rewrite Forall_forall in Hc2. destruct (Hc2 r Hr). lia.
Qed.

(** One half of [free]: merge [b] with the block [x] that follows it, or link it. *)
Definition merge (b x : Z) : M heap unit :=
  k ← hsize b;
  if u32 (b + 8 * k) =? x then m ← hsize x; set_hsize b (u32 (k + m));; r ← hptr x; set_hptr b r
  else set_hptr b x.

Definition only_at (b : Z) (s s' : heap) : Prop :=
  h_freep s' = h_freep s /\ h_brk s' = h_brk s /\ forall x, x <> b -> x <> b + 4 -> rd (h_mem s') x = rd (h_mem s) x.

Lemma merge_run s b k l e : rd (h_mem s) (b + 4) = k -> chain (h_mem s) l e -> (forall r, r ∈ l -> b + 8 <= r.1 /\ 0 <= r.2 /\ r.1 + 8 * r.2 <= 2 ^ 31) ->
  (l = [] -> b + 8 * k <> e) -> 0 <= b -> 0 <= k -> b + 8 * k <= 2 ^ 31 ->
  exists s', merge b (head_addr l e) s = Ok (tt, s') /\ chain (h_mem s') (merge_blk (b, k) l) e /\ only_at b s s'.
Proof.
  intros Hk Hc Hl He Hb0 Hk0 Hb. unfold merge, only_at. rewrite (bind_Ok _ _ _ _ _ (run_hsize b s)). rewrite Hk, u32_small by lia. destruct l as [|r l]; cbn [head_addr merge_blk].
  - rewrite (proj2 (Z.eqb_neq _ _)) by auto. eexists. split; [reflexivity|]. cbn. rewrite !rd_insert, decide_False by lia. rewrite decide_True by done.
    split_and!; try done. intros x H1 H2. by rewrite rd_insert, decide_False.
  - cbn [fst snd]. destruct (Hl r ltac:(left)) as (Hr1 & Hr2 & Hr3). destruct Hc as (Hs & Hp & Hc).
    assert (Hfr : forall m', (forall x, x <> b -> x <> b + 4 -> rd m' x = rd (h_mem s) x) -> chain m' l e).
    { intros m' Hm. apply (free_chain_frame (h_mem s)); [done|]. intros c Hcl. destruct (Hl c ltac:(by right)) as (? & _). split; apply Hm; lia. }
    destruct (Z.eqb_spec (b + 8 * k) r.1) as [E|E].
    + rewrite (bind_Ok _ _ _ _ _ (run_hsize r.1 s)), Hs. unfold set_hsize, set_hptr, wr, hptr. mrun. cbn [h_mem h_freep h_brk]. eexists. split; [reflexivity|].
      rewrite (rd_insert _ (b + 4)), decide_False by lia. rewrite Hp. cbn. rewrite !rd_insert, decide_False by lia. rewrite !decide_True by done. rewrite u32_small by lia.
      split_and!; [done|done| |done|done|]; [|intros x H1 H2; rewrite !rd_insert, !decide_False by done; done].
      apply Hfr. intros x H1 H2. by rewrite !rd_insert, !decide_False.
    + eexists. split; [reflexivity|]. cbn. rewrite !rd_insert. rewrite !(decide_False (P := _ + 4 = b)) by lia. rewrite decide_True by done. rewrite decide_False by lia.
      split_and!; try done; [|intros x H1 H2; by rewrite rd_insert, decide_False]. apply Hfr. intros x H1 H2. by rewrite rd_insert, decide_False.
Qed.

Lemma free_merge ap s p : free_loop (block_fuel s) (ap - 8) (h_freep s) s = Ok (p, s) ->
  free ap s = (merge (ap - 8) (rd (h_mem s) p);; merge p (ap - 8);; set_freep p) s.
Proof.
  intros E. unfold free. cbv zeta. rewrite (bind_Ok _ _ s (block_fuel s) s) by done. rewrite (bind_Ok _ _ s (h_freep s) s) by done. rewrite (bind_Ok _ _ _ _ _ E).
  unfold merge. rewrite !(bind_Ok _ _ _ _ _ (run_hsize _ _)). rewrite (bind_Ok _ _ _ _ _ (run_hptr _ _)).
  unfold mbind, M_bind. rewrite run_hsize. by destruct (_ =? _).
Qed.

Lemma ordered_count l lo hi : ordered l -> lo <= hi -> (forall b, b ∈ l -> lo <= b.1 /\ b.1 + 8 <= hi) -> 8 * Z.of_nat (length l) <= hi - lo.
Proof.
  revert lo. induction l as [|b l IH]; intros lo Ho Hlh Hb; simpl; [lia|]. destruct Ho as [Hf Ho]. rewrite Forall_forall in Hf. pose proof (Hb b ltac:(left)).
  specialize (IH (b.1 + 8) Ho ltac:(lia)). rewrite Nat2Z.inj_succ. enough (8 * Z.of_nat (length l) <= hi - (b.1 + 8)) by lia.
  apply IH. intros c Hc. destruct (Hf c Hc). destruct (Hb c ltac:(by right)). lia.
Qed.

(** What [free] makes of the list, by the order of the blocks. *)
Lemma join_in2 bp n l c : (forall r, r ∈ l -> 0 < r.2) -> c ∈ merge_blk (bp, n) l -> c.1 = bp /\ n <= c.2 \/ c ∈ l.
Proof.
  destruct l as [|r l']; cbn [merge_blk]; [intros _ ->%list_elem_of_singleton; left; simpl; lia|]. intros Hl. specialize (Hl r ltac:(left)).
  destruct (_ =? _); rewrite !elem_of_cons; intros [-> |?]; simpl; auto; left; lia.
Qed.

Lemma freed_pure bp n L a R : 0 < n -> ordered (L ++ a :: R) -> 0 <= a.2 -> a.1 + 8 * a.2 <= bp -> a.1 + 8 <= bp -> (forall r, r ∈ R -> bp + 8 * n <= r.1 /\ 0 < r.2) ->
  ordered (L ++ merge_blk a (merge_blk (bp, n) R)) /\
  (forall x, region (L ++ merge_blk a (merge_blk (bp, n) R)) x <-> region (L ++ a :: R) x \/ inside x (bp, n)) /\
  (forall b, b ∈ merge_blk a (merge_blk (bp, n) R) -> b = a \/ b.1 = a.1 /\ 0 < b.2 \/ bp <= b.1 /\ 0 < b.2) /\
  (exists b, b ∈ L ++ merge_blk a (merge_blk (bp, n) R) /\ n <= b.2).
Proof.
  intros Hn Ho Ha0 Ha1 Ha2 HR. apply ordered_app in Ho as (HoL & [HaR HoR] & HLa). assert (HR0 : forall r, r ∈ R -> 0 < r.2) by (intros; by apply HR).
  assert (Hj : forall c, c ∈ merge_blk (bp, n) R -> bp <= c.1 /\ 0 < c.2) by (intros c [[? ?]|Hc]%join_in2; [lia|destruct (HR c Hc); lia|done]).
  split_and!.
  - apply ordered_app. split_and!; [done| |].
    + apply join_ordered; [apply join_ordered; [done|]|]; intros r Hr; simpl; [destruct (HR r Hr)|destruct (Hj r Hr)]; lia.
    + intros c d Hc Hd. pose proof (HLa c a Hc ltac:(left)) as [? ?]. apply join_in in Hd as [Ed|Hd]; [split; lia|]. destruct (Hj d Hd). split; lia.
  - intros x. rewrite !region_app, region_cons. rewrite join_region; [|done|intros r Hr; destruct (Hj r Hr); lia].
    rewrite join_region; [tauto|simpl; lia|intros r Hr; specialize (HR0 r Hr); lia].
  - intros b. destruct (merge_blk (bp, n) R) as [|c l]; cbn [merge_blk]; [intros ->%list_elem_of_singleton; by left|]. pose proof (Hj c ltac:(left)).
    destruct (_ =? _); rewrite !elem_of_cons; [intros [-> |Hb]; [right; left; simpl; lia|]|intros [-> |[-> |Hb]]; [by left|by right; right|]]; right; right; apply Hj; by right.
  - assert (exists b R', merge_blk (bp, n) R = b :: R' /\ n <= b.2) as (b & R' & Eb & Hb).
    { destruct R as [|r R']; [by eexists _, _|]. cbn [merge_blk]. specialize (HR0 r ltac:(left)). destruct (_ =? _); eexists _, _; (split; [reflexivity|]); simpl; lia. }
    rewrite Eb. cbn [merge_blk]. destruct (_ =? _); [exists (a.1, a.2 + b.2)|exists b]; rewrite elem_of_app, !elem_of_cons; simpl; (split; [tauto|lia]).
Qed.

Section HeapOk.
Context (base lo : Z) (s : heap) (fl : list blk) (al : gmap Z Z).
Context (H : heap_ok base lo s fl al).
Notation F := ((base, 0) :: fl).

Lemma ok_order_all b : b ∈ fl -> base + 8 <= b.1.
Proof using H. intros Hb. pose proof (ho_order _ _ _ _ _ H) as [Hf _]. rewrite Forall_forall in Hf. by destruct (Hf b Hb). Qed.

Lemma ok_fuel : (length F <= block_fuel s)%nat.
Proof using H.
  pose proof (ho_lo _ _ _ _ _ H) as (? & ? & ?). pose proof (ho_order _ _ _ _ _ H) as [_ Ho].
  pose proof (ordered_count fl lo (h_brk s) Ho ltac:(lia)) as Hc. unfold block_fuel. simpl.
  assert (8 * Z.of_nat (length fl) <= h_brk s - lo) as Hl by (apply Hc; intros b Hb; destruct (ho_free _ _ _ _ _ H b Hb) as (? & ? & ?); lia).
  assert (Z.of_nat (length fl) <= h_brk s / 8) by (apply Z.div_le_lower_bound; lia). lia.
Qed.

(** The free block below an allocated one, and those above it. *)
Lemma ok_split bp n : al !! bp = Some n -> exists L a R, F = L ++ a :: R /\ a.1 + 8 * a.2 <= bp /\ a.1 + 8 <= bp /\ (forall r, r ∈ R -> bp + 8 * n <= r.1 /\ r ∈ fl).
Proof using H.
  intros Ha. destruct (ho_alloc _ _ _ _ _ H bp n Ha) as (Hn & Hlo & Hhi & _). pose proof (ho_lo _ _ _ _ _ H) as (? & ? & ?).
  assert (Hne : forall b, b ∈ fl -> b.1 + 8 * b.2 <= bp \/ bp + 8 * n <= b.1).
  { intros b Hb. destruct (ho_free _ _ _ _ _ H b Hb) as (Hp & _). destruct (decide (b.1 + 8 * b.2 <= bp)); [by left|]. destruct (decide (bp + 8 * n <= b.1)); [by right|].
    exfalso. apply (ho_apart _ _ _ _ _ H bp n (Z.max bp b.1) Ha); [unfold inside; simpl; lia|]. exists b. split; [done|]. unfold inside. lia. }
  destruct (ordered_split F bp (ho_order _ _ _ _ _ H)) as (L & a & R & E & Hab & HR); [exists (base, 0); split; [done|simpl; lia]| |].
  { intros b [-> |Hb]%elem_of_cons; simpl; [lia|]. pose proof (ho_free _ _ _ _ _ H b Hb) as (? & _). destruct (Hne b Hb); lia. }
  exists L, a, R. split; [done|]. assert (Hin : a ∈ F) by (rewrite E; apply elem_of_app; right; left).
  assert (HRf : forall r, r ∈ R -> r ∈ fl).
  { intros r Hr. assert (Hf : r ∈ F) by (rewrite E; apply elem_of_app; right; by right). apply elem_of_cons in Hf as [-> |]; [|done]. specialize (HR _ Hr). simpl in HR. lia. }
  apply elem_of_cons in Hin as [-> |Hin]; simpl in *; [split_and!; [lia|lia|]|pose proof (ho_free _ _ _ _ _ H a Hin) as (? & _); destruct (Hne a Hin); split_and!; try lia].
  all: intros r Hr; split; [|by apply HRf]; specialize (HR r Hr); destruct (Hne r (HRf r Hr)); [|done]; pose proof (ho_free _ _ _ _ _ H r (HRf r Hr)) as (? & _); lia.
Qed.

(** The list after [free], with [base] at its head. *)
Lemma freed_list bp n L a R : 0 < n -> lo <= bp -> F = L ++ a :: R -> a.1 + 8 * a.2 <= bp -> a.1 + 8 <= bp -> (forall r, r ∈ R -> bp + 8 * n <= r.1 /\ r ∈ fl) ->
  exists fl', L ++ merge_blk a (merge_blk (bp, n) R) = (base, 0) :: fl' /\ ordered ((base, 0) :: fl') /\
    (forall x, region fl' x <-> region fl x \/ inside x (bp, n)) /\
    (forall b, b ∈ fl' -> 0 < b.2 /\ lo <= b.1) /\ (length fl' <= S (length fl))%nat /\ (exists b, b ∈ fl' /\ n <= b.2).
Proof using H.
  intros Hn Hlo E Ha1 Ha2 HR. pose proof (ho_order _ _ _ _ _ H) as Ho. pose proof (ho_lo _ _ _ _ _ H) as (? & ? & _). rewrite E in Ho.
  assert (Hfl : forall b, b ∈ fl -> 0 < b.2 /\ lo <= b.1) by (intros b Hb; pose proof (ho_free _ _ _ _ _ H b Hb); lia).
  assert (HR2 : forall r, r ∈ R -> bp + 8 * n <= r.1 /\ 0 < r.2) by (intros r Hr; destruct (HR r Hr) as [? Hf]; split; [done|by apply Hfl]).
  assert (Ha0 : 0 <= a.2).
  { assert (HaF : a ∈ F) by (rewrite E; apply elem_of_app; right; left). apply elem_of_cons in HaF as [-> |Haf]; [done|]. apply Hfl in Haf. lia. }
  destruct (freed_pure bp n L a R Hn Ho Ha0 Ha1 Ha2 HR2) as (Ho' & Hreg & Hin & c & Hc & Hcn). clear Ho.
  assert (Hbase : forall x, ~ inside x (base, 0)) by (unfold inside; simpl; lia).
  assert (Hx : exists fl', L ++ merge_blk a (merge_blk (bp, n) R) = (base, 0) :: fl' /\ forall b, b ∈ fl' -> 0 < b.2 /\ lo <= b.1).
  { destruct L as [|b0 L'].
    - injection E as <- ->. exists (merge_blk (bp, n) R). split; [|intros b Hb; apply join_in2 in Hb as [[? ?]|Hb]; [lia|by apply Hfl, HR|intros r Hr; by apply HR2]].
      destruct (merge_blk (bp, n) R) as [|d l] eqn:Ej; [done|]. cbn [merge_blk app]. rewrite (proj2 (Z.eqb_neq _ _)); [done|]. change d.1 with (head_addr (d :: l) 0). rewrite <- Ej, join_head. simpl in *. lia.
    - injection E as <- E. exists (L' ++ merge_blk a (merge_blk (bp, n) R)). split; [done|]. assert (Haf : a ∈ fl) by (rewrite E; apply elem_of_app; right; left). apply Hfl in Haf as [? ?].
      intros b [Hb|Hb]%elem_of_app; [apply Hfl; rewrite E; apply elem_of_app; by left|]. destruct (Hin b Hb) as [-> |[?|?]]; lia. }
  destruct Hx as (fl' & E' & Hpos). exists fl'. rewrite E' in Ho', Hreg, Hc. split; [done|]. split; [exact Ho'|]. split; [|split; [done|split]].
  - intros x. specialize (Hreg x). rewrite <- E, !region_cons in Hreg. specialize (Hbase x). tauto.
  - apply (f_equal length) in E, E'. rewrite length_app in E, E'. simpl in E, E'. pose proof (join_length a (merge_blk (bp, n) R)). pose proof (join_length (bp, n) R). lia.
  - exists c. apply elem_of_cons in Hc as [-> |Hc]; [simpl in *; lia|done].
Qed.

(** [free] changes the headers of the block and of the one below it. *)
Lemma free_mem bp n : al !! bp = Some n -> exists L a R s', F = L ++ a :: R /\ a.1 + 8 * a.2 <= bp /\ a.1 + 8 <= bp /\ (forall r, r ∈ R -> bp + 8 * n <= r.1 /\ r ∈ fl) /\
  free (bp + 8) s = Ok (tt, s') /\ chain (h_mem s') (L ++ merge_blk a (merge_blk (bp, n) R)) base /\ h_freep s' = a.1 /\ h_brk s' = h_brk s /\
  (forall x, x <> bp -> x <> bp + 4 -> x <> a.1 -> x <> a.1 + 4 -> rd (h_mem s') x = rd (h_mem s) x).
Proof using H.
  intros Hal. destruct (ok_split bp n Hal) as (L & a & R & E & Ha1 & Ha2 & HR). destruct (ho_alloc _ _ _ _ _ H bp n Hal) as (Hn & Hlo & Hhi & Hsz).
  pose proof (ho_lo _ _ _ _ _ H) as (? & ? & ?). pose proof (ho_brk _ _ _ _ _ H) as Hbrk. pose proof (ho_chain _ _ _ _ _ H) as Hch. pose proof (ho_order _ _ _ _ _ H) as Ho. rewrite E in Hch, Ho.
  assert (Hloop : free_loop (block_fuel s) bp (h_freep s) s = Ok (a.1, s)).
  { destruct (ho_freep _ _ _ _ _ H) as [k Hk]. rewrite E in Hk. apply (free_loop_run s base bp L a R Hch Ho) with k; try done.
    - change base with (head_addr F base). rewrite E. by destruct L.
    - lia.
    - intros r Hr. destruct (HR r Hr). lia.
    - lia.
    - pose proof ok_fuel as Hf. rewrite E, length_app in Hf. simpl in Hf. lia. }
  assert (HRb : forall r, r ∈ R -> bp + 8 <= r.1 /\ 0 <= r.2 /\ r.1 + 8 * r.2 <= 2 ^ 31) by (intros r Hr; destruct (HR r Hr) as [? Hf]; pose proof (ho_free _ _ _ _ _ H r Hf); lia).
  apply chain_app in Hch as [HcL (Has & Hap & HcR)].
  destruct (merge_run s bp n R base Hsz HcR HRb) as (s1 & E1 & Hc1 & Hf1 & Hb1 & Hm1); [intros; lia..|].
  assert (Hpa : 0 < a.1 /\ 0 <= a.2).
  { assert (HaF : a ∈ F) by (rewrite E; apply elem_of_app; right; left). apply elem_of_cons in HaF as [-> |Haf]; [simpl; lia|]. pose proof (ho_free _ _ _ _ _ H a Haf). lia. }
  assert (Hj : forall r, r ∈ merge_blk (bp, n) R -> a.1 + 8 <= r.1 /\ 0 <= r.2 /\ r.1 + 8 * r.2 <= 2 ^ 31).
  { destruct R as [|r0 R']; cbn [merge_blk]; [intros r ->%list_elem_of_singleton; simpl; lia|]. pose proof (HRb r0 ltac:(left)) as Hr0. simpl. destruct (Z.eqb_spec (bp + 8 * n) r0.1).
    - intros r [-> |Hr]%elem_of_cons; simpl; [lia|]. specialize (HRb r ltac:(by right)). lia.
    - intros r [-> |Hr]%elem_of_cons; simpl; [lia|]. specialize (HRb r Hr). lia. }
  destruct (merge_run s1 a.1 a.2 (merge_blk (bp, n) R) base) as (s2 & E2 & Hc2 & Hf2 & Hb2 & Hm2); [rewrite Hm1; [done|lia..]|done|done|by destruct R; simpl; [|destruct (_ =? _)]|lia..|].
  exists L, a, R, (Heap (h_mem s2) a.1 (h_brk s2)). rewrite join_head in E2. split_and!; try done.
  - rewrite (free_merge (bp + 8) s a.1); replace (bp + 8 - 8) with bp by lia; [|done]. rewrite Hap, (bind_Ok _ _ _ _ _ E1). change (bp, n).1 with bp in E2. by rewrite (bind_Ok _ _ _ _ _ E2).
  - apply chain_app. rewrite (surjective_pairing a), join_head. split; [|done]. simpl. apply (free_chain_frame (h_mem s)); [done|]. intros b Hb. apply ordered_app in Ho as (_ & _ & HLa).
    destruct (HLa b a Hb ltac:(left)). split; (rewrite Hm2 by lia; apply Hm1; lia).
  - simpl. congruence.
  - intros x ? ? ? ?. simpl. rewrite Hm2 by done. by apply Hm1.
Qed.

Lemma free_run bp n : al !! bp = Some n -> exists s' fl', free (bp + 8) s = Ok (tt, s') /\ heap_ok base lo s' fl' (delete bp al) /\ keeps (delete bp al) s s' /\
  h_brk s' = h_brk s /\ (length fl' <= S (length fl))%nat /\ exists b, b ∈ fl' /\ n <= b.2.
Proof using H.
  intros Hal. destruct (free_mem bp n Hal) as (L & a & R & s' & E & Ha1 & Ha2 & HR & Erun & Hch & Hfp & Hbrk & Hmem). destruct (ho_alloc _ _ _ _ _ H bp n Hal) as (Hn & Hlo & Hhi & Hsz).
  destruct (freed_list bp n L a R Hn Hlo E Ha1 Ha2 HR) as (fl' & E' & Hord & Hreg & Hpos & Hlen & Hbig). pose proof (ho_lo _ _ _ _ _ H) as Hl.
  assert (Hkeep : keeps (delete bp al) s s').
  { intros a' n' x Hd Hx. apply lookup_delete_Some in Hd as [Hne Hd]. assert (Hd' : forall y, inside y (bp, n) -> x <> y) by (intros y Hy ->; by eapply Hne, (ho_disj _ _ _ _ _ H)).
    destruct (ho_alloc _ _ _ _ _ H a' n' Hd) as (_ & Hlo' & _). unfold inside in Hx, Hd'; simpl in *.
    assert (Hxa : x <> a.1 /\ x <> a.1 + 4).
    { assert (HaF : a ∈ F) by (rewrite E; apply elem_of_app; right; left). apply elem_of_cons in HaF as [-> |Haf]; [simpl; lia|]. pose proof (ho_free _ _ _ _ _ H a Haf) as (? & _).
      split; intros ->; apply (ho_apart _ _ _ _ _ H a' n' _ Hd Hx); exists a; (split; [done|unfold inside; lia]). }
    apply Hmem; [apply Hd'; lia|apply Hd'; lia|apply Hxa|apply Hxa]. }
  exists s', fl'. split_and!; try done. rewrite E' in Hch. split; try done.
  - rewrite Hfp. assert (Hin : exists k, (a.1, k) ∈ merge_blk a (merge_blk (bp, n) R)).
    { clear. destruct a as [a1 a2], (merge_blk (bp, n) R) as [|c l]; cbn [merge_blk]; [|destruct (_ =? _)]; eexists; by left. }
    destruct Hin as [k Hk]. exists k. rewrite <- E'. apply elem_of_app. by right.
  - intros b Hb. destruct (Hpos b Hb) as [? ?]. split_and!; [done..|]. rewrite Hbrk. destruct (proj1 (Hreg (b.1 + 8 * b.2 - 1))) as [(c & Hc & Hi)|Hi]; [exists b; split; [done|unfold inside; lia]|..]; unfold inside in Hi; simpl in Hi; [|lia].
    pose proof (ho_free _ _ _ _ _ H c Hc). lia.
  - intros a' n' Hd. pose proof Hd as [Hne Hd']%lookup_delete_Some. destruct (ho_alloc _ _ _ _ _ H a' n' Hd') as (? & ? & ? & Hs). rewrite Hbrk. split_and!; [done..|].
    rewrite (Hkeep a' n' _ Hd); [done|unfold inside; simpl; lia].
  - intros a' n' x Hd Hx Hr. apply lookup_delete_Some in Hd as [Hne Hd]. apply Hreg in Hr as [Hr|Hr]; [by eapply (ho_apart _ _ _ _ _ H)|]. by eapply Hne, (ho_disj _ _ _ _ _ H).
  - intros a1 n1 a2 n2 x Hd1 Hd2. apply lookup_delete_Some in Hd1 as [_ ?], Hd2 as [_ ?]. by eapply (ho_disj _ _ _ _ _ H).
  - intros x. rewrite Hbrk. intros Hx. destruct (ho_cover _ _ _ _ _ H x Hx) as [Hr|(a' & n' & Hd & Hi)]; [left; apply Hreg; by left|].
    destruct (decide (a' = bp)) as [-> |Hne]; [left; apply Hreg; right; by simplify_eq|right; exists a', n'; split; [by rewrite lookup_delete_ne|done]].
  - by rewrite Hbrk.
  - rewrite Hbrk. apply H.
Qed.

(** ** [malloc] *)

(** A block that a free block points to, but for [base], follows it. *)
Lemma link_split pr k p n : (pr, k) ∈ F -> rd (h_mem s) pr = p -> (p, n) ∈ fl -> exists Q1 Q3, F = Q1 ++ (pr, k) :: (p, n) :: Q3.
Proof using H.
  intros Hpr Hp Hin. pose proof (ok_order_all (p, n) Hin) as Hb. pose proof (ho_chain _ _ _ _ _ H) as Hch. pose proof (ho_order _ _ _ _ _ H) as Ho.
  assert (Hsz : rd (h_mem s) (p + 4) = n).
  { assert (Hf : (p, n) ∈ F) by by right. apply list_elem_of_split in Hf as (X & Y & E). rewrite E in Hch. by apply chain_app in Hch as [_ (? & _)]. }
  apply list_elem_of_split in Hpr as (Q1 & Q2 & E). rewrite E in Hch. apply chain_app in Hch as [_ (_ & Hl & Hc2)]. simpl in Hl. rewrite Hp in Hl.
  destruct Q2 as [|[p' n'] Q3]; simpl in *; [lia|]. subst p'. destruct Hc2 as (Hn' & _). exists Q1, Q3. rewrite E. simpl in Hn'. congruence.
Qed.

(** The free list without the last [u] units of the block [p]. *)
Definition cut (n u p : Z) : list blk := if n =? u then [] else [(p, n - u)].

Lemma cut_list Q1 pr k p n u Q3 : F = Q1 ++ (pr, k) :: (p, n) :: Q3 -> 0 < u <= n ->
  exists fl', (base, 0) :: fl' = Q1 ++ (pr, k) :: cut n u p ++ Q3 /\ ordered ((base, 0) :: fl') /\ (forall b, b ∈ fl' -> 0 < b.2 /\ lo <= b.1 /\ b.1 + 8 * b.2 <= h_brk s) /\
    (forall x, region fl x <-> region fl' x \/ inside x (p + 8 * (n - u), u)) /\ forall x, region fl' x -> ~ inside x (p + 8 * (n - u), u).
Proof using H.
  intros E Hu. pose proof (ho_order _ _ _ _ _ H) as Ho.
  assert (Hx : exists X, fl = X ++ (p, n) :: Q3 /\ (base, 0) :: X = Q1 ++ [(pr, k)]).
  { destruct Q1 as [|q Q1]; injection E; [intros -> <- <-; by exists []|]. intros Efl <-. exists (Q1 ++ [(pr, k)]). rewrite Efl, <- app_assoc. done. }
  destruct Hx as (X & Efl & EX). exists (X ++ cut n u p ++ Q3).
  assert (Hb : forall b, b ∈ X ++ cut n u p ++ Q3 -> b ∈ fl \/ b = (p, n - u) /\ u < n).
  { intros b. rewrite Efl, !elem_of_app, elem_of_cons. unfold cut. destruct (Z.eqb_spec n u); rewrite ?elem_of_nil, ?list_elem_of_singleton; [tauto|]. intros [?|[->|?]]; [tauto| |tauto]. right. split; [done|lia]. }
  assert (Hpf : (p, n) ∈ fl) by (rewrite Efl; apply elem_of_app; right; left). destruct (ho_free _ _ _ _ _ H _ Hpf) as (_ & Hplo & Hphi). simpl in *.
  split_and!.
  - change ((base, 0) :: X ++ cut n u p ++ Q3) with (((base, 0) :: X) ++ cut n u p ++ Q3). by rewrite EX, <- app_assoc.
  - destruct Ho as [Hf _]. rewrite Forall_forall in *. intros b [Hbf|[-> ?]]%Hb; [auto|]. destruct (Hf _ Hpf). split; simpl in *; lia.
  - destruct Ho as [_ Ho]. rewrite Efl in Ho. apply ordered_app in Ho as (HoX & [Hp Ho3] & HXp). rewrite Forall_forall in Hp. apply ordered_app. unfold cut. destruct (Z.eqb_spec n u) as [|Hne]; simpl.
    + split_and!; [done..|]. intros c d Hc Hd. apply HXp; [done|by right].
    + split_and!; [done| |done|].
      * rewrite Forall_forall. intros r Hr. destruct (Hp r Hr). split; simpl in *; lia.
      * intros c d Hc. rewrite elem_of_cons. intros [-> |Hd]; [|apply HXp; [done|by right]]. destruct (HXp c (p, n) Hc ltac:(left)). split; simpl in *; lia.
  - intros b [Hbf|[-> ?]]%Hb; [by apply (ho_free _ _ _ _ _ H)|simpl; lia].
  - intros x. rewrite Efl, !region_app, region_cons. unfold cut. destruct (Z.eqb_spec n u) as [-> |Hne].
    + replace (p + 8 * (u - u)) with p by lia. rewrite region_nil. tauto.
    + rewrite region_cons, region_nil. assert (inside x (p, n) <-> inside x (p, n - u) \/ inside x (p + 8 * (n - u), u)) by (unfold inside; simpl; lia). tauto.
  - intros x (b & Hbx & Hi) Hq. destruct Ho as [_ Ho]. rewrite Efl in Ho. apply ordered_app in Ho as (_ & [Hp _] & HXp). rewrite Forall_forall in Hp. unfold inside in *. simpl in *.
    rewrite !elem_of_app in Hbx. destruct Hbx as [Hx|[Hx|Hx]]; [destruct (HXp b (p, n) Hx ltac:(left)); simpl in *; lia| |destruct (Hp b Hx); simpl in *; lia].
    unfold cut in Hx. destruct (n =? u); [by apply elem_of_nil in Hx|]. apply list_elem_of_singleton in Hx as ->. simpl in *. lia.
Qed.

Lemma take_mem Q1 pr k p n u Q3 : F = Q1 ++ (pr, k) :: (p, n) :: Q3 -> 0 < u <= n ->
  exists s', take_block u pr p s = Ok (p + 8 * (n - u) + 8, s') /\ chain (h_mem s') (Q1 ++ (pr, k) :: cut n u p ++ Q3) base /\ h_freep s' = pr /\ h_brk s' = h_brk s /\
    rd (h_mem s') (p + 8 * (n - u) + 4) = u /\
    forall x, x <> pr -> x <> p + 4 -> x <> p + 8 * (n - u) + 4 -> rd (h_mem s') x = rd (h_mem s) x.
Proof using H.
  intros E Hu. pose proof (ho_chain _ _ _ _ _ H) as Hch. pose proof (ho_order _ _ _ _ _ H) as Ho. rewrite E in Hch, Ho.
  assert (Hpf : (p, n) ∈ fl). { assert (Hf : (p, n) ∈ F) by (rewrite E; apply elem_of_app; right; right; left). apply elem_of_cons in Hf as [[= -> ->]|]; [lia|done]. }
  destruct (ho_free _ _ _ _ _ H _ Hpf) as (_ & Hplo & Hphi). pose proof (ho_brk _ _ _ _ _ H). pose proof (ho_lo _ _ _ _ _ H) as (? & ? & _). simpl in *.
  apply ordered_app in Ho as (_ & [Hprb [Hpb _]] & HQ1). rewrite Forall_forall in Hprb, Hpb. destruct (Hprb (p, n) ltac:(left)) as [_ Hprp]. simpl in Hprp.
  apply chain_app in Hch as [HcQ (Hks & Hpp & Hps & Hpn & HcQ3)]. simpl in HcQ, Hks, Hpp, Hps, Hpn.
  assert (HQ1' : forall b, b ∈ Q1 -> b.1 + 8 <= pr) by (intros b Hb; by destruct (HQ1 b (pr, k) Hb ltac:(left))).
  assert (HQ3' : forall b, b ∈ Q3 -> p + 8 * n < b.1) by (intros b Hb; by destruct (Hpb b Hb)).
  unfold take_block. rewrite (bind_Ok _ _ _ _ _ (run_hsize p s)), Hps. unfold cut. destruct (Z.eqb_spec n u) as [-> |Hne].
  - unfold hptr, set_hptr, wr, set_freep. mrun. cbn [h_mem h_freep h_brk]. rewrite Hpn. eexists. replace (p + 8 * (u - u)) with p by lia. split; [reflexivity|]. cbn [h_mem h_freep h_brk app].
    split_and!; [|done..|rewrite rd_insert, decide_False by lia; done|intros x ? ? ?; by rewrite rd_insert, decide_False].
    apply chain_app. split; [|split_and!; simpl].
    + apply (free_chain_frame (h_mem s)); [done|]. intros b Hb. specialize (HQ1' b Hb). rewrite !rd_insert, !decide_False by lia. done.
    + by rewrite rd_insert, decide_False by lia.
    + by rewrite rd_insert, decide_True.
    + apply (free_chain_frame (h_mem s)); [done|]. intros b Hb. specialize (HQ3' b Hb). rewrite !rd_insert, !decide_False by lia. done.
  - unfold set_hsize, hsize, wr, set_freep. mrun. cbn [h_mem h_freep h_brk]. rewrite rd_insert, decide_True by done. rewrite (u32_small (n - u)) by lia. rewrite u32_small by lia.
    eexists. split; [reflexivity|]. cbn [h_mem h_freep h_brk app].
    assert (Hm : forall x, x <> p + 4 -> x <> p + 8 * (n - u) + 4 -> rd (<[p + 8 * (n - u) + 4:=u]> (<[p + 4:=n - u]> (h_mem s))) x = rd (h_mem s) x) by (intros x ? ?; by rewrite !rd_insert, !decide_False).
    split_and!; [|done..|rewrite rd_insert, decide_True by done; done|intros x ? ? ?; by apply Hm].
    apply chain_app. split; [|split_and!; simpl].
    + apply (free_chain_frame (h_mem s)); [done|]. intros b Hb. specialize (HQ1' b Hb). split; apply Hm; lia.
    + rewrite Hm; [done|lia..].
    + rewrite Hm; [done|lia..].
    + split; [rewrite rd_insert, decide_False by lia; by rewrite rd_insert, decide_True|]. split; [rewrite Hm; [done|lia..]|].
      apply (free_chain_frame (h_mem s)); [done|]. intros b Hb. specialize (HQ3' b Hb). split; apply Hm; lia.
Qed.

(** [u] units are handed out at [q]. *)
Definition handed_out (u q : Z) (s' : heap) : Prop :=
  al !! q = None /\ keeps al s s' /\ exists fl', heap_ok base lo s' fl' (<[q := u]> al).

Lemma take_run pr k p n u : (pr, k) ∈ F -> rd (h_mem s) pr = p -> (p, n) ∈ fl -> 0 < u <= n ->
  exists q s', take_block u pr p s = Ok (q + 8, s') /\ lo <= q /\ handed_out u q s'.
Proof using H.
  intros Hpr Hp Hin Hu. destruct (link_split pr k p n Hpr Hp Hin) as (Q1 & Q3 & E). destruct (cut_list _ _ _ _ _ u _ E Hu) as (fl' & E' & Ho' & Hfree & Hreg & Hdis).
  destruct (take_mem _ _ _ _ _ u _ E Hu) as (s' & Et & Hch & Hfp & Hbrk & Hsz & Hmem). rewrite <- E' in Hch. set (q := p + 8 * (n - u)) in *.
  assert (Hq : forall x, inside x (q, u) -> region fl x) by (intros x Hx; apply Hreg; by right). destruct (ho_free _ _ _ _ _ H _ Hin) as (_ & Hplo & Hphi). simpl in *.
  assert (Hnew : forall a m x, al !! a = Some m -> inside x (a, m) -> ~ inside x (q, u)) by (intros a m x Ha Hx Hx2; by eapply (ho_apart _ _ _ _ _ H), Hq).
  assert (Hnone : al !! q = None).
  { destruct (al !! q) as [m|] eqn:Eq; [|done]. destruct (ho_alloc _ _ _ _ _ H q m Eq) as (? & _). exfalso. apply (Hnew q m q Eq); unfold inside; simpl; lia. }
  assert (Hkeep : keeps al s s').
  { intros a m x Ha Hx. destruct (ho_alloc _ _ _ _ _ H a m Ha) as (_ & Hlo & _). pose proof (ho_lo _ _ _ _ _ H) as (? & ? & _).
    assert (Hno : forall c y, (c, y) ∈ fl -> x <> c /\ x <> c + 4).
    { intros c y Hc. pose proof (ho_free _ _ _ _ _ H _ Hc) as (? & _). simpl in *. split; intros ->; (eapply (ho_apart _ _ _ _ _ H); [exact Ha|exact Hx|]); exists (c, y); (split; [done|]); unfold inside; simpl; lia. }
    apply Hmem.
    - apply elem_of_cons in Hpr as [[= -> _]|Hpr]; [unfold inside in Hx; simpl in Hx; lia|by apply (Hno pr k)].
    - by apply (Hno p n).
    - intros ->. apply (Hnew a m (q + 4) Ha Hx). unfold inside. simpl. lia. }
  exists q, s'. split; [done|]. split; [lia|]. split; [done|]. split; [done|]. exists fl'. split; try done.
  - exists k. rewrite Hfp, E'. apply elem_of_app. right. left.
  - by rewrite Hbrk.
  - intros a m. rewrite Hbrk. destruct (decide (a = q)) as [-> |Hne]; [rewrite lookup_insert_eq; intros [= <-]; split_and!; try lia; done|]. rewrite lookup_insert_ne by done. intros Ha.
    destruct (ho_alloc _ _ _ _ _ H a m Ha) as (? & ? & ? & Hs). split_and!; [done..|]. rewrite (Hkeep a m _ Ha); [done|unfold inside; simpl; lia].
  - intros a m x. destruct (decide (a = q)) as [-> |Hne]; [rewrite lookup_insert_eq; intros [= <-] Hx Hr; by eapply Hdis|]. rewrite lookup_insert_ne by done. intros Ha Hx Hr.
    apply (ho_apart _ _ _ _ _ H a m x Ha Hx), Hreg. by left.
  - intros a m a' m' x. rewrite !lookup_insert_Some. intros [[<- <-]|[_ Ha]] [[<- <-]|[_ Ha']] Hx Hx'; [done|exfalso; by eapply Hnew|exfalso; by eapply Hnew|by eapply (ho_disj _ _ _ _ _ H)].
  - intros x. rewrite Hbrk. intros Hx. destruct (ho_cover _ _ _ _ _ H x Hx) as [Hr|(a & m & Ha & Hi)]; [apply Hreg in Hr as [Hr|Hr]; [by left|right; exists q, u; by rewrite lookup_insert_eq]|].
    right. exists a, m. split; [|done]. rewrite lookup_insert_ne; [done|]. intros <-. congruence.
  - rewrite Hbrk. apply H.
  - rewrite Hbrk. apply H.
Qed.

(** New memory at the break is an allocated block until [free] gets it. *)
Lemma grown_ok nu : 0 < nu -> h_brk s + nu * 8 <= 2 ^ 31 ->
  heap_ok base lo (Heap (<[h_brk s + 4 := nu]> (h_mem s)) (h_freep s) (h_brk s + nu * 8)) fl (<[h_brk s := nu]> al).
Proof using H.
  intros Hnu Hmax. pose proof (ho_lo _ _ _ _ _ H) as (? & ? & ?). split; cbn [h_mem h_freep h_brk].
  - apply (free_chain_frame (h_mem s)); [apply H|]. intros b [-> |Hb]%elem_of_cons; rewrite !rd_insert, !decide_False; try done; simpl; try lia; pose proof (ho_free _ _ _ _ _ H b Hb); lia.
  - apply H.
  - apply H.
  - intros b Hb. pose proof (ho_free _ _ _ _ _ H b Hb). lia.
  - intros a m. rewrite lookup_insert_Some. intros [[<- <-]|[Hne Ha]]; [split_and!; [lia..|by rewrite rd_insert, decide_True]|].
    destruct (ho_alloc _ _ _ _ _ H a m Ha) as (? & ? & ? & Hs). split_and!; [lia..|]. by rewrite rd_insert, decide_False by lia.
  - intros a m x. rewrite lookup_insert_Some. intros [[<- <-]|[Hne Ha]] Hx; [|by eapply (ho_apart _ _ _ _ _ H)]. intros (b & Hb & Hi). pose proof (ho_free _ _ _ _ _ H b Hb). unfold inside in *. simpl in *. lia.
  - intros a m a' m' x. rewrite !lookup_insert_Some. intros [[<- <-]|[_ Ha]] [[<- <-]|[_ Ha']] Hx Hx'; [done| | |by eapply (ho_disj _ _ _ _ _ H)]; exfalso.
    + destruct (ho_alloc _ _ _ _ _ H a' m' Ha') as (? & ? & ? & _). unfold inside in *. simpl in *. lia.
    + destruct (ho_alloc _ _ _ _ _ H a m Ha) as (? & ? & ? & _). unfold inside in *. simpl in *. lia.
  - intros x Hx. destruct (decide (x < h_brk s)) as [Hlt|Hge].
    + destruct (ho_cover _ _ _ _ _ H x ltac:(lia)) as [Hr|(a & m & Ha & Hi)]; [by left|]. right. exists a, m. split; [|done]. rewrite lookup_insert_ne; [done|].
      intros <-. destruct (ho_alloc _ _ _ _ _ H _ m Ha) as (? & ? & ? & _). lia.
    + right. exists (h_brk s), nu. rewrite lookup_insert_eq. split; [done|]. unfold inside. simpl. lia.
  - lia.
  - lia.
Qed.
End HeapOk.

Section Malloc.
Context (sbrk : Z -> Z -> option Z) (base lo : Z).
(** [sbrk] of a positive amount extends the memory of the process by it, or fails. *)
Hypothesis Hsbrk : forall b n b', 0 <= b -> 0 < n < 2 ^ 31 -> sbrk b n = Some b' -> b' = b + n /\ b' <= 2 ^ 31.

Lemma morecore_run s fl al u : heap_ok base lo s fl al -> 0 < u -> u * 8 < 2 ^ 31 ->
  morecore sbrk u s = Ok (0, s) \/
  exists s' fl', morecore sbrk u s = Ok (h_freep s', s') /\ heap_ok base lo s' fl' al /\ keeps al s s' /\ (length fl' <= S (length fl))%nat /\ exists b, b ∈ fl' /\ u <= b.2.
Proof using Hsbrk.
  intros H Hu Hu2. unfold morecore. set (nu := if u <? 4096 then 4096 else u). assert (Hnu : u <= nu /\ 0 < nu * 8 < 2 ^ 31) by (unfold nu; destruct (Z.ltb_spec u 4096); lia).
  rewrite (bind_Ok _ _ s (h_brk s) s) by done. rewrite u32_small by lia. pose proof (ho_lo _ _ _ _ _ H) as (? & ? & ?).
  destruct (sbrk (h_brk s) (nu * 8)) as [b'|] eqn:Eb; [right|by left]. destruct (Hsbrk (h_brk s) (nu * 8) b' ltac:(lia) ltac:(lia) Eb) as [-> Hmax].
  pose proof (grown_ok base lo s fl al H nu ltac:(lia) Hmax) as Hg. destruct (free_run _ _ _ _ _ Hg (h_brk s) nu ltac:(apply lookup_insert_eq)) as (s' & fl' & Er & Hok & Hk & Hb & Hl & b & Hbf & Hbn).
  assert (Hnone : al !! h_brk s = None).
  { destruct (al !! h_brk s) as [m|] eqn:E; [|done]. destruct (ho_alloc _ _ _ _ _ H _ _ E) as (? & ? & ? & _). lia. }
  rewrite delete_insert_id in Hok, Hk by done. exists s', fl'. split_and!; try done; [|intros a m x Ha Hx; rewrite (Hk a m x Ha Hx); simpl; rewrite rd_insert, decide_False; [done|]|exists b; split; [done|lia]].
  - unfold set_hsize, wr. unfold mbind, M_bind, modify. cbn [h_mem h_freep h_brk]. rewrite Er. done.
  - destruct (ho_alloc _ _ _ _ _ H _ _ Ha) as (? & ? & ? & _). unfold inside in Hx. simpl in Hx. lia.
Qed.

Lemma malloc_loop_eq fuel u pr p s : malloc_loop sbrk fuel u pr p s =
  (if u <=? rd (h_mem s) (p + 4) then take_block u pr p s
   else match fuel with
        | O => Fault
        | S f => if p =? h_freep s then (r ← morecore sbrk u; if r =? 0 then mret 0 else q ← hptr r; malloc_loop sbrk f u r q) s
                 else malloc_loop sbrk f u p (rd (h_mem s) p) s
        end).
Proof using Type.
  destruct fuel; cbn [malloc_loop]; rewrite (bind_Ok _ _ _ _ _ (run_hsize p s)); (destruct (_ <=? _); [done|]); [done|].
  rewrite (bind_Ok _ _ s (h_freep s) s) by done. by destruct (_ =? _).
Qed.

Lemma scan s u G : forall pr e fuel, chain (h_mem s) G e -> (forall b, b ∈ G -> b.1 <> h_freep s) -> rd (h_mem s) pr = head_addr G e ->
  (exists pr' q n, (pr' = pr \/ pr' ∈ G.*1) /\ (q, n) ∈ G /\ u <= n /\ rd (h_mem s) pr' = q /\ malloc_loop sbrk (length G + fuel) u pr (head_addr G e) s = take_block u pr' q s) \/
  (exists pr', (pr' = pr \/ pr' ∈ G.*1) /\ rd (h_mem s) pr' = e /\ (forall b, b ∈ G -> b.2 < u) /\ malloc_loop sbrk (length G + fuel) u pr (head_addr G e) s = malloc_loop sbrk fuel u pr' e s).
Proof using Type.
  induction G as [|b G IH]; intros pr e fuel Hch Hf Hpr; [right; exists pr; split_and!; [by left|done|by intros ? []%elem_of_nil|done]|].
  destruct Hch as (Hs & Hp & Hch). cbn [head_addr length Nat.add]. rewrite malloc_loop_eq, Hs. destruct (Z.leb_spec u b.2) as [Hle|Hgt].
  - left. exists pr, b.1, b.2. split_and!; [by left|rewrite <- surjective_pairing; by left|done..].
  - rewrite (proj2 (Z.eqb_neq _ _)) by (apply Hf; left). rewrite Hp. destruct (IH b.1 e fuel Hch) as [(pr' & q & n & H1 & H2 & H3 & H4 & H5)|(pr' & H1 & H2 & H3 & H4)]; [intros; apply Hf; by right|done|left|right].
    + exists pr', q, n. split_and!; try done; [right; simpl; rewrite elem_of_cons; tauto|by right].
    + exists pr'. split_and!; try done; [right; simpl; rewrite elem_of_cons; tauto|]. intros c [-> |Hc]%elem_of_cons; auto.
Qed.

Lemma addr_in (l : list blk) a : a ∈ l.*1 -> exists n, (a, n) ∈ l.
Proof using Type. intros ([a' n] & -> & Hin)%list_elem_of_fmap. by exists n. Qed.

(** One round of the free list, from [freep] to [freep]. *)
Lemma pass_run s fl al u fuel : heap_ok base lo s fl al -> 0 < u ->
  (exists pr k p n, (pr, k) ∈ (base, 0) :: fl /\ rd (h_mem s) pr = p /\ (p, n) ∈ fl /\ u <= n /\
     malloc_loop sbrk (length fl + S fuel) u (h_freep s) (rd (h_mem s) (h_freep s)) s = take_block u pr p s) \/
  ((forall b, b ∈ fl -> b.2 < u) /\
     malloc_loop sbrk (length fl + S fuel) u (h_freep s) (rd (h_mem s) (h_freep s)) s =
       (r ← morecore sbrk u; if r =? 0 then mret 0 else q ← hptr r; malloc_loop sbrk fuel u r q) s).
Proof using Type.
  intros H Hu. destruct (ho_freep _ _ _ _ _ H) as [nf Hf]. pose proof (ho_chain _ _ _ _ _ H) as Hch. pose proof (ho_order _ _ _ _ _ H) as Ho.
  assert (HF : forall b, b ∈ (base, 0) :: fl -> u <= b.2 -> b ∈ fl) by (intros b [-> |]%elem_of_cons; simpl; [lia|done]).
  apply list_elem_of_split in Hf as (L & R & E). remember (h_freep s) as f eqn:Ef. rewrite E in Hch, Ho, HF.
  assert (Hbase : base = head_addr (L ++ [(f, nf)]) base) by (change base with (head_addr ((base, 0) :: fl) base) at 1; rewrite E; by destruct L).
  apply chain_app in Hch as [HcL (Hfs & Hfp & HcR)]. simpl in HcL, Hfs, Hfp. apply ordered_app in Ho as (_ & [HfR _] & HLf). rewrite Forall_forall in HfR.
  assert (Elen : (length fl + S fuel = length R + (length L + S fuel))%nat) by (apply (f_equal length) in E; rewrite length_app in E; simpl in E; lia). rewrite E, Elen, Hfp.
  destruct (scan s u R f base (length L + S fuel) HcR) as [(pr & q & n & H1 & H2 & H3 & H4 & H5)|(pr & H1 & H2 & H3 & H4)].
  { intros b Hb. destruct (HfR b Hb) as [_ ?]. simpl in *. lia. }
  { done. }
  { left. assert (Hpr : exists k, (pr, k) ∈ L ++ (f, nf) :: R).
    { destruct H1 as [-> |(k & Hk)%addr_in]; [exists nf|exists k]; apply elem_of_app; right; [left|by right]. }
    destruct Hpr as [k Hk]. exists pr, k, q, n. split_and!; try done. apply HF; [|done]. apply elem_of_app. right. by right. }
  rewrite H4. rewrite Hbase. assert (Ehd : head_addr (L ++ [(f, nf)]) base = head_addr L f) by (by destruct L). rewrite Ehd.
  destruct (scan s u L pr f (S fuel) HcL) as [(pr' & q & n & G1 & G2 & G3 & G4 & G5)|(pr' & G1 & G2 & G3 & G4)].
  { intros b Hb. destruct (HLf b (f, nf) Hb ltac:(left)) as [_ ?]. simpl in *. lia. }
  { by rewrite H2, Hbase, Ehd. }
  1: left. 2: rewrite G4, malloc_loop_eq, Hfs; destruct (Z.leb_spec u nf) as [Hle|Hgt]; [left|right].
  3: { rewrite <- Ef, Z.eqb_refl. split; [|done]. intros b Hb. assert (Hin : b ∈ L ++ (f, nf) :: R) by (rewrite <- E; by right). apply elem_of_app in Hin as [?|[-> |?]%elem_of_cons]; auto. }
  all: assert (Hpr : exists k, (pr', k) ∈ L ++ (f, nf) :: R) by
      (destruct G1 as [-> |(k & Hk)%addr_in]; [|exists k; apply elem_of_app; by left]; destruct H1 as [-> |(k & Hk)%addr_in]; [exists nf|exists k]; apply elem_of_app; right; [left|by right]); destruct Hpr as [k Hk].
  - exists pr', k, q, n. split_and!; try done. apply HF; [|done]. apply elem_of_app. by left.
  - exists pr', k, f, nf. split_and!; try done. apply HF; [|done]. apply elem_of_app. right. left.
Qed.

(** A state of the allocator: before the first call, or with its free list. *)
Definition heap_inv (s : heap) (al : gmap Z Z) : Prop :=
  h_freep s = 0 /\ al = ∅ /\ 0 < base /\ base + 8 <= lo /\ h_brk s = lo /\ h_brk s <= 2 ^ 31 \/ exists fl, heap_ok base lo s fl al.

Lemma init_ok s : 0 < base -> base + 8 <= lo -> h_brk s = lo -> h_brk s <= 2 ^ 31 ->
  heap_ok base lo (Heap (<[base + 4 := 0]> (<[base := base]> (h_mem s))) base (h_brk s)) [] ∅.
Proof using Type.
  intros H1 H2 H3 H4. split; cbn [h_mem h_freep h_brk].
  - cbn. rewrite rd_insert, decide_True by done. rewrite rd_insert, decide_False by lia. by rewrite rd_insert, decide_True.
  - by split.
  - exists 0. by left.
  - by intros b []%elem_of_nil.
  - done.
  - done.
  - done.
  - lia.
  - lia.
  - lia.
Qed.

Lemma loop_run s fl al u fuel : heap_ok base lo s fl al -> 0 < u -> u * 8 < 2 ^ 31 -> (2 * length fl + 3 <= fuel)%nat ->
  exists r s', malloc_loop sbrk fuel u (h_freep s) (rd (h_mem s) (h_freep s)) s = Ok (r, s') /\
    (r = 0 /\ s' = s \/ exists q, r = q + 8 /\ lo <= q /\ handed_out base lo s al u q s').
Proof using Hsbrk.
  intros H Hu Hu2 Hf. replace fuel with (length fl + S (fuel - length fl - 1))%nat by lia. destruct (pass_run s fl al u (fuel - length fl - 1) H Hu) as [(pr & k & p & n & H1 & H2 & H3 & H4 & ->)|(_ & ->)].
  - destruct (take_run _ _ _ _ _ H pr k p n u H1 H2 H3 ltac:(lia)) as (q & s' & E & Hlo & Hh). exists (q + 8), s'. eauto 6.
  - destruct (morecore_run s fl al u H Hu Hu2) as [E|(s1 & fl1 & E & H1 & Hk & Hl & b & Hb & Hbu)]; rewrite (bind_Ok _ _ _ _ _ E); [exists 0, s; auto|].
    assert (Hnz : h_freep s1 =? 0 = false).
    { apply Z.eqb_neq. pose proof (ho_lo _ _ _ _ _ H1) as (? & ? & _). destruct (ho_freep _ _ _ _ _ H1) as [m [[= -> _]|Hm]%elem_of_cons]; [lia|]. pose proof (ho_free _ _ _ _ _ H1 _ Hm) as (_ & ? & _). simpl in *. lia. }
    rewrite Hnz, (bind_Ok _ _ _ _ _ (run_hptr _ _)). set (f1 := (fuel - length fl - 1)%nat). replace f1 with (length fl1 + S (f1 - length fl1 - 1))%nat by (unfold f1; lia).
    destruct (pass_run s1 fl1 al u (f1 - length fl1 - 1) H1 Hu) as [(pr & k & p & n & G1 & G2 & G3 & G4 & ->)|(Hno & _)]; [|specialize (Hno b Hb); lia].
    destruct (take_run _ _ _ _ _ H1 pr k p n u G1 G2 G3 ltac:(lia)) as (q & s' & Et & Hlo & Hn & Hk' & Hok). exists (q + 8), s'. split; [done|]. right. exists q. split; [done|]. split; [done|]. split; [done|]. split; [|done].
    intros a m x Ha Hx. by rewrite (Hk' a m x Ha Hx), (Hk a m x Ha Hx).
Qed.

(** What a call of [malloc] that returns [r] gives: nothing, or a block of
    [u] units that no other block meets, with the others untouched. *)
Definition malloced (s : heap) (al : gmap Z Z) (u r : Z) (s' : heap) : Prop :=
  keeps al s s' /\
  (r = 0 /\ heap_inv s' al \/
   exists q, r = q + 8 /\ lo <= q /\ heap_inv s' (<[q := u]> al) /\ al !! q = None /\ forall a n x, al !! a = Some n -> inside x (a, n) -> ~ inside x (q, u)).

Lemma handed_malloced s al u q s' : lo <= q -> handed_out base lo s al u q s' -> malloced s al u (q + 8) s'.
Proof using Type.
  intros Hlo (Hn & Hk & fl & Hok). split; [done|]. right. exists q. split_and!; try done; [right; by exists fl|]. intros a n x Ha Hx Hq.
  assert (Hne : a <> q) by (intros ->; congruence). apply Hne. eapply (ho_disj _ _ _ _ _ Hok a n q u x); [by rewrite lookup_insert_ne|by rewrite lookup_insert_eq|done..].
Qed.

Lemma malloc_units s al nbytes : heap_inv s al -> 0 < nunits_of nbytes -> nunits_of nbytes * 8 < 2 ^ 31 ->
  exists r s', malloc sbrk base nbytes s = Ok (r, s') /\ malloced s al (nunits_of nbytes) r s'.
Proof using Hsbrk.
  intros Hi Hu Hu2. unfold malloc. cbv zeta. rewrite (bind_Ok _ _ s (block_fuel s) s) by done. rewrite (bind_Ok _ _ s (h_freep s) s) by done.
  destruct Hi as [(Hz & -> & H1 & H2 & H3 & H4)|[fl H]].
  - rewrite Hz. cbn [Z.eqb]. set (s1 := Heap (<[base + 4 := 0]> (<[base := base]> (h_mem s))) base (h_brk s)). rewrite (bind_Ok _ _ s base s1) by done.
    pose proof (init_ok s H1 H2 H3 H4) as H. rewrite (bind_Ok _ _ _ _ _ (run_hptr base s1)).
    destruct (loop_run s1 [] ∅ (nunits_of nbytes) (2 * block_fuel s + 2) H Hu Hu2) as (r & s' & E & Hr); [unfold block_fuel; simpl; lia|]. change (h_freep s1) with base in E. exists r, s'. split; [done|].
    destruct Hr as [[-> ->]|(q & -> & Hlo & Hn & Hk & Hok)]; [split; [intros ? ? ? ?; done|]; left; split; [done|]; right; by exists []|]. apply handed_malloced; [done|]. split; [done|]. split; [intros ? ? ? ?; done|done].
  - assert (Hnz : h_freep s =? 0 = false).
    { apply Z.eqb_neq. pose proof (ho_lo _ _ _ _ _ H) as (? & ? & _). destruct (ho_freep _ _ _ _ _ H) as [m [[= -> _]|Hm]%elem_of_cons]; [lia|]. pose proof (ho_free _ _ _ _ _ H _ Hm) as (_ & ? & _). simpl in *. lia. }
    rewrite Hnz. rewrite (bind_Ok _ _ s (h_freep s) s) by done. rewrite (bind_Ok _ _ _ _ _ (run_hptr _ s)). pose proof (ok_fuel _ _ _ _ _ H) as Hf. simpl in Hf.
    destruct (loop_run s fl al (nunits_of nbytes) (2 * block_fuel s + 2) H Hu Hu2) as (r & s' & E & Hr); [lia|]. exists r, s'. split; [done|].
    destruct Hr as [[-> ->]|(q & -> & Hlo & Hh)]; [split; [by intros ? ? ? ?|]; left; split; [done|]; right; by exists fl|]. by apply handed_malloced.
Qed.

(** A program writes inside its blocks, above their headers. *)
Lemma write_ok s al a n x v : heap_inv s al -> al !! a = Some n -> a + 8 <= x < a + 8 * n -> exists s', wr x v s = Ok (tt, s') /\ heap_inv s' al.
Proof using Type.
  intros [(_ & -> & _)|[fl H]] Ha Hx; [done|]. eexists. split; [reflexivity|]. right. exists fl. pose proof (ho_alloc _ _ _ _ _ H a n Ha) as (_ & ? & _). pose proof (ho_lo _ _ _ _ _ H) as (? & ? & _).
  split; cbn [h_mem h_freep h_brk]; try apply H.
  - apply (free_chain_frame (h_mem s)); [apply H|]. intros b [-> |Hb]%elem_of_cons; rewrite !rd_insert, !decide_False; try done; simpl; try lia.
    all: pose proof (ho_free _ _ _ _ _ H b Hb) as (? & _); intros E; apply (ho_apart _ _ _ _ _ H a n x Ha); [unfold inside; simpl; lia|exists b; split; [done|unfold inside; lia]].
  - intros a' n' Ha'. destruct (ho_alloc _ _ _ _ _ H a' n' Ha') as (? & ? & ? & Hs). split_and!; [done..|]. rewrite rd_insert, decide_False; [done|]. intros E.
    assert (a = a') as -> by (eapply (ho_disj _ _ _ _ _ H a n a' n' x Ha Ha'); unfold inside; simpl; lia). simplify_eq. lia.
Qed.

(** Everything a program can do with the allocator, from its start. *)
Inductive client : heap -> gmap Z Z -> Prop :=
| client_start s : h_freep s = 0 -> 0 < base -> base + 8 <= lo -> h_brk s = lo -> lo <= 2 ^ 31 -> client s ∅
| client_malloc s al nbytes r s' : client s al -> 0 <= nbytes < 2 ^ 31 - 15 -> malloc sbrk base nbytes s = Ok (r, s') ->
    client s' (if r =? 0 then al else <[r - 8 := nunits_of nbytes]> al)
| client_free s al q n s' : client s al -> al !! q = Some n -> free (q + 8) s = Ok (tt, s') -> client s' (delete q al)
| client_write s al q n x v s' : client s al -> al !! q = Some n -> q + 8 <= x < q + 8 * n -> wr x v s = Ok (tt, s') -> client s' al.

Lemma nunits_small nbytes : 0 <= nbytes < 2 ^ 31 - 15 -> 0 < nunits_of nbytes /\ nunits_of nbytes * 8 < 2 ^ 31 /\ nbytes <= 8 * nunits_of nbytes - 8.
Proof using Type. intros H. unfold nunits_of. rewrite u32_small by lia. pose proof (Z.div_mod (nbytes + 8 - 1) 8 ltac:(lia)). pose proof (Z.mod_pos_bound (nbytes + 8 - 1) 8 ltac:(lia)). lia. Qed.

Lemma client_inv s al : client s al -> heap_inv s al.
Proof using Hsbrk.
  induction 1 as [s H1 H2 H3 H4 H5|s al nbytes r s' _ IH Hn E|s al q n s' _ IH Ha E|s al q n x v s' _ IH Ha Hx E].
  - left. split_and!; try done. lia.
  - destruct (nunits_small nbytes Hn) as (Hu & Hu2 & _). destruct (malloc_units s al nbytes IH Hu Hu2) as (r' & s1 & E1 & _ & Hm). rewrite E in E1. injection E1 as <- <-.
    destruct Hm as [[-> Hi]|(q & -> & Hlo & Hi & _)]; [done|]. assert (0 < base /\ base + 8 <= lo) as [? ?] by (destruct Hi as [(_ & E0 & _)|[fl Hok]]; [by apply insert_non_empty in E0|pose proof (ho_lo _ _ _ _ _ Hok) as (? & ? & _); done]).
    destruct (Z.eqb_spec (q + 8) 0); [lia|]. by replace (q + 8 - 8) with q by lia.
  - destruct IH as [(_ & -> & _)|[fl H]]; [done|]. destruct (free_run _ _ _ _ _ H q n Ha) as (s1 & fl' & E1 & Hok & _). rewrite E in E1. injection E1 as <-. right. by exists fl'.
  - destruct (write_ok s al q n x v IH Ha Hx) as (s1 & E1 & Hi). rewrite E in E1. by injection E1 as <-.
Qed.
End Malloc.

(** An interval of an ordered list of blocks that do not touch is in one block. *)
Lemma region_interval l lo hi : ordered l -> lo < hi -> (forall x, lo <= x < hi -> region l x) -> exists b, b ∈ l /\ b.1 <= lo /\ hi <= b.1 + 8 * b.2.
Proof.
  intros Ho Hlt Hall. destruct (Hall lo ltac:(lia)) as (b & Hb & Hi). exists b. unfold inside in Hi. split; [done|]. split; [lia|]. destruct (decide (hi <= b.1 + 8 * b.2)) as [|Hgt]; [done|exfalso].
  destruct (Hall (b.1 + 8 * b.2) ltac:(lia)) as (c & Hc & Hic). unfold inside in Hic. apply list_elem_of_split in Hb as (L & R & ->). apply ordered_app in Ho as (_ & [HR _] & HL). rewrite Forall_forall in HR.
  rewrite elem_of_app, elem_of_cons in Hc. destruct Hc as [Hc|[-> |Hc]]; [destruct (HL c b Hc ltac:(left)); lia|lia|destruct (HR c Hc); lia].
Qed.

Definition sbrk_spec (sbrk : Z -> Z -> option Z) : Prop := forall b n b', 0 <= b -> 0 < n < 2 ^ 31 -> sbrk b n = Some b' -> b' = b + n /\ b' <= 2 ^ 31.


Definition sbrk1 (b n : Z) : option Z := if b + n <=? 2 ^ 31 then Some (b + n) else None.
Definition heap1 : heap := Heap ∅ 0 12288.

Lemma sbrk1_spec : sbrk_spec sbrk1.
Proof. intros b n b' Hb Hn. unfold sbrk1. destruct (Z.leb_spec (b + n) (2 ^ 31)); [|done]. by intros [= <-]. Qed.

Lemma client1 : client sbrk1 8192 12288 heap1 ∅.
Proof. by apply client_start. Qed.


(** Claim C35. [free] of a block in use returns, whatever the program did
    before; the other blocks are unchanged.  The heap is then again
    partitioned: the free list is in the order of addresses, no two of its
    blocks touch, and every byte that [sbrk] gave is in one free block or in
    one block in use. *)
Theorem free_correct sbrk base lo s al q n : sbrk_spec sbrk -> client sbrk base lo s al -> al !! q = Some n ->
  exists s' fl, free (q + 8) s = Ok (tt, s') /\ keeps (delete q al) s s' /\ heap_ok base lo s' fl (delete q al) /\ (exists b, b ∈ fl /\ b.1 <= q /\ q + 8 * n <= b.1 + 8 * b.2).
Proof.
  intros Hs Hc Ha. destruct (client_inv _ _ _ Hs _ _ Hc) as [(_ & -> & _)|[fl H]]; [done|]. destruct (free_run _ _ _ _ _ H q n Ha) as (s' & fl' & E & Hok & Hk & Hb & _).
  exists s', fl'. split_and!; try done. destruct (ho_alloc _ _ _ _ _ H q n Ha) as (Hn & Hlo & Hhi & _).
  apply (region_interval fl' q (q + 8 * n)); [apply Hok|lia|]. intros x Hx. destruct (ho_cover _ _ _ _ _ Hok x) as [Hr|(a & m & Ha' & Hi)]; [rewrite Hb; lia|done|].
  apply lookup_delete_Some in Ha' as [Hne Ha']. exfalso. apply Hne. eapply (ho_disj _ _ _ _ _ H q n a m x); unfold inside; simpl; done || lia.
Qed.

Lemma free_correct_witness : exists s al s', client sbrk1 8192 12288 s al /\ al !! 44944 = Some 14 /\ free 44952 s = Ok (tt, s') /\ keeps (delete 44944 al) s s'.
Proof.
  destruct (malloc sbrk1 8192 100 heap1) as [[r s]| |] eqn:E; [|vm_compute in E; done..].
  assert (Hr : r = 44952) by (assert (E2 : (match malloc sbrk1 8192 100 heap1 with Ok r => r.1 | _ => 0 end) = 44952) by (vm_compute; reflexivity); by rewrite E in E2).
  pose proof (client_malloc _ _ _ _ _ 100 r s client1 ltac:(lia) E) as Hc. subst r. cbn [Z.eqb] in Hc.
  assert (Ha : (<[44952 - 8 := nunits_of 100]> ∅ : gmap Z Z) !! 44944 = Some 14) by (vm_compute; reflexivity).
  destruct (free_correct sbrk1 8192 12288 s _ 44944 14 sbrk1_spec Hc Ha) as (s' & fl & E' & Hk & _). exists s, (<[44952 - 8 := nunits_of 100]> ∅), s'. split_and!; done.
Defined.

(** The size computation of [malloc] wraps around: a request for
    any of the last seven sizes below 2{^32} gets, when [malloc] does not
    return 0, a block of one unit, all of it header: the next byte belongs
    to another block. *)
Theorem malloc_wraps sbrk base lo s al nbytes : sbrk_spec sbrk -> client sbrk base lo s al -> 2 ^ 32 - 7 <= nbytes < 2 ^ 32 ->
  exists r s', malloc sbrk base nbytes s = Ok (r, s') /\ (r = 0 \/ exists q fl, r = q + 8 /\ heap_ok base lo s' fl (<[q := 1]> al)).
Proof.
  intros Hs Hc Hn. assert (Hu : nunits_of nbytes = 1).
  { unfold nunits_of, u32. rewrite (Z.mod_eq _ (2 ^ 32)) by done. replace ((nbytes + 8 - 1) / 2 ^ 32) with 1 by (apply (Z.div_unique_pos _ _ 1 (nbytes + 7 - 2 ^ 32)); lia).
    rewrite Z.div_small by lia. done. }
  destruct (malloc_units sbrk base lo Hs s al nbytes (client_inv _ _ _ Hs _ _ Hc)) as (r & s' & E & Hk & Hm); rewrite Hu in *; [lia..|].
  exists r, s'. split; [done|]. destruct Hm as [[-> _]|(q & -> & Hlo & Hi & _)]; [by left|right]. destruct Hi as [(_ & E0 & _)|[fl Hok]]; [by apply insert_non_empty in E0|]. by exists q, fl.
Qed.

Lemma malloc_wraps_witness : exists r s', malloc sbrk1 8192 4294967295 heap1 = Ok (r, s') /\ r <> 0.
Proof.
  destruct (malloc_wraps sbrk1 8192 12288 heap1 ∅ 4294967295 sbrk1_spec client1 ltac:(lia)) as (r & s' & E & _). exists r, s'. split; [done|].
  intros ->. assert (E2 : (match malloc sbrk1 8192 4294967295 heap1 with Ok r => r.1 =? 0 | _ => true end) = false) by (vm_compute; reflexivity). by rewrite E in E2.
Defined.

(** [clone] that writes the argument and returns the stack. *)
Definition clone_stack (arg : Z) (stack : Z) : M heap Z := clone_push arg stack;; mret stack.

(** [thread_create] rounds the stack that [malloc] gives it up to
    a page and so runs past its end: in a program that has not used
    [malloc] yet, the stack of the second thread covers the header of the
    block of the first, and what [clone] pushes for the second thread
    replaces the link and the size of that block. *)
Theorem thread_stacks_overlap arg1 arg2 : exists stack1 stack2 s1 s2,
  thread_create sbrk1 8192 (clone_stack arg1) heap1 = Ok (stack1, s1) /\ rd (h_mem s1) (stack1 - 8 + 4) = 513 /\
  thread_create sbrk1 8192 (clone_stack arg2) s1 = Ok (stack2, s2) /\ stack2 <= stack1 - 8 < stack2 + PGSIZE /\
  rd (h_mem s2) (stack1 - 8) = 4294967295 /\ rd (h_mem s2) (stack1 - 8 + 4) = arg2.
Proof.
  eexists _, _, _, _. split; [vm_compute; reflexivity|]. split; [vm_compute; reflexivity|]. split; [vm_compute; reflexivity|]. split; [vm_compute; split; discriminate || reflexivity|]. split; vm_compute; reflexivity.
Qed.
