(* ===== verification/Ring.v ===== *)
(** * Ring buffers indexed by free-running 32-bit counters

    [pipe.c] and [console.c] keep a [char buf\[N\]] with unsigned counters
    that only grow (and wrap at 2^32), and address [buf\[i % N\]].  This file
    holds the facts about that representation the two components share:
    [N] divides 2^32, so the wrap of a counter does not disturb the index. *)

From stdpp Require Import prelude.
From S2P Require Import Prelude.

Open Scope Z_scope.

Section Ring.
Context (N : Z) (HN : 0 < N) (Hdiv : (N | 2 ^ 32)).

(** [buf\[i % N\]] *)
Definition slot (i : Z) : nat := Z.to_nat (i mod N).

Definition ring_get (buf : list Z) (i : Z) : Z := nth (slot i) buf 0.
Definition ring_set (buf : list Z) (i c : Z) : list Z := <[slot i := c]> buf.

(** The [n] bytes starting at counter [i]. *)
Fixpoint contents (buf : list Z) (i : Z) (n : nat) : list Z :=
  match n with
  | O => []
  | S n' => ring_get buf i :: contents buf (u32 (i + 1)) n'
  end.

Lemma u32_mod_N i : u32 i mod N = i mod N.
Proof.
  unfold u32. destruct Hdiv as [k Hk]. rewrite Hk.
  rewrite (Z.mul_comm k N), Z.rem_mul_r by nia.
  rewrite Z.mul_comm, Z_mod_plus_full. by rewrite Z.mod_mod by lia.
Qed.

Lemma slot_u32 i : slot (u32 i) = slot i.
Proof. unfold slot. by rewrite u32_mod_N. Qed.

Lemma ring_get_u32 buf i : ring_get buf (u32 i) = ring_get buf i.
Proof. unfold ring_get. by rewrite slot_u32. Qed.

Lemma ring_set_length buf i c : length (ring_set buf i c) = length buf.
Proof. apply length_insert. Qed.

Lemma contents_length buf i n : length (contents buf i n) = n.
Proof. revert i. induction n; intros i; simpl; auto. Qed.

Lemma contents_u32 buf i n : contents buf (u32 i) n = contents buf i n.
Proof.
  revert i. induction n as [|n IH]; intros i; simpl; [done|].
  rewrite ring_get_u32. f_equal. unfold u32. by rewrite Zplus_mod_idemp_l.
Qed.

Lemma contents_snoc buf i n :
  contents buf i (S n) = contents buf i n ++ [ring_get buf (i + Z.of_nat n)].
Proof.
  revert i. induction n as [|n IH]; intros i.
  - simpl. by rewrite Z.add_0_r.
  - change (contents buf i (S (S n)))
      with (ring_get buf i :: contents buf (u32 (i + 1)) (S n)).
    rewrite contents_u32, IH. simpl. rewrite contents_u32. do 3 f_equal. f_equal. lia.
Qed.

Lemma ring_get_set_eq buf i c :
  length buf = Z.to_nat N -> ring_get (ring_set buf i c) i = c.
Proof.
  intros Hl. unfold ring_get, ring_set. apply nth_lookup_Some, list_lookup_insert_eq.
  unfold slot. pose proof (Z.mod_pos_bound i N HN). lia.
Qed.

Lemma ring_get_set_ne buf i j c :
  i mod N <> j mod N -> ring_get (ring_set buf i c) j = ring_get buf j.
Proof.
  intros Hij. unfold ring_get, ring_set, slot.
  rewrite !nth_lookup, list_lookup_insert_ne; [done|].
  pose proof (Z.mod_pos_bound i N HN). pose proof (Z.mod_pos_bound j N HN). lia.
Qed.

(** Writing the slot [n] after the start leaves the first [n < N] bytes. *)
Lemma contents_set buf i n c : forall k,
  (k <= n)%nat -> Z.of_nat n < N ->
  contents (ring_set buf (i + Z.of_nat n) c) i k = contents buf i k.
Proof.
  induction k as [|k IH]; intros Hk Hn; [done|].
  rewrite !contents_snoc, IH by lia. f_equal. f_equal.
  apply ring_get_set_ne. intros E.
  assert (Hd : (N | Z.of_nat n - Z.of_nat k)).
  { apply Z.mod_divide; [lia|]. replace (Z.of_nat n - Z.of_nat k)
      with ((i + Z.of_nat n) - (i + Z.of_nat k)) by lia.
    rewrite Zminus_mod, E, Z.sub_diag. by apply Z.mod_0_l; lia. }
  destruct Hd as [q Hq]. assert (q <= 0 \/ 1 <= q) as [|] by lia; nia.
Qed.

Lemma contents_push buf i n c :
  length buf = Z.to_nat N -> Z.of_nat n < N ->
  contents (ring_set buf (u32 (i + Z.of_nat n)) c) i (S n) = contents buf i n ++ [c].
Proof.
  intros Hl Hn. unfold ring_set. rewrite slot_u32. fold (ring_set buf (i + Z.of_nat n) c).
  rewrite contents_snoc, contents_set by lia. by rewrite ring_get_set_eq.
Qed.
End Ring.

(** The number of bytes between two counters, [a - b] in C. *)
Definition dist (a b : Z) : Z := u32 (a - b).

Lemma dist_succ a b : 0 <= dist a b < 2 ^ 32 - 1 -> dist (u32 (a + 1)) b = dist a b + 1.
Proof.
  unfold dist, u32. intros H. rewrite Zminus_mod_idemp_l.
  replace (a + 1 - b) with ((a - b) + 1) by lia.
  rewrite <- Zplus_mod_idemp_l. apply Z.mod_small. lia.
Qed.

Lemma dist_pred a b : 0 < dist a b -> dist (u32 (a - 1)) b = dist a b - 1.
Proof.
  unfold dist, u32. intros H. rewrite Zminus_mod_idemp_l.
  replace (a - 1 - b) with ((a - b) - 1) by lia.
  rewrite <- Zminus_mod_idemp_l. apply Z.mod_small.
  pose proof (Z.mod_pos_bound (a - b) (2 ^ 32)). lia.
Qed.

Lemma dist_advance a b : 0 < dist a b -> dist a (u32 (b + 1)) = dist a b - 1.
Proof.
  unfold dist, u32. intros H. rewrite Zminus_mod_idemp_r.
  replace (a - (b + 1)) with ((a - b) - 1) by lia.
  rewrite <- Zminus_mod_idemp_l. apply Z.mod_small.
  pose proof (Z.mod_pos_bound (a - b) (2 ^ 32)). lia.
Qed.

Lemma dist_0 a b : 0 <= a < 2 ^ 32 -> 0 <= b < 2 ^ 32 -> dist a b = 0 <-> a = b.
Proof.
  unfold dist, u32. intros Ha Hb. split; [|by intros ->; rewrite Z.sub_diag].
  intros E. apply Z.mod_divide in E as [q Hq]; [|lia]. nia.
Qed.

Lemma dist_add b n : 0 <= n < 2 ^ 32 -> dist (u32 (b + n)) b = n.
Proof.
  intros H. unfold dist, u32. rewrite Zminus_mod_idemp_l.
  replace (b + n - b) with n by lia. by apply Z.mod_small.
Qed.

Lemma add_dist a b : 0 <= a < 2 ^ 32 -> u32 (b + dist a b) = a.
Proof.
  intros H. unfold dist, u32. rewrite Zplus_mod_idemp_r.
  replace (b + (a - b)) with a by lia. by apply Z.mod_small.
Qed.

#[export] Hint Resolve ring_set_length : xv6.

Lemma dist_inj a b c : 0 <= a < 2 ^ 32 -> 0 <= b < 2 ^ 32 -> dist a c = dist b c -> a = b.
Proof.
  intros Ha Hb E. rewrite <- (add_dist a c Ha), E. by apply add_dist.
Qed.
