(* ===== verification/Pipe.v ===== *)
(** * Pipes: pipe.c

    A pipe is a 512 byte ring with free-running counters.  [pipewrite] and
    [piperead] run under the pipe's lock from entry, or from the return of
    [sleep], to the next [sleep] or [return]: each such run is one function
    here, which also reports the channels it wakes.  [pstep] interleaves the
    runs of any number of readers and writers. *)

From stdpp Require Import prelude relations.
From S2P Require Import Prelude Ring.

Open Scope Z_scope.

Definition PIPESIZE : Z := 512.

Record pipe : Type := mkPipe {
  data : list Z;
  nread : Z;
  nwrite : Z;
  readopen : bool;
  writeopen : bool
}.

(** The fields [pipealloc] sets; [data] is whatever the page held. *)
Definition pipe_init (page : list Z) : pipe :=
  {| data := page; nread := 0; nwrite := 0; readopen := true; writeopen := true |}.

(** [pipeclose] returns the woken channel and whether the page is freed. *)
Definition pipeclose (a : Z) (writable : bool) (p : pipe) : pipe * list chan * bool :=
  let '(p', w) :=
    if writable
    then (mkPipe (data p) (nread p) (nwrite p) (readopen p) false, [ChanPipeRead a])
    else (mkPipe (data p) (nread p) (nwrite p) false (writeopen p), [ChanPipeWrite a]) in
  (p', w, negb (readopen p') && negb (writeopen p')).

(** How a run ends: [Return r], or [Sleep c] with the bytes still to go. *)
Inductive io_end : Type :=
| Return (r : Z)
| Sleep (c : chan).

(** [p->data\[p->nwrite++ % PIPESIZE\] = c] *)
Definition put_byte (c : Z) (p : pipe) : pipe :=
  mkPipe (ring_set PIPESIZE (data p) (nwrite p) c) (nread p) (u32 (nwrite p + 1))
         (readopen p) (writeopen p).

Definition full (p : pipe) : bool := nwrite p =? u32 (nread p + PIPESIZE).
Definition empty (p : pipe) : bool := nread p =? nwrite p.

(** One run of [pipewrite] over the bytes [addr\[i..n)] that remain: the new
    pipe, the number of bytes stored, the channels woken and the end. *)
Fixpoint pipewrite (a : Z) (killed : bool) (n : Z) (p : pipe) (bytes : list Z)
    : pipe * nat * list chan * io_end :=
  match bytes with
  | [] => (p, O, [ChanPipeRead a], Return n)
  | c :: rest =>
      if full p then
        if negb (readopen p) || killed then (p, O, [], Return (-1))
        else (p, O, [ChanPipeRead a], Sleep (ChanPipeWrite a))
      else
        let '(p', k, w, e) := pipewrite a killed n (put_byte c p) rest in
        (p', S k, w, e)
  end.

(** The copy loop of [piperead]: at most [n] bytes. *)
Fixpoint read_bytes (n : nat) (p : pipe) : pipe * list Z :=
  match n with
  | O => (p, [])
  | S n' =>
      if empty p then (p, [])
      else
        let c := ring_get PIPESIZE (data p) (nread p) in
        let p1 := mkPipe (data p) (u32 (nread p + 1)) (nwrite p) (readopen p) (writeopen p) in
        let '(p', cs) := read_bytes n' p1 in (p', c :: cs)
  end.

(** One run of [piperead]: the new pipe, the bytes stored at [addr], the
    channels woken and the end. *)
Definition piperead (a : Z) (killed : bool) (n : Z) (p : pipe)
    : pipe * list Z * list chan * io_end :=
  if empty p && writeopen p then
    if killed then (p, [], [], Return (-1))
    else (p, [], [], Sleep (ChanPipeRead a))
  else
    let '(p', cs) := read_bytes (Z.to_nat n) p in
    (p', cs, [ChanPipeWrite a], Return (Z.of_nat (length cs))).

(** ** Invariant and contents *)
Record pipe_ok (p : pipe) : Prop := {
  ok_data : length (data p) = Z.to_nat PIPESIZE;
  ok_nread : 0 <= nread p < 2 ^ 32;
  ok_nwrite : 0 <= nwrite p < 2 ^ 32;
  ok_size : dist (nwrite p) (nread p) <= PIPESIZE
}.

(** The bytes written and not yet read, oldest first. *)
Definition pending (p : pipe) : list Z :=
  contents PIPESIZE (data p) (nread p) (Z.to_nat (dist (nwrite p) (nread p))).

Lemma PIPESIZE_pos : 0 < PIPESIZE. Proof. done. Qed.
Lemma PIPESIZE_div : (PIPESIZE | 2 ^ 32). Proof. by exists (2 ^ 23). Qed.
#[local] Hint Resolve PIPESIZE_pos PIPESIZE_div : core.

Lemma pending_length p : Z.of_nat (length (pending p)) = dist (nwrite p) (nread p).
Proof.
  unfold pending. rewrite contents_length.
  pose proof (u32_range (nwrite p - nread p)). unfold dist. lia.
Qed.

Lemma full_spec p : pipe_ok p ->
  full p = bool_decide (Z.of_nat (length (pending p)) = PIPESIZE).
Proof.
  intros [_ Hr Hw _]. rewrite pending_length. unfold full.
  destruct (Z.eqb_spec (nwrite p) (u32 (nread p + PIPESIZE))) as [E|E];
    symmetry; [apply bool_decide_eq_true|apply bool_decide_eq_false].
  - rewrite E. apply dist_add. unfold PIPESIZE. lia.
  - intros Hd. apply E. rewrite <- Hd. symmetry. by apply add_dist.
Qed.

Lemma empty_spec p : pipe_ok p -> empty p = bool_decide (pending p = []).
Proof.
  intros [_ Hr Hw _]. unfold empty.
  assert (Hl : pending p = [] <-> dist (nwrite p) (nread p) = 0).
  { rewrite <- pending_length. destruct (pending p); simpl; split; (done || lia). }
  destruct (Z.eqb_spec (nread p) (nwrite p)) as [E|E]; symmetry;
    [apply bool_decide_eq_true|apply bool_decide_eq_false];
    rewrite Hl, dist_0; auto.
Qed.

Lemma put_byte_spec c p : pipe_ok p -> full p = false ->
  pipe_ok (put_byte c p) /\ pending (put_byte c p) = pending p ++ [c].
Proof.
  intros Hok Hf. pose proof Hok as [Hd Hr Hw Hs].
  rewrite full_spec in Hf by done. apply bool_decide_eq_false in Hf.
  rewrite pending_length in Hf.
  pose proof (u32_range (nwrite p - nread p)) as Hrange. fold (dist (nwrite p) (nread p)) in Hrange.
  assert (Hd1 : dist (u32 (nwrite p + 1)) (nread p) = dist (nwrite p) (nread p) + 1).
  { apply dist_succ. unfold PIPESIZE in *. lia. }
  split; [split; simpl; [by rewrite ring_set_length|done|apply u32_range|lia]|].
  unfold pending at 1. simpl. rewrite Hd1.
  replace (Z.to_nat (dist (nwrite p) (nread p) + 1))
    with (S (Z.to_nat (dist (nwrite p) (nread p)))) by lia.
  rewrite <- (add_dist (nwrite p) (nread p)) at 1 by done.
  rewrite <- (Z2Nat.id (dist (nwrite p) (nread p))) at 1 by lia.
  by rewrite contents_push by (auto; lia).
Qed.

Lemma take_byte_spec p : pipe_ok p -> empty p = false ->
  let p1 := mkPipe (data p) (u32 (nread p + 1)) (nwrite p) (readopen p) (writeopen p) in
  pipe_ok p1 /\ pending p = ring_get PIPESIZE (data p) (nread p) :: pending p1.
Proof.
  intros Hok He. pose proof Hok as [Hd Hr Hw Hs].
  assert (Hne : dist (nwrite p) (nread p) <> 0).
  { unfold empty in He. apply Z.eqb_neq in He. rewrite dist_0 by done. auto. }
  pose proof (u32_range (nwrite p - nread p)) as Hrange. fold (dist (nwrite p) (nread p)) in Hrange.
  assert (Hd1 : dist (nwrite p) (u32 (nread p + 1)) = dist (nwrite p) (nread p) - 1)
    by (apply dist_advance; lia).
  simpl. split; [split; simpl; [done|apply u32_range|done|lia]|].
  unfold pending; simpl. rewrite Hd1.
  by replace (Z.to_nat (dist (nwrite p) (nread p)))
    with (S (Z.to_nat (dist (nwrite p) (nread p) - 1))) by lia.
Qed.

(** ** Runs *)
Lemma pipewrite_run a killed n bytes : forall p p' k w e,
  pipe_ok p -> pipewrite a killed n p bytes = (p', k, w, e) ->
  pipe_ok p' /\ pending p' = pending p ++ take k bytes /\ (k <= length bytes)%nat /\
  readopen p' = readopen p /\ writeopen p' = writeopen p /\
  match e with
  | Return r =>
      (k = length bytes /\ r = n /\ w = [ChanPipeRead a]) \/
      (r = -1 /\ full p' = true /\ (readopen p = false \/ killed = true))
  | Sleep c =>
      c = ChanPipeWrite a /\ w = [ChanPipeRead a] /\ full p' = true /\
      (k < length bytes)%nat /\ readopen p = true /\ killed = false
  end.
Proof.
  induction bytes as [|c bytes IH]; intros p p' k w e Hok H; simpl in H.
  - simplify_eq. rewrite app_nil_r. auto 10.
  - destruct (full p) eqn:Hf.
    + destruct (negb (readopen p) || killed) eqn:Hk; simplify_eq; rewrite app_nil_r.
      * apply orb_true_iff in Hk as [Hk|Hk]; [apply negb_true_iff in Hk|];
          split_and!; auto with lia.
      * apply orb_false_iff in Hk as [Hk ->]. apply negb_false_iff in Hk.
        split_and!; simpl; auto with lia.
    + destruct (put_byte_spec c p Hok Hf) as [Hok1 Hp1].
      destruct (pipewrite a killed n (put_byte c p) bytes) as [[[p1 k1] w1] e1] eqn:E.
      simplify_eq. destruct (IH _ _ _ _ _ Hok1 E) as (Ho & Hp & Hk & Hr & Hw & He).
      simpl in Hr, Hw, He. rewrite Hp, Hp1, <- app_assoc. simpl.
      split_and!; auto with lia. destruct e as [r|c'].
      * destruct He as [(-> & -> & ->)|He]; auto.
      * destruct He as (-> & -> & ? & ? & ? & ->). split_and!; auto with lia.
Qed.

Lemma read_bytes_spec n : forall p p' cs,
  pipe_ok p -> read_bytes n p = (p', cs) ->
  pipe_ok p' /\ cs = take n (pending p) /\ pending p' = drop n (pending p) /\
  readopen p' = readopen p /\ writeopen p' = writeopen p.
Proof.
  induction n as [|n IH]; intros p p' cs Hok H; simpl in H; [by simplify_eq|].
  destruct (empty p) eqn:He.
  - simplify_eq. rewrite empty_spec in He by done. apply bool_decide_eq_true in He.
    by rewrite He.
  - destruct (take_byte_spec p Hok He) as [Hok1 Hp1].
    destruct (read_bytes n _) as [p1 cs1] eqn:E. simplify_eq.
    destruct (IH _ _ _ Hok1 E) as (? & -> & -> & ? & ?). by rewrite Hp1.
Qed.

Lemma piperead_run a killed n p p' cs w e :
  pipe_ok p -> piperead a killed n p = (p', cs, w, e) ->
  pipe_ok p' /\ pending p = cs ++ pending p' /\
  readopen p' = readopen p /\ writeopen p' = writeopen p /\
  match e with
  | Return r =>
      (r = -1 /\ cs = [] /\ pending p = [] /\ writeopen p = true /\ killed = true) \/
      (cs = take (Z.to_nat n) (pending p) /\ r = Z.of_nat (length cs) /\
       w = [ChanPipeWrite a] /\ (pending p = [] -> writeopen p = false))
  | Sleep c =>
      c = ChanPipeRead a /\ pending p = [] /\ writeopen p = true /\ killed = false
  end.
Proof.
  intros Hok H. unfold piperead in H. rewrite empty_spec in H by done.
  destruct (bool_decide_reflect (pending p = [])) as [Hp|Hp]; simpl in H.
  - destruct (writeopen p) eqn:Hw.
    + destruct killed; simplify_eq; rewrite Hp; auto 10.
    + destruct (read_bytes (Z.to_nat n) p) as [p1 cs1] eqn:E. simplify_eq.
      destruct (read_bytes_spec _ _ _ _ Hok E) as (? & -> & -> & ? & Hw').
      rewrite take_drop. rewrite Hw'. auto 10.
  - destruct (read_bytes (Z.to_nat n) p) as [p1 cs1] eqn:E. simplify_eq.
    destruct (read_bytes_spec _ _ _ _ Hok E) as (? & -> & -> & ? & ?).
    rewrite take_drop. split_and!; auto. right. naive_solver.
Qed.

(** ** Interleaved use of one pipe

    The state carries the stream of bytes stored so far and the stream of
    bytes returned to readers. *)
Record pipe_state : Type := mkPS { ps_pipe : pipe; ps_written : list Z; ps_read : list Z }.

Inductive pstep (a : Z) : pipe_state -> pipe_state -> Prop :=
| pstep_write killed n bytes p W R p' k w e :
    pipewrite a killed n p bytes = (p', k, w, e) ->
    pstep a (mkPS p W R) (mkPS p' (W ++ take k bytes) R)
| pstep_read killed n p W R p' cs w e :
    piperead a killed n p = (p', cs, w, e) ->
    pstep a (mkPS p W R) (mkPS p' W (R ++ cs))
| pstep_close writable p W R p' w fr :
    pipeclose a writable p = (p', w, fr) ->
    pstep a (mkPS p W R) (mkPS p' W R).

Definition pipe_inv (s : pipe_state) : Prop :=
  pipe_ok (ps_pipe s) /\ ps_written s = ps_read s ++ pending (ps_pipe s).

Lemma pipeclose_run a wr p p' w fr : pipe_ok p -> pipeclose a wr p = (p', w, fr) ->
  pipe_ok p' /\ pending p' = pending p.
Proof. intros [? ? ? ?] H. unfold pipeclose in H. destruct wr; simplify_eq; by split. Qed.

Lemma pipe_inv_step a s s' : pipe_inv s -> pstep a s s' -> pipe_inv s'.
Proof.
  intros [Hok HW] Hs. destruct Hs as [killed n bytes p W R p' k w e E
    |killed n p W R p' cs w e E|wr p W R p' w fr E]; unfold pipe_inv in *; simpl in *.
  - destruct (pipewrite_run _ _ _ _ _ _ _ _ _ Hok E) as (? & -> & _).
    split; [done|]. by rewrite HW, app_assoc.
  - destruct (piperead_run _ _ _ _ _ _ _ _ Hok E) as (? & Hp & _).
    split; [done|]. by rewrite HW, Hp, app_assoc.
  - destruct (pipeclose_run _ _ _ _ _ _ Hok E) as (? & ->). done.
Qed.

Lemma pipe_init_ok page : length page = Z.to_nat PIPESIZE -> pipe_ok (pipe_init page).
Proof. intros H. by split. Qed.

(** ** Properties *)

(** Claim C33. Whatever runs of readers, writers and closers interleave on a fresh
    pipe, the bytes delivered to readers followed by the bytes still in the
    ring are exactly the bytes stored by writers, in order, and the ring
    never holds more than [PIPESIZE] bytes. *)
Theorem pipe_fifo (a : Z) (page : list Z) (s : pipe_state)
    (Hpage : length page = Z.to_nat PIPESIZE)
    (Hs : rtc (pstep a) (mkPS (pipe_init page) [] []) s) :
  ps_written s = ps_read s ++ pending (ps_pipe s) /\
  Z.of_nat (length (pending (ps_pipe s))) <= PIPESIZE.
Proof.
  assert (Hi : pipe_inv s).
  { eapply (rtc_invariant (pstep a)); [apply pipe_inv_step|exact Hs|].
    split; [by apply pipe_init_ok|done]. }
  destruct Hi as [Hok HW]. split; [done|]. rewrite pending_length. apply Hok.
Qed.

(** A run of [pipewrite] stores a prefix of its bytes after the pending
    ones and ends in one of three ways: all stored and [n] returned with
    the readers woken; [-1] when the ring is full and the readers are gone or
    the writer was killed; or asleep on [nwrite] with the ring full and
    bytes left, the readers having been woken. *)
Theorem pipewrite_correct (a : Z) (killed : bool) (n : Z) (bytes : list Z) (p p' : pipe)
    (k : nat) (w : list chan) (e : io_end)
    (Hok : pipe_ok p) (H : pipewrite a killed n p bytes = (p', k, w, e)) :
  pipe_ok p' /\ pending p' = pending p ++ take k bytes /\
  match e with
  | Return r =>
      (k = length bytes /\ r = n /\ w = [ChanPipeRead a]) \/
      (r = -1 /\ full p' = true /\ (readopen p = false \/ killed = true))
  | Sleep c =>
      c = ChanPipeWrite a /\ w = [ChanPipeRead a] /\ full p' = true /\
      (k < length bytes)%nat /\ readopen p = true /\ killed = false
  end.
Proof. destruct (pipewrite_run _ _ _ _ _ _ _ _ _ Hok H) as (? & ? & _ & _ & _ & ?). auto. Qed.

(** A run of [piperead] removes from the front of the ring exactly the bytes
    it delivers: the first [n] pending ones.  It sleeps only on an empty ring
    with a writer left, and returns 0 bytes for [n > 0] only at end of file. *)
Theorem piperead_correct (a : Z) (killed : bool) (n : Z) (p p' : pipe)
    (cs : list Z) (w : list chan) (e : io_end)
    (Hok : pipe_ok p) (H : piperead a killed n p = (p', cs, w, e)) :
  pipe_ok p' /\ pending p = cs ++ pending p' /\
  match e with
  | Return r =>
      (r = -1 /\ cs = [] /\ pending p = [] /\ writeopen p = true /\ killed = true) \/
      (cs = take (Z.to_nat n) (pending p) /\ r = Z.of_nat (length cs) /\
       w = [ChanPipeWrite a] /\ (pending p = [] -> writeopen p = false))
  | Sleep c =>
      c = ChanPipeRead a /\ pending p = [] /\ writeopen p = true /\ killed = false
  end.
Proof. destruct (piperead_run _ _ _ _ _ _ _ _ Hok H) as (? & ? & _ & _ & ?). auto. Qed.

Definition page0 : list Z := replicate (Z.to_nat PIPESIZE) 0.
Definition pipe3 : pipe := (pipewrite 1 false 3 (pipe_init page0) [5; 6; 7]).1.1.1.

Lemma pipe0_ok : pipe_ok (pipe_init page0).
Proof. by apply pipe_init_ok. Qed.

Lemma pipe3_ok : pipe_ok pipe3.
Proof. split; vm_compute; try done. Qed.

(** Three bytes written, two of them read. *)
Definition piped : pipe_state := mkPS ((piperead 1 false 2 pipe3).1.1.1) [5; 6; 7] [5; 6].

Lemma pipe_fifo_witness :
  ps_written piped = ps_read piped ++ pending (ps_pipe piped) /\
  Z.of_nat (length (pending (ps_pipe piped))) <= PIPESIZE.
Proof.
  apply (pipe_fifo 1 page0 piped); [reflexivity|].
  eapply rtc_l; [exact (pstep_write 1 false 3 [5; 6; 7] (pipe_init page0) [] [] pipe3 3 _ _ eq_refl)|].
  eapply rtc_l; [exact (pstep_read 1 false 2 pipe3 [5; 6; 7] [] (ps_pipe piped) [5; 6] _ _ eq_refl)|].
  apply rtc_refl.
Defined.

Lemma pipewrite_correct_witness :
  pipe_ok pipe3 /\ pending pipe3 = pending (pipe_init page0) ++ take 3 [5; 6; 7] /\
  ((3%nat = length [5; 6; 7] /\ 3 = 3 /\ [ChanPipeRead 1] = [ChanPipeRead 1]) \/
   (3 = -1 /\ full pipe3 = true /\ (readopen (pipe_init page0) = false \/ false = true))).
Proof. exact (pipewrite_correct 1 false 3 [5; 6; 7] (pipe_init page0) pipe3 3 [ChanPipeRead 1] (Return 3) pipe0_ok eq_refl). Defined.

Lemma piperead_correct_witness :
  pipe_ok (ps_pipe piped) /\ pending pipe3 = [5; 6] ++ pending (ps_pipe piped) /\
  ((2 = -1 /\ [5; 6] = [] /\ pending pipe3 = [] /\ writeopen pipe3 = true /\ false = true) \/
   ([5; 6] = take (Z.to_nat 2) (pending pipe3) /\ 2 = Z.of_nat (length [5; 6]) /\
    [ChanPipeWrite 1] = [ChanPipeWrite 1] /\ (pending pipe3 = [] -> writeopen pipe3 = false))).
Proof. exact (piperead_correct 1 false 2 pipe3 (ps_pipe piped) [5; 6] [ChanPipeWrite 1] (Return 2) pipe3_ok eq_refl). Defined.
