(* ===== verification/Console.v ===== *)
(** * Console: console.c (cprintf, the CGA screen, line input) and printf.c

    Formatted output is the list of the characters passed to [consputc] (or
    [putc] in user space).  The screen is the 25 x 80 array of CGA cells with
    the cursor.  Line input is the 128 byte ring with its three counters:
    [consoleintr] edits the unfinished line between [w] and [e],
    [consoleread] consumes finished input between [r] and [w]. *)

From stdpp Require Import prelude strings.
From S2P Require Import Prelude Ring CString.

Open Scope Z_scope.

(** Character codes of a literal. *)
Definition codes (s : string) : list Z :=
  (fun c => Z.of_nat (Ascii.nat_of_ascii c)) <$> String.list_ascii_of_string s.

(** A C literal with the escapes [\n] and [\t]. *)
Fixpoint unescape (l : list Z) : list Z :=
  match l with
  | 92 :: 110 :: l' => 10 :: unescape l'
  | 92 :: 116 :: l' => 9 :: unescape l'
  | c :: l' => c :: unescape l'
  | [] => []
  end.

Definition cfmt (s : string) : list Z := unescape (codes s).

(** ** Formatted output *)
Definition digits_lower : list Z := codes "0123456789abcdef".
Definition digits_upper : list Z := codes "0123456789ABCDEF".

(** The [do ... while] of [printint]: the digits of [x], least significant
    first, as they are stored in [buf].  32 rounds are enough for a 32-bit
    [x] in any base from 2. *)
Fixpoint digit_loop (fuel : nat) (digits : list Z) (x base : Z) : list Z :=
  match fuel with
  | O => []
  | S f =>
      nth (Z.to_nat (x mod base)) digits 0 ::
      (if x / base =? 0 then [] else digit_loop f digits (x / base) base)
  end.

Definition printint (digits : list Z) (xx base : Z) (sign : bool) : list Z :=
  let neg := sign && (xx <? 0) in
  let x := if neg then u32 (- xx) else u32 xx in
  rev (digit_loop 32 digits x base ++ if neg then codes "-" else []).

(** A variadic argument: a word, or a pointer to a string ([None] is the
    null pointer). *)
Inductive carg : Type :=
| CInt (z : Z)
| CStr (s : option (list Z)).

Definition render_str (s : option (list Z)) : list Z :=
  match s with Some s => s | None => codes "(null)" end.

(** [cprintf]: [None] when the arguments do not match the conversions. *)
Fixpoint cprintf (fmt : list Z) (args : list carg) : option (list Z) :=
  match fmt with
  | [] => Some []
  | c :: fmt' =>
      if negb (c =? 37) then cons c <$> cprintf fmt' args
      else
        match fmt' with
        | [] => Some []
        | d :: fmt'' =>
            if d =? 100 then
              match args with
              | CInt z :: args' => app (printint digits_lower (s32 z) 10 true) <$> cprintf fmt'' args'
              | _ => None
              end
            else if (d =? 120) || (d =? 112) then
              match args with
              | CInt z :: args' => app (printint digits_lower z 16 false) <$> cprintf fmt'' args'
              | _ => None
              end
            else if d =? 115 then
              match args with
              | CStr s :: args' => app (render_str s) <$> cprintf fmt'' args'
              | _ => None
              end
            else if d =? 37 then cons 37 <$> cprintf fmt'' args
            else app [37; d] <$> cprintf fmt'' args
        end
  end.

(** The arguments match the conversions of the format. *)
Fixpoint fmt_ok (fmt : list Z) (args : list carg) : bool :=
  match fmt with
  | [] => true
  | c :: fmt' =>
      if negb (c =? 37) then fmt_ok fmt' args
      else
        match fmt' with
        | [] => true
        | d :: fmt'' =>
            if (d =? 100) || ((d =? 120) || (d =? 112)) then
              match args with CInt _ :: args' => fmt_ok fmt'' args' | _ => false end
            else if d =? 115 then
              match args with CStr _ :: args' => fmt_ok fmt'' args' | _ => false end
            else fmt_ok fmt'' args
        end
  end.

Lemma cprintf_some n : forall fmt args, (length fmt <= n)%nat -> fmt_ok fmt args = true ->
  is_Some (cprintf fmt args).
Proof.
  induction n as [|n IH]; intros fmt args Hn H; (destruct fmt as [|c fmt]; [by eexists|]); simpl in Hn; [lia|].
  simpl in *. destruct (c =? 37); simpl in *.
  - destruct fmt as [|d fmt]; [by eexists|]. simpl in Hn.
    destruct (d =? 100); simpl in *.
    { destruct args as [|[z|?] args]; try done. apply fmap_is_Some, IH; [lia|done]. }
    destruct ((d =? 120) || (d =? 112)).
    { destruct args as [|[z|?] args]; try done. apply fmap_is_Some, IH; [lia|done]. }
    destruct (d =? 115).
    { destruct args as [|[z|?] args]; try done. apply fmap_is_Some, IH; [lia|done]. }
    destruct (d =? 37); apply fmap_is_Some, IH; lia || done.
  - apply fmap_is_Some, IH; [lia|done].
Qed.

(** User [printf]: the same conversions and [%c], as a two state machine
    ([state] is 0 or ['%']). *)
Fixpoint printf_loop (state : Z) (fmt : list Z) (args : list carg) : option (list Z) :=
  match fmt with
  | [] => Some []
  | c :: fmt' =>
      if state =? 0 then
        if c =? 37 then printf_loop 37 fmt' args
        else cons c <$> printf_loop 0 fmt' args
      else if state =? 37 then
        if c =? 100 then
          match args with
          | CInt z :: args' => app (printint digits_upper (s32 z) 10 true) <$> printf_loop 0 fmt' args'
          | _ => None
          end
        else if (c =? 120) || (c =? 112) then
          match args with
          | CInt z :: args' => app (printint digits_upper z 16 false) <$> printf_loop 0 fmt' args'
          | _ => None
          end
        else if c =? 115 then
          match args with
          | CStr s :: args' => app (render_str s) <$> printf_loop 0 fmt' args'
          | _ => None
          end
        else if c =? 99 then
          match args with
          | CInt z :: args' => cons (z mod 256) <$> printf_loop 0 fmt' args'
          | _ => None
          end
        else if c =? 37 then cons c <$> printf_loop 0 fmt' args
        else app [37; c] <$> printf_loop 0 fmt' args
      else printf_loop state fmt' args
  end.

Definition printf (fmt : list Z) (args : list carg) : option (list Z) := printf_loop 0 fmt args.

(** ** The screen *)
Definition BACKSPACE : Z := 256.

Record cga : Type := mkCga { crt : list Z; pos : Z }.

Definition CELLS : nat := 2000.   (** 25 * 80 *)

(** Stores and the [memset] of the scroll, inside CGA memory. *)
Definition crt_set (l : list Z) (i v : Z) : result (list Z) :=
  match updZ l i v with Some l' => Ok l' | None => Fault end.

Definition scroll_up (l : list Z) : list Z :=
  take 1840 (drop 80 l) ++ drop 1840 l.

Definition zero_cells (l : list Z) (i n : nat) : list Z :=
  take i l ++ replicate n 0 ++ drop (i + n) l.

Definition cgaputc (c : Z) (st : cga) : result cga :=
  let step1 :=
    if c =? 10 then Ok (crt st, pos st + (80 - pos st mod 80))
    else if c =? BACKSPACE then Ok (crt st, if 0 <? pos st then pos st - 1 else pos st)
    else match crt_set (crt st) (pos st) (Z.lor (Z.land c 255) 1792) with
         | Ok l => Ok (l, pos st + 1)
         | Panic e => Panic e
         | Fault => Fault
         end in
  match step1 with
  | Ok (l, p) =>
      if (p <? 0) || (2000 <? p) then Panic "pos under/overflow"
      else
        let '(l, p) :=
          if 24 <=? p / 80 then
            let p := p - 80 in
            (zero_cells (scroll_up l) (Z.to_nat p) (Z.to_nat (1920 - p)), p)
          else (l, p) in
        match crt_set l p (Z.lor 32 1792) with
        | Ok l => Ok (mkCga l (p mod 65536))
        | Panic e => Panic e
        | Fault => Fault
        end
  | Panic e => Panic e
  | Fault => Fault
  end.

(** [consputc]: the bytes sent to the serial port, and the screen. *)
Definition consputc (c : Z) (st : cga) : result (list Z * cga) :=
  match cgaputc c st with
  | Ok st' => Ok (if c =? BACKSPACE then [8; 32; 8] else [c], st')
  | Panic e => Panic e
  | Fault => Fault
  end.

(** ** Line input *)
Definition INPUT_BUF : Z := 128.

Record input : Type := mkInput { buf : list Z; r : Z; w : Z; e : Z }.

Definition Ctl (x : Z) : Z := x - 64.

(** The loop of control-U.  [e - w] is at most 128. *)
Fixpoint kill_line (fuel : nat) (i : input) : input * list Z :=
  match fuel with
  | O => (i, [])
  | S f =>
      if negb (e i =? w i) && negb (ring_get INPUT_BUF (buf i) (u32 (e i - 1)) =? 10) then
        let '(i', out) := kill_line f (mkInput (buf i) (r i) (w i) (u32 (e i - 1))) in
        (i', BACKSPACE :: out)
      else (i, [])
  end.

(** One character of [consoleintr]'s loop: the new input, the characters
    echoed with [consputc], whether readers are woken, and whether a process
    listing was requested. *)
Definition consoleintr_char (c : Z) (i : input) : input * list Z * bool * bool :=
  if c =? Ctl 80 then (i, [], false, true)
  else if c =? Ctl 85 then
    let '(i', out) := kill_line 128 i in (i', out, false, false)
  else if (c =? Ctl 72) || (c =? 127) then
    if negb (e i =? w i)
    then (mkInput (buf i) (r i) (w i) (u32 (e i - 1)), [BACKSPACE], false, false)
    else (i, [], false, false)
  else if negb (c =? 0) && (u32 (e i - r i) <? INPUT_BUF) then
    let c := if c =? 13 then 10 else c in
    let b' := ring_set INPUT_BUF (buf i) (e i) c in
    let e' := u32 (e i + 1) in
    if (c =? 10) || (c =? Ctl 68) || (e' =? u32 (r i + INPUT_BUF))
    then (mkInput b' (r i) e' e', [c], true, false)
    else (mkInput b' (r i) (w i) e', [c], false, false)
  else (i, [], false, false).

(** [consoleintr] on the characters [getc] delivers before it returns a
    negative value. *)
Fixpoint consoleintr (cs : list Z) (i : input) : input * list Z * bool * bool :=
  match cs with
  | [] => (i, [], false, false)
  | c :: cs' =>
      let '(i1, out1, wk1, dump1) := consoleintr_char c i in
      let '(i2, out2, wk2, dump2) := consoleintr cs' i1 in
      (i2, out1 ++ out2, wk1 || wk2, dump1 || dump2)
  end.

(** One run of [consoleread]'s loop, from entry or from the return of
    [sleep]: [left] bytes are still wanted out of [target].  It ends with a
    result, or asleep on [&input.r] with the bytes still wanted. *)
Inductive cread_end : Type :=
| CReturn (n : Z)
| CSleep (left : nat).

Fixpoint consoleread (killed : bool) (target : Z) (left : nat) (i : input)
    : input * list Z * cread_end :=
  match left with
  | O => (i, [], CReturn target)
  | S left' =>
      if r i =? w i then
        if killed then (i, [], CReturn (-1)) else (i, [], CSleep left)
      else
        let c := ring_get INPUT_BUF (buf i) (r i) in
        let i1 := mkInput (buf i) (u32 (r i + 1)) (w i) (e i) in
        if c =? Ctl 68 then
          if Z.of_nat left <? target
          then (mkInput (buf i) (r i) (w i) (e i), [], CReturn (target - Z.of_nat left))
          else (i1, [], CReturn (target - Z.of_nat left))
        else if c =? 10 then (i1, [c], CReturn (target - Z.of_nat left'))
        else
          let '(i2, out, en) := consoleread killed target left' i1 in (i2, c :: out, en)
  end.

(** ** Numbers *)
Lemma digit_lower_dec d : 0 <= d < 10 ->
  nth (Z.to_nat d) digits_lower 0 = 48 + d /\ nth (Z.to_nat d) digits_upper 0 = 48 + d.
Proof.
  intros H. assert (d = 0 \/ d = 1 \/ d = 2 \/ d = 3 \/ d = 4 \/ d = 5 \/ d = 6 \/ d = 7
    \/ d = 8 \/ d = 9) as Hd by lia.
  repeat destruct Hd as [->|Hd]; try (split; reflexivity). subst. split; reflexivity.
Qed.

Lemma digit_loop_length f : forall digits x base k,
  1 < base -> 0 <= x < base ^ Z.of_nat (S k) -> (length (digit_loop f digits x base) <= S k)%nat.
Proof.
  induction f as [|f IH]; intros digits x base k Hb Hx; simpl; [lia|].
  destruct (Z.eqb_spec (x / base) 0) as [E|E]; simpl; [lia|].
  destruct k as [|k].
  - rewrite Z.pow_1_r in Hx. rewrite Z.div_small in E by lia. done.
  - apply le_n_S, IH; [done|]. split; [apply Z.div_pos; lia|].
    apply Z.div_lt_upper_bound; [lia|]. replace (Z.of_nat (S (S k))) with (Z.of_nat (S k) + 1) in Hx by lia.
    rewrite Z.pow_add_r, Z.pow_1_r in Hx by lia. lia.
Qed.

(** [atoi]'s loop, run over the digits [printint] writes for [x], goes on
    with the accumulator shifted by them. *)
Lemma atoi_digit_loop digits f : (digits = digits_lower \/ digits = digits_upper) ->
  forall x acc rest, 0 <= acc -> 0 <= x < 2 ^ Z.of_nat f ->
  let l := digit_loop f digits x 10 in
  acc * 10 ^ Z.of_nat (length l) + x < 2 ^ 31 ->
  Ulib.atoi_loop (rev l ++ rest) acc = Ulib.atoi_loop rest (acc * 10 ^ Z.of_nat (length l) + x).
Proof.
  intros Hdig. induction f as [|f IH]; intros x acc rest Hacc Hx l Hlt.
  { simpl in Hx. unfold l. simpl. f_equal. simpl in Hlt. lia. }
  assert (Hd : nth (Z.to_nat (x mod 10)) digits 0 = 48 + x mod 10).
  { destruct (digit_lower_dec (x mod 10)) as [H1 H2]; [apply Z.mod_pos_bound; lia|].
    destruct Hdig as [-> | ->]; done. }
  assert (Hstep : forall acc', 0 <= acc' -> acc' * 10 + x mod 10 < 2 ^ 31 ->
    Ulib.atoi_loop ((48 + x mod 10) :: rest) acc' = Ulib.atoi_loop rest (acc' * 10 + x mod 10)).
  { intros acc' H1 H2. pose proof (Z.mod_pos_bound x 10). simpl.
    destruct (Z.leb_spec 48 (48 + x mod 10)); [|lia].
    destruct (Z.leb_spec (48 + x mod 10) 57); [|lia]. simpl.
    rewrite s32_small by lia. f_equal. lia. }
  pose proof (Z.div_mod x 10). pose proof (Z.mod_pos_bound x 10).
  subst l. rewrite Nat2Z.inj_succ, Z.pow_succ_r in Hx by lia.
  simpl digit_loop in *. rewrite Hd in *.
  destruct (Z.eqb_spec (x / 10) 0) as [E|E].
  - simpl rev. simpl length in *. simpl app. rewrite Z.pow_1_r in *.
    rewrite Hstep by lia. f_equal. lia.
  - simpl rev. rewrite <- app_assoc. set (l := digit_loop f digits (x / 10) 10) in *.
    simpl length in *. rewrite Nat2Z.inj_succ, Z.pow_succ_r in * by lia.
    assert (0 <= x / 10) by (apply Z.div_pos; lia).
    assert (0 <= acc * 10 ^ Z.of_nat (length l)) by (apply Z.mul_nonneg_nonneg; lia).
    specialize (IH (x / 10) acc ([48 + x mod 10] ++ rest) Hacc).
    cbv zeta in IH. fold l in IH. rewrite IH.
    + simpl app. rewrite Hstep by lia. f_equal. lia.
    + split; [lia|]. apply Z.div_lt_upper_bound; lia.
    + lia.
Qed.

#[local] Arguments digit_loop : simpl never.

(** ** The screen invariant *)
Definition cga_ok (st : cga) : Prop := length (crt st) = CELLS /\ 0 <= pos st < 1920.

Lemma crt_set_ok l i v : length l = CELLS -> 0 <= i < 2000 ->
  exists l', crt_set l i v = Ok l' /\ length l' = CELLS.
Proof.
  intros Hl Hi. unfold crt_set. rewrite updZ_in by (rewrite Hl; unfold CELLS; lia).
  eexists. split; [done|]. by rewrite length_insert.
Qed.

Lemma scroll_length l i n : length l = CELLS -> (i + n <= 2000)%nat ->
  length (zero_cells (scroll_up l) i n) = CELLS.
Proof.
  intros Hl Hin. unfold zero_cells, scroll_up.
  repeat (rewrite length_app || rewrite length_take || rewrite length_drop || rewrite length_replicate).
  rewrite Hl. unfold CELLS. lia.
Qed.

(** The part of [cgaputc] after the cursor has moved. *)
Lemma cgaputc_finish l p : length l = CELLS -> 0 <= p <= 1920 ->
  exists st', (let '(l, p) := if 24 <=? p / 80
                 then (zero_cells (scroll_up l) (Z.to_nat (p - 80)) (Z.to_nat (1920 - (p - 80))), p - 80)
                 else (l, p) in
               match crt_set l p (Z.lor 32 1792) with
               | Ok l => Ok (mkCga l (p mod 65536)) | Panic m => Panic m | Fault => Fault
               end) = Ok st' /\ cga_ok st'.
Proof.
  intros Hl Hp. destruct (Z.leb_spec 24 (p / 80)) as [H|H].
  - assert (p = 1920) as -> by (pose proof (Z.div_le_upper_bound p 80 24); pose proof (Z.mul_div_le p 80); lia).
    destruct (crt_set_ok (zero_cells (scroll_up l) (Z.to_nat (1920 - 80)) (Z.to_nat (1920 - (1920 - 80))))
      (1920 - 80) (Z.lor 32 1792)) as (l' & -> & Hl'); [apply scroll_length; [done|lia]|lia|].
    eexists. split; [done|]. split; simpl; [done|]. cbv. done.
  - assert (p < 1920). { destruct (Z.lt_ge_cases p 1920); [done|].
      assert (p = 1920) by lia. subst. cbv in H. done. }
    destruct (crt_set_ok l p (Z.lor 32 1792)) as (l' & -> & Hl'); [done|lia|].
    eexists. split; [done|]. split; simpl; [done|]. rewrite Z.mod_small; lia.
Qed.

(** ** The line discipline, abstractly

    [C] is the finished input a reader may take, [E] the line being edited. *)
Definition spec_char (c : Z) (C E : list Z) : list Z * list Z * bool :=
  if c =? Ctl 80 then (C, E, false)
  else if c =? Ctl 85 then (C, [], false)
  else if (c =? Ctl 72) || (c =? 127) then (C, removelast E, false)
  else if negb (c =? 0) && (Z.of_nat (length (C ++ E)) <? INPUT_BUF) then
    let c := if c =? 13 then 10 else c in
    if (c =? 10) || (c =? Ctl 68) || (Z.of_nat (length (C ++ E)) + 1 =? INPUT_BUF)
    then (C ++ E ++ [c], [], true)
    else (C, E ++ [c], false)
  else (C, E, false).

(** A reader takes finished input up to and including a newline, up to
    [left] bytes, or up to a control-D: that one is consumed only when it
    ends an empty read. *)
Fixpoint spec_read (killed : bool) (target : Z) (left : nat) (C : list Z)
    : list Z * list Z * cread_end :=
  match left, C with
  | O, _ => (C, [], CReturn target)
  | S _, [] => (C, [], if killed then CReturn (-1) else CSleep left)
  | S left', c :: C' =>
      if c =? Ctl 68 then
        (if Z.of_nat left <? target then C else C', [], CReturn (target - Z.of_nat left))
      else if c =? 10 then (C', [c], CReturn (target - Z.of_nat left'))
      else let '(C2, out, en) := spec_read killed target left' C' in (C2, c :: out, en)
  end.

Record input_abs (i : input) (C E : list Z) : Prop := {
  ia_buf : length (buf i) = Z.to_nat INPUT_BUF;
  ia_r : 0 <= r i < 2 ^ 32;
  ia_w : 0 <= w i < 2 ^ 32;
  ia_e : 0 <= e i < 2 ^ 32;
  ia_max : dist (e i) (r i) <= INPUT_BUF;
  ia_whole : contents INPUT_BUF (buf i) (r i) (Z.to_nat (dist (e i) (r i))) = C ++ E;
  ia_done : Z.of_nat (length C) = dist (w i) (r i);
  ia_line : Forall (fun c => c <> 10) E
}.

Lemma INPUT_BUF_pos : 0 < INPUT_BUF. Proof. done. Qed.
Lemma INPUT_BUF_div : (INPUT_BUF | 2 ^ 32). Proof. by exists (2 ^ 25). Qed.
#[local] Hint Resolve INPUT_BUF_pos INPUT_BUF_div : core.

Lemma ia_length i C E : input_abs i C E -> dist (e i) (r i) = Z.of_nat (length C + length E).
Proof.
  intros H. rewrite <- length_app, <- (ia_whole _ _ _ H), contents_length.
  pose proof (u32_range (e i - r i)). unfold dist. lia.
Qed.

Lemma ia_edit_nil i C E : input_abs i C E -> (e i =? w i) = bool_decide (E = []).
Proof.
  intros H. pose proof (ia_length _ _ _ H) as Hl. pose proof (ia_done _ _ _ H) as Hd.
  destruct (Z.eqb_spec (e i) (w i)) as [Heq|Hne]; symmetry;
    [apply bool_decide_eq_true|apply bool_decide_eq_false].
  - rewrite Heq in Hl. destruct E; simpl in *; [done|lia].
  - intros ->. apply Hne. apply (dist_inj _ _ (r i)); [apply H|apply H|simpl in *; lia].
Qed.

Lemma ia_done_nil i C E : input_abs i C E -> (r i =? w i) = bool_decide (C = []).
Proof.
  intros H. pose proof (ia_done _ _ _ H) as Hd. destruct H as [_ Hr Hw _ _ _ _ _].
  destruct (Z.eqb_spec (r i) (w i)) as [Heq|Hne]; symmetry;
    [apply bool_decide_eq_true|apply bool_decide_eq_false].
  - destruct C; [done|]. rewrite Heq in Hd. simpl in Hd. unfold dist in Hd.
    rewrite Z.sub_diag in Hd. cbv in Hd. lia.
  - intros ->. apply Hne. symmetry. by apply dist_0.
Qed.

(** Erasing the last character of the line being edited. *)
Lemma ia_erase i C E x : input_abs i C (E ++ [x]) ->
  input_abs (mkInput (buf i) (r i) (w i) (u32 (e i - 1))) C E /\
  ring_get INPUT_BUF (buf i) (u32 (e i - 1)) = x.
Proof.
  intros H. pose proof (ia_length _ _ _ H) as Hl. rewrite length_app in Hl. simpl in Hl.
  pose proof (dist_pred (e i) (r i) ltac:(lia)) as Hp.
  destruct H as [Hb Hr Hw He Hm Hwh Hd Hn].
  replace (Z.to_nat (dist (e i) (r i))) with (S (length C + length E)) in Hwh by lia.
  rewrite contents_snoc in Hwh by auto. rewrite app_assoc in Hwh.
  apply app_inj_tail in Hwh as [Hwh Hx].
  assert (Hx' : ring_get INPUT_BUF (buf i) (u32 (e i - 1)) = x).
  { rewrite <- Hx. rewrite ring_get_u32 by auto.
    rewrite <- (ring_get_u32 INPUT_BUF ltac:(auto) ltac:(auto) _ (r i + _)).
    replace (r i + Z.of_nat (length C + length E)) with (r i + (dist (e i) (r i) - 1)) by lia.
    rewrite <- Hp, add_dist by apply u32_range. symmetry. by apply ring_get_u32. }
  split; [|done]. split; simpl; auto using u32_range; [lia| |].
  - rewrite Hp. by replace (Z.to_nat (dist (e i) (r i) - 1)) with (length C + length E)%nat by lia.
  - by apply Forall_app in Hn as [Hn _].
Qed.

Lemma kill_line_spec C f : forall i E, (length E <= f)%nat -> input_abs i C E ->
  exists i' out, kill_line f i = (i', out) /\ input_abs i' C [].
Proof.
  induction f as [|f IH]; intros i E Hf H.
  - destruct E; [|simpl in Hf; lia]. simpl. eauto.
  - destruct E as [|x E _] using rev_ind; simpl.
    + rewrite (ia_edit_nil _ _ _ H). rewrite bool_decide_eq_true_2 by done. simpl. eauto.
    + rewrite (ia_edit_nil _ _ _ H). rewrite bool_decide_eq_false_2 by (by destruct E).
      destruct (ia_erase _ _ _ _ H) as [H' Hx]. rewrite Hx.
      pose proof (ia_line _ _ _ H) as Hn. apply Forall_app in Hn as [_ Hn].
      apply Forall_cons in Hn as [Hn _]. destruct (Z.eqb_spec x 10); [done|]. simpl.
      rewrite length_app in Hf. simpl in Hf.
      destruct (IH _ E ltac:(lia) H') as (i' & out & -> & Hi'). eauto.
Qed.

(** Appending a character at [e]. *)
Lemma ia_push i C E c : input_abs i C E -> dist (e i) (r i) < INPUT_BUF ->
  contents INPUT_BUF (ring_set INPUT_BUF (buf i) (e i) c) (r i)
    (Z.to_nat (dist (u32 (e i + 1)) (r i))) = C ++ E ++ [c] /\
  dist (u32 (e i + 1)) (r i) = dist (e i) (r i) + 1.
Proof.
  intros H Hlt. destruct H as [Hb Hr Hw He Hm Hwh Hd Hn].
  pose proof (u32_range (e i - r i)) as Hrg. fold (dist (e i) (r i)) in Hrg.
  assert (Hs : dist (u32 (e i + 1)) (r i) = dist (e i) (r i) + 1).
  { apply dist_succ. unfold INPUT_BUF in *. lia. }
  split; [|done]. rewrite Hs.
  replace (Z.to_nat (dist (e i) (r i) + 1)) with (S (Z.to_nat (dist (e i) (r i)))) by lia.
  rewrite <- (add_dist (e i) (r i)) at 1 by done.
  rewrite <- (Z2Nat.id (dist (e i) (r i))) at 1 by lia.
  rewrite contents_push by (auto; lia). by rewrite Hwh, app_assoc.
Qed.

Lemma ia_init : input_abs (mkInput (replicate 128 0) 0 0 0) [] [].
Proof. by split; first [done | simpl; lia | vm_compute; congruence]. Qed.

Lemma consoleintr_char_abs c i C E C' E' wk : input_abs i C E ->
  spec_char c C E = (C', E', wk) ->
  exists i' out dump, consoleintr_char c i = (i', out, wk, dump) /\ input_abs i' C' E'.
Proof.
  intros H Hs. pose proof (ia_length _ _ _ H) as Hlen.
  unfold spec_char in Hs. unfold consoleintr_char.
  destruct (c =? Ctl 80); [simplify_eq; eauto 10|].
  destruct (c =? Ctl 85).
  { simplify_eq. destruct (kill_line_spec C' 128 i E) as (i' & out & -> & Hi'); [|done|eauto 10].
    pose proof (ia_max _ _ _ H). unfold INPUT_BUF in *. lia. }
  destruct ((c =? Ctl 72) || (c =? 127)).
  { simplify_eq. rewrite (ia_edit_nil _ _ _ H).
    destruct E as [|x E _] using rev_ind; [simpl; eauto 10|].
    rewrite bool_decide_eq_false_2 by (by destruct E). simpl.
    rewrite removelast_last. destruct (ia_erase _ _ _ _ H) as [H' _]. eauto 10. }
  fold (dist (e i) (r i)). rewrite Hlen, <- length_app.
  destruct (negb (c =? 0) && (Z.of_nat (length (C ++ E)) <? INPUT_BUF)) eqn:Hc;
    [|simplify_eq; eauto 10].
  apply andb_true_iff in Hc as [_ Hc]. apply Z.ltb_lt in Hc.
  set (c1 := if c =? 13 then 10 else c) in *.
  destruct (ia_push i C E c1 H) as [Hwh Hd1]; [rewrite Hlen, <- length_app; done|].
  assert (Hfull : (u32 (e i + 1) =? u32 (r i + INPUT_BUF)) =
                  (Z.of_nat (length (C ++ E)) + 1 =? INPUT_BUF)).
  { rewrite length_app, <- Hlen, <- Hd1.
    destruct (Z.eqb_spec (dist (u32 (e i + 1)) (r i)) INPUT_BUF) as [Hq|Hq].
    - rewrite <- Hq, add_dist by apply u32_range. by rewrite Z.eqb_refl.
    - apply Z.eqb_neq. intros Hbad. apply Hq. rewrite Hbad. apply dist_add. unfold INPUT_BUF. lia. }
  rewrite Hfull. pose proof H as [Hb Hr Hw He Hm _ Hdn Hn].
  rewrite length_app in Hc.
  destruct ((c1 =? 10) || (c1 =? Ctl 68) || _) eqn:Hcommit; simplify_eq.
  - eexists _, _, _. split; [done|]. split; simpl; auto using u32_range.
    + by rewrite ring_set_length.
    + lia.
    + by rewrite Hwh, app_nil_r.
    + rewrite !length_app. simpl. lia.
  - eexists _, _, _. split; [done|]. split; simpl; auto using u32_range.
    + by rewrite ring_set_length.
    + lia.
    + apply Forall_app. split; [done|]. constructor; [|done]. intros E10.
      rewrite E10 in Hcommit. done.
Qed.

Lemma consoleread_abs killed target left : forall i C E C' out en,
  input_abs i C E -> spec_read killed target left C = (C', out, en) ->
  exists i', consoleread killed target left i = (i', out, en) /\ input_abs i' C' E.
Proof.
  induction left as [|left IH]; intros i C E C' out en H Hs; simpl in *; [simplify_eq; eauto|].
  rewrite (ia_done_nil _ _ _ H). destruct C as [|c C].
  { simplify_eq. rewrite bool_decide_eq_true_2 by done. destruct killed; eauto. }
  rewrite bool_decide_eq_false_2 by done.
  pose proof (ia_length _ _ _ H) as Hl. simpl in Hl.
  assert (Hadv : input_abs (mkInput (buf i) (u32 (r i + 1)) (w i) (e i)) C E /\
                 ring_get INPUT_BUF (buf i) (r i) = c).
  { destruct H as [Hb Hr Hw He Hm Hwh Hd Hn].
    replace (Z.to_nat (dist (e i) (r i))) with (S (length C + length E)) in Hwh by lia.
    simpl in Hwh. simplify_eq. simpl in Hd.
    pose proof (dist_advance (e i) (r i) ltac:(lia)) as Ha.
    pose proof (dist_advance (w i) (r i) ltac:(lia)) as Ha'.
    split; [|done]. split; simpl; auto using u32_range; [lia| |lia].
    rewrite Ha. by replace (Z.to_nat (dist (e i) (r i) - 1)) with (length C + length E)%nat by lia. }
  destruct Hadv as [Hadv ->].
  destruct (c =? Ctl 68).
  { destruct (Z.of_nat (S left) <? target); simplify_eq;
      eexists; (split; [done|]); [by destruct i|done]. }
  destruct (c =? 10); [simplify_eq; eauto|].
  destruct (spec_read killed target left C) as [[C2 out2] en2] eqn:Er. simplify_eq.
  destruct (IH _ _ _ _ _ _ Hadv Er) as (i' & -> & Hi'). eauto.
Qed.

(** Refinement over a whole interrupt: the abstract line discipline folded
    over the characters delivered. *)
Fixpoint spec_chars (cs : list Z) (C E : list Z) : list Z * list Z * bool :=
  match cs with
  | [] => (C, E, false)
  | c :: cs' =>
      let '(C1, E1, w1) := spec_char c C E in
      let '(C2, E2, w2) := spec_chars cs' C1 E1 in (C2, E2, w1 || w2)
  end.

Lemma consoleintr_abs cs : forall i C E C' E' wk, input_abs i C E ->
  spec_chars cs C E = (C', E', wk) ->
  exists i' out dump, consoleintr cs i = (i', out, wk, dump) /\ input_abs i' C' E'.
Proof.
  induction cs as [|c cs IH]; intros i C E C' E' wk H Hs; simpl in *; [simplify_eq; eauto 10|].
  destruct (spec_char c C E) as [[C1 E1] w1] eqn:E1'.
  destruct (spec_chars cs C1 E1) as [[C2 E2] w2] eqn:E2'. simplify_eq.
  destruct (consoleintr_char_abs _ _ _ _ _ _ _ H E1') as (i1 & o1 & d1 & -> & H1).
  destruct (IH _ _ _ _ _ _ H1 E2') as (i2 & o2 & d2 & -> & H2). eauto 10.
Qed.

(** ** Properties *)

(** Printing a non-negative [int] with [%d], by the kernel's [cprintf] or by
    the user library's [printf], and reading the digits back with [atoi]
    gives the number. *)
Theorem printint_atoi_roundtrip (digits : list Z) (xx c : Z) (rest : list Z)
    (Hdig : digits = digits_lower \/ digits = digits_upper)
    (Hxx : 0 <= xx < 2 ^ 31) (Hc : c < 48 \/ 57 < c) :
  Ulib.atoi (printint digits xx 10 true ++ c :: rest) = Some xx.
Proof.
  unfold printint, Ulib.atoi. destruct (Z.ltb_spec xx 0); [lia|]. simpl andb. cbv iota.
  rewrite u32_small by lia. rewrite app_nil_r.
  pose proof (atoi_digit_loop digits 32 Hdig xx 0 (c :: rest)) as H0. cbv zeta in H0.
  change (Z.of_nat 32) with 32 in H0. rewrite Z.mul_0_l, Z.add_0_l in H0.
  rewrite H0 by lia. simpl Ulib.atoi_loop.
  destruct (Z.leb_spec 48 c), (Z.leb_spec c 57); simpl; (done || lia).
Qed.

(** [printint] never overruns its 16 byte local buffer, in either base the
    callers use. *)
Theorem printint_fits (digits : list Z) (xx base : Z) (sign : bool)
    (Hb : base = 10 \/ base = 16) :
  (length (printint digits xx base sign) <= 16)%nat.
Proof.
  unfold printint. rewrite length_rev, length_app.
  set (x := if sign && (xx <? 0) then u32 (- xx) else u32 xx).
  assert (Hx : 0 <= x < 2 ^ 32) by (subst x; destruct (_ && _); apply u32_range).
  assert ((length (digit_loop 32 digits x base) <= S 9)%nat).
  { apply digit_loop_length; destruct Hb as [-> | ->]; simpl; lia. }
  assert ((length (if sign && (xx <? 0)%Z then codes "-" else []) <= 1)%nat)
    by (destruct (sign && (xx <? 0)); vm_compute; lia).
  lia.
Qed.

(** From a cursor inside the first 24 rows, writing any character (newline
    and backspace included) neither panics nor stores outside the 25 x 80
    cells, and leaves the cursor inside the first 24 rows. *)
Theorem cgaputc_safe (c : Z) (st : cga) (Hst : cga_ok st) :
  exists st', cgaputc c st = Ok st' /\ cga_ok st'.
Proof.
  destruct Hst as [Hl Hp]. unfold cgaputc.
  assert (Hfin : forall l p, length l = CELLS -> 0 <= p <= 1920 ->
    exists st', (if (p <? 0) || (2000 <? p) then Panic "pos under/overflow" else
      let '(l, p) := if 24 <=? p / 80
        then (zero_cells (scroll_up l) (Z.to_nat (p - 80)) (Z.to_nat (1920 - (p - 80))), p - 80)
        else (l, p) in
      match crt_set l p (Z.lor 32 1792) with
      | Ok l => Ok (mkCga l (p mod 65536)) | Panic m => Panic m | Fault => Fault
      end) = Ok st' /\ cga_ok st').
  { intros l p Hl' Hp'. destruct (Z.ltb_spec p 0); [lia|].
    destruct (Z.ltb_spec 2000 p); [lia|]. by apply cgaputc_finish. }
  destruct (c =? 10).
  { apply Hfin; [done|]. pose proof (Z.mod_pos_bound (pos st) 80).
    pose proof (Z.div_mod (pos st) 80). pose proof (Z.div_lt_upper_bound (pos st) 80 24). lia. }
  destruct (c =? BACKSPACE).
  { apply Hfin; [done|]. destruct (Z.ltb_spec 0 (pos st)); lia. }
  destruct (crt_set_ok (crt st) (pos st) (Z.lor (Z.land c 255) 1792) Hl) as (l & -> & Hl'); [lia|].
  apply Hfin; [done|lia].
Qed.

(** Claim C40. [consoleintr] implements the line discipline: whatever characters an
    interrupt delivers, the ring holds the finished input and the edited line
    the abstract editor computes, the reader is woken exactly when input
    became finished, and no character is lost or overwritten. *)
Theorem consoleintr_refines (cs : list Z) (i : input) (C E C' E' : list Z) (wk : bool)
    (Hi : input_abs i C E) (Hs : spec_chars cs C E = (C', E', wk)) :
  exists i' out dump, consoleintr cs i = (i', out, wk, dump) /\ input_abs i' C' E'.
Proof. by eapply consoleintr_abs. Qed.

(** [consoleread] delivers finished input in order, up to a newline, a
    control-D or the size asked for, without touching the line being edited,
    and sleeps exactly when no finished input is left. *)
Theorem consoleread_refines (killed : bool) (target : Z) (left : nat) (i : input)
    (C E C' out : list Z) (en : cread_end)
    (Hi : input_abs i C E) (Hs : spec_read killed target left C = (C', out, en)) :
  exists i', consoleread killed target left i = (i', out, en) /\ input_abs i' C' E.
Proof. by eapply consoleread_abs. Qed.

Lemma printint_atoi_roundtrip_witness :
  Ulib.atoi (printint digits_lower 4096 10 true ++ 32 :: []) = Some 4096.
Proof. apply (printint_atoi_roundtrip digits_lower 4096 32 []); [by left|lia|lia]. Defined.

Lemma printint_fits_witness : (length (printint digits_upper (-1) 16 false) <= 16)%nat.
Proof. apply (printint_fits digits_upper (-1) 16 false). by right. Defined.

(** The last cell of the rows the cursor may be in. *)
Definition screen_end : cga := mkCga (replicate CELLS 0) 1919.

Lemma screen_end_ok : cga_ok screen_end.
Proof. by split. Qed.

Lemma cgaputc_safe_witness : exists st', cgaputc 65 screen_end = Ok st' /\ cga_ok st'.
Proof. exact (cgaputc_safe 65 screen_end screen_end_ok). Defined.

Definition input0 : input := mkInput (replicate (Z.to_nat INPUT_BUF) 0) 0 0 0.

Lemma input0_abs : input_abs input0 [] [].
Proof. split; vm_compute; try done. Qed.

(** "ab", a backspace and a newline. *)
Lemma consoleintr_refines_witness :
  exists i' out dump, consoleintr [97; 98; 8; 10] input0 = (i', out, true, dump) /\ input_abs i' [97; 10] [].
Proof. exact (consoleintr_refines [97; 98; 8; 10] input0 [] [] [97; 10] [] true input0_abs eq_refl). Defined.

Lemma consoleread_refines_witness :
  exists i', consoleread false 8 8 input0 = (i', [], CSleep 8) /\ input_abs i' [] [].
Proof. exact (consoleread_refines false 8 8 input0 [] [] [] [] (CSleep 8) input0_abs eq_refl). Defined.
