(* ===== verification/Spinlock.v ===== *)
(** * Spin locks and per-CPU state: spinlock.c, [mycpu] (proc.c)

    The per-CPU structures and the kernel's spin locks, with [pushcli],
    [popcli], [holding], [acquire] and [release] as runs of the monad on the
    CPU [c] that executes them; then the same code at the granularity of its
    memory accesses, for any interleaving of the CPUs. *)

From stdpp Require Import prelude strings functions relations.
From S2P Require Import Prelude.

Open Scope Z_scope.

(** ** Data *)

(** [struct cpu] (proc.h): the fields the kernel reads back.  [c_if] is the
    interrupt flag of the processor, [c_cr3] its page table register and
    [c_esp0] the kernel stack in its task state segment. *)
Record cpu : Type := mkCpu {
  c_apicid : Z;
  c_proc : option nat;
  c_ncli : Z;
  c_intena : bool;
  c_if : bool;
  c_cr3 : Z;
  c_esp0 : Z
}.

Definition set_c_proc v x := mkCpu (c_apicid x) v (c_ncli x) (c_intena x) (c_if x) (c_cr3 x) (c_esp0 x).
Definition set_c_ncli v x := mkCpu (c_apicid x) (c_proc x) v (c_intena x) (c_if x) (c_cr3 x) (c_esp0 x).
Definition set_c_intena v x := mkCpu (c_apicid x) (c_proc x) (c_ncli x) v (c_if x) (c_cr3 x) (c_esp0 x).
Definition set_c_if v x := mkCpu (c_apicid x) (c_proc x) (c_ncli x) (c_intena x) v (c_cr3 x) (c_esp0 x).
Definition set_c_cr3 v x := mkCpu (c_apicid x) (c_proc x) (c_ncli x) (c_intena x) (c_if x) v (c_esp0 x).
Definition set_c_esp0 v x := mkCpu (c_apicid x) (c_proc x) (c_ncli x) (c_intena x) (c_if x) (c_cr3 x) v.

(** [struct spinlock]: [lk->locked] and [lk->cpu]; the name and the recorded
    call stack are only printed. *)
Record spinlock : Type := mkLock { locked : Z; lk_cpu : option nat }.

(** The locks of the kernel, by name. *)
Inductive lockid : Type := LkPtable | LkTicks | LkOther (n : Z).

#[global] Instance lockid_eq_dec : EqDecision lockid.
Proof. solve_decision. Defined.

Record lockst : Type := mkLs { cpus : list cpu; locks : lockid -> spinlock }.

(** ** Interrupts and [mycpu] *)
Definition cpu_at (c : nat) : M lockst cpu := s ← get; deref (cpus s !! c).

Definition set_cpu (c : nat) (f : cpu -> cpu) : M lockst unit :=
  x ← cpu_at c; modify (fun s => mkLs (<[c := f x]> (cpus s)) (locks s)).

Definition readeflags_if (c : nat) : M lockst bool := x ← cpu_at c; mret (c_if x).
Definition cli (c : nat) : M lockst unit := set_cpu c (set_c_if false).
Definition sti (c : nat) : M lockst unit := set_cpu c (set_c_if true).

(** [lapicid()] reads the id of the executing CPU; the loop finds the entry
    of [cpus] with that id. *)
Definition mycpu (c : nat) : M lockst nat :=
  i ← readeflags_if c;
  if (i : bool) then panic "mycpu called with interrupts enabled"
  else
    x ← cpu_at c;
    s ← get;
    match list_find (fun y => c_apicid y = c_apicid x) (cpus s) with
    | Some (k, _) => mret k
    | None => panic "unknown apicid"
    end.

Definition cpuid (c : nat) : M lockst nat := mycpu c.

Definition pushcli (c : nat) : M lockst unit :=
  eflags ← readeflags_if c;
  cli c;;
  m ← mycpu c;
  x ← cpu_at m;
  (if c_ncli x =? 0 then set_cpu m (set_c_intena eflags) else mret tt);;
  m ← mycpu c;
  set_cpu m (fun x => set_c_ncli (s32 (c_ncli x + 1)) x).

Definition popcli (c : nat) : M lockst unit :=
  i ← readeflags_if c;
  if (i : bool) then panic "popcli - interruptible"
  else
    m ← mycpu c;
    set_cpu m (fun x => set_c_ncli (s32 (c_ncli x - 1)) x);;
    x ← cpu_at m;
    if c_ncli x <? 0 then panic "popcli"
    else if (c_ncli x =? 0) && c_intena x then sti c
    else mret tt.

(** ** Locks *)
Definition initlock (lk : lockid) : M lockst unit :=
  modify (fun s => mkLs (cpus s) (<[lk := mkLock 0 None]> (locks s))).

Definition holding (c : nat) (lk : lockid) : M lockst bool :=
  pushcli c;;
  s ← get;
  m ← mycpu c;
  popcli c;;
  mret (negb (locked (locks s lk) =? 0) && bool_decide (lk_cpu (locks s lk) = Some m)).

(** [while(xchg(&lk->locked, 1) != 0)] does not end within one atomic run
    when another CPU holds the lock: that run is a [Fault]; [sstep] below has
    the loop itself. *)
Definition acquire (c : nat) (lk : lockid) : M lockst unit :=
  pushcli c;;
  h ← holding c lk;
  if (h : bool) then panic "acquire"
  else
    s ← get;
    if locked (locks s lk) =? 0 then
      m ← mycpu c;
      modify (fun s => mkLs (cpus s) (<[lk := mkLock 1 (Some m)]> (locks s)))
    else fault.

Definition release (c : nat) (lk : lockid) : M lockst unit :=
  h ← holding c lk;
  if negb h then panic "release"
  else
    modify (fun s => mkLs (cpus s) (<[lk := mkLock 0 None]> (locks s)));;
    popcli c.

(** [myproc()] *)
Definition myproc (c : nat) : M lockst (option nat) :=
  pushcli c;;
  m ← mycpu c;
  x ← cpu_at m;
  popcli c;;
  mret (c_proc x).

(** ** Runs of the interrupt nesting *)

(** Every CPU has its own APIC id. *)
Definition distinct_ids (s : lockst) : Prop := NoDup (c_apicid <$> cpus s).

(** The nesting depth of a CPU is sane: no overflow, and interrupts are off
    inside a nest. *)
Definition nest_ok (x : cpu) : Prop :=
  0 <= c_ncli x < 2 ^ 30 /\ (0 < c_ncli x -> c_if x = false).

Definition upd_cpus (s : lockst) (c : nat) (x : cpu) : lockst := mkLs (<[c := x]> (cpus s)) (locks s).

Lemma cpu_at_run s c x : cpus s !! c = Some x -> cpu_at c s = Ok (x, s).
Proof. intros H. unfold cpu_at. mrun. by rewrite H. Qed.

Lemma set_cpu_run s c x f : cpus s !! c = Some x -> set_cpu c f s = Ok (tt, upd_cpus s c (f x)).
Proof. intros H. unfold set_cpu. by rewrite (bind_Ok _ _ _ _ _ (cpu_at_run _ _ _ H)). Qed.

Lemma upd_cpus_lookup s c x y : cpus s !! c = Some x -> cpus (upd_cpus s c y) !! c = Some y.
Proof. intros H. apply list_lookup_insert_eq. by eapply lookup_lt_Some. Qed.

Lemma upd_cpus_twice s c x y : upd_cpus (upd_cpus s c x) c y = upd_cpus s c y.
Proof. unfold upd_cpus. simpl. by rewrite list_insert_insert_eq. Qed.

Lemma upd_cpus_id s c x : cpus s !! c = Some x -> upd_cpus s c x = s.
Proof. intros H. unfold upd_cpus. rewrite list_insert_id by done. by destruct s. Qed.

Lemma distinct_upd s c x y : cpus s !! c = Some x -> c_apicid y = c_apicid x ->
  distinct_ids s -> distinct_ids (upd_cpus s c y).
Proof.
  intros H E Hd. unfold distinct_ids, upd_cpus. simpl. rewrite list_fmap_insert, E.
  rewrite list_insert_id; [done|]. by rewrite list_lookup_fmap, H.
Qed.

Lemma mycpu_run s c x : cpus s !! c = Some x -> c_if x = false -> distinct_ids s ->
  mycpu c s = Ok (c, s).
Proof.
  intros H Hi Hd. unfold mycpu, readeflags_if.
  pose proof (cpu_at_run _ _ _ H) as Hrun. unfold mbind, M_bind. rewrite Hrun. mrun. rewrite Hi, Hrun.
  destruct (list_find _ _) as [[k y]|] eqn:E.
  - apply list_find_Some in E as (Hk & Hy & _).
    replace k with c; [done|]. eapply (NoDup_lookup _ c k (c_apicid x) Hd).
    + by rewrite list_lookup_fmap, H.
    + rewrite list_lookup_fmap, Hk. simpl. by rewrite Hy.
  - apply list_find_None in E. rewrite Forall_lookup in E. by destruct (E c x H).
Qed.

(** The CPU after [pushcli]. *)
Definition pushed (x : cpu) : cpu :=
  mkCpu (c_apicid x) (c_proc x) (c_ncli x + 1)
    (if c_ncli x =? 0 then c_if x else c_intena x) false (c_cr3 x) (c_esp0 x).

Lemma pushcli_run s c x : cpus s !! c = Some x -> distinct_ids s -> nest_ok x ->
  pushcli c s = Ok (tt, upd_cpus s c (pushed x)).
Proof.
  intros H Hd [Hn _]. unfold pushcli, readeflags_if.
  rewrite (bind_Ok _ _ s (c_if x) s); [|by rewrite (bind_Ok _ _ _ _ _ (cpu_at_run _ _ _ H))].
  unfold cli. rewrite (bind_Ok _ _ _ _ _ (set_cpu_run _ _ _ _ H)).
  set (s1 := upd_cpus s c (set_c_if false x)).
  assert (H1 : cpus s1 !! c = Some (set_c_if false x)) by by eapply upd_cpus_lookup.
  assert (Hd1 : distinct_ids s1) by by eapply distinct_upd.
  rewrite (bind_Ok _ _ _ _ _ (mycpu_run _ _ _ H1 eq_refl Hd1)).
  rewrite (bind_Ok _ _ _ _ _ (cpu_at_run _ _ _ H1)). simpl c_ncli.
  set (x2 := if c_ncli x =? 0 then set_c_intena (c_if x) (set_c_if false x) else set_c_if false x).
  assert (E2 : (if c_ncli x =? 0 then set_cpu c (set_c_intena (c_if x)) else mret tt) s1 = Ok (tt, upd_cpus s1 c x2)).
  { subst x2. destruct (c_ncli x =? 0); [by apply set_cpu_run|]. by rewrite (upd_cpus_id _ _ _ H1). }
  rewrite (bind_Ok _ _ _ _ _ E2).
  assert (H2 : cpus (upd_cpus s1 c x2) !! c = Some x2) by by eapply upd_cpus_lookup.
  assert (Hi2 : c_if x2 = false) by (subst x2; by destruct (c_ncli x =? 0)).
  assert (Hd2 : distinct_ids (upd_cpus s1 c x2)).
  { eapply distinct_upd; [exact H1| |done]. subst x2. by destruct (c_ncli x =? 0). }
  rewrite (bind_Ok _ _ _ _ _ (mycpu_run _ _ _ H2 Hi2 Hd2)), (set_cpu_run _ _ _ _ H2).
  subst s1. rewrite !upd_cpus_twice. do 3 f_equal. subst x2. unfold pushed.
  destruct (c_ncli x =? 0); unfold set_c_ncli; simpl; by rewrite s32_small by lia.
Qed.

(** The CPU after the matching [popcli]. *)
Definition popped (x : cpu) : cpu :=
  mkCpu (c_apicid x) (c_proc x) (c_ncli x - 1) (c_intena x)
    ((c_ncli x =? 1) && c_intena x) (c_cr3 x) (c_esp0 x).

Lemma popcli_run s c x : cpus s !! c = Some x -> distinct_ids s -> nest_ok x -> 0 < c_ncli x ->
  popcli c s = Ok (tt, upd_cpus s c (popped x)).
Proof.
  intros H Hd [Hn Hoff] Hpos. specialize (Hoff Hpos). unfold popcli, readeflags_if.
  rewrite (bind_Ok _ _ s (c_if x) s); [|by rewrite (bind_Ok _ _ _ _ _ (cpu_at_run _ _ _ H))].
  rewrite Hoff. rewrite (bind_Ok _ _ _ _ _ (mycpu_run _ _ _ H Hoff Hd)).
  rewrite (bind_Ok _ _ _ _ _ (set_cpu_run _ _ _ _ H)).
  rewrite s32_small by lia.
  set (x1 := set_c_ncli _ x). set (s1 := upd_cpus s c x1).
  assert (H1 : cpus s1 !! c = Some x1) by by eapply upd_cpus_lookup.
  rewrite (bind_Ok _ _ _ _ _ (cpu_at_run _ _ _ H1)).
  change (c_ncli x1) with (c_ncli x - 1). change (c_intena x1) with (c_intena x).
  destruct (Z.ltb_spec (c_ncli x - 1) 0); [lia|].
  destruct (Z.eqb_spec (c_ncli x - 1) 0) as [E|E].
  - unfold popped. rewrite (proj2 (Z.eqb_eq (c_ncli x) 1)) by lia.
    destruct (c_intena x) eqn:Ei; cbv [andb].
    + unfold sti. rewrite (set_cpu_run _ _ _ _ H1). subst s1. rewrite upd_cpus_twice.
      unfold x1, set_c_if, set_c_ncli. cbn. by rewrite Ei.
    + subst s1 x1. unfold set_c_ncli. by rewrite Hoff, Ei.
  - unfold popped. rewrite (proj2 (Z.eqb_neq (c_ncli x) 1)) by lia. cbv [andb].
    subst s1 x1. unfold set_c_ncli. by rewrite Hoff.
Qed.

Lemma nest_pushed x : nest_ok x -> c_ncli x < 2 ^ 30 - 1 -> nest_ok (pushed x).
Proof. intros [Hn _] Hb. split; simpl; [lia|done]. Qed.

Lemma nest_popped x : nest_ok x -> 0 < c_ncli x -> nest_ok (popped x).
Proof.
  intros [Hn Hoff] Hp. split; simpl; [lia|]. intros H.
  by rewrite (proj2 (Z.eqb_neq (c_ncli x) 1)) by lia.
Qed.

(** [pushcli]; [popcli] restores the CPU, up to the saved flag that an
    outermost [pushcli] overwrites. *)
Definition settled (x : cpu) : cpu :=
  set_c_intena (if c_ncli x =? 0 then c_if x else c_intena x) x.

Lemma popped_pushed x : nest_ok x -> popped (pushed x) = settled x.
Proof.
  intros [Hn Hoff]. unfold popped, pushed, settled, set_c_intena. simpl.
  replace (c_ncli x + 1 - 1) with (c_ncli x) by lia. f_equal.
  destruct (Z.eqb_spec (c_ncli x) 0) as [->|E]; [done|].
  rewrite (proj2 (Z.eqb_neq (c_ncli x + 1) 1)) by lia. symmetry. apply Hoff. lia.
Qed.

Lemma settled_nested x : 0 < c_ncli x -> settled x = x.
Proof.
  intros H. unfold settled, set_c_intena. rewrite (proj2 (Z.eqb_neq (c_ncli x) 0)) by lia. by destruct x.
Qed.

Section Runs.
Context (s : lockst) (c : nat) (x : cpu).
Context (Hx : cpus s !! c = Some x) (Hd : distinct_ids s) (Hn : nest_ok x).

Lemma holding_run lk : c_ncli x < 2 ^ 30 - 1 ->
  holding c lk s = Ok (negb (locked (locks s lk) =? 0) && bool_decide (lk_cpu (locks s lk) = Some c),
                       upd_cpus s c (settled x)).
Proof using Hx Hd Hn.
  intros Hb. unfold holding. rewrite (bind_Ok _ _ _ _ _ (pushcli_run _ _ _ Hx Hd Hn)).
  rewrite (bind_Ok get _ _ _ _ eq_refl).
  assert (H1 : cpus (upd_cpus s c (pushed x)) !! c = Some (pushed x)) by by eapply upd_cpus_lookup.
  assert (Hd1 : distinct_ids (upd_cpus s c (pushed x))) by by eapply distinct_upd.
  rewrite (bind_Ok _ _ _ _ _ (mycpu_run _ _ _ H1 eq_refl Hd1)).
  rewrite (bind_Ok _ _ _ _ _ (popcli_run _ _ _ H1 Hd1 (nest_pushed _ Hn Hb) ltac:(simpl; destruct Hn; lia))).
  rewrite upd_cpus_twice, popped_pushed by done. done.
Qed.

Lemma myproc_run : c_ncli x < 2 ^ 30 - 1 -> myproc c s = Ok (c_proc x, upd_cpus s c (settled x)).
Proof using Hx Hd Hn.
  intros Hb. unfold myproc. rewrite (bind_Ok _ _ _ _ _ (pushcli_run _ _ _ Hx Hd Hn)).
  assert (H1 : cpus (upd_cpus s c (pushed x)) !! c = Some (pushed x)) by by eapply upd_cpus_lookup.
  assert (Hd1 : distinct_ids (upd_cpus s c (pushed x))) by by eapply distinct_upd.
  rewrite (bind_Ok _ _ _ _ _ (mycpu_run _ _ _ H1 eq_refl Hd1)).
  rewrite (bind_Ok _ _ _ _ _ (cpu_at_run _ _ _ H1)).
  rewrite (bind_Ok _ _ _ _ _ (popcli_run _ _ _ H1 Hd1 (nest_pushed _ Hn Hb) ltac:(simpl; destruct Hn; lia))).
  rewrite upd_cpus_twice, popped_pushed by done. done.
Qed.
End Runs.

(** A free lock is taken: interrupts go off, the depth grows by one. *)
Lemma acquire_run s c x lk :
  cpus s !! c = Some x -> distinct_ids s -> nest_ok x -> c_ncli x < 2 ^ 30 - 2 ->
  locked (locks s lk) = 0 ->
  acquire c lk s = Ok (tt, mkLs (<[c := pushed x]> (cpus s)) (<[lk := mkLock 1 (Some c)]> (locks s))).
Proof.
  intros Hx Hd Hn Hb Hfree. unfold acquire.
  rewrite (bind_Ok _ _ _ _ _ (pushcli_run _ _ _ Hx Hd Hn)).
  assert (H1 : cpus (upd_cpus s c (pushed x)) !! c = Some (pushed x)) by by eapply upd_cpus_lookup.
  assert (Hd1 : distinct_ids (upd_cpus s c (pushed x))) by by eapply distinct_upd.
  assert (Hn1 : nest_ok (pushed x)) by (apply nest_pushed; [done|lia]).
  rewrite (bind_Ok _ _ _ _ _ (holding_run _ _ _ H1 Hd1 Hn1 lk ltac:(simpl; lia))). simpl. rewrite Hfree. simpl.
  rewrite upd_cpus_twice, settled_nested by (simpl; destruct Hn; lia).
  rewrite (bind_Ok get _ _ _ _ eq_refl). simpl. rewrite Hfree. simpl.
  by rewrite (bind_Ok _ _ _ _ _ (mycpu_run _ _ _ H1 eq_refl Hd1)).
Qed.

(** Acquiring a lock this CPU already holds panics. *)
Lemma acquire_twice s c x lk :
  cpus s !! c = Some x -> distinct_ids s -> nest_ok x -> c_ncli x < 2 ^ 30 - 2 ->
  locks s lk = mkLock 1 (Some c) -> acquire c lk s = Panic "acquire".
Proof.
  intros Hx Hd Hn Hb Hl. unfold acquire.
  rewrite (bind_Ok _ _ _ _ _ (pushcli_run _ _ _ Hx Hd Hn)).
  assert (H1 : cpus (upd_cpus s c (pushed x)) !! c = Some (pushed x)) by by eapply upd_cpus_lookup.
  assert (Hd1 : distinct_ids (upd_cpus s c (pushed x))) by by eapply distinct_upd.
  assert (Hn1 : nest_ok (pushed x)) by (apply nest_pushed; [done|lia]).
  rewrite (bind_Ok _ _ _ _ _ (holding_run _ _ _ H1 Hd1 Hn1 lk ltac:(simpl; lia))). simpl. rewrite Hl. simpl.
  by rewrite bool_decide_eq_true_2.
Qed.

(** The holder releases; interrupts come back with the outermost lock. *)
Lemma release_run s c x lk :
  cpus s !! c = Some x -> distinct_ids s -> nest_ok x -> 0 < c_ncli x < 2 ^ 30 - 2 ->
  locks s lk = mkLock 1 (Some c) ->
  release c lk s = Ok (tt, mkLs (<[c := popped x]> (cpus s)) (<[lk := mkLock 0 None]> (locks s))).
Proof.
  intros Hx Hd Hn Hb Hl. unfold release.
  rewrite (bind_Ok _ _ _ _ _ (holding_run _ _ _ Hx Hd Hn lk ltac:(lia))). rewrite Hl. simpl.
  rewrite bool_decide_eq_true_2 by done. simpl.
  rewrite settled_nested by lia. rewrite (upd_cpus_id _ _ _ Hx).
  unfold mbind, M_bind, modify.
  by rewrite (popcli_run (mkLs (cpus s) _) c x Hx Hd Hn ltac:(lia)).
Qed.

(** ** Interleaved executions of one lock

    Each CPU runs [acquire] and [release] one memory access at a time; the
    counter says which access comes next. *)
Inductive lock_pc : Type :=
| PIdle                 (** outside *)
| PHold                 (** [acquire]: [holding] read [locked != 0] *)
| PSpin                 (** [acquire]: before [xchg] *)
| PGot                  (** [xchg] returned 0, [lk->cpu] not yet written *)
| PIn                   (** [acquire] has returned *)
| PRelHold              (** [release]: [holding] read [locked != 0] *)
| PRelCpu               (** [release]: before [lk->cpu = 0] *)
| PRelMov               (** [release]: before [movl $0] *)
| PPanic.

Record sst : Type := mkSst { s_lock : spinlock; s_pc : nat -> lock_pc }.

(** [xchg(addr, newval)] (x86.h): the old value, and the store. *)
Definition xchg (l : spinlock) (v : Z) : Z * spinlock := (locked l, mkLock v (lk_cpu l)).

(** The next access of CPU [i]. *)
Definition lock_access (i : nat) (l : spinlock) (p : lock_pc) : lock_pc * spinlock :=
  match p with
  | PIdle => (if locked l =? 0 then PSpin else PHold, l)
  | PHold => (if decide (lk_cpu l = Some i) then PPanic else PSpin, l)
  | PSpin => let '(old, l') := xchg l 1 in (if old =? 0 then PGot else PSpin, l')
  | PGot => (PIn, mkLock (locked l) (Some i))
  | PIn => (if locked l =? 0 then PPanic else PRelHold, l)
  | PRelHold => (if decide (lk_cpu l = Some i) then PRelCpu else PPanic, l)
  | PRelCpu => (PRelMov, mkLock (locked l) None)
  | PRelMov => (PIdle, mkLock 0 (lk_cpu l))
  | PPanic => (PPanic, l)
  end.

Inductive sstep : sst -> sst -> Prop :=
| sstep_cpu i l f : sstep (mkSst l f)
    (mkSst (lock_access i l (f i)).2 (<[i := (lock_access i l (f i)).1]> f)).

(** A CPU owns the lock from the successful [xchg] to the [movl]. *)
Definition owns (p : lock_pc) : Prop :=
  match p with PGot | PIn | PRelHold | PRelCpu | PRelMov => True | _ => False end.

(** The owner is recorded in [lk->cpu]. *)
Definition recorded (p : lock_pc) : Prop :=
  match p with PIn | PRelHold | PRelCpu => True | _ => False end.

Record lock_inv (s : sst) : Prop := {
  li_owner : forall i, owns (s_pc s i) -> locked (s_lock s) = 1;
  li_unique : forall i j, owns (s_pc s i) -> owns (s_pc s j) -> i = j;
  li_cpu : forall i, lk_cpu (s_lock s) = Some i <-> recorded (s_pc s i);
  li_panic : forall i, s_pc s i <> PPanic;
  li_held : locked (s_lock s) <> 0 -> exists i, owns (s_pc s i)
}.

Lemma recorded_owns p : recorded p -> owns p.
Proof. by destruct p. Qed.

(** One CPU moves from [f i] to [p']. *)
Lemma lock_inv_move l l' f i p' :
  lock_inv (mkSst l f) -> p' <> PPanic ->
  (owns p' -> locked l' = 1 /\ (owns (f i) \/ locked l = 0)) ->
  (forall j, j <> i -> owns (f j) -> locked l' = 1) ->
  (lk_cpu l' = Some i <-> recorded p') ->
  (forall j, j <> i -> lk_cpu l' = Some j <-> recorded (f j)) ->
  (locked l' <> 0 -> owns p' \/ exists j, j <> i /\ owns (f j)) ->
  lock_inv (mkSst l' (<[i := p']> f)).
Proof.
  intros [Ho Hu Hc Hp Hh] H1 H2 H3 H4 H5 H6. simpl in *.
  assert (Hpc : forall j, <[i := p']> f j = if decide (j = i) then p' else f j).
  { intros j. destruct (decide (j = i)) as [->|]; [by rewrite fn_lookup_insert|].
    by rewrite fn_lookup_insert_ne. }
  assert (Hdis : forall j, j <> i -> owns p' -> ~ owns (f j)).
  { intros j Hj Hi Hown. apply H2 in Hi as [_ [Hi|Hi]]; [by apply Hj, Hu|].
    apply Ho in Hown. lia. }
  split; simpl; intros *; rewrite ?Hpc.
  - case_decide; naive_solver.
  - repeat case_decide; subst; try done; intros; [by destruct (Hdis j)|by destruct (Hdis i0)|by apply Hu].
  - case_decide; [by subst|]. by apply H5.
  - case_decide; [done|apply Hp].
  - intros Hl. destruct (H6 Hl) as [Hi|(j & Hj & Hown)].
    + exists i. by rewrite Hpc, decide_True.
    + exists j. by rewrite Hpc, decide_False.
Qed.

Section StepInv.
Context (l : spinlock) (f : nat -> lock_pc) (i : nat) (Hinv : lock_inv (mkSst l f)).

(** Moves that leave the lock alone and keep ownership and record. *)
Lemma lock_inv_silent p' : p' <> PPanic -> (owns p' <-> owns (f i)) ->
  (recorded p' <-> recorded (f i)) -> lock_inv (mkSst l (<[i := p']> f)).
Proof using Hinv.
  intros Hp Hown Hrec. pose proof Hinv as [Ho Hu Hc _ Hh]. simpl in *.
  apply (lock_inv_move l l); try done.
  - intros Hi. split; [apply (Ho i)|left]; by apply Hown.
  - intros j _ Hj. by apply (Ho j).
  - by rewrite Hc.
  - intros Hl. destruct (Hh Hl) as [j Hj]. destruct (decide (j = i)) as [->|]; [left; by apply Hown|eauto].
Qed.

Lemma lock_inv_other j : owns (f i) -> j <> i -> ~ owns (f j).
Proof using Hinv. intros Hi Hj Hown. by apply Hj, (li_unique _ Hinv). Qed.

Lemma lock_inv_rec_other j : owns (f i) -> j <> i -> ~ recorded (f j).
Proof using Hinv. intros Hi Hj Hr. by eapply lock_inv_other, recorded_owns. Qed.

Lemma lock_access_inv :
  lock_inv (mkSst (lock_access i l (f i)).2 (<[i := (lock_access i l (f i)).1]> f)).
Proof using Hinv.
  pose proof Hinv as [Ho _ Hc Hp Hh]. simpl in *.
  pose proof (Ho i) as Hoi. pose proof (Hc i) as Hci.
  destruct (f i) eqn:Ei; simpl in *; unfold xchg; try (by destruct (Hp i)).
  - destruct (locked l =? 0); apply lock_inv_silent; by rewrite ?Ei.
  - rewrite decide_False by naive_solver. apply lock_inv_silent; by rewrite ?Ei.
  - destruct (Z.eqb_spec (locked l) 0) as [E|E].
    + apply (lock_inv_move l); simpl; try done; try by rewrite ?Hci; auto.
    + assert (El : mkLock 1 (lk_cpu l) = l).
      { destruct (Hh E) as [j Hj]. apply Ho in Hj. destruct l; simpl in *; by subst. }
      rewrite El. apply lock_inv_silent; by rewrite ?Ei.
  - apply (lock_inv_move l); simpl; try done; auto.
    + intros _. split; [by apply Hoi|left; by rewrite Ei].
    + intros j Hj. split; [naive_solver|]. intros Hr. destruct (lock_inv_rec_other j); [by rewrite Ei|done..].
  - rewrite Hoi by done. apply lock_inv_silent; by rewrite ?Ei.
  - rewrite decide_True by (by apply Hci). apply lock_inv_silent; by rewrite ?Ei.
  - apply (lock_inv_move l); simpl; try done; auto.
    + intros _. split; [by apply Hoi|left; by rewrite Ei].
    + intros j Hj. split; [done|]. intros Hr. destruct (lock_inv_rec_other j); [by rewrite Ei|done..].
  - apply (lock_inv_move l); simpl; try done; auto.
    intros j Hj Hown. destruct (lock_inv_other j); [by rewrite Ei|done..].
Qed.
End StepInv.

Definition sst_init : sst := mkSst (mkLock 0 None) (fun _ => PIdle).

Lemma lock_inv_reachable s : rtc sstep sst_init s -> lock_inv s.
Proof.
  intros H. refine (rtc_invariant sstep lock_inv _ _ _ H _).
  - intros x y Hx Hs. destruct Hs as [i l f]. exact (lock_access_inv l f i Hx).
  - split; simpl; naive_solver.
Qed.

(** Claim C6. From [initlock], for every interleaving of any number of CPUs: two CPUs
    are never inside the lock together, the lock word says whether anyone is,
    and neither [acquire] nor [release] panics. *)
Theorem spinlock_mutual_exclusion s : rtc sstep sst_init s ->
  (forall i j, owns (s_pc s i) -> owns (s_pc s j) -> i = j) /\
  (locked (s_lock s) = 0 <-> forall i, ~ owns (s_pc s i)) /\
  (forall i, s_pc s i = PIn -> lk_cpu (s_lock s) = Some i) /\
  (forall i, s_pc s i <> PPanic).
Proof.
  intros H. apply lock_inv_reachable in H as [Ho Hu Hc Hp Hh]. split_and!; try done.
  - split.
    + intros E i Hi. apply Ho in Hi. lia.
    + intros Hn. destruct (decide (locked (s_lock s) = 0)) as [|E]; [done|].
      destruct (Hh E) as [i Hi]. by destruct (Hn i).
  - intros i E. apply Hc. by rewrite E.
Qed.

(** [acquire] does not return while some CPU holds the lock. *)
Lemma acquire_free s c x lk r :
  cpus s !! c = Some x -> distinct_ids s -> nest_ok x -> c_ncli x < 2 ^ 30 - 2 ->
  acquire c lk s = Ok r -> locked (locks s lk) = 0.
Proof.
  intros Hx Hd Hn Hb E. destruct (decide (locked (locks s lk) = 0)) as [|Hne]; [done|]. exfalso. revert E. unfold acquire.
  rewrite (bind_Ok _ _ _ _ _ (pushcli_run _ _ _ Hx Hd Hn)).
  assert (H1 : cpus (upd_cpus s c (pushed x)) !! c = Some (pushed x)) by by eapply upd_cpus_lookup.
  assert (Hd1 : distinct_ids (upd_cpus s c (pushed x))) by by eapply distinct_upd.
  assert (Hn1 : nest_ok (pushed x)) by (apply nest_pushed; [done|lia]).
  rewrite (bind_Ok _ _ _ _ _ (holding_run _ _ _ H1 Hd1 Hn1 lk ltac:(simpl; lia))).
  rewrite upd_cpus_twice, settled_nested by (simpl; destruct Hn; lia).
  destruct (_ && _); [done|]. rewrite (bind_Ok get _ _ _ _ eq_refl). cbn [locks upd_cpus].
  by rewrite (proj2 (Z.eqb_neq _ _) Hne).
Qed.

(** CPU 0 has just taken the lock. *)
Definition sst_taken : sst :=
  mkSst (mkLock 1 None) (<[0%nat := PGot]> (<[0%nat := PSpin]> (fun _ => PIdle))).

Lemma spinlock_mutual_exclusion_witness :
  owns (s_pc sst_taken 0) /\ (forall i j, owns (s_pc sst_taken i) -> owns (s_pc sst_taken j) -> i = j).
Proof.
  split; [done|]. apply (spinlock_mutual_exclusion sst_taken).
  eapply rtc_l; [apply (sstep_cpu 0 (mkLock 0 None) (fun _ => PIdle))|].
  eapply rtc_l; [apply (sstep_cpu 0 (mkLock 0 None) (<[0%nat := PSpin]> (fun _ => PIdle)))|].
  apply rtc_refl.
Defined.
