(* ===== verification/ProcData.v ===== *)
(** * Process data: [struct proc] (proc.h), [struct trapframe] (x86.h)

    The records of the process table with one setter per field the code
    assigns.  A [struct proc *] is the index of its slot in [ptable.proc];
    a [struct file *] or [struct inode *] is the index of its slot in the
    file table or the inode cache. *)

From stdpp Require Import prelude.
From S2P Require Import Prelude.

Open Scope Z_scope.

(** [struct trapframe] (x86.h), without its padding. *)
Record trapframe : Type := mkTf {
  tf_edi : Z;
  tf_esi : Z;
  tf_ebp : Z;
  tf_oesp : Z;
  tf_ebx : Z;
  tf_edx : Z;
  tf_ecx : Z;
  tf_eax : Z;
  tf_gs : Z;
  tf_fs : Z;
  tf_es : Z;
  tf_ds : Z;
  tf_trapno : Z;
  tf_err : Z;
  tf_eip : Z;
  tf_cs : Z;
  tf_eflags : Z;
  tf_esp : Z;
  tf_ss : Z
}.

Definition set_tf_ebp (v : Z) (x : trapframe) : trapframe := mkTf (tf_edi x) (tf_esi x) v (tf_oesp
  x) (tf_ebx x) (tf_edx x) (tf_ecx x) (tf_eax x) (tf_gs x) (tf_fs x) (tf_es x) (tf_ds x)
  (tf_trapno x) (tf_err x) (tf_eip x) (tf_cs x) (tf_eflags x) (tf_esp x) (tf_ss x).
Definition set_tf_eax (v : Z) (x : trapframe) : trapframe := mkTf (tf_edi x) (tf_esi x) (tf_ebp x)
  (tf_oesp x) (tf_ebx x) (tf_edx x) (tf_ecx x) v (tf_gs x) (tf_fs x) (tf_es x) (tf_ds x)
  (tf_trapno x) (tf_err x) (tf_eip x) (tf_cs x) (tf_eflags x) (tf_esp x) (tf_ss x).
Definition set_tf_es (v : Z) (x : trapframe) : trapframe := mkTf (tf_edi x) (tf_esi x) (tf_ebp x)
  (tf_oesp x) (tf_ebx x) (tf_edx x) (tf_ecx x) (tf_eax x) (tf_gs x) (tf_fs x) v (tf_ds x)
  (tf_trapno x) (tf_err x) (tf_eip x) (tf_cs x) (tf_eflags x) (tf_esp x) (tf_ss x).
Definition set_tf_ds (v : Z) (x : trapframe) : trapframe := mkTf (tf_edi x) (tf_esi x) (tf_ebp x)
  (tf_oesp x) (tf_ebx x) (tf_edx x) (tf_ecx x) (tf_eax x) (tf_gs x) (tf_fs x) (tf_es x) v
  (tf_trapno x) (tf_err x) (tf_eip x) (tf_cs x) (tf_eflags x) (tf_esp x) (tf_ss x).
Definition set_tf_eip (v : Z) (x : trapframe) : trapframe := mkTf (tf_edi x) (tf_esi x) (tf_ebp x)
  (tf_oesp x) (tf_ebx x) (tf_edx x) (tf_ecx x) (tf_eax x) (tf_gs x) (tf_fs x) (tf_es x) (tf_ds x)
  (tf_trapno x) (tf_err x) v (tf_cs x) (tf_eflags x) (tf_esp x) (tf_ss x).
Definition set_tf_cs (v : Z) (x : trapframe) : trapframe := mkTf (tf_edi x) (tf_esi x) (tf_ebp x)
  (tf_oesp x) (tf_ebx x) (tf_edx x) (tf_ecx x) (tf_eax x) (tf_gs x) (tf_fs x) (tf_es x) (tf_ds x)
  (tf_trapno x) (tf_err x) (tf_eip x) v (tf_eflags x) (tf_esp x) (tf_ss x).
Definition set_tf_eflags (v : Z) (x : trapframe) : trapframe := mkTf (tf_edi x) (tf_esi x) (tf_ebp
  x) (tf_oesp x) (tf_ebx x) (tf_edx x) (tf_ecx x) (tf_eax x) (tf_gs x) (tf_fs x) (tf_es x) (tf_ds
  x) (tf_trapno x) (tf_err x) (tf_eip x) (tf_cs x) v (tf_esp x) (tf_ss x).
Definition set_tf_esp (v : Z) (x : trapframe) : trapframe := mkTf (tf_edi x) (tf_esi x) (tf_ebp x)
  (tf_oesp x) (tf_ebx x) (tf_edx x) (tf_ecx x) (tf_eax x) (tf_gs x) (tf_fs x) (tf_es x) (tf_ds x)
  (tf_trapno x) (tf_err x) (tf_eip x) (tf_cs x) (tf_eflags x) v (tf_ss x).
Definition set_tf_ss (v : Z) (x : trapframe) : trapframe := mkTf (tf_edi x) (tf_esi x) (tf_ebp x)
  (tf_oesp x) (tf_ebx x) (tf_edx x) (tf_ecx x) (tf_eax x) (tf_gs x) (tf_fs x) (tf_es x) (tf_ds x)
  (tf_trapno x) (tf_err x) (tf_eip x) (tf_cs x) (tf_eflags x) (tf_esp x) v.

(** [memset(tf, 0, sizeof *tf)] *)
Definition zero_tf : trapframe := mkTf 0 0 0 0 0 0 0 0 0 0 0 0 0 0 0 0 0 0 0.

(** [struct context]: the registers [swtch] saves. *)
Record context : Type := mkCtx {
  cx_edi : Z;
  cx_esi : Z;
  cx_ebx : Z;
  cx_ebp : Z;
  cx_eip : Z
}.

(** [enum procstate] *)
Inductive procstate : Type := UNUSED | EMBRYO | SLEEPING | RUNNABLE | RUNNING | ZOMBIE.

#[global] Instance procstate_eq_dec : EqDecision procstate.
Proof. solve_decision. Defined.

(** [struct proc] *)
Record proc : Type := mkProc {
  p_sz : Z;   (** size of process memory *)
  p_pgdir : Z;   (** page directory *)
  p_kstack : Z;   (** kernel stack page *)
  p_tstack : Z;   (** thread user stack *)
  p_state : procstate;
  p_pid : Z;
  p_tgid : Z;   (** thread group *)
  p_parent : option nat;
  p_tfp : Z;   (** [tf], the address of the trap frame *)
  p_tf : trapframe;   (** the frame it points to *)
  p_ctxp : Z;   (** [context], the address of the saved context *)
  p_ctx : context;   (** the context it points to *)
  p_retpc : Z;   (** the word above the context: where [forkret] returns *)
  p_chan : chan;
  p_killed : Z;
  p_ofile : list (option nat);   (** open files, by file table index *)
  p_cwd : option nat;   (** current directory, by inode cache index *)
  p_name : list Z;   (** 16 bytes *)
  p_iotime : Z;
  p_rtime : Z;
  p_ctime : Z;
  p_etime : Z;
  p_waitshh : Z;
  p_priority : Z;
  p_num_run : Z;
  p_qticks : list Z;   (** ticks used in each queue *)
  p_queue : Z;   (** current MLFQ level *)
  p_curr_ticks : Z;   (** ticks used of the slice *)
  p_change_q : Z;   (** slice exhausted *)
  p_enter : Z;   (** tick of the last enqueue *)
  p_function : Z;   (** thread start function *)
  p_ticks : Z   (** FCFS *)
}.

Definition set_p_sz (v : Z) (x : proc) : proc := mkProc v (p_pgdir x) (p_kstack x) (p_tstack x)
  (p_state x) (p_pid x) (p_tgid x) (p_parent x) (p_tfp x) (p_tf x) (p_ctxp x) (p_ctx x) (p_retpc
  x) (p_chan x) (p_killed x) (p_ofile x) (p_cwd x) (p_name x) (p_iotime x) (p_rtime x) (p_ctime x)
  (p_etime x) (p_waitshh x) (p_priority x) (p_num_run x) (p_qticks x) (p_queue x) (p_curr_ticks x)
  (p_change_q x) (p_enter x) (p_function x) (p_ticks x).
Definition set_p_pgdir (v : Z) (x : proc) : proc := mkProc (p_sz x) v (p_kstack x) (p_tstack x)
  (p_state x) (p_pid x) (p_tgid x) (p_parent x) (p_tfp x) (p_tf x) (p_ctxp x) (p_ctx x) (p_retpc
  x) (p_chan x) (p_killed x) (p_ofile x) (p_cwd x) (p_name x) (p_iotime x) (p_rtime x) (p_ctime x)
  (p_etime x) (p_waitshh x) (p_priority x) (p_num_run x) (p_qticks x) (p_queue x) (p_curr_ticks x)
  (p_change_q x) (p_enter x) (p_function x) (p_ticks x).
Definition set_p_kstack (v : Z) (x : proc) : proc := mkProc (p_sz x) (p_pgdir x) v (p_tstack x)
  (p_state x) (p_pid x) (p_tgid x) (p_parent x) (p_tfp x) (p_tf x) (p_ctxp x) (p_ctx x) (p_retpc
  x) (p_chan x) (p_killed x) (p_ofile x) (p_cwd x) (p_name x) (p_iotime x) (p_rtime x) (p_ctime x)
  (p_etime x) (p_waitshh x) (p_priority x) (p_num_run x) (p_qticks x) (p_queue x) (p_curr_ticks x)
  (p_change_q x) (p_enter x) (p_function x) (p_ticks x).
Definition set_p_tstack (v : Z) (x : proc) : proc := mkProc (p_sz x) (p_pgdir x) (p_kstack x) v
  (p_state x) (p_pid x) (p_tgid x) (p_parent x) (p_tfp x) (p_tf x) (p_ctxp x) (p_ctx x) (p_retpc
  x) (p_chan x) (p_killed x) (p_ofile x) (p_cwd x) (p_name x) (p_iotime x) (p_rtime x) (p_ctime x)
  (p_etime x) (p_waitshh x) (p_priority x) (p_num_run x) (p_qticks x) (p_queue x) (p_curr_ticks x)
  (p_change_q x) (p_enter x) (p_function x) (p_ticks x).
Definition set_p_state (v : procstate) (x : proc) : proc := mkProc (p_sz x) (p_pgdir x) (p_kstack
  x) (p_tstack x) v (p_pid x) (p_tgid x) (p_parent x) (p_tfp x) (p_tf x) (p_ctxp x) (p_ctx x)
  (p_retpc x) (p_chan x) (p_killed x) (p_ofile x) (p_cwd x) (p_name x) (p_iotime x) (p_rtime x)
  (p_ctime x) (p_etime x) (p_waitshh x) (p_priority x) (p_num_run x) (p_qticks x) (p_queue x)
  (p_curr_ticks x) (p_change_q x) (p_enter x) (p_function x) (p_ticks x).
Definition set_p_pid (v : Z) (x : proc) : proc := mkProc (p_sz x) (p_pgdir x) (p_kstack x)
  (p_tstack x) (p_state x) v (p_tgid x) (p_parent x) (p_tfp x) (p_tf x) (p_ctxp x) (p_ctx x)
  (p_retpc x) (p_chan x) (p_killed x) (p_ofile x) (p_cwd x) (p_name x) (p_iotime x) (p_rtime x)
  (p_ctime x) (p_etime x) (p_waitshh x) (p_priority x) (p_num_run x) (p_qticks x) (p_queue x)
  (p_curr_ticks x) (p_change_q x) (p_enter x) (p_function x) (p_ticks x).
Definition set_p_tgid (v : Z) (x : proc) : proc := mkProc (p_sz x) (p_pgdir x) (p_kstack x)
  (p_tstack x) (p_state x) (p_pid x) v (p_parent x) (p_tfp x) (p_tf x) (p_ctxp x) (p_ctx x)
  (p_retpc x) (p_chan x) (p_killed x) (p_ofile x) (p_cwd x) (p_name x) (p_iotime x) (p_rtime x)
  (p_ctime x) (p_etime x) (p_waitshh x) (p_priority x) (p_num_run x) (p_qticks x) (p_queue x)
  (p_curr_ticks x) (p_change_q x) (p_enter x) (p_function x) (p_ticks x).
Definition set_p_parent (v : option nat) (x : proc) : proc := mkProc (p_sz x) (p_pgdir x)
  (p_kstack x) (p_tstack x) (p_state x) (p_pid x) (p_tgid x) v (p_tfp x) (p_tf x) (p_ctxp x)
  (p_ctx x) (p_retpc x) (p_chan x) (p_killed x) (p_ofile x) (p_cwd x) (p_name x) (p_iotime x)
  (p_rtime x) (p_ctime x) (p_etime x) (p_waitshh x) (p_priority x) (p_num_run x) (p_qticks x)
  (p_queue x) (p_curr_ticks x) (p_change_q x) (p_enter x) (p_function x) (p_ticks x).
Definition set_p_tfp (v : Z) (x : proc) : proc := mkProc (p_sz x) (p_pgdir x) (p_kstack x)
  (p_tstack x) (p_state x) (p_pid x) (p_tgid x) (p_parent x) v (p_tf x) (p_ctxp x) (p_ctx x)
  (p_retpc x) (p_chan x) (p_killed x) (p_ofile x) (p_cwd x) (p_name x) (p_iotime x) (p_rtime x)
  (p_ctime x) (p_etime x) (p_waitshh x) (p_priority x) (p_num_run x) (p_qticks x) (p_queue x)
  (p_curr_ticks x) (p_change_q x) (p_enter x) (p_function x) (p_ticks x).
Definition set_p_tf (v : trapframe) (x : proc) : proc := mkProc (p_sz x) (p_pgdir x) (p_kstack x)
  (p_tstack x) (p_state x) (p_pid x) (p_tgid x) (p_parent x) (p_tfp x) v (p_ctxp x) (p_ctx x)
  (p_retpc x) (p_chan x) (p_killed x) (p_ofile x) (p_cwd x) (p_name x) (p_iotime x) (p_rtime x)
  (p_ctime x) (p_etime x) (p_waitshh x) (p_priority x) (p_num_run x) (p_qticks x) (p_queue x)
  (p_curr_ticks x) (p_change_q x) (p_enter x) (p_function x) (p_ticks x).
Definition set_p_ctxp (v : Z) (x : proc) : proc := mkProc (p_sz x) (p_pgdir x) (p_kstack x)
  (p_tstack x) (p_state x) (p_pid x) (p_tgid x) (p_parent x) (p_tfp x) (p_tf x) v (p_ctx x)
  (p_retpc x) (p_chan x) (p_killed x) (p_ofile x) (p_cwd x) (p_name x) (p_iotime x) (p_rtime x)
  (p_ctime x) (p_etime x) (p_waitshh x) (p_priority x) (p_num_run x) (p_qticks x) (p_queue x)
  (p_curr_ticks x) (p_change_q x) (p_enter x) (p_function x) (p_ticks x).
Definition set_p_ctx (v : context) (x : proc) : proc := mkProc (p_sz x) (p_pgdir x) (p_kstack x)
  (p_tstack x) (p_state x) (p_pid x) (p_tgid x) (p_parent x) (p_tfp x) (p_tf x) (p_ctxp x) v
  (p_retpc x) (p_chan x) (p_killed x) (p_ofile x) (p_cwd x) (p_name x) (p_iotime x) (p_rtime x)
  (p_ctime x) (p_etime x) (p_waitshh x) (p_priority x) (p_num_run x) (p_qticks x) (p_queue x)
  (p_curr_ticks x) (p_change_q x) (p_enter x) (p_function x) (p_ticks x).
Definition set_p_retpc (v : Z) (x : proc) : proc := mkProc (p_sz x) (p_pgdir x) (p_kstack x)
  (p_tstack x) (p_state x) (p_pid x) (p_tgid x) (p_parent x) (p_tfp x) (p_tf x) (p_ctxp x) (p_ctx
  x) v (p_chan x) (p_killed x) (p_ofile x) (p_cwd x) (p_name x) (p_iotime x) (p_rtime x) (p_ctime
  x) (p_etime x) (p_waitshh x) (p_priority x) (p_num_run x) (p_qticks x) (p_queue x) (p_curr_ticks
  x) (p_change_q x) (p_enter x) (p_function x) (p_ticks x).
Definition set_p_chan (v : chan) (x : proc) : proc := mkProc (p_sz x) (p_pgdir x) (p_kstack x)
  (p_tstack x) (p_state x) (p_pid x) (p_tgid x) (p_parent x) (p_tfp x) (p_tf x) (p_ctxp x) (p_ctx
  x) (p_retpc x) v (p_killed x) (p_ofile x) (p_cwd x) (p_name x) (p_iotime x) (p_rtime x) (p_ctime
  x) (p_etime x) (p_waitshh x) (p_priority x) (p_num_run x) (p_qticks x) (p_queue x) (p_curr_ticks
  x) (p_change_q x) (p_enter x) (p_function x) (p_ticks x).
Definition set_p_killed (v : Z) (x : proc) : proc := mkProc (p_sz x) (p_pgdir x) (p_kstack x)
  (p_tstack x) (p_state x) (p_pid x) (p_tgid x) (p_parent x) (p_tfp x) (p_tf x) (p_ctxp x) (p_ctx
  x) (p_retpc x) (p_chan x) v (p_ofile x) (p_cwd x) (p_name x) (p_iotime x) (p_rtime x) (p_ctime
  x) (p_etime x) (p_waitshh x) (p_priority x) (p_num_run x) (p_qticks x) (p_queue x) (p_curr_ticks
  x) (p_change_q x) (p_enter x) (p_function x) (p_ticks x).
Definition set_p_ofile (v : list (option nat)) (x : proc) : proc := mkProc (p_sz x) (p_pgdir x)
  (p_kstack x) (p_tstack x) (p_state x) (p_pid x) (p_tgid x) (p_parent x) (p_tfp x) (p_tf x)
  (p_ctxp x) (p_ctx x) (p_retpc x) (p_chan x) (p_killed x) v (p_cwd x) (p_name x) (p_iotime x)
  (p_rtime x) (p_ctime x) (p_etime x) (p_waitshh x) (p_priority x) (p_num_run x) (p_qticks x)
  (p_queue x) (p_curr_ticks x) (p_change_q x) (p_enter x) (p_function x) (p_ticks x).
Definition set_p_cwd (v : option nat) (x : proc) : proc := mkProc (p_sz x) (p_pgdir x) (p_kstack
  x) (p_tstack x) (p_state x) (p_pid x) (p_tgid x) (p_parent x) (p_tfp x) (p_tf x) (p_ctxp x)
  (p_ctx x) (p_retpc x) (p_chan x) (p_killed x) (p_ofile x) v (p_name x) (p_iotime x) (p_rtime x)
  (p_ctime x) (p_etime x) (p_waitshh x) (p_priority x) (p_num_run x) (p_qticks x) (p_queue x)
  (p_curr_ticks x) (p_change_q x) (p_enter x) (p_function x) (p_ticks x).
Definition set_p_name (v : list Z) (x : proc) : proc := mkProc (p_sz x) (p_pgdir x) (p_kstack x)
  (p_tstack x) (p_state x) (p_pid x) (p_tgid x) (p_parent x) (p_tfp x) (p_tf x) (p_ctxp x) (p_ctx
  x) (p_retpc x) (p_chan x) (p_killed x) (p_ofile x) (p_cwd x) v (p_iotime x) (p_rtime x) (p_ctime
  x) (p_etime x) (p_waitshh x) (p_priority x) (p_num_run x) (p_qticks x) (p_queue x) (p_curr_ticks
  x) (p_change_q x) (p_enter x) (p_function x) (p_ticks x).
Definition set_p_iotime (v : Z) (x : proc) : proc := mkProc (p_sz x) (p_pgdir x) (p_kstack x)
  (p_tstack x) (p_state x) (p_pid x) (p_tgid x) (p_parent x) (p_tfp x) (p_tf x) (p_ctxp x) (p_ctx
  x) (p_retpc x) (p_chan x) (p_killed x) (p_ofile x) (p_cwd x) (p_name x) v (p_rtime x) (p_ctime
  x) (p_etime x) (p_waitshh x) (p_priority x) (p_num_run x) (p_qticks x) (p_queue x) (p_curr_ticks
  x) (p_change_q x) (p_enter x) (p_function x) (p_ticks x).
Definition set_p_rtime (v : Z) (x : proc) : proc := mkProc (p_sz x) (p_pgdir x) (p_kstack x)
  (p_tstack x) (p_state x) (p_pid x) (p_tgid x) (p_parent x) (p_tfp x) (p_tf x) (p_ctxp x) (p_ctx
  x) (p_retpc x) (p_chan x) (p_killed x) (p_ofile x) (p_cwd x) (p_name x) (p_iotime x) v (p_ctime
  x) (p_etime x) (p_waitshh x) (p_priority x) (p_num_run x) (p_qticks x) (p_queue x) (p_curr_ticks
  x) (p_change_q x) (p_enter x) (p_function x) (p_ticks x).
Definition set_p_ctime (v : Z) (x : proc) : proc := mkProc (p_sz x) (p_pgdir x) (p_kstack x)
  (p_tstack x) (p_state x) (p_pid x) (p_tgid x) (p_parent x) (p_tfp x) (p_tf x) (p_ctxp x) (p_ctx
  x) (p_retpc x) (p_chan x) (p_killed x) (p_ofile x) (p_cwd x) (p_name x) (p_iotime x) (p_rtime x)
  v (p_etime x) (p_waitshh x) (p_priority x) (p_num_run x) (p_qticks x) (p_queue x) (p_curr_ticks
  x) (p_change_q x) (p_enter x) (p_function x) (p_ticks x).
Definition set_p_etime (v : Z) (x : proc) : proc := mkProc (p_sz x) (p_pgdir x) (p_kstack x)
  (p_tstack x) (p_state x) (p_pid x) (p_tgid x) (p_parent x) (p_tfp x) (p_tf x) (p_ctxp x) (p_ctx
  x) (p_retpc x) (p_chan x) (p_killed x) (p_ofile x) (p_cwd x) (p_name x) (p_iotime x) (p_rtime x)
  (p_ctime x) v (p_waitshh x) (p_priority x) (p_num_run x) (p_qticks x) (p_queue x) (p_curr_ticks
  x) (p_change_q x) (p_enter x) (p_function x) (p_ticks x).
Definition set_p_waitshh (v : Z) (x : proc) : proc := mkProc (p_sz x) (p_pgdir x) (p_kstack x)
  (p_tstack x) (p_state x) (p_pid x) (p_tgid x) (p_parent x) (p_tfp x) (p_tf x) (p_ctxp x) (p_ctx
  x) (p_retpc x) (p_chan x) (p_killed x) (p_ofile x) (p_cwd x) (p_name x) (p_iotime x) (p_rtime x)
  (p_ctime x) (p_etime x) v (p_priority x) (p_num_run x) (p_qticks x) (p_queue x) (p_curr_ticks x)
  (p_change_q x) (p_enter x) (p_function x) (p_ticks x).
Definition set_p_priority (v : Z) (x : proc) : proc := mkProc (p_sz x) (p_pgdir x) (p_kstack x)
  (p_tstack x) (p_state x) (p_pid x) (p_tgid x) (p_parent x) (p_tfp x) (p_tf x) (p_ctxp x) (p_ctx
  x) (p_retpc x) (p_chan x) (p_killed x) (p_ofile x) (p_cwd x) (p_name x) (p_iotime x) (p_rtime x)
  (p_ctime x) (p_etime x) (p_waitshh x) v (p_num_run x) (p_qticks x) (p_queue x) (p_curr_ticks x)
  (p_change_q x) (p_enter x) (p_function x) (p_ticks x).
Definition set_p_num_run (v : Z) (x : proc) : proc := mkProc (p_sz x) (p_pgdir x) (p_kstack x)
  (p_tstack x) (p_state x) (p_pid x) (p_tgid x) (p_parent x) (p_tfp x) (p_tf x) (p_ctxp x) (p_ctx
  x) (p_retpc x) (p_chan x) (p_killed x) (p_ofile x) (p_cwd x) (p_name x) (p_iotime x) (p_rtime x)
  (p_ctime x) (p_etime x) (p_waitshh x) (p_priority x) v (p_qticks x) (p_queue x) (p_curr_ticks x)
  (p_change_q x) (p_enter x) (p_function x) (p_ticks x).
Definition set_p_qticks (v : list Z) (x : proc) : proc := mkProc (p_sz x) (p_pgdir x) (p_kstack x)
  (p_tstack x) (p_state x) (p_pid x) (p_tgid x) (p_parent x) (p_tfp x) (p_tf x) (p_ctxp x) (p_ctx
  x) (p_retpc x) (p_chan x) (p_killed x) (p_ofile x) (p_cwd x) (p_name x) (p_iotime x) (p_rtime x)
  (p_ctime x) (p_etime x) (p_waitshh x) (p_priority x) (p_num_run x) v (p_queue x) (p_curr_ticks
  x) (p_change_q x) (p_enter x) (p_function x) (p_ticks x).
Definition set_p_queue (v : Z) (x : proc) : proc := mkProc (p_sz x) (p_pgdir x) (p_kstack x)
  (p_tstack x) (p_state x) (p_pid x) (p_tgid x) (p_parent x) (p_tfp x) (p_tf x) (p_ctxp x) (p_ctx
  x) (p_retpc x) (p_chan x) (p_killed x) (p_ofile x) (p_cwd x) (p_name x) (p_iotime x) (p_rtime x)
  (p_ctime x) (p_etime x) (p_waitshh x) (p_priority x) (p_num_run x) (p_qticks x) v (p_curr_ticks
  x) (p_change_q x) (p_enter x) (p_function x) (p_ticks x).
Definition set_p_curr_ticks (v : Z) (x : proc) : proc := mkProc (p_sz x) (p_pgdir x) (p_kstack x)
  (p_tstack x) (p_state x) (p_pid x) (p_tgid x) (p_parent x) (p_tfp x) (p_tf x) (p_ctxp x) (p_ctx
  x) (p_retpc x) (p_chan x) (p_killed x) (p_ofile x) (p_cwd x) (p_name x) (p_iotime x) (p_rtime x)
  (p_ctime x) (p_etime x) (p_waitshh x) (p_priority x) (p_num_run x) (p_qticks x) (p_queue x) v
  (p_change_q x) (p_enter x) (p_function x) (p_ticks x).
Definition set_p_change_q (v : Z) (x : proc) : proc := mkProc (p_sz x) (p_pgdir x) (p_kstack x)
  (p_tstack x) (p_state x) (p_pid x) (p_tgid x) (p_parent x) (p_tfp x) (p_tf x) (p_ctxp x) (p_ctx
  x) (p_retpc x) (p_chan x) (p_killed x) (p_ofile x) (p_cwd x) (p_name x) (p_iotime x) (p_rtime x)
  (p_ctime x) (p_etime x) (p_waitshh x) (p_priority x) (p_num_run x) (p_qticks x) (p_queue x)
  (p_curr_ticks x) v (p_enter x) (p_function x) (p_ticks x).
Definition set_p_enter (v : Z) (x : proc) : proc := mkProc (p_sz x) (p_pgdir x) (p_kstack x)
  (p_tstack x) (p_state x) (p_pid x) (p_tgid x) (p_parent x) (p_tfp x) (p_tf x) (p_ctxp x) (p_ctx
  x) (p_retpc x) (p_chan x) (p_killed x) (p_ofile x) (p_cwd x) (p_name x) (p_iotime x) (p_rtime x)
  (p_ctime x) (p_etime x) (p_waitshh x) (p_priority x) (p_num_run x) (p_qticks x) (p_queue x)
  (p_curr_ticks x) (p_change_q x) v (p_function x) (p_ticks x).
Definition set_p_function (v : Z) (x : proc) : proc := mkProc (p_sz x) (p_pgdir x) (p_kstack x)
  (p_tstack x) (p_state x) (p_pid x) (p_tgid x) (p_parent x) (p_tfp x) (p_tf x) (p_ctxp x) (p_ctx
  x) (p_retpc x) (p_chan x) (p_killed x) (p_ofile x) (p_cwd x) (p_name x) (p_iotime x) (p_rtime x)
  (p_ctime x) (p_etime x) (p_waitshh x) (p_priority x) (p_num_run x) (p_qticks x) (p_queue x)
  (p_curr_ticks x) (p_change_q x) (p_enter x) v (p_ticks x).
Definition set_p_ticks (v : Z) (x : proc) : proc := mkProc (p_sz x) (p_pgdir x) (p_kstack x)
  (p_tstack x) (p_state x) (p_pid x) (p_tgid x) (p_parent x) (p_tfp x) (p_tf x) (p_ctxp x) (p_ctx
  x) (p_retpc x) (p_chan x) (p_killed x) (p_ofile x) (p_cwd x) (p_name x) (p_iotime x) (p_rtime x)
  (p_ctime x) (p_etime x) (p_waitshh x) (p_priority x) (p_num_run x) (p_qticks x) (p_queue x)
  (p_curr_ticks x) (p_change_q x) (p_enter x) (p_function x) v.

(** A slot of the zero-initialised table. *)
Definition zero_proc : proc :=
  mkProc 0 0 0 0 UNUSED 0 0 None 0 zero_tf 0 (mkCtx 0 0 0 0 0) 0 ChanNull 0 (replicate 16 None) None
    (replicate 16 0) 0 0 0 0 0 0 0 (replicate 5 0) 0 0 0 0 0 0.

(** The globals of proc.c that [ptable.lock] protects, with [ticks] and the
    console. *)
Record ptab : Type := mkPtab {
  procs : list proc;   (** [ptable.proc] *)
  queues : list (list (option nat));   (** [queue\[5\]\[NPROC\]] *)
  q_tail : list Z;   (** index of the last element of each queue *)
  initproc : option nat;
  nextpid : Z;
  nexttgid : Z;
  ticks : Z;   (** trap.c: timer interrupts so far *)
  cons_out : list Z   (** characters printed by [cprintf] *)
}.

Definition set_procs (v : list proc) (x : ptab) : ptab := mkPtab v (queues x) (q_tail x) (initproc
  x) (nextpid x) (nexttgid x) (ticks x) (cons_out x).
Definition set_queues (v : list (list (option nat))) (x : ptab) : ptab := mkPtab (procs x) v
  (q_tail x) (initproc x) (nextpid x) (nexttgid x) (ticks x) (cons_out x).
Definition set_q_tail (v : list Z) (x : ptab) : ptab := mkPtab (procs x) (queues x) v (initproc x)
  (nextpid x) (nexttgid x) (ticks x) (cons_out x).
Definition set_initproc (v : option nat) (x : ptab) : ptab := mkPtab (procs x) (queues x) (q_tail
  x) v (nextpid x) (nexttgid x) (ticks x) (cons_out x).
Definition set_nextpid (v : Z) (x : ptab) : ptab := mkPtab (procs x) (queues x) (q_tail x)
  (initproc x) v (nexttgid x) (ticks x) (cons_out x).
Definition set_nexttgid (v : Z) (x : ptab) : ptab := mkPtab (procs x) (queues x) (q_tail x)
  (initproc x) (nextpid x) v (ticks x) (cons_out x).
Definition set_ticks (v : Z) (x : ptab) : ptab := mkPtab (procs x) (queues x) (q_tail x) (initproc
  x) (nextpid x) (nexttgid x) v (cons_out x).
Definition set_cons_out (v : list Z) (x : ptab) : ptab := mkPtab (procs x) (queues x) (q_tail x)
  (initproc x) (nextpid x) (nexttgid x) (ticks x) v.
