(* ===== verification/Queue.v ===== *)
(** * The MLFQ queues: [queue], [q_tail], [add_proc_to_q], [remove_proc_from_q] (proc.c)

    Each of the five queues is an array of [NPROC] process pointers with the
    index of its last element.  [qlist] is the abstraction to a list of
    process slots; the two operations are the list operations on it. *)

From stdpp Require Import prelude.
From S2P Require Import Prelude ProcData.

Open Scope Z_scope.

Definition NPROC : nat := 64.

(** ** Access to the table *)
Definition get_proc (i : nat) : M ptab proc := s ← get; deref (procs s !! i).

Definition upd_proc (i : nat) (f : proc -> proc) : M ptab unit :=
  p ← get_proc i; modify (fun s => set_procs (<[i := f p]> (procs s)) s).

(** [q_tail\[q\]] *)
Definition tail_of (q : Z) : M ptab Z := s ← get; deref (nthZ (q_tail s) q).

Definition set_tail (q v : Z) : M ptab unit :=
  s ← get; l ← deref (updZ (q_tail s) q v); modify (set_q_tail l).

(** [queue\[q\]\[i\]] *)
Definition queue_cell (q i : Z) : M ptab (option nat) :=
  s ← get; row ← deref (nthZ (queues s) q); deref (nthZ row i).

Definition set_cell (q i : Z) (v : option nat) : M ptab unit :=
  s ← get;
  row ← deref (nthZ (queues s) q);
  row' ← deref (updZ row i v);
  l ← deref (updZ (queues s) q row');
  modify (set_queues l).

(** [queue\[q\]\[i\]->pid] *)
Definition queue_pid (q i : Z) : M ptab Z :=
  c ← queue_cell q i; x ← deref c; px ← get_proc x; mret (p_pid px).

(** The first [i] of [idx] with [queue\[q\]\[i\]->pid == pid]. *)
Definition find_pid (q pid : Z) (idx : list Z) : M ptab (option Z) :=
  for_until idx (fun i => x ← queue_pid q i; mret (if pid =? x then Some i else None)).

Definition add_proc_to_q (p : nat) (q_no : Z) : M ptab Z :=
  tail ← tail_of q_no;
  pp ← get_proc p;
  dup ← find_pid q_no (p_pid pp) (seqZ 0 tail);
  match dup with
  | Some _ => mret (-1)
  | None =>
      s ← get;
      upd_proc p (set_p_enter (s32 (ticks s)));;
      upd_proc p (set_p_queue q_no);;
      set_tail q_no (tail + 1);;
      set_cell q_no (tail + 1) (Some p);;
      mret 1
  end.

Definition remove_proc_from_q (p : nat) (q_no : Z) : M ptab Z :=
  tail ← tail_of q_no;
  pp ← get_proc p;
  found ← find_pid q_no (p_pid pp) (seqZ 0 (tail + 1));
  match found with
  | None => mret (-1)
  | Some rem =>
      for_each (seqZ rem (tail - rem)) (fun i =>
        c ← queue_cell q_no (i + 1); set_cell q_no i c);;
      set_tail q_no (tail - 1);;
      mret 1
  end.

(** ** Abstraction *)

(** Queue [q] of [s] holds the process slots [l], in order. *)
Definition qlist (s : ptab) (q : nat) (l : list nat) : Prop :=
  q_tail s !! q = Some (Z.of_nat (length l) - 1) /\
  exists row, queues s !! q = Some row /\ length row = NPROC /\
    (length l <= NPROC)%nat /\ take (length l) row = Some <$> l.

(** ** Elementary runs *)
Lemma get_proc_run s i p : procs s !! i = Some p -> get_proc i s = Ok (p, s).
Proof. intros H. unfold get_proc. mrun. by rewrite H. Qed.

Lemma upd_proc_run s i p f : procs s !! i = Some p ->
  upd_proc i f s = Ok (tt, set_procs (<[i := f p]> (procs s)) s).
Proof. intros H. unfold upd_proc. by rewrite (bind_Ok _ _ _ _ _ (get_proc_run _ _ _ H)). Qed.

Lemma tail_of_run s q t : q_tail s !! q = Some t -> tail_of (Z.of_nat q) s = Ok (t, s).
Proof. intros H. unfold tail_of. mrun. by rewrite nthZ_nat, H. Qed.

Lemma set_tail_run s q v : (q < length (q_tail s))%nat ->
  set_tail (Z.of_nat q) v s = Ok (tt, set_q_tail (<[q := v]> (q_tail s)) s).
Proof. intros H. unfold set_tail. mrun. by rewrite updZ_nat. Qed.

Lemma queue_cell_run s q row i c : queues s !! q = Some row -> row !! i = Some c ->
  queue_cell (Z.of_nat q) (Z.of_nat i) s = Ok (c, s).
Proof. intros H H'. unfold queue_cell. mrun. rewrite nthZ_nat, H. mrun. by rewrite nthZ_nat, H'. Qed.

Lemma set_cell_run s q row i v : queues s !! q = Some row -> (i < length row)%nat ->
  set_cell (Z.of_nat q) (Z.of_nat i) v s =
  Ok (tt, set_queues (<[q := <[i := v]> row]> (queues s)) s).
Proof.
  intros H Hi. unfold set_cell. mrun. rewrite nthZ_nat, H. mrun. rewrite updZ_nat by done.
  mrun. rewrite updZ_nat; [done|]. by apply lookup_lt_Some in H.
Qed.

Lemma qlist_cell s q l row i x : queues s !! q = Some row ->
  take (length l) row = Some <$> l -> l !! i = Some x -> row !! i = Some (Some x).
Proof.
  intros Hr Ht Hi. rewrite <- (lookup_take_lt row (length l)).
  - by rewrite Ht, list_lookup_fmap, Hi.
  - by apply lookup_lt_Some in Hi.
Qed.

Lemma queue_pid_run s q l i x px : qlist s q l -> l !! i = Some x -> procs s !! x = Some px ->
  queue_pid (Z.of_nat q) (Z.of_nat i) s = Ok (p_pid px, s).
Proof.
  intros (_ & row & Hr & _ & _ & Ht) Hi Hx. unfold queue_pid.
  rewrite (bind_Ok _ _ _ _ _ (queue_cell_run _ _ _ _ _ Hr (qlist_cell _ _ _ _ _ _ Hr Ht Hi))).
  unfold get_proc. mrun. by rewrite Hx.
Qed.

(** ** Searching a queue

    [pids s l] are the pids of the queued processes. *)
Definition has_pid (s : ptab) (pid : Z) (x : nat) : Prop :=
  exists px, procs s !! x = Some px /\ p_pid px = pid.

Lemma find_pid_none s q l pid n : qlist s q l -> (n <= length l)%nat ->
  (forall i x, (i < n)%nat -> l !! i = Some x -> exists px, procs s !! x = Some px /\ p_pid px <> pid) ->
  find_pid (Z.of_nat q) pid (seqZ 0 (Z.of_nat n)) s = Ok (None, s).
Proof.
  intros Hq Hn Hne. unfold find_pid, seqZ. rewrite Nat2Z.id.
  assert (Hgen : forall k m, (m + k <= n)%nat ->
    for_until ((fun i : nat => Z.of_nat i + 0) <$> seq m k)
      (fun i => x ← queue_pid (Z.of_nat q) i; mret (if pid =? x then Some i else None)) s = Ok (None, s)).
  { induction k as [|k IH]; intros m Hm; [done|]. simpl. rewrite Z.add_0_r.
    destruct (lookup_lt_is_Some_2 l m) as [x Hx]; [lia|].
    destruct (Hne m x) as (px & Hpx & Hp); [lia|done|].
    unfold mbind, M_bind. rewrite (queue_pid_run _ _ _ _ _ _ Hq Hx Hpx). cbn.
    destruct (Z.eqb_spec pid (p_pid px)); [congruence|]. apply IH. lia. }
  apply Hgen. lia.
Qed.

Lemma find_pid_some s q l1 x l2 pid n : qlist s q (l1 ++ x :: l2) ->
  (length l1 < n <= length (l1 ++ x :: l2))%nat -> has_pid s pid x ->
  (forall y, y ∈ l1 -> exists py, procs s !! y = Some py /\ p_pid py <> pid) ->
  find_pid (Z.of_nat q) pid (seqZ 0 (Z.of_nat n)) s = Ok (Some (Z.of_nat (length l1)), s).
Proof.
  intros Hq Hn (px & Hpx & Hp) Hne. unfold find_pid, seqZ. rewrite Nat2Z.id.
  assert (Hgen : forall k m, (m + k = n)%nat -> (m <= length l1)%nat ->
    for_until ((fun i : nat => Z.of_nat i + 0) <$> seq m k)
      (fun i => x ← queue_pid (Z.of_nat q) i; mret (if pid =? x then Some i else None)) s
      = Ok (Some (Z.of_nat (length l1)), s)).
  { induction k as [|k IH]; intros m Hm Hm1; [lia|]. simpl. rewrite Z.add_0_r.
    destruct (decide (m = length l1)) as [->|Hml].
    - unfold mbind, M_bind. rewrite (queue_pid_run s q _ (length l1) x px Hq);
        [|by rewrite list_lookup_middle|done]. cbn. by rewrite Hp, Z.eqb_refl.
    - destruct (lookup_lt_is_Some_2 l1 m) as [y Hy]; [lia|].
      destruct (Hne y) as (py & Hpy & Hyp); [by eapply list_elem_of_lookup_2|].
      unfold mbind, M_bind. rewrite (queue_pid_run s q _ m y py Hq);
        [|rewrite lookup_app_l by lia; done|done]. cbn.
      destruct (Z.eqb_spec pid (p_pid py)); [congruence|]. apply IH; lia. }
  apply Hgen; lia.
Qed.

(** ** The operations on the abstraction *)

(** The globals the queue operations leave alone. *)
Definition same_globals (s s' : ptab) : Prop :=
  initproc s' = initproc s /\ nextpid s' = nextpid s /\ nexttgid s' = nexttgid s /\
  ticks s' = ticks s /\ cons_out s' = cons_out s.

(** Only queue [q] differs. *)
Definition other_queues (q : nat) (s s' : ptab) : Prop :=
  forall q' l', q' <> q -> qlist s q' l' -> qlist s' q' l'.

Lemma qlist_set_procs s v q l : qlist (set_procs v s) q l <-> qlist s q l.
Proof. done. Qed.

(** Storing one cell of queue [q] and its tail. *)
Lemma qlist_write s q l row row' l' t :
  qlist s q l -> queues s !! q = Some row -> length row' = NPROC ->
  t = Z.of_nat (length l') - 1 -> (length l' <= NPROC)%nat -> take (length l') row' = Some <$> l' ->
  let s' := set_queues (<[q := row']> (queues s)) (set_q_tail (<[q := t]> (q_tail s)) s) in
  qlist s' q l' /\ other_queues q s s'.
Proof.
  intros (Ht & _) Hr Hl' -> Hle Htk. simpl. split.
  - split; simpl; [by eapply list_lookup_insert_eq, lookup_lt_Some|].
    exists row'. split; [by eapply list_lookup_insert_eq, lookup_lt_Some|done].
  - intros q' k Hq (Ht' & row2 & Hr' & Hrest). split; simpl.
    + by rewrite list_lookup_insert_ne.
    + exists row2. by rewrite list_lookup_insert_ne.
Qed.

Definition enqueued (q : nat) (s : ptab) (pp : proc) : proc :=
  set_p_queue (Z.of_nat q) (set_p_enter (s32 (ticks s)) pp).

Lemma add_run s q l p pp :
  qlist s q l -> (length l < NPROC)%nat -> procs s !! p = Some pp ->
  (forall i x, (i < length l - 1)%nat -> l !! i = Some x ->
     exists px, procs s !! x = Some px /\ p_pid px <> p_pid pp) ->
  exists s', add_proc_to_q p (Z.of_nat q) s = Ok (1, s') /\
    qlist s' q (l ++ [p]) /\ other_queues q s s' /\ same_globals s s' /\
    procs s' = <[p := enqueued q s pp]> (procs s) /\
    length (queues s') = length (queues s) /\ length (q_tail s') = length (q_tail s).
Proof.
  intros Hq Hl Hp Hne. pose proof Hq as (Ht & row & Hr & Hrl & Hle & Htk).
  assert (Hplt : (p < length (procs s))%nat) by by apply lookup_lt_Some in Hp.
  unfold add_proc_to_q. rewrite (bind_Ok _ _ _ _ _ (tail_of_run _ _ _ Ht)).
  rewrite (bind_Ok _ _ _ _ _ (get_proc_run _ _ _ Hp)).
  assert (Hnone : find_pid (Z.of_nat q) (p_pid pp) (seqZ 0 (Z.of_nat (length l) - 1)) s = Ok (None, s)).
  { destruct (decide (length l = 0)%nat) as [E|E]; [by rewrite E|].
    replace (Z.of_nat (length l) - 1) with (Z.of_nat (length l - 1)) by lia.
    eapply find_pid_none; [done|lia|]. done. }
  rewrite (bind_Ok _ _ _ _ _ Hnone). rewrite (bind_Ok get _ s s s eq_refl).
  rewrite (bind_Ok _ _ _ _ _ (upd_proc_run _ _ _ _ Hp)).
  set (s1 := set_procs (<[p := set_p_enter (s32 (ticks s)) pp]> (procs s)) s).
  assert (Hp1 : procs s1 !! p = Some (set_p_enter (s32 (ticks s)) pp)) by (by apply list_lookup_insert_eq).
  rewrite (bind_Ok _ _ _ _ _ (upd_proc_run _ _ _ _ Hp1)). subst s1. simpl.
  rewrite list_insert_insert_eq. fold (enqueued q s pp).
  replace (Z.of_nat (length l) - 1 + 1) with (Z.of_nat (length l)) by lia.
  set (s2 := set_procs (<[p := enqueued q s pp]> (procs s)) s).
  assert (Hqt : (q < length (q_tail s2))%nat) by by apply lookup_lt_Some in Ht.
  rewrite (bind_Ok _ _ _ _ _ (set_tail_run s2 q _ Hqt)).
  set (s3 := set_q_tail _ s2).
  rewrite (bind_Ok _ _ _ _ _ (set_cell_run s3 q row (length l) (Some p) Hr ltac:(lia))).
  eexists. split; [done|].
  edestruct (qlist_write (set_procs (<[p := enqueued q s pp]> (procs s)) s) q l row
    (<[length l := Some p]> row) (l ++ [p]) (Z.of_nat (length l))) as [H1 H2];
    [done|done|by rewrite length_insert| | | |].
  - rewrite length_app. simpl. lia.
  - rewrite length_app. simpl. lia.
  - rewrite length_app. simpl. rewrite Nat.add_1_r.
    rewrite (take_S_r _ _ (Some p)) by (apply list_lookup_insert_eq; lia).
    rewrite take_insert_ge by lia. by rewrite Htk, fmap_app.
  - split; [exact H1|]. split; [exact H2|].
    split; [by repeat split|]. split; [done|]. by simpl; rewrite !length_insert.
Qed.

(** The shift loop of [remove_proc_from_q]. *)
Lemma shift_run q k : forall s row m, queues s !! q = Some row -> (m + k < length row)%nat ->
  exists row', for_each ((fun i : nat => Z.of_nat i + Z.of_nat m) <$> seq 0 k) (fun i =>
      c ← queue_cell (Z.of_nat q) (i + 1); set_cell (Z.of_nat q) i c) s
    = Ok (tt, set_queues (<[q := row']> (queues s)) s) /\
    length row' = length row /\
    forall i, row' !! i = if decide (m <= i < m + k)%nat then row !! S i else row !! i.
Proof.
  induction k as [|k IH]; intros s row m Hr Hm.
  - exists row. simpl. split; [|split; [done|]].
    + rewrite list_insert_id by done. by destruct s.
    + intros i. by rewrite decide_False by lia.
  - destruct (lookup_lt_is_Some_2 row (S m)) as [c Hc]; [lia|].
    simpl. unfold mbind at 1, M_bind at 1.
    replace (Z.of_nat 0 + Z.of_nat m + 1) with (Z.of_nat (S m)) by lia.
    rewrite (bind_Ok _ _ _ _ _ (queue_cell_run _ _ _ _ _ Hr Hc)).
    replace (Z.of_nat 0 + Z.of_nat m) with (Z.of_nat m) by lia.
    rewrite (set_cell_run _ _ _ _ _ Hr) by lia.
    assert (Hq : (q < length (queues s))%nat) by by apply lookup_lt_Some in Hr.
    set (s1 := set_queues (<[q := <[m := c]> row]> (queues s)) s).
    destruct (IH s1 (<[m := c]> row) (S m)) as (row' & Hrun & Hlen & Hrow').
    { by apply list_lookup_insert_eq. }
    { rewrite length_insert. lia. }
    exists row'. split; [|split; [by rewrite Hlen, length_insert|]].
    + rewrite <- fmap_S_seq, <- list_fmap_compose.
      erewrite list_fmap_ext; [rewrite Hrun; subst s1; simpl; by rewrite list_insert_insert_eq|].
      intros i x Hx. simpl. lia.
    + intros i. rewrite Hrow'. destruct (decide (i = m)) as [->|Hi].
      * rewrite decide_False by lia. rewrite decide_True by lia. rewrite Hc.
        apply list_lookup_insert_eq. lia.
      * destruct (decide (S m <= i < S m + k)%nat).
        -- rewrite decide_True by lia. by rewrite list_lookup_insert_ne by lia.
        -- rewrite decide_False by lia. by rewrite list_lookup_insert_ne by lia.
Qed.

Lemma remove_run s q l1 x l2 p pp :
  qlist s q (l1 ++ x :: l2) -> procs s !! p = Some pp -> has_pid s (p_pid pp) x ->
  (forall y, y ∈ l1 -> exists py, procs s !! y = Some py /\ p_pid py <> p_pid pp) ->
  exists s', remove_proc_from_q p (Z.of_nat q) s = Ok (1, s') /\
    qlist s' q (l1 ++ l2) /\ other_queues q s s' /\ same_globals s s' /\ procs s' = procs s /\
    length (queues s') = length (queues s) /\ length (q_tail s') = length (q_tail s).
Proof.
  intros Hq Hp Hx Hne. pose proof Hq as (Ht & row & Hr & Hrl & Hle & Htk).
  assert (Hlen : length (l1 ++ x :: l2) = S (length l1 + length l2)) by (rewrite length_app; simpl; lia).
  unfold remove_proc_from_q. rewrite (bind_Ok _ _ _ _ _ (tail_of_run _ _ _ Ht)).
  rewrite (bind_Ok _ _ _ _ _ (get_proc_run _ _ _ Hp)).
  replace (Z.of_nat (length (l1 ++ x :: l2)) - 1 + 1) with (Z.of_nat (length (l1 ++ x :: l2))) by lia.
  rewrite (bind_Ok _ _ _ _ _ (find_pid_some s q l1 x l2 _ (length (l1 ++ x :: l2)) Hq ltac:(lia) Hx Hne)).
  unfold seqZ. replace (Z.to_nat (Z.of_nat (length (l1 ++ x :: l2)) - 1 - Z.of_nat (length l1)))
    with (length l2) by lia.
  destruct (shift_run q (length l2) s row (length l1) Hr) as (row' & Hrun & Hrl' & Hrow'); [lia|].
  rewrite (bind_Ok _ _ _ _ _ Hrun).
  set (s1 := set_queues (<[q := row']> (queues s)) s).
  assert (Hqt : (q < length (q_tail s1))%nat) by by apply lookup_lt_Some in Ht.
  rewrite (bind_Ok _ _ _ _ _ (set_tail_run s1 q _ Hqt)).
  eexists. split; [done|].
  edestruct (qlist_write s q (l1 ++ x :: l2) row row' (l1 ++ l2) (Z.of_nat (length (l1 ++ x :: l2)) - 1 - 1))
    as [H1 H2]; [done|done|lia| | | |].
  - rewrite Hlen, length_app. lia.
  - rewrite length_app. lia.
  - apply list_eq. intros i. rewrite list_lookup_fmap.
    destruct (decide (i < length l1 + length l2)%nat) as [Hi|Hi].
    + rewrite lookup_take_lt by (rewrite length_app; lia). rewrite Hrow'.
      assert (Hcell : forall j, (j < length (l1 ++ x :: l2))%nat -> row !! j = Some <$> (l1 ++ x :: l2) !! j).
      { intros j Hj. by rewrite <- list_lookup_fmap, <- Htk, lookup_take_lt. }
      destruct (decide (length l1 <= i < length l1 + length l2)%nat).
      * rewrite Hcell by lia. rewrite !lookup_app_r by lia.
        by replace (S i - length l1)%nat with (S (i - length l1)) by lia.
      * rewrite Hcell by lia. by rewrite !lookup_app_l by lia.
    + rewrite lookup_take_ge by (rewrite length_app; lia).
      rewrite lookup_ge_None_2; [done|]. rewrite length_app. lia.
  - split; [exact H1|]. split; [exact H2|].
    split; [by repeat split|]. split; [done|]. by simpl; rewrite !length_insert.
Qed.

Lemma remove_none_run s q l p pp :
  qlist s q l -> procs s !! p = Some pp ->
  (forall y, y ∈ l -> exists py, procs s !! y = Some py /\ p_pid py <> p_pid pp) ->
  remove_proc_from_q p (Z.of_nat q) s = Ok (-1, s).
Proof.
  intros Hq Hp Hne. pose proof Hq as (Ht & _).
  unfold remove_proc_from_q. rewrite (bind_Ok _ _ _ _ _ (tail_of_run _ _ _ Ht)).
  rewrite (bind_Ok _ _ _ _ _ (get_proc_run _ _ _ Hp)).
  replace (Z.of_nat (length l) - 1 + 1) with (Z.of_nat (length l)) by lia.
  rewrite (bind_Ok _ _ _ _ _ (find_pid_none s q l (p_pid pp) (length l) Hq ltac:(lia)
    (fun i x _ H => Hne x (list_elem_of_lookup_2 _ _ _ H)))). done.
Qed.
