(* ===== verification/Mlfq.v ===== *)
(** * The MLFQ invariant

    At every point where [ptable.lock] is free, the five queues hold exactly
    the RUNNABLE processes, each once, at the level its [queue] field says,
    and pids of live slots are distinct.  [X] names a process that is already
    (or still) RUNNABLE inside a critical section without being queued. *)

From stdpp Require Import prelude.
From S2P Require Import Prelude ProcData Queue.

Open Scope Z_scope.

Definition NQ : nat := 5.

Record mlfq_inv (s : ptab) (ls : list (list nat)) (X : option nat) : Prop := {
  mi_procs : length (procs s) = NPROC;
  mi_nq : length ls = NQ;
  mi_rows : forall q l, ls !! q = Some l -> qlist s q l;
  mi_nodup : NoDup (concat ls);
  mi_mem : forall q l i, ls !! q = Some l -> i ∈ l ->
    exists p, procs s !! i = Some p /\ p_state p = RUNNABLE /\ p_queue p = Z.of_nat q;
  mi_all : forall i p, procs s !! i = Some p -> p_state p = RUNNABLE ->
    i ∈ concat ls \/ X = Some i;
  mi_X : forall x, X = Some x -> (x ∉ concat ls) /\ exists p, procs s !! x = Some p /\ p_state p = RUNNABLE;
  mi_pids : forall i j p p', procs s !! i = Some p -> procs s !! j = Some p' ->
    p_state p <> UNUSED -> p_state p' <> UNUSED -> p_pid p = p_pid p' -> i = j;
  mi_fresh : forall i p, procs s !! i = Some p -> p_state p <> UNUSED -> 0 < p_pid p < nextpid s;
  mi_level : forall i p, procs s !! i = Some p -> p_state p <> UNUSED -> p_state p <> EMBRYO ->
    0 <= p_queue p <= 4
}.

(** ** Facts about the family of queues *)
Lemma elem_of_concat_lookup {A} (ls : list (list A)) (x : A) :
  x ∈ concat ls <-> exists q l, ls !! q = Some l /\ x ∈ l.
Proof.
  rewrite list_elem_of_In, in_concat. split.
  - intros (l & Hl & Hx). apply list_elem_of_In, list_elem_of_lookup in Hl as [q Hq].
    exists q, l. by rewrite list_elem_of_In.
  - intros (q & l & Hq & Hx). exists l. split; [|by apply list_elem_of_In].
    apply list_elem_of_In. by eapply list_elem_of_lookup_2.
Qed.

Lemma concat_insert {A} (ls : list (list A)) q l l' :
  ls !! q = Some l -> exists a b, concat ls = a ++ l ++ b /\ concat (<[q := l']> ls) = a ++ l' ++ b.
Proof.
  intros H. exists (concat (take q ls)), (concat (drop (S q) ls)). split.
  - rewrite <- (take_drop_middle _ _ _ H) at 1. rewrite concat_app. done.
  - rewrite insert_take_drop by (by eapply lookup_lt_Some). by rewrite concat_app.
Qed.

Section Inv.
Context (s : ptab) (ls : list (list nat)) (X : option nat) (Hinv : mlfq_inv s ls X).

Lemma inv_valid i : i ∈ concat ls -> (i < NPROC)%nat.
Proof using Hinv.
  intros Hi. apply elem_of_concat_lookup in Hi as (q & l & Hq & Hi).
  destruct (mi_mem _ _ _ Hinv _ _ _ Hq Hi) as (p & Hp & _).
  rewrite <- (mi_procs _ _ _ Hinv). by eapply lookup_lt_Some.
Qed.

(** With a valid process outside the queues, no queue is full. *)
Lemma inv_room q l i : ls !! q = Some l -> i ∉ concat ls -> (i < NPROC)%nat ->
  (length l < NPROC)%nat.
Proof using Hinv.
  intros Hq Hi Hlt.
  assert (Hnd : NoDup (i :: concat ls)) by (constructor; [done|apply Hinv]).
  assert (Hle : (length (i :: concat ls) <= length (seq 0 NPROC))%nat).
  { apply NoDup_incl_length.
    - by apply NoDup_ListNoDup.
    - intros x Hx. apply list_elem_of_In in Hx. apply in_seq.
      apply elem_of_cons in Hx as [->|Hx]; [lia|]. apply inv_valid in Hx. lia. }
  destruct (concat_insert ls q l l Hq) as (a & b & E & _).
  rewrite E, length_seq in Hle. simpl in Hle. rewrite !length_app in Hle. lia.
Qed.

Lemma inv_row q : (q < NQ)%nat -> exists l, ls !! q = Some l.
Proof using Hinv.
  intros H. apply lookup_lt_is_Some_2. by rewrite (mi_nq _ _ _ Hinv).
Qed.

Lemma inv_not_queued i p : procs s !! i = Some p -> p_state p <> RUNNABLE -> i ∉ concat ls.
Proof using Hinv.
  intros Hp Hs Hi. apply elem_of_concat_lookup in Hi as (q & l & Hq & Hi).
  destruct (mi_mem _ _ _ Hinv _ _ _ Hq Hi) as (p' & Hp' & Hr & _). congruence.
Qed.

(** Queued processes other than [p] carry another pid. *)
Lemma inv_other_pid p pp q l y : procs s !! p = Some pp -> p_state pp <> UNUSED ->
  ls !! q = Some l -> y ∈ l -> y <> p ->
  exists py, procs s !! y = Some py /\ p_pid py <> p_pid pp.
Proof using Hinv.
  intros Hp Hs Hq Hy Hne. destruct (mi_mem _ _ _ Hinv _ _ _ Hq Hy) as (py & Hpy & Hr & _).
  exists py. split; [done|]. intros E. apply Hne.
  eapply (mi_pids _ _ _ Hinv); eauto. by rewrite Hr.
Qed.
End Inv.

(** ** Updating one slot *)
Lemma inv_update s ls X X' i p p' :
  mlfq_inv s ls X -> procs s !! i = Some p ->
  (i ∈ concat ls -> p_state p' = RUNNABLE /\ p_queue p' = p_queue p) ->
  (p_state p' = RUNNABLE -> i ∈ concat ls \/ X' = Some i) ->
  (forall x, X = Some x -> x = i \/ X' = Some x) ->
  (forall x, X' = Some x -> (x ∉ concat ls) /\ exists q, (<[i := p']> (procs s)) !! x = Some q /\ p_state q = RUNNABLE) ->
  (p_state p' <> UNUSED -> 0 < p_pid p' < nextpid s /\ (p_state p' <> EMBRYO -> 0 <= p_queue p' <= 4) /\
     forall j pj, j <> i -> procs s !! j = Some pj -> p_state pj <> UNUSED -> p_pid pj <> p_pid p') ->
  mlfq_inv (set_procs (<[i := p']> (procs s)) s) ls X'.
Proof.
  intros Hinv Hp Hq Hr HX HX' Hlive.
  assert (Hi : (i < length (procs s))%nat) by by eapply lookup_lt_Some.
  assert (Hlk : forall j pj, <[i := p']> (procs s) !! j = Some pj ->
    (j = i /\ pj = p') \/ (j <> i /\ procs s !! j = Some pj)).
  { intros j pj Hj. destruct (decide (j = i)) as [->|Hne].
    - rewrite list_lookup_insert_eq in Hj by done. left. naive_solver.
    - rewrite list_lookup_insert_ne in Hj by done. auto. }
  pose proof Hinv as [H1 H2 H3 H4 H5 H6 H7 H8 H9 H10].
  split; simpl; try done.
  - by rewrite length_insert.
  - intros q l j Hql Hj. destruct (decide (j = i)) as [->|Hne].
    + destruct (H5 q l i Hql Hj) as (p0 & Hp0 & _ & Hq0). simplify_eq.
      destruct Hq as [Hs' Hq']; [apply elem_of_concat_lookup; eauto|].
      exists p'. rewrite list_lookup_insert_eq by done. by rewrite Hq'.
    + rewrite list_lookup_insert_ne by done. eauto.
  - intros j pj Hj Hs. apply Hlk in Hj as [[-> ->]|[Hne Hj]]; [auto|].
    destruct (H6 j pj Hj Hs) as [|Hx]; [auto|]. apply HX in Hx as [->|]; [done|auto].
  - intros j k pj pk Hj Hk Hsj Hsk E.
    apply Hlk in Hj as [[-> ->]|[Hnj Hj]]; apply Hlk in Hk as [[-> ->]|[Hnk Hk]]; [done| | |eauto].
    + destruct (Hlive Hsj) as (_ & _ & Hd). by destruct (Hd _ _ Hnk Hk Hsk).
    + destruct (Hlive Hsk) as (_ & _ & Hd). by destruct (Hd _ _ Hnj Hj Hsj).
  - intros j pj Hj Hs. apply Hlk in Hj as [[-> ->]|[Hne Hj]]; [by apply Hlive|eauto].
  - intros j pj Hj Hs He. apply Hlk in Hj as [[-> ->]|[Hne Hj]]; [by apply Hlive|eauto].
Qed.

(** A change that keeps state, pid and level. *)
Definition same_sched (p p' : proc) : Prop :=
  p_state p' = p_state p /\ p_pid p' = p_pid p /\ p_queue p' = p_queue p.

Lemma inv_update_same s ls X i p p' :
  mlfq_inv s ls X -> procs s !! i = Some p -> same_sched p p' ->
  mlfq_inv (set_procs (<[i := p']> (procs s)) s) ls X.
Proof.
  intros Hinv Hp (Hs & Hpid & Hq). eapply inv_update; eauto.
  - intros Hi. split; [|done]. rewrite Hs.
    apply elem_of_concat_lookup in Hi as (q & l & Hql & Hi).
    destruct (mi_mem _ _ _ Hinv _ _ _ Hql Hi) as (p0 & ? & ? & _). congruence.
  - rewrite Hs. apply (mi_all _ _ _ Hinv _ _ Hp).
  - intros x Hx. destruct (mi_X _ _ _ Hinv x Hx) as (Hn & q & Hq1 & Hq2). split; [done|].
    destruct (decide (x = i)) as [->|Hne]; [|exists q; by rewrite list_lookup_insert_ne].
    exists p'. rewrite list_lookup_insert_eq by (by eapply lookup_lt_Some). simplify_eq. by rewrite Hs.
  - rewrite Hs, Hpid, Hq. intros Hu. split; [by eapply mi_fresh|]. split; [by eapply mi_level|].
    intros j pj Hne Hj Hsj E. apply Hne. by eapply (mi_pids _ _ _ Hinv).
Qed.

(** A change between states that are not RUNNABLE and not UNUSED. *)
Lemma inv_update_idle s ls X X' i p p' :
  mlfq_inv s ls X -> procs s !! i = Some p -> i ∉ concat ls ->
  (X' = X /\ X <> Some i \/ X = Some i /\ X' = None) ->
  p_state p <> UNUSED -> p_state p' <> RUNNABLE ->
  p_pid p' = p_pid p -> 0 <= p_queue p' <= 4 \/ p_state p' = UNUSED \/ p_state p' = EMBRYO ->
  mlfq_inv (set_procs (<[i := p']> (procs s)) s) ls X'.
Proof.
  intros Hinv Hp Hni HX Hsp Hs' Hpid Hq. eapply inv_update; eauto.
  - done.
  - done.
  - intros x Hx. destruct HX as [[-> _]|[-> _]]; [by right|left; congruence].
  - intros x Hx. destruct HX as [[-> Hi]|[_ ->]]; [|done].
    destruct (mi_X _ _ _ Hinv x Hx) as (Hn & q & Hq1 & Hq2). split; [done|]. exists q.
    rewrite list_lookup_insert_ne; [done|]. congruence.
  - intros Hu. rewrite Hpid. split; [by eapply mi_fresh|]. split; [naive_solver|].
    intros j pj Hne Hj Hsj E. apply Hne. by eapply (mi_pids _ _ _ Hinv).
Qed.

(** Making a process RUNNABLE, before it is queued. *)
Lemma inv_update_wake s ls i p p' :
  mlfq_inv s ls None -> procs s !! i = Some p -> p_state p <> UNUSED -> p_state p <> RUNNABLE ->
  p_state p' = RUNNABLE -> p_pid p' = p_pid p -> 0 <= p_queue p' <= 4 ->
  mlfq_inv (set_procs (<[i := p']> (procs s)) s) ls (Some i).
Proof.
  intros Hinv Hp Hu Hr Hs' Hpid Hq.
  pose proof (inv_not_queued _ _ _ Hinv _ _ Hp Hr) as Hni.
  eapply inv_update; eauto.
  - done.
  - done.
  - intros x [= <-]. split; [done|]. exists p'.
    by rewrite list_lookup_insert_eq by (by eapply lookup_lt_Some).
  - intros _. rewrite Hpid. split; [by eapply mi_fresh|]. split; [done|].
    intros j pj Hne Hj Hsj E. apply Hne. by eapply (mi_pids _ _ _ Hinv).
Qed.

(** ** Enqueue and dequeue *)
Lemma inv_enqueue s ls p pp q :
  mlfq_inv s ls (Some p) -> procs s !! p = Some pp -> p_state pp = RUNNABLE -> (q < NQ)%nat ->
  exists s' l, ls !! q = Some l /\ add_proc_to_q p (Z.of_nat q) s = Ok (1, s') /\
    mlfq_inv s' (<[q := l ++ [p]]> ls) None /\ same_globals s s' /\
    procs s' = <[p := enqueued q s pp]> (procs s).
Proof.
  intros Hinv Hp Hr Hq. destruct (inv_row _ _ _ Hinv q Hq) as [l Hl].
  pose proof (mi_X _ _ _ Hinv p eq_refl) as [Hni _].
  assert (Hpl : p ∉ l). { intros Hin. apply Hni, elem_of_concat_lookup. eauto. }
  assert (Hlt : (p < NPROC)%nat) by (rewrite <- (mi_procs _ _ _ Hinv); by eapply lookup_lt_Some).
  destruct (add_run s q l p pp) as (s' & Hrun & Hq' & Hoth & Hg & Hps & _).
  { by eapply mi_rows. }
  { by eapply inv_room. }
  { done. }
  { intros i x Hi Hx. eapply (inv_other_pid _ _ _ Hinv); [done|by rewrite Hr|done| |].
    - by eapply list_elem_of_lookup_2.
    - intros ->. apply Hpl. by eapply list_elem_of_lookup_2. }
  exists s', l. split_and!; try done.
  destruct (concat_insert ls q l (l ++ [p]) Hl) as (a & b & E1 & E2).
  assert (Hmem : forall i, i ∈ concat (<[q := l ++ [p]]> ls) <-> i ∈ concat ls \/ i = p).
  { intros i. rewrite E1, E2. rewrite !elem_of_app, list_elem_of_singleton. tauto. }
  assert (Hbase : mlfq_inv (set_procs (procs s') s) ls (Some p)).
  { rewrite Hps. apply (inv_update s ls (Some p) (Some p) p pp); try done.
    - intros _. by right.
    - intros x Hx. by right.
    - intros x [= <-]. split; [done|]. exists (enqueued q s pp).
      by rewrite list_lookup_insert_eq by (by eapply lookup_lt_Some).
    - intros _. simpl. split; [|split; [intros _; unfold NQ in Hq; lia|]].
      + eapply (mi_fresh _ _ _ Hinv); [done|by rewrite Hr].
      + intros j pj Hne Hj Hsj Ep. apply Hne. eapply (mi_pids _ _ _ Hinv); eauto. by rewrite Hr. }
  destruct Hg as (Hg1 & Hg2 & Hg3 & Hg4 & Hg5).
  destruct Hbase as [H1 H2 H3 H4 H5 H6 H7 H8 H9 H10]; simpl in *.
  split; try done.
  - by rewrite length_insert.
  - intros q' l' Hq''. destruct (decide (q' = q)) as [->|Hne].
    + rewrite list_lookup_insert_eq in Hq'' by (by eapply lookup_lt_Some). by simplify_eq.
    + rewrite list_lookup_insert_ne in Hq'' by done. apply Hoth; [done|]. by eapply mi_rows.
  - rewrite E2, <- app_assoc. rewrite E1 in H4.
    assert (Hperm : p :: a ++ l ++ b ≡ₚ a ++ l ++ [p] ++ b) by solve_Permutation.
    rewrite <- Hperm. constructor; [|done]. by rewrite <- E1.
  - intros q' l' i Hq'' Hi. destruct (decide (q' = q)) as [->|Hne].
    + rewrite list_lookup_insert_eq in Hq'' by (by eapply lookup_lt_Some). simplify_eq.
      apply elem_of_app in Hi as [Hi|Hi]; [eauto|]. apply list_elem_of_singleton in Hi as ->.
      exists (enqueued q s pp). rewrite Hps. split; [|done].
      apply list_lookup_insert_eq. by eapply lookup_lt_Some.
    + rewrite list_lookup_insert_ne in Hq'' by done. eauto.
  - intros i pi Hi Hs. left. apply Hmem. destruct (H6 i pi Hi Hs) as [|[= ->]]; auto.
  - intros i pi Hi Hs. rewrite Hg2. eauto.
Qed.

Lemma inv_dequeue s ls p q l1 l2 :
  mlfq_inv s ls None -> ls !! q = Some (l1 ++ p :: l2) ->
  exists s', remove_proc_from_q p (Z.of_nat q) s = Ok (1, s') /\
    mlfq_inv s' (<[q := l1 ++ l2]> ls) (Some p) /\ same_globals s s' /\ procs s' = procs s.
Proof.
  intros Hinv Hl.
  destruct (mi_mem _ _ _ Hinv q _ p Hl ltac:(set_solver)) as (pp & Hp & Hr & Hpq).
  destruct (concat_insert ls q _ (l1 ++ l2) Hl) as (a & b & E1 & E2).
  pose proof (mi_nodup _ _ _ Hinv) as Hnd. rewrite E1 in Hnd.
  assert (Hperm : p :: a ++ (l1 ++ l2) ++ b ≡ₚ a ++ (l1 ++ p :: l2) ++ b) by solve_Permutation.
  rewrite <- Hperm in Hnd. apply NoDup_cons in Hnd as [Hpn Hnd].
  destruct (remove_run s q l1 p l2 p pp) as (s' & Hrun & Hq' & Hoth & Hg & Hps & _).
  { by eapply mi_rows. }
  { done. }
  { by exists pp. }
  { intros y Hy. eapply (inv_other_pid _ _ _ Hinv); [done|by rewrite Hr|done|set_solver|].
    intros ->. apply Hpn. set_solver. }
  exists s'. split_and!; try done.
  assert (Hmem : forall i, i ∈ concat ls <-> i ∈ concat (<[q := l1 ++ l2]> ls) \/ i = p).
  { intros i. rewrite E2, E1, <- Hperm, elem_of_cons. tauto. }
  pose proof Hinv as [H1 H2 H3 H4 H5 H6 H7 H8 H9 H10].
  destruct Hg as (_ & Hg2 & _). split; rewrite ?Hps, ?Hg2; try done.
  - by rewrite length_insert.
  - intros q' l' Hq''. destruct (decide (q' = q)) as [->|Hne].
    + rewrite list_lookup_insert_eq in Hq'' by (by eapply lookup_lt_Some). by simplify_eq.
    + rewrite list_lookup_insert_ne in Hq'' by done. apply Hoth; auto.
  - by rewrite E2.
  - intros q' l' i Hq'' Hi. destruct (decide (q' = q)) as [->|Hne].
    + rewrite list_lookup_insert_eq in Hq'' by (by eapply lookup_lt_Some). simplify_eq.
      apply (H5 q _ i Hl). set_solver.
    + rewrite list_lookup_insert_ne in Hq'' by done. eauto.
  - intros i pi Hi Hs. destruct (H6 i pi Hi Hs) as [Hin|]; [|done].
    apply Hmem in Hin as [? | ->]; auto.
  - intros x [= <-]. rewrite E2. eauto.
Qed.

(** Removing a process that is not queued finds nothing and changes
    nothing. *)
Lemma inv_remove_absent s ls X p pp q :
  mlfq_inv s ls X -> procs s !! p = Some pp -> p_state pp <> UNUSED -> p ∉ concat ls ->
  (q < NQ)%nat -> remove_proc_from_q p (Z.of_nat q) s = Ok (-1, s).
Proof.
  intros Hinv Hp Hs Hni Hq. destruct (inv_row _ _ _ Hinv q Hq) as [l Hl].
  eapply remove_none_run; [by eapply mi_rows|done|].
  intros y Hy. eapply (inv_other_pid _ _ _ Hinv); [done..|].
  intros ->. apply Hni, elem_of_concat_lookup. eauto.
Qed.

Lemma level_nat z : 0 <= z <= 4 -> exists q, z = Z.of_nat q /\ (q < NQ)%nat.
Proof. intros H. exists (Z.to_nat z). unfold NQ. lia. Qed.

(** Freeing a slot that is not RUNNABLE. *)
Lemma inv_update_free s ls X i p p' :
  mlfq_inv s ls X -> procs s !! i = Some p -> p_state p <> RUNNABLE -> p_state p' = UNUSED ->
  mlfq_inv (set_procs (<[i := p']> (procs s)) s) ls X.
Proof.
  intros Hinv Hp Hr Hu. pose proof (inv_not_queued _ _ _ Hinv _ _ Hp Hr) as Hni.
  eapply inv_update; eauto; try done; try congruence.
  intros x Hx. destruct (mi_X _ _ _ Hinv x Hx) as (Hn & q & Hq1 & Hq2). split; [done|]. exists q.
  rewrite list_lookup_insert_ne; [done|]. congruence.
Qed.

(** The globals the invariant does not read. *)
Lemma mlfq_inv_ext s s' ls X : mlfq_inv s ls X -> procs s' = procs s -> queues s' = queues s ->
  q_tail s' = q_tail s -> nextpid s' = nextpid s -> mlfq_inv s' ls X.
Proof.
  intros [H1 H2 H3 H4 H5 H6 H7 H8 H9 H10] Ep Eq Et En. split; rewrite ?Ep, ?En; try done.
  intros q l Hq. unfold qlist. rewrite Eq, Et. by apply H3.
Qed.

(** A fresh pid for an UNUSED slot. *)
Lemma inv_alloc s ls X i p p' : mlfq_inv s ls X -> procs s !! i = Some p -> p_state p = UNUSED ->
  p_state p' = EMBRYO -> p_pid p' = nextpid s -> 0 < nextpid s ->
  mlfq_inv (set_nextpid (nextpid s + 1) (set_procs (<[i := p']> (procs s)) s)) ls X.
Proof.
  intros Hinv Hp Hu He Hpid Hpos.
  assert (Hni : i ∉ concat ls) by (eapply (inv_not_queued _ _ _ Hinv); [done|congruence]).
  assert (Hbig : mlfq_inv (set_nextpid (nextpid s + 1) s) ls X).
  { destruct Hinv as [H1 H2 H3 H4 H5 H6 H7 H8 H9 H10]. split; try done.
    intros j pj Hj Hs. simpl. destruct (H9 j pj Hj Hs). lia. }
  eapply (inv_update (set_nextpid (nextpid s + 1) s) ls X X i p p' Hbig Hp); try done; try congruence.
  - auto.
  - intros x Hx. destruct (mi_X _ _ _ Hinv x Hx) as (Hn & q & Hq1 & Hq2). split; [done|]. exists q.
    rewrite list_lookup_insert_ne; [done|]. congruence.
  - intros _. rewrite Hpid. simpl. split; [lia|]. split; [done|].
    intros j pj Hne Hj Hs. destruct (mi_fresh _ _ _ Hinv j pj Hj Hs). lia.
Qed.

(** Changing the level of the process that is RUNNABLE but not queued. *)
Lemma inv_update_level s ls i p p' : mlfq_inv s ls (Some i) -> procs s !! i = Some p ->
  p_state p' = RUNNABLE -> p_pid p' = p_pid p -> 0 <= p_queue p' <= 4 ->
  mlfq_inv (set_procs (<[i := p']> (procs s)) s) ls (Some i).
Proof.
  intros Hinv Hp Hs' Hpid Hq. destruct (mi_X _ _ _ Hinv i eq_refl) as (Hni & p0 & Hp0 & Hr). simplify_eq.
  eapply inv_update; eauto; try done.
  - intros x [= <-]. split; [done|]. exists p'.
    by rewrite list_lookup_insert_eq by (by eapply lookup_lt_Some).
  - intros _. rewrite Hpid. split; [eapply mi_fresh; [done..|congruence]|]. split; [done|].
    intros j pj Hne Hj Hsj E. apply Hne. eapply (mi_pids _ _ _ Hinv); eauto. congruence.
Qed.

(** The process that was taken off its queue starts to run. *)
Lemma inv_update_run s ls i p p' : mlfq_inv s ls (Some i) -> procs s !! i = Some p ->
  p_state p' = RUNNING -> p_pid p' = p_pid p -> p_queue p' = p_queue p ->
  mlfq_inv (set_procs (<[i := p']> (procs s)) s) ls None.
Proof.
  intros Hinv Hp Hs' Hpid Hq. destruct (mi_X _ _ _ Hinv i eq_refl) as (Hni & p0 & Hp0 & Hr).
  assert (p0 = p) as -> by congruence.
  eapply (inv_update_idle s ls (Some i) None i p p' Hinv Hp); auto; try congruence.
  left. rewrite Hq. eapply (mi_level _ _ _ Hinv); [done|congruence..].
Qed.

Lemma nodup_concat_disjoint {A} (ls : list (list A)) i j l l' x : NoDup (concat ls) ->
  ls !! i = Some l -> ls !! j = Some l' -> i <> j -> x ∈ l -> x ∈ l' -> False.
Proof.
  intros Hnd Hi Hj Hne Hx Hx'. revert i j Hi Hj Hne. induction ls as [|l0 ls IH]; intros i j Hi Hj Hne; [done|].
  simpl in Hnd. apply NoDup_app in Hnd as (_ & Hdis & Hnd).
  assert (Hin : forall k m, ls !! k = Some m -> x ∈ m -> x ∈ concat ls).
  { intros k m Hk Hm. apply elem_of_concat_lookup. eauto. }
  destruct i as [|i], j as [|j]; simplify_eq/=.
  - apply (Hdis x Hx). eauto.
  - apply (Hdis x Hx'). eauto.
  - apply (IH Hnd i j); [done..|congruence].
Qed.

(** The table at boot: zeroed memory, and the initialisers of proc.c. *)
Definition ptab0 : ptab := mkPtab (replicate NPROC zero_proc) (replicate NQ (replicate NPROC None))
  (replicate NQ (-1)) None 1 1 0 [].
