(* ===== verification/Kalloc.v ===== *)
(** * Physical pages: memlayout.h, mmu.h and kalloc.c

    The kernel sees physical memory at [KERNBASE] and up; [pmem] is that
    memory, byte by byte, at kernel virtual addresses.  The free pages are
    chained through their first words, as [struct run] does.  [kalloc] and
    [kfree] hold [kmem.lock] around their accesses once [use_lock] is set, so
    one run of either is one atomic step. *)

From stdpp Require Import prelude strings.
From S2P Require Import Prelude CString.

Open Scope Z_scope.

(** ** Layout *)
Definition PGSIZE : Z := 4096.
Definition KERNBASE : Z := 2147483648.
Definition EXTMEM : Z := 1048576.
Definition PHYSTOP : Z := 234881024.
Definition DEVSPACE : Z := 4261412864.
Definition KERNLINK : Z := KERNBASE + EXTMEM.

Definition V2P (a : Z) : Z := u32 (a - KERNBASE).
Definition P2V (a : Z) : Z := u32 (a + KERNBASE).

Definition PGROUNDDOWN (a : Z) : Z := Z.land a (Z.lnot (PGSIZE - 1)).
Definition PGROUNDUP (sz : Z) : Z := PGROUNDDOWN (u32 (sz + PGSIZE - 1)).

(** ** Words in memory, little endian *)
Definition load32 (m : mem) (a : Z) : Z :=
  m a + 256 * (m (a + 1) + 256 * (m (a + 2) + 256 * m (a + 3))).

Definition store32 (m : mem) (a v : Z) : mem := fun x =>
  if (a <=? x) && (x <? a + 4) then Z.shiftr v (8 * (x - a)) mod 256 else m x.

(** ** The allocator *)
Record kmem : Type := mkKmem {
  pmem : mem;
  freelist : Z;
  use_lock : bool;
  kout : list Z           (** what the memory code printed on the console *)
}.

Definition set_pmem (m : mem) (s : kmem) : kmem := mkKmem m (freelist s) (use_lock s) (kout s).
Definition set_freelist (r : Z) (s : kmem) : kmem := mkKmem (pmem s) r (use_lock s) (kout s).
Definition set_use_lock (b : bool) (s : kmem) : kmem := mkKmem (pmem s) (freelist s) b (kout s).

Section Kalloc.
(** [kend] is the linker's symbol [end]. *)
Context (kend : Z).

Definition kfree (v : Z) : M kmem unit :=
  if negb (v mod PGSIZE =? 0) || (v <? kend) || (PHYSTOP <=? V2P v) then panic "kfree"
  else
    modify (fun s => set_pmem (memset (pmem s) v 1 PGSIZE) s);;
    modify (fun s => set_pmem (store32 (pmem s) v (freelist s)) s);;
    modify (set_freelist v).

Definition kalloc : M kmem Z :=
  r ← gets freelist;
  (if r =? 0 then mret tt else modify (fun s => set_freelist (load32 (pmem s) r) s));;
  mret r.

(** [for(; p + PGSIZE <= vend; p += PGSIZE) kfree(p)]; [n] bounds the
    iterations. *)
Fixpoint freerange_loop (n : nat) (p vend : Z) : M kmem unit :=
  if p + PGSIZE <=? vend then
    match n with
    | O => fault
    | S n' => kfree p;; freerange_loop n' (p + PGSIZE) vend
    end
  else mret tt.

Definition freerange (vstart vend : Z) : M kmem unit :=
  freerange_loop (Z.to_nat (vend / PGSIZE)) (PGROUNDUP vstart) vend.

Definition kinit1 (vstart vend : Z) : M kmem unit :=
  modify (set_use_lock false);; freerange vstart vend.

Definition kinit2 (vstart vend : Z) : M kmem unit :=
  freerange vstart vend;; modify (set_use_lock true).
End Kalloc.

(** ** Words *)
Lemma load_store32 m a v : load32 (store32 m a v) a = u32 v.
Proof.
  unfold load32, store32. cases_Z. rewrite <- bytes_word. rewrite Z.sub_diag.
  replace (a + 1 - a) with 1 by lia. replace (a + 2 - a) with 2 by lia. by replace (a + 3 - a) with 3 by lia.
Qed.

Lemma load32_ext m m' a : (forall x, a <= x < a + 4 -> m' x = m x) -> load32 m' a = load32 m a.
Proof. intros H. unfold load32. rewrite !H by lia. done. Qed.

Lemma store32_other m a v x : x < a \/ a + 4 <= x -> store32 m a v x = m x.
Proof. intros H. unfold store32. cases_Z. Qed.

Lemma load_store32_ne m a b v : b + 4 <= a \/ a + 4 <= b -> load32 (store32 m a v) b = load32 m b.
Proof. intros H. apply load32_ext. intros x Hx. apply store32_other. lia. Qed.

(** ** Pages *)
Definition in_page (p x : Z) : Prop := p <= x < p + PGSIZE.

Definition aligned (a : Z) : Prop := a mod PGSIZE = 0.

Lemma aligned_apart p q x : aligned p -> aligned q -> in_page p x -> in_page q x -> p = q.
Proof. unfold aligned, in_page, PGSIZE. intros Hp Hq H1 H2. apply Z.mod_divide in Hp as [k ->], Hq as [j ->]; lia. Qed.

Lemma PGROUNDDOWN_spec a : PGROUNDDOWN a = a - a mod PGSIZE.
Proof.
  unfold PGROUNDDOWN. change (PGSIZE - 1) with (Z.ones 12). rewrite <- Z.ldiff_land, Z.ldiff_ones_r by lia.
  rewrite Z.shiftl_mul_pow2, Z.shiftr_div_pow2 by lia. change (2 ^ 12) with PGSIZE.
  pose proof (Z.div_mod a PGSIZE). unfold PGSIZE in *. lia.
Qed.

Lemma PGROUNDDOWN_aligned a : aligned (PGROUNDDOWN a).
Proof.
  unfold aligned. rewrite PGROUNDDOWN_spec. unfold PGSIZE. pose proof (Z.div_mod a 4096).
  replace (a - a mod 4096) with (a / 4096 * 4096) by lia. apply Z.mod_mul. lia.
Qed.

Lemma PGROUNDDOWN_id a : aligned a -> PGROUNDDOWN a = a.
Proof. unfold aligned. intros H. rewrite PGROUNDDOWN_spec, H. lia. Qed.

Lemma PGROUNDDOWN_le a : PGROUNDDOWN a <= a < PGROUNDDOWN a + PGSIZE.
Proof. rewrite PGROUNDDOWN_spec. pose proof (Z.mod_pos_bound a PGSIZE). unfold PGSIZE in *. lia. Qed.

Section Free.
Context (kend : Z) (Hkend : KERNBASE <= kend).

Definition page_ok (p : Z) : Prop := aligned p /\ kend <= p < KERNBASE + PHYSTOP.

Lemma page_ok_V2P p : page_ok p -> V2P p = p - KERNBASE.
Proof using Hkend. intros [_ H]. unfold V2P. apply u32_small. unfold KERNBASE, PHYSTOP in *. lia. Qed.

Lemma page_ok_P2V p : page_ok p -> P2V (V2P p) = p.
Proof using Hkend. intros H. rewrite page_ok_V2P by done. destruct H as [_ H]. unfold P2V. rewrite Z.sub_add. apply u32_small. unfold KERNBASE, PHYSTOP in *. lia. Qed.

(** The pages on the chain that starts at [r]. *)
Fixpoint chain (m : mem) (r : Z) (l : list Z) : Prop :=
  match l with
  | [] => r = 0
  | p :: l' => r = p /\ chain m (load32 m p) l'
  end.

Record kinv (s : kmem) (l : list Z) : Prop := {
  ki_chain : chain (pmem s) (freelist s) l;
  ki_nodup : NoDup l;
  ki_pages : Forall page_ok l
}.

Lemma chain_frame m m' r l : Forall page_ok l -> (forall p x, p ∈ l -> in_page p x -> m' x = m x) ->
  chain m r l -> chain m' r l.
Proof using Type.
  revert r. induction l as [|p l IH]; intros r Hl Hm; [done|]. intros [-> H]. split; [done|].
  rewrite (load32_ext m m') by (intros x Hx; apply (Hm p); [left|unfold in_page, PGSIZE; lia]).
  apply Forall_cons in Hl as [_ Hl]. apply IH; [done| |done]. intros q x Hq. apply Hm. by right.
Qed.

Lemma kinv_frame s s' l : kinv s l -> freelist s' = freelist s ->
  (forall p x, p ∈ l -> in_page p x -> pmem s' x = pmem s x) -> kinv s' l.
Proof using Type. intros [H1 H2 H3] E Hm. split; [|done..]. rewrite E. by eapply chain_frame. Qed.

Lemma kfree_run s l v : kinv s l -> page_ok v -> v ∉ l ->
  exists s', kfree kend v s = Ok (tt, s') /\ kinv s' (v :: l) /\ forall x, ~ in_page v x -> pmem s' x = pmem s x.
Proof using Hkend.
  intros [Hc Hn Hf] Hv Hl. unfold kfree. pose proof Hv as [Ha Hr]. unfold aligned in Ha.
  rewrite (page_ok_V2P v) by done. rewrite Ha. change (0 =? 0) with true. cbn [negb orb].
  destruct (Z.ltb_spec v kend); [lia|]. cbn [orb].
  destruct (Z.leb_spec PHYSTOP (v - KERNBASE)); [lia|]. mrun.
  eexists. split; [reflexivity|]. cbn.
  assert (Hout : forall x, ~ in_page v x ->
    store32 (memset (pmem s) v 1 PGSIZE) v (freelist s) x = pmem s x).
  { intros x Hx. unfold in_page in Hx. rewrite store32_other by (unfold PGSIZE in *; lia).
    rewrite memset_spec. cases_Z. }
  split; [|done]. split; [|by apply NoDup_cons|by apply Forall_cons].
  split; [done|]. cbn. rewrite load_store32.
  assert (Hfl : u32 (freelist s) = freelist s).
  { destruct l as [|q l]; simpl in Hc; [by rewrite Hc|]. destruct Hc as [-> _]. apply Forall_cons in Hf as [[_ Hq] _].
    apply u32_small. unfold KERNBASE, PHYSTOP in *. lia. }
  rewrite Hfl. eapply chain_frame; [done| |done]. intros p x Hp Hx. apply Hout. intros Hv'.
  rewrite Forall_forall in Hf. assert (p = v) by (eapply aligned_apart; [apply Hf; done|exact Ha|done..]). congruence.
Qed.

Lemma kalloc_run s l : kinv s l ->
  match l with
  | [] => kalloc s = Ok (0, s)
  | p :: l' => exists s', kalloc s = Ok (p, s') /\ kinv s' l' /\ pmem s' = pmem s /\ page_ok p /\ p <> 0
  end.
Proof using Hkend.
  intros [Hc Hn Hf]. unfold kalloc. destruct l as [|p l]; simpl in Hc.
  - mrun. by rewrite Hc.
  - destruct Hc as [E Hc]. apply NoDup_cons in Hn as [? ?]. apply Forall_cons in Hf as [Hp ?].
    assert (p <> 0) by (destruct Hp as [_ ?]; unfold KERNBASE in *; lia).
    mrun. rewrite E. destruct (Z.eqb_spec p 0); [done|].
    eexists. split; [reflexivity|]. split; [by split|done].
Qed.

(** What [freerange] leaves: the pages from [a] on, last one first. *)
Fixpoint freed (n : nat) (a : Z) (l : list Z) : list Z :=
  match n with
  | O => l
  | S n' => freed n' (a + PGSIZE) (a :: l)
  end.

Lemma elem_of_freed n a l x : x ∈ freed n a l <-> x ∈ l \/ exists k, 0 <= k < Z.of_nat n /\ x = a + k * PGSIZE.
Proof using Type.
  revert a l. induction n as [|n IH]; intros a l; cbn [freed].
  - split; [by left|]. intros [?|(k & ? & _)]; [done|lia].
  - rewrite IH, elem_of_cons. split.
    + intros [[->|?]|(k & Hk & ->)]; [right; exists 0|by left|right; exists (k + 1)]; lia.
    + intros [?|(k & Hk & ->)]; [by left; right|]. destruct (Z.eq_dec k 0) as [->|]; [left; left; lia|].
      right. exists (k - 1). lia.
Qed.

Lemma freerange_loop_run k n : forall a b l s, kinv s l -> aligned a -> kend <= a ->
  Z.of_nat n = (b - a) / PGSIZE -> (n <= k)%nat -> b <= KERNBASE + PHYSTOP ->
  (forall p, p ∈ l -> p < a) ->
  exists s', freerange_loop kend k a b s = Ok (tt, s') /\ kinv s' (freed n a l) /\
    (forall x, x < a \/ b <= x -> pmem s' x = pmem s x) /\ use_lock s' = use_lock s.
Proof using Hkend.
  revert k. induction n as [|n IH]; intros k a b l s Hs Ha Hk Hn Hkn Hb Hl; destruct k as [|k];
    cbn [freerange_loop]; try lia; pose proof (Z.div_mod (b - a) PGSIZE ltac:(done)) as Hd;
    pose proof (Z.mod_pos_bound (b - a) PGSIZE ltac:(done)) as Hm;
    destruct (Z.leb_spec (a + PGSIZE) b) as [Hab|Hab]; try (unfold PGSIZE in *; lia); try (by exists s).
  destruct (kfree_run s l a Hs) as (s1 & E & Hs1 & Hm1).
  { split; [done|]. unfold PGSIZE in *. lia. }
  { intros H. apply Hl in H. lia. }
  rewrite (bind_Ok _ _ _ _ _ E). destruct (IH k (a + PGSIZE) b (a :: l) s1 Hs1) as (s2 & E2 & Hs2 & Hm2 & Hu).
  - unfold aligned in *. rewrite Z.add_mod, Ha by done. done.
  - unfold PGSIZE in *. lia.
  - replace (b - (a + PGSIZE)) with (b - a + (-1) * PGSIZE) by lia. rewrite Z.div_add by done. lia.
  - lia.
  - done.
  - intros p [->|Hp]%elem_of_cons; [unfold PGSIZE; lia|]. apply Hl in Hp. unfold PGSIZE. lia.
  - exists s2. split; [done|]. split; [done|]. split.
    + intros x Hx. rewrite Hm2 by (unfold PGSIZE in *; lia). apply Hm1. unfold in_page. lia.
    + rewrite Hu. unfold kfree in E. revert E. destruct (_ || _ || _); [done|]. mrun. by intros [= <-].
Qed.
End Free.
