(* ===== verification/Vm.v ===== *)
(** * Page tables: vm.c

    Two-level page tables in physical memory.  A [pde_t*] or [pte_t*] is its
    kernel virtual address; 0 is the null pointer.  Loops that count in pages
    carry a bound on their iterations, and running out of it is a [Fault]. *)

From stdpp Require Import prelude strings.
From S2P Require Import Prelude CString Console Kalloc.

Open Scope Z_scope.

(** ** mmu.h *)
Definition PTE_P : Z := 1.
Definition PTE_W : Z := 2.
Definition PTE_U : Z := 4.
Definition NPDENTRIES : Z := 1024.

Definition PDX (va : Z) : Z := Z.land (Z.shiftr va 22) 1023.
Definition PTX (va : Z) : Z := Z.land (Z.shiftr va 12) 1023.
Definition PGADDR (d t o : Z) : Z := u32 (Z.lor (Z.lor (Z.shiftl d 22) (Z.shiftl t 12)) o).
Definition PTE_ADDR (pte : Z) : Z := Z.land pte (Z.lnot 4095).
Definition PTE_FLAGS (pte : Z) : Z := Z.land pte 4095.

Definition presentb (e : Z) : bool := negb (Z.land e PTE_P =? 0).
Definition userb (e : Z) : bool := negb (Z.land e PTE_U =? 0).
Definition writableb (e : Z) : bool := negb (Z.land e PTE_W =? 0).

(** ** Accesses *)
Definition word_at (a : Z) : M kmem Z := gets (fun s => load32 (pmem s) a).
Definition set_word (a v : Z) : M kmem unit := modify (fun s => set_pmem (store32 (pmem s) a v) s).
Definition fill (a c n : Z) : M kmem unit := modify (fun s => set_pmem (memset (pmem s) a c n) s).
Definition move (dst src n : Z) : M kmem unit :=
  modify (fun s => set_pmem (memmove (pmem s) dst src (Z.to_nat n)) s).

(** [memmove] from a buffer outside the pages of [pmem]. *)
Definition store_bytes (m : mem) (a : Z) (l : list Z) : mem := fun x =>
  if (a <=? x) && (x <? a + Z.of_nat (length l)) then nth (Z.to_nat (x - a)) l 0 else m x.
Definition put_bytes (a : Z) (l : list Z) : M kmem unit :=
  modify (fun s => set_pmem (store_bytes (pmem s) a l) s).

Definition say (fmt : string) : M kmem unit :=
  out ← deref (cprintf (cfmt fmt) []);
  modify (fun s => mkKmem (pmem s) (freelist s) (use_lock s) (kout s ++ out)).

Section Vm.
(** The linker's symbols [end] and [data]. *)
Context (kend kdata : Z).

Definition walkpgdir (pgdir va : Z) (alloc : bool) : M kmem Z :=
  let pde := pgdir + 4 * PDX va in
  e ← word_at pde;
  if presentb e then mret (P2V (PTE_ADDR e) + 4 * PTX va)
  else if negb alloc then mret 0
  else
    pgtab ← kalloc;
    if pgtab =? 0 then mret 0
    else
      fill pgtab 0 PGSIZE;;
      set_word pde (Z.lor (Z.lor (Z.lor (V2P pgtab) PTE_P) PTE_W) PTE_U);;
      mret (pgtab + 4 * PTX va).

Fixpoint map_loop (n : nat) (pgdir a last pa perm : Z) : M kmem Z :=
  pte ← walkpgdir pgdir a true;
  if pte =? 0 then mret (-1)
  else
    e ← word_at pte;
    if presentb e then panic "remap"
    else
      set_word pte (Z.lor (Z.lor pa perm) PTE_P);;
      if a =? last then mret 0
      else
        match n with
        | O => fault
        | S n' => map_loop n' pgdir (u32 (a + PGSIZE)) last (u32 (pa + PGSIZE)) perm
        end.

Definition mappages (pgdir va size pa perm : Z) : M kmem Z :=
  let a := PGROUNDDOWN va in
  let last := PGROUNDDOWN (u32 (va + size - 1)) in
  map_loop (Z.to_nat (u32 (last - a) / PGSIZE)) pgdir a last pa perm.

Fixpoint dealloc_loop (n : nat) (pgdir a oldsz : Z) : M kmem unit :=
  if a <? oldsz then
    match n with
    | O => fault
    | S n' =>
        pte ← walkpgdir pgdir a false;
        if pte =? 0 then
          dealloc_loop n' pgdir (u32 (u32 (PGADDR (PDX a + 1) 0 0 - PGSIZE) + PGSIZE)) oldsz
        else
          e ← word_at pte;
          (if presentb e then
             let pa := PTE_ADDR e in
             if pa =? 0 then panic "kfree"
             else kfree kend (P2V pa);; set_word pte 0
           else mret tt);;
          dealloc_loop n' pgdir (u32 (a + PGSIZE)) oldsz
    end
  else mret tt.

Definition deallocuvm (pgdir oldsz newsz : Z) : M kmem Z :=
  if oldsz <=? newsz then mret oldsz
  else dealloc_loop (Z.to_nat (oldsz / PGSIZE + 1)) pgdir (PGROUNDUP newsz) oldsz;; mret newsz.

Definition freevm (pgdir : Z) : M kmem unit :=
  if pgdir =? 0 then panic "freevm: no pgdir"
  else
    deallocuvm pgdir KERNBASE 0;;
    for_each (seqZ 0 NPDENTRIES) (fun i =>
      e ← word_at (pgdir + 4 * i);
      if presentb e then kfree kend (P2V (PTE_ADDR e)) else mret tt);;
    kfree kend pgdir.

(** The table [kmap\[\]]: virtual address, first and last physical address,
    permissions. *)
Definition kmap : list (Z * Z * Z * Z) :=
  [(KERNBASE, 0, EXTMEM, PTE_W);
   (KERNLINK, V2P KERNLINK, V2P kdata, 0);
   (kdata, V2P kdata, PHYSTOP, PTE_W);
   (DEVSPACE, DEVSPACE, 0, PTE_W)].

Definition setupkvm : M kmem Z :=
  pgdir ← kalloc;
  if pgdir =? 0 then mret 0
  else
    fill pgdir 0 PGSIZE;;
    if DEVSPACE <? P2V PHYSTOP then panic "PHYSTOP too high"
    else
      r ← for_until kmap (fun '(virt, phys_start, phys_end, perm) =>
        r ← mappages pgdir virt (u32 (phys_end - phys_start)) phys_start perm;
        if r <? 0 then freevm pgdir;; mret (Some 0) else mret None);
      mret (match r with Some v => v | None => pgdir end).

(** The third argument of the C function is the length of [init]. *)
Definition inituvm (pgdir : Z) (init : list Z) : M kmem unit :=
  if PGSIZE <=? Z.of_nat (length init) then panic "inituvm: more than a page"
  else
    mem ← kalloc;
    if mem =? 0 then fault
    else
      fill mem 0 PGSIZE;;
      mappages pgdir 0 PGSIZE (V2P mem) (Z.lor PTE_W PTE_U);;
      put_bytes mem init.

Fixpoint alloc_loop (n : nat) (pgdir a oldsz newsz : Z) : M kmem Z :=
  if a <? newsz then
    match n with
    | O => fault
    | S n' =>
        mem ← kalloc;
        if mem =? 0 then
          say "allocuvm out of memory\n";; deallocuvm pgdir newsz oldsz;; mret 0
        else
          fill mem 0 PGSIZE;;
          r ← mappages pgdir a PGSIZE (V2P mem) (Z.lor PTE_W PTE_U);
          if r <? 0 then
            say "allocuvm out of memory (2)\n";; deallocuvm pgdir newsz oldsz;; kfree kend mem;; mret 0
          else alloc_loop n' pgdir (u32 (a + PGSIZE)) oldsz newsz
    end
  else mret newsz.

Definition allocuvm (pgdir oldsz newsz : Z) : M kmem Z :=
  if KERNBASE <=? newsz then mret 0
  else if newsz <? oldsz then mret oldsz
  else alloc_loop (Z.to_nat (newsz / PGSIZE + 1)) pgdir (PGROUNDUP oldsz) oldsz newsz.

Definition clearpteu (pgdir uva : Z) : M kmem unit :=
  pte ← walkpgdir pgdir uva false;
  if pte =? 0 then panic "clearpteu"
  else e ← word_at pte; set_word pte (Z.land e (Z.lnot PTE_U)).

(** [copyuvm]'s loop from page [i]; [false] is [goto bad]. *)
Fixpoint copy_loop (n : nat) (pgdir d i sz : Z) : M kmem bool :=
  if i <? sz then
    match n with
    | O => fault
    | S n' =>
        pte ← walkpgdir pgdir i false;
        if pte =? 0 then panic "copyuvm: pte should exist"
        else
          e ← word_at pte;
          if negb (presentb e) then panic "copyuvm: page not present"
          else
            mem ← kalloc;
            if mem =? 0 then mret false
            else
              move mem (P2V (PTE_ADDR e)) PGSIZE;;
              r ← mappages d i PGSIZE (V2P mem) (PTE_FLAGS e);
              if r <? 0 then kfree kend mem;; mret false
              else copy_loop n' pgdir d (u32 (i + PGSIZE)) sz
    end
  else mret true.

Definition copyuvm (pgdir sz : Z) : M kmem Z :=
  d ← setupkvm;
  if d =? 0 then mret 0
  else
    ok ← copy_loop (Z.to_nat (sz / PGSIZE + 1)) pgdir d 0 sz;
    if (ok : bool) then mret d else freevm d;; mret 0.

(** The null pointer [walkpgdir] may return is dereferenced. *)
Definition uva2ka (pgdir uva : Z) : M kmem Z :=
  pte ← walkpgdir pgdir uva false;
  if pte =? 0 then fault
  else
    e ← word_at pte;
    if negb (presentb e) then mret 0
    else if negb (userb e) then mret 0
    else mret (P2V (PTE_ADDR e)).

(** [buf] is what is left of the source. *)
Fixpoint copyout_loop (n : nat) (pgdir va : Z) (buf : list Z) : M kmem Z :=
  match buf with
  | [] => mret 0
  | _ =>
      match n with
      | O => fault
      | S n' =>
          let len := Z.of_nat (length buf) in
          let va0 := PGROUNDDOWN va in
          pa0 ← uva2ka pgdir va0;
          if pa0 =? 0 then mret (-1)
          else
            let k := PGSIZE - (va - va0) in
            let k := if len <? k then len else k in
            put_bytes (pa0 + (va - va0)) (take (Z.to_nat k) buf);;
            copyout_loop n' pgdir (u32 (va0 + PGSIZE)) (drop (Z.to_nat k) buf)
      end
  end.

Definition copyout (pgdir va : Z) (buf : list Z) : M kmem Z :=
  copyout_loop (length buf) pgdir va buf.

(** A store by the kernel through the current page table: a present and
    writable page ([entry.S] sets [CR0_WP]), or a page fault. *)
Definition hw_addr (m : mem) (pgdir va : Z) : option Z :=
  let e := load32 m (pgdir + 4 * PDX va) in
  if presentb e then
    let p := load32 m (P2V (PTE_ADDR e) + 4 * PTX va) in
    if presentb p && writableb p then Some (P2V (PTE_ADDR p) + va mod PGSIZE) else None
  else None.

Definition store_user8 (pgdir va b : Z) : M kmem unit :=
  m ← gets pmem;
  a ← deref (hw_addr m pgdir va);
  modify (set_pmem (store8 m a b)).

Definition store_user (pgdir va w : Z) : M kmem unit :=
  for_each (seqZ 0 4) (fun i => store_user8 pgdir (u32 (va + i)) (Z.shiftr w (8 * i) mod 256)).
End Vm.
