(* ===== verification/VmInv.v ===== *)
(** * Page tables: the pages a page directory owns

    [owned m d] lists the pages of an address space: its directory, its page
    tables and the pages mapped below [KERNBASE].  [vinv] says that these, the
    free pages and the pages [F] held elsewhere are all different; every
    routine of vm.c moves pages between the three lists and loses none. *)

From stdpp Require Import prelude strings.
From S2P Require Import Prelude CString Console Kalloc Vm.

Open Scope Z_scope.

(** ** Lists *)
Lemma omap_step {A B} (f : A -> option B) x (l : list A) : omap f (x :: l) = option_list (f x) ++ omap f l.
Proof. cbn. by destruct (f x). Qed.

Lemma omap_change {A B} (f g : A -> option B) (l : list A) j : NoDup l -> j ∈ l ->
  (forall i, i ∈ l -> i <> j -> g i = f i) ->
  exists r, omap f l ≡ₚ option_list (f j) ++ r /\ omap g l ≡ₚ option_list (g j) ++ r.
Proof.
  intros Hn (l1 & l2 & ->)%list_elem_of_split Hg.
  apply NoDup_app in Hn as (Hn1 & Hd & Hn2). apply NoDup_cons in Hn2 as [Hj2 _].
  assert (E : forall l : list A, (forall i, i ∈ l -> g i = f i) -> omap g l = omap f l).
  { intros l. induction l as [|i l IH]; intros Hl; [done|]. rewrite !omap_step, Hl by set_solver.
    rewrite IH by set_solver. done. }
  exists (omap f l1 ++ omap f l2).
  assert (P : forall (h : A -> option B), omap h (l1 ++ j :: l2) ≡ₚ option_list (h j) ++ omap h l1 ++ omap h l2).
  { intros h. rewrite omap_app, omap_step. destruct (h j); simpl; [by rewrite Permutation_middle|done]. }
  split; [apply P|]. rewrite P, !E; [done|intros i Hi; apply Hg; set_solver..].
Qed.

Lemma concat_change {A B} (f g : A -> list B) (l : list A) j : NoDup l -> j ∈ l ->
  (forall i, i ∈ l -> i <> j -> g i = f i) ->
  exists r, concat (f <$> l) ≡ₚ f j ++ r /\ concat (g <$> l) ≡ₚ g j ++ r.
Proof.
  intros Hn [k Hk]%list_elem_of_lookup Hg. pose proof (take_drop_middle _ _ _ Hk) as El.
  exists (concat (f <$> take k l) ++ concat (f <$> drop (S k) l)).
  assert (P : forall h : A -> list B, concat (h <$> l) ≡ₚ h j ++ concat (h <$> take k l) ++ concat (h <$> drop (S k) l)).
  { intros h. rewrite <- El at 1. rewrite fmap_app, fmap_cons, concat_app. simpl.
    rewrite !(assoc_L (++)). by rewrite (Permutation_app_comm (h j)). }
  split; [apply P|]. rewrite P. rewrite <- El in Hn, Hg. apply NoDup_app in Hn as (_ & Hd & Hn). apply NoDup_cons in Hn as [Hj _].
  assert (E : forall l' : list A, (forall i, i ∈ l' -> g i = f i) -> g <$> l' = f <$> l').
  { intros l' Hl. apply list_fmap_ext. intros ? ? ?%list_elem_of_lookup_2. by apply Hl. }
  rewrite !E; [done|intros i Hi; apply Hg; set_solver..].
Qed.

Lemma concat_fmap_perm {A B} (f : A -> list B) (l l' : list A) : l ≡ₚ l' -> concat (f <$> l) ≡ₚ concat (f <$> l').
Proof.
  induction 1 as [|x l l' _ IH|x y l|l1 l2 l3 _ IH1 _ IH2]; [done|..].
  - rewrite !fmap_cons. cbn [concat]. by rewrite IH.
  - rewrite !fmap_cons. cbn [concat]. rewrite !app_assoc. by rewrite (Permutation_app_comm (f x)).
  - by rewrite IH1.
Qed.

Lemma omap_inj {A B} (f : A -> option B) (l : list A) i j x : NoDup (omap f l) -> i ∈ l -> j ∈ l ->
  f i = Some x -> f j = Some x -> i = j.
Proof.
  induction l as [|y l IH]; intros Hn Hi Hj Ei Ej; [by apply elem_of_nil in Hi|].
  assert (Hx : forall k, k ∈ l -> f k = Some x -> x ∈ omap f l) by (intros k ??; apply list_elem_of_omap; eauto).
  rewrite omap_step in Hn. apply elem_of_cons in Hi as [->|Hi], Hj as [->|Hj]; [done| | |].
  - rewrite Ei in Hn. apply NoDup_cons in Hn as [[] _]. eauto.
  - rewrite Ej in Hn. apply NoDup_cons in Hn as [[] _]. eauto.
  - destruct (f y); [apply NoDup_cons in Hn as [_ Hn]|]; by apply IH.
Qed.

(** ** Entries *)
Lemma mod_lor n a b : 0 <= n -> Z.lor a b mod 2 ^ n = Z.lor (a mod 2 ^ n) (b mod 2 ^ n).
Proof. intros Hn. rewrite <- !Z.land_ones by done. apply Z.land_lor_distr_l. Qed.

Lemma lor_bound n a b : 0 <= n -> 0 <= a < 2 ^ n -> 0 <= b < 2 ^ n -> 0 <= Z.lor a b < 2 ^ n.
Proof.
  intros Hn Ha Hb. rewrite <- (Z.mod_small a (2 ^ n)), <- (Z.mod_small b (2 ^ n)), <- mod_lor by done.
  apply Z.mod_pos_bound. lia.
Qed.

Lemma present_lor x : presentb (Z.lor x PTE_P) = true.
Proof.
  unfold presentb, PTE_P. rewrite Z.land_lor_distr_l. apply negb_true_iff, Z.eqb_neq.
  intros H. apply Z.lor_eq_0_iff in H as [_ H]. done.
Qed.

Lemma present_0 : presentb 0 = false.
Proof. done. Qed.

Lemma pte_addr_lor a f : aligned a -> 0 <= f < 4096 -> PTE_ADDR (Z.lor a f) = a.
Proof.
  intros Ha Hf. unfold PTE_ADDR. rewrite Z.land_lor_distr_l.
  change (Z.lor (PGROUNDDOWN a) (PGROUNDDOWN f) = a).
  rewrite PGROUNDDOWN_id by done. rewrite (PGROUNDDOWN_spec f), Z.mod_small by done.
  rewrite Z.sub_diag. apply Z.lor_0_r.
Qed.

Lemma aligned_u32 a : aligned a -> aligned (u32 a).
Proof.
  unfold aligned, u32, PGSIZE. intros H. apply Z.mod_divide in H as [k ->]; [|done].
  change (2 ^ 32) with (1048576 * 4096). rewrite Z.mul_mod_distr_r by done. apply Z.mod_mul. done.
Qed.

Lemma aligned_sub_KERNBASE p : aligned p -> aligned (p - KERNBASE).
Proof.
  unfold aligned, PGSIZE, KERNBASE. intros [k ->]%Z.mod_divide; [|done].
  replace (k * 4096 - 2147483648) with ((k - 524288) * 4096) by lia. apply Z.mod_mul. done.
Qed.

Lemma PDX_range va : 0 <= PDX va < 1024.
Proof. unfold PDX. change 1023 with (Z.ones 10). rewrite Z.land_ones by lia. apply Z.mod_pos_bound. done. Qed.

Lemma PTX_range va : 0 <= PTX va < 1024.
Proof. unfold PTX. change 1023 with (Z.ones 10). rewrite Z.land_ones by lia. apply Z.mod_pos_bound. done. Qed.

(** Virtual page numbers. *)
Definition vpn (va : Z) : Z := va / PGSIZE.

Lemma vpn_split va : 0 <= va < 2 ^ 32 -> vpn va = PDX va * 1024 + PTX va.
Proof.
  intros H. unfold vpn, PDX, PTX. change 1023 with (Z.ones 10).
  rewrite !Z.land_ones, !Z.shiftr_div_pow2 by lia.
  change (2 ^ 22) with (4096 * 1024). rewrite <- Z.div_div by lia. change (2 ^ 12) with 4096. change (2 ^ 10) with 1024.
  unfold PGSIZE. rewrite (Z.mod_small (va / 4096 / 1024)).
  - pose proof (Z.div_mod (va / 4096) 1024). lia.
  - split; [repeat apply Z.div_pos; lia|]. apply Z.div_lt_upper_bound; [lia|]. apply Z.div_lt_upper_bound; lia.
Qed.

Lemma vpn_eq va va' : 0 <= va < 2 ^ 32 -> 0 <= va' < 2 ^ 32 ->
  vpn va = vpn va' <-> PDX va = PDX va' /\ PTX va = PTX va'.
Proof.
  intros H H'. rewrite !vpn_split by done. pose proof (PTX_range va). pose proof (PTX_range va'). lia.
Qed.

Lemma PDX_div va : 0 <= va < 2 ^ 32 -> PDX va = va / 4194304.
Proof.
  intros H. unfold PDX. change 1023 with (Z.ones 10). rewrite Z.land_ones, Z.shiftr_div_pow2 by lia. change (2 ^ 22) with 4194304.
  apply Z.mod_small. split; [apply Z.div_pos; lia|]. apply Z.div_lt_upper_bound; lia.
Qed.

Lemma PDX_user va : 0 <= va < 2 ^ 32 -> PDX va < 512 <-> va < KERNBASE.
Proof.
  intros H. rewrite PDX_div by done. unfold KERNBASE. split; intros Hd.
  - pose proof (Z.div_mod va 4194304). pose proof (Z.mod_pos_bound va 4194304). lia.
  - apply Z.div_lt_upper_bound; lia.
Qed.

(** ** Tables *)
Definition tab (m : mem) (t i : Z) : option Z :=
  let e := load32 m (t + 4 * i) in if presentb e then Some (P2V (PTE_ADDR e)) else None.

Definition slots (m : mem) (t n : Z) : list Z := omap (tab m t) (seqZ 0 n).
#[global] Arguments slots : simpl never.
Definition upages (m : mem) (d : Z) : list Z := concat ((fun t => slots m t 1024) <$> slots m d 512).
Definition owned (m : mem) (d : Z) : list Z := d :: slots m d 1024 ++ upages m d.

(** The present page table entry for [va]. *)
Definition mapping (m : mem) (d va : Z) : option Z :=
  t ← tab m d (PDX va);
  let e := load32 m (t + 4 * PTX va) in if presentb e then Some e else None.

Definition same_page (m m' : mem) (p : Z) : Prop := forall x, in_page p x -> m' x = m x.

Lemma slots_split m d : slots m d 1024 = slots m d 512 ++ omap (tab m d) (seqZ 512 512).
Proof. unfold slots. change 1024 with (512 + 512). rewrite (seqZ_app 0 512 512) by lia. apply omap_app. Qed.

Lemma elem_of_slots m t n p : p ∈ slots m t n <-> exists i, 0 <= i < n /\ tab m t i = Some p.
Proof. unfold slots. rewrite list_elem_of_omap. setoid_rewrite elem_of_seqZ. naive_solver lia. Qed.

Lemma elem_of_upages m d p : p ∈ upages m d <->
  exists i t j, 0 <= i < 512 /\ tab m d i = Some t /\ 0 <= j < 1024 /\ tab m t j = Some p.
Proof.
  unfold upages. rewrite list_elem_of_In, in_concat. setoid_rewrite <- list_elem_of_In.
  setoid_rewrite list_elem_of_fmap. split.
  - intros (l & (t & -> & Ht) & Hp). apply elem_of_slots in Ht as (i & ? & ?), Hp as (j & ? & ?). eauto 10.
  - intros (i & t & j & ? & ? & ? & ?). exists (slots m t 1024). split; [exists t; split; [done|]|];
      apply elem_of_slots; eauto.
Qed.

Lemma slots_inj m t n i j p : NoDup (slots m t n) -> 0 <= i < n -> 0 <= j < n ->
  tab m t i = Some p -> tab m t j = Some p -> i = j.
Proof. intros Hn Hi Hj. apply (omap_inj _ _ _ _ _ Hn); apply elem_of_seqZ; lia. Qed.

Lemma entry_in_page t i : 0 <= i < 1024 -> forall x, t + 4 * i <= x < t + 4 * i + 4 -> in_page t x.
Proof. unfold in_page, PGSIZE. lia. Qed.

Lemma load_same m m' t i : same_page m m' t -> 0 <= i < 1024 -> load32 m' (t + 4 * i) = load32 m (t + 4 * i).
Proof. intros H Hi. apply load32_ext. intros x Hx. apply H. by apply (entry_in_page t i). Qed.

Lemma tab_same m m' t i : same_page m m' t -> 0 <= i < 1024 -> tab m' t i = tab m t i.
Proof. intros H Hi. unfold tab. by rewrite (load_same m m'). Qed.

Lemma slots_same m m' t n : same_page m m' t -> n <= 1024 -> slots m' t n = slots m t n.
Proof.
  intros H Hn. unfold slots. apply list_omap_ext, Forall_Forall2_diag, Forall_forall.
  intros i Hi%elem_of_seqZ. apply tab_same; [done|lia].
Qed.

Lemma upages_same m m' d : same_page m m' d -> (forall t, t ∈ slots m d 512 -> same_page m m' t) ->
  upages m' d = upages m d.
Proof.
  intros Hd Ht. unfold upages. rewrite (slots_same m m' d 512) by done. f_equal.
  apply list_fmap_ext. intros i t Hi%list_elem_of_lookup_2. apply slots_same; [by apply Ht|done].
Qed.

Lemma mapping_same m m' d va : same_page m m' d ->
  (forall t, tab m d (PDX va) = Some t -> same_page m m' t) -> mapping m' d va = mapping m d va.
Proof.
  intros Hd Ht. unfold mapping. rewrite (tab_same m m') by (done || apply PDX_range).
  destruct (tab m d (PDX va)) as [t|]; simpl; [|done]. by rewrite (load_same m m') by (by apply Ht || apply PTX_range).
Qed.

(** Storing one entry of table [t]. *)
Lemma store_entry_same m t i e p : aligned t -> aligned p -> p <> t -> 0 <= i < 1024 ->
  same_page m (store32 m (t + 4 * i) e) p.
Proof.
  intros Ht Hp Hne Hi x Hx. apply store32_other. destruct (decide (t + 4 * i <= x < t + 4 * i + 4)) as [H|]; [|lia].
  destruct Hne. eapply aligned_apart; [done..|]. by apply (entry_in_page t i).
Qed.

Lemma tab_store_other m t i e j : 0 <= i -> 0 <= j -> j <> i -> tab (store32 m (t + 4 * i) e) t j = tab m t j.
Proof. intros. unfold tab. by rewrite load_store32_ne by lia. Qed.

Lemma tab_store m t i e : tab (store32 m (t + 4 * i) e) t i = if presentb (u32 e) then Some (P2V (PTE_ADDR (u32 e))) else None.
Proof. unfold tab. by rewrite load_store32. Qed.

Lemma slots_change m m' t n i : 0 <= i < n -> (forall j, 0 <= j < n -> j <> i -> tab m' t j = tab m t j) ->
  exists r, slots m t n ≡ₚ option_list (tab m t i) ++ r /\ slots m' t n ≡ₚ option_list (tab m' t i) ++ r.
Proof.
  intros Hi H. apply omap_change; [apply NoDup_seqZ|by apply elem_of_seqZ; lia|].
  intros j ?%elem_of_seqZ ?. apply H; lia.
Qed.

Lemma slots_ext m m' t n : (forall j, 0 <= j < n -> tab m' t j = tab m t j) -> slots m' t n = slots m t n.
Proof.
  intros H. unfold slots. apply list_omap_ext, Forall_Forall2_diag, Forall_forall.
  intros j ?%elem_of_seqZ. apply H; lia.
Qed.

Lemma slots_store m t n i e : 0 <= i < n -> exists r,
  slots m t n ≡ₚ option_list (tab m t i) ++ r /\
  slots (store32 m (t + 4 * i) e) t n ≡ₚ option_list (tab (store32 m (t + 4 * i) e) t i) ++ r.
Proof.
  intros Hi. apply slots_change; [done|]. intros j ??. apply tab_store_other; lia.
Qed.

Lemma slots_store_out m t n i e : n <= i -> slots (store32 m (t + 4 * i) e) t n = slots m t n.
Proof.
  intros Hi. apply slots_ext. intros j ?. apply tab_store_other; lia.
Qed.

(** A page of zeros has no entries. *)
Lemma load_zeros m p i : 0 <= i < 1024 -> (forall x, in_page p x -> m x = 0) -> load32 m (p + 4 * i) = 0.
Proof. intros Hi H. unfold load32. rewrite !H by (unfold in_page, PGSIZE; lia). done. Qed.

Lemma slots_zeros m p n : n <= 1024 -> (forall x, in_page p x -> m x = 0) -> slots m p n = [].
Proof.
  intros Hn H. apply elem_of_nil_inv. intros q (i & Hi & E)%elem_of_slots. unfold tab in E.
  by rewrite load_zeros in E by (done || lia).
Qed.

Lemma slots_eq m t n : slots m t n = omap (tab m t) (seqZ 0 n).
Proof. done. Qed.

#[global] Opaque slots.

(** ** The invariant *)
Section VmInv.
Context (kend : Z) (Hkend : KERNBASE <= kend).
#[local] Notation page_ok := (page_ok kend).
#[local] Notation kinv := (kinv kend).

Record vinv (s : kmem) (l : list Z) (d : Z) (F : list Z) : Prop := {
  vi_free : kinv s l;
  vi_nodup : NoDup (l ++ owned (pmem s) d ++ F);
  vi_pages : Forall page_ok (owned (pmem s) d ++ F)
}.

Lemma vinv_all s l d F : vinv s l d F -> Forall page_ok (l ++ owned (pmem s) d ++ F).
Proof using Type. intros [[_ _ ?] _ ?]. by apply Forall_app. Qed.

Lemma vinv_perm s l d F s' l' d' F' : vinv s l d F -> kinv s' l' ->
  l' ++ owned (pmem s') d' ++ F' ≡ₚ l ++ owned (pmem s) d ++ F -> vinv s' l' d' F'.
Proof using Type.
  intros H Hk Hp. pose proof (vinv_all _ _ _ _ H) as Ha. split; [done|..].
  - rewrite Hp. apply H.
  - rewrite <- Hp in Ha. by apply Forall_app in Ha as [_ Ha].
Qed.

Lemma vinv_dir s l d F : vinv s l d F -> page_ok d /\ d ∉ l /\ d ∉ F /\ d ∉ slots (pmem s) d 1024 /\ d ∉ upages (pmem s) d.
Proof using Type.
  intros [_ Hn Hp]. unfold owned in *. cbn [app] in *. apply Forall_cons in Hp as [? _].
  apply NoDup_app in Hn as (_ & Hl & Hn). apply NoDup_cons in Hn as [Hd _]. split; [done|].
  split; [intros Hx; apply (Hl d Hx); left|]. rewrite !elem_of_app in Hd. tauto.
Qed.

Lemma vinv_tab s l d F i t : vinv s l d F -> 0 <= i < 1024 -> tab (pmem s) d i = Some t ->
  page_ok t /\ t <> d /\ t ∉ l /\ t ∉ F /\ t ∉ upages (pmem s) d.
Proof using Type.
  intros [_ Hn Hp] Hi Ht. assert (Hs : t ∈ slots (pmem s) d 1024) by (apply elem_of_slots; eauto).
  unfold owned in *. cbn [app] in *. apply Forall_cons in Hp as [_ Hp]. rewrite Forall_forall in Hp.
  apply NoDup_app in Hn as (_ & Hl & Hn). apply NoDup_cons in Hn as [Hd Hn].
  rewrite <- app_assoc in Hn. apply NoDup_app in Hn as (_ & Hu & _). specialize (Hu t Hs). rewrite elem_of_app in Hu.
  rewrite !elem_of_app in Hd. split; [apply Hp; rewrite !elem_of_app; auto|].
  split; [intros ->; apply Hd; auto|]. split; [|tauto].
  intros Hx. apply (Hl t Hx). rewrite elem_of_cons, !elem_of_app. auto.
Qed.

Lemma vinv_tab_inj s l d F i j t : vinv s l d F -> 0 <= i < 1024 -> 0 <= j < 1024 ->
  tab (pmem s) d i = Some t -> tab (pmem s) d j = Some t -> i = j.
Proof using Type.
  intros [_ Hn _] Hi Hj. unfold owned in Hn. apply NoDup_app in Hn as (_ & _ & Hn). cbn [app] in Hn.
  apply NoDup_cons in Hn as [_ Hn]. rewrite <- app_assoc in Hn. apply NoDup_app in Hn as (Hn & _).
  by eapply slots_inj.
Qed.

Lemma vinv_upage s l d F p : vinv s l d F -> p ∈ upages (pmem s) d ->
  page_ok p /\ p <> d /\ p ∉ l /\ p ∉ F /\ p ∉ slots (pmem s) d 1024.
Proof using Type.
  intros [_ Hn Hp] Hu. unfold owned in *. cbn [app] in *. apply Forall_cons in Hp as [_ Hp]. rewrite Forall_forall in Hp.
  apply NoDup_app in Hn as (_ & Hl & Hn). apply NoDup_cons in Hn as [Hd Hn].
  apply NoDup_app in Hn as (Hn & HF & _). apply NoDup_app in Hn as (_ & Hs & _).
  rewrite !elem_of_app in Hd. split; [apply Hp; rewrite !elem_of_app; auto|]. split; [intros ->; apply Hd; auto|].
  split; [intros Hx; apply (Hl p Hx); rewrite elem_of_cons, !elem_of_app; auto|].
  split; [apply HF; rewrite elem_of_app; auto|intros Hx; by apply (Hs p)].
Qed.

(** ** Storing a page table entry *)
Section Store.
Context (s : kmem) (l : list Z) (d : Z) (F : list Z) (va t e : Z).
Context (Hs : vinv s l d F) (Ht : tab (pmem s) d (PDX va) = Some t).
#[local] Notation m := (pmem s).
#[local] Notation m' := (store32 (pmem s) (t + 4 * PTX va) e).

Lemma pte_page : page_ok t /\ t <> d /\ t ∉ l /\ t ∉ F /\ t ∉ upages m d.
Proof using Hs Ht. eapply vinv_tab; [done|apply PDX_range|done]. Qed.

Lemma pte_same p : aligned p -> p <> t -> same_page m m' p.
Proof using Hs Ht. intros. apply store_entry_same; [apply pte_page|done..|apply PTX_range]. Qed.

Lemma pte_dir : same_page m m' d.
Proof using Hs Ht. apply pte_same; [apply (vinv_dir _ _ _ _ Hs)|]. by destruct pte_page as (_ & ? & _). Qed.

Lemma pte_tab_same i u : 0 <= i < 1024 -> tab m d i = Some u -> i <> PDX va -> same_page m m' u.
Proof using Hs Ht.
  intros Hi Hu Hne. apply pte_same; [by apply (vinv_tab _ _ _ _ _ _ Hs Hi Hu)|]. intros ->.
  apply Hne. eapply vinv_tab_inj; [done..|apply PDX_range|done|done].
Qed.

Lemma pte_upages_user : PDX va < 512 -> exists r,
  upages m d ≡ₚ option_list (tab m t (PTX va)) ++ r /\ upages m' d ≡ₚ option_list (tab m' t (PTX va)) ++ r.
Proof using Hs Ht.
  intros Hu. unfold upages. rewrite (slots_same m m' d 512 pte_dir) by done.
  pose proof (PDX_range va) as Hr.
  destruct (concat_change (fun t => slots m t 1024) (fun t => slots m' t 1024) (slots m d 512) t) as (r & H1 & H2).
  - destruct Hs as [_ Hn _]. unfold owned in Hn. apply NoDup_app in Hn as (_ & _ & Hn). cbn [app] in Hn.
    apply NoDup_cons in Hn as [_ Hn]. rewrite <- app_assoc in Hn. apply NoDup_app in Hn as (Hn & _).
    rewrite slots_split in Hn. by apply NoDup_app in Hn as (? & _).
  - apply elem_of_slots. exists (PDX va). split; [lia|done].
  - intros u (i & Hi & E)%elem_of_slots Hne. apply slots_same; [|done]. apply pte_same; [|done].
    eapply vinv_tab; [exact Hs| |exact E]. lia.
  - destruct (slots_store m t 1024 (PTX va) e (PTX_range va)) as (r' & H3 & H4).
    exists (r' ++ r). rewrite H1, H2, H3, H4, <- !app_assoc. done.
Qed.

Lemma pte_upages_kernel : 512 <= PDX va -> upages m' d = upages m d.
Proof using Hs Ht.
  intros Hk. apply upages_same; [apply pte_dir|]. intros u (i & Hi & E)%elem_of_slots.
  eapply pte_tab_same; [|done|]; lia.
Qed.

Lemma pte_mapping va' : mapping m' d va' =
  if decide (PDX va' = PDX va /\ PTX va' = PTX va) then (if presentb (u32 e) then Some (u32 e) else None) else mapping m d va'.
Proof using Hs Ht.
  unfold mapping. rewrite (tab_same m m' d (PDX va') pte_dir) by apply PDX_range.
  case_decide as Hc.
  - destruct Hc as [-> ->]. rewrite Ht. simpl. by rewrite load_store32.
  - destruct (tab m d (PDX va')) as [u|] eqn:Eu; [|done]. simpl.
    destruct (decide (PDX va' = PDX va)) as [E|E].
    + rewrite E, Ht in Eu. injection Eu as <-. rewrite load_store32_ne; [done|]. assert (PTX va' <> PTX va) by tauto. lia.
    + rewrite (load_same m m'); [done| |apply PTX_range]. eapply pte_tab_same; [apply PDX_range|done|done].
Qed.
End Store.

(** ** Walking *)
Lemma walk_present s d va t b : tab (pmem s) d (PDX va) = Some t -> walkpgdir d va b s = Ok (t + 4 * PTX va, s).
Proof using Type.
  unfold tab, walkpgdir, word_at. mrun. destruct (presentb _); [|done]. by intros [= <-].
Qed.

Lemma walk_absent s d va : tab (pmem s) d (PDX va) = None -> walkpgdir d va false s = Ok (0, s).
Proof using Type. unfold tab, walkpgdir, word_at. mrun. by destruct (presentb _). Qed.

(** The memory after a new table [p] for [va] has been entered in [d]. *)
Section NewTable.
Context (s : kmem) (p : Z) (l : list Z) (d : Z) (F : list Z) (va : Z).
Context (Hs : vinv s (p :: l) d F) (Hno : tab (pmem s) d (PDX va) = None).
#[local] Notation m := (pmem s).
#[local] Notation e := (Z.lor (Z.lor (Z.lor (V2P p) PTE_P) PTE_W) PTE_U).
#[local] Notation m' := (store32 (memset (pmem s) p 0 PGSIZE) (d + 4 * PDX va) e).

Lemma new_page : page_ok p /\ p <> d /\ p ∉ slots m d 1024 /\ p ∉ upages m d /\ p ∉ F.
Proof using Hs.
  pose proof (vinv_all _ _ _ _ Hs) as Ha. destruct Hs as [_ Hn _]. cbn [app] in *.
  apply Forall_cons in Ha as [? _]. apply NoDup_cons in Hn as [Hn _]. unfold owned in Hn.
  rewrite !elem_of_app, elem_of_cons, !elem_of_app in Hn. split; [done|]. repeat split; intuition.
Qed.

Lemma new_same q : aligned q -> q <> p -> q <> d -> same_page m m' q.
Proof using Hs.
  intros Hq Hp Hd x Hx. destruct new_page as (Hpp & _). pose proof (vinv_dir _ _ _ _ Hs) as (Hdd & _).
  rewrite (store_entry_same _ d (PDX va) e q) by (done || apply Hdd || apply PDX_range).
  rewrite memset_spec. destruct (decide (in_page p x)) as [H|H]; [|unfold in_page in H; cases_Z].
  destruct Hp. eapply aligned_apart; [done|apply Hpp|done|done].
Qed.

Lemma new_zero x : in_page p x -> m' x = 0.
Proof using Hs.
  intros Hx. destruct new_page as (Hpp & Hne & _). pose proof (vinv_dir _ _ _ _ Hs) as (Hdd & _).
  rewrite (store_entry_same _ d (PDX va) e p) by (done || apply Hdd || apply PDX_range || apply Hpp).
  rewrite memset_spec. unfold in_page in Hx. cases_Z; done.
Qed.

Lemma new_flags : e = Z.lor (V2P p) 7.
Proof using Type. by rewrite <- !Z.lor_assoc. Qed.

Lemma new_entry : u32 e = e /\ presentb e = true /\ P2V (PTE_ADDR e) = p.
Proof using Hs Hkend.
  destruct new_page as (Hpp & _). rewrite new_flags. split; [|split].
  - apply u32_small. apply (lor_bound 32); [lia| |lia]. rewrite (page_ok_V2P kend) by done.
    destruct Hpp as [_ ?]. unfold KERNBASE, PHYSTOP in *. lia.
  - change 7 with (Z.lor 6 PTE_P). rewrite Z.lor_assoc. apply present_lor.
  - rewrite pte_addr_lor; [by apply (page_ok_P2V kend)| |lia].
    rewrite (page_ok_V2P kend) by done. apply aligned_sub_KERNBASE, Hpp.
Qed.

Lemma new_tab : tab m' d (PDX va) = Some p.
Proof using Hs Hkend. rewrite tab_store. destruct new_entry as (-> & -> & ->). done. Qed.

Lemma new_tab_other i : 0 <= i < 1024 -> i <> PDX va -> tab m' d i = tab m d i.
Proof using Hs.
  intros Hi Hne. pose proof (PDX_range va). rewrite tab_store_other by lia. apply tab_same; [|done].
  intros x Hx. rewrite memset_spec. destruct new_page as (Hpp & Hpd & _). pose proof (vinv_dir _ _ _ _ Hs) as (Hdd & _).
  destruct (decide (in_page p x)) as [H'|H']; [|unfold in_page in H'; cases_Z].
  destruct Hpd. eapply aligned_apart; [apply Hpp|apply Hdd|done|done].
Qed.

Lemma new_slots n : 0 <= n <= 1024 -> slots m' d n ≡ₚ (if decide (PDX va < n) then [p] else []) ++ slots m d n.
Proof using Hs Hno Hkend.
  intros Hn. case_decide as Hc.
  - destruct (slots_change m m' d n (PDX va)) as (r & H1 & H2).
    + pose proof (PDX_range va). lia.
    + intros i ??. apply new_tab_other; lia.
    + rewrite Hno in H1. rewrite new_tab in H2. rewrite H1, H2. done.
  - rewrite (slots_ext m m'); [done|]. intros i ?. apply new_tab_other; lia.
Qed.

Lemma new_upages : upages m' d ≡ₚ upages m d.
Proof using Hs Hno Hkend.
  assert (Ht : (fun t => slots m' t 1024) <$> slots m d 512 = (fun t => slots m t 1024) <$> slots m d 512).
  { apply list_fmap_ext. intros i t (j & Hj & Et)%list_elem_of_lookup_2%elem_of_slots.
    destruct (vinv_tab _ _ _ _ j t Hs ltac:(lia) Et) as (Hp & Hd & Hl & _). apply not_elem_of_cons in Hl as [Hl _].
    apply slots_same; [|done]. apply new_same; [apply Hp|exact Hl|exact Hd]. }
  unfold upages. rewrite (concat_fmap_perm _ _ _ (new_slots 512 ltac:(lia))). rewrite fmap_app, concat_app, Ht.
  case_decide; [|apply Permutation_refl]. cbn [fmap list_fmap concat app].
  rewrite slots_zeros; [apply Permutation_refl|lia|apply new_zero].
Qed.

Lemma new_mapping va' : mapping m' d va' = mapping m d va'.
Proof using Hs Hno Hkend.
  unfold mapping. destruct (decide (PDX va' = PDX va)) as [E|E].
  - rewrite E, new_tab, Hno. simpl. rewrite load_zeros; [done|apply PTX_range|apply new_zero].
  - rewrite new_tab_other by (apply PDX_range || done). destruct (tab m d (PDX va')) as [t|] eqn:Et; [|done]. simpl.
    destruct (vinv_tab _ _ _ _ _ t Hs (PDX_range va') Et) as (Hp & Hd & Hl & _). apply not_elem_of_cons in Hl as [Hl _].
    rewrite (load_same m m'); [done| |apply PTX_range]. apply new_same; [apply Hp|exact Hl|exact Hd].
Qed.

Lemma new_owned : owned m' d ≡ₚ p :: owned m d.
Proof using Hs Hno Hkend.
  unfold owned. rewrite new_upages, (new_slots 1024) by lia.
  rewrite decide_True by (pose proof (PDX_range va); lia). simpl. apply perm_swap.
Qed.
End NewTable.

(** [walkpgdir] that may allocate: it fails only without a table and
    without free pages; otherwise no mapping changes, and no page outside
    the directory and the free pages. *)
Lemma walk_alloc s l d F va : vinv s l d F ->
  (l = [] /\ tab (pmem s) d (PDX va) = None /\ walkpgdir d va true s = Ok (0, s)) \/
  exists t l' s', walkpgdir d va true s = Ok (t + 4 * PTX va, s') /\ tab (pmem s') d (PDX va) = Some t /\
    vinv s' l' d F /\ l' ++ owned (pmem s') d ≡ₚ l ++ owned (pmem s) d /\ upages (pmem s') d ≡ₚ upages (pmem s) d /\
    (forall va', mapping (pmem s') d va' = mapping (pmem s) d va') /\
    (forall q, aligned q -> q ∉ l -> q <> d -> same_page (pmem s) (pmem s') q) /\ (forall q, q ∈ l' -> q ∈ l) /\
    (length l <= S (length l'))%nat.
Proof using Hkend.
  intros Hs. destruct (tab (pmem s) d (PDX va)) as [t|] eqn:Et.
  { right. exists t, l, s. rewrite (walk_present _ _ _ _ _ Et). split; [done|]. split; [done|]. split; [done|]. split_and!; (done || lia). }
  pose proof (kalloc_run kend Hkend s l (vi_free _ _ _ _ Hs)) as Ha.
  unfold walkpgdir, word_at. mrun. unfold tab in Et. destruct (presentb _) eqn:Ep; [done|]. cbn [negb].
  destruct l as [|p l].
  { left. rewrite Ha. done. }
  right. destruct Ha as (s1 & E1 & Hk1 & Em & Hpok & Hp0). rewrite E1.
  destruct (Z.eqb_spec p 0); [done|]. unfold fill, set_word. mrun. cbn [pmem set_pmem]. rewrite Em.
  assert (Ht : tab (pmem s) d (PDX va) = None) by (unfold tab; by rewrite Ep).
  eexists p, l, _. split; [done|]. cbn [pmem set_pmem]. split; [by apply (new_tab s p l d F)|].
  pose proof (new_owned s p l d F va Hs Ht) as Ho.
  split; [|split; [|split; [|split; [|split; [|split]]]]].
  - apply (vinv_perm s (p :: l) d F); [done| |].
    + apply (kinv_frame kend s1); [done..|]. cbn [pmem set_pmem]. rewrite Em. intros q x Hq Hx.
      refine (new_same s p l d F va Hs q _ _ _ x Hx).
      * pose proof (ki_pages _ _ _ Hk1) as Hf. rewrite Forall_forall in Hf. by apply Hf.
      * intros ->. pose proof (ki_nodup _ _ _ (vi_free _ _ _ _ Hs)) as Hn. by apply NoDup_cons in Hn as [? _].
      * intros ->. destruct (vinv_dir _ _ _ _ Hs) as (_ & Hd & _). apply Hd. by right.
    + cbn [pmem set_pmem]. rewrite Ho. cbn [app]. symmetry. apply Permutation_middle.
  - rewrite Ho. cbn [app]. symmetry. apply Permutation_middle.
  - by apply (new_upages s p l d F).
  - intros va'. by apply (new_mapping s p l d F).
  - intros q Hq Hl Hd. apply not_elem_of_cons in Hl as [Hl _]. by apply (new_same s p l d F va Hs).
  - intros q Hq. by right.
  - done.
Qed.
End VmInv.
