(* ===== verification/VmThms.v ===== *)
(** * Page tables: what the routines of vm.c do

    [mappages], [allocuvm], [deallocuvm], [freevm], [setupkvm] and [copyuvm]
    in terms of [mapping], the free pages and the pages owned. *)

From stdpp Require Import prelude strings.
From S2P Require Import Prelude CString Console Kalloc Vm VmInv.

Open Scope Z_scope.

Section VmThms.
Context (kend : Z) (Hend : KERNBASE < kend).
#[local] Notation Hkend := (Z.lt_le_incl _ _ Hend).
#[local] Notation page_ok := (page_ok kend).
#[local] Notation kinv := (kinv kend).
#[local] Notation vinv := (vinv kend).

(** A page that is neither free nor a page of the tables of [d]. *)
Definition apart (s : kmem) (l : list Z) (d q : Z) : Prop :=
  aligned q /\ q ∉ l /\ q <> d /\ q ∉ slots (pmem s) d 1024.

(** ** One entry *)
Lemma entry_facts pa perm : aligned pa -> 0 <= pa < 2 ^ 32 -> 0 <= perm < 4096 ->
  let e := Z.lor (Z.lor pa perm) PTE_P in
  u32 e = e /\ presentb e = true /\ PTE_ADDR e = pa.
Proof using Type.
  intros Ha Hp Hf. simpl. split; [|split].
  - apply u32_small. apply (lor_bound 32); [lia|apply (lor_bound 32); lia|unfold PTE_P; lia].
  - apply present_lor.
  - rewrite <- Z.lor_assoc. apply pte_addr_lor; [done|]. apply (lor_bound 12); unfold PTE_P; lia.
Qed.

Lemma map_step s l d F va pa perm : vinv s l d F -> mapping (pmem s) d va = None ->
  aligned pa -> 0 <= pa < 2 ^ 32 -> 0 <= perm < 4096 ->
  (l = [] /\ walkpgdir d va true s = Ok (0, s)) \/
  exists a l' s1, walkpgdir d va true s = Ok (a, s1) /\ a <> 0 /\ presentb (load32 (pmem s1) a) = false /\
    let e := Z.lor (Z.lor pa perm) PTE_P in
    let s2 := set_pmem (store32 (pmem s1) a e) s1 in
    kinv s2 l' /\
    l' ++ owned (pmem s2) d ≡ₚ (if decide (PDX va < 512) then [P2V pa] else []) ++ l ++ owned (pmem s) d /\
    (forall va', mapping (pmem s2) d va' =
      if decide (PDX va' = PDX va /\ PTX va' = PTX va) then Some e else mapping (pmem s) d va') /\
    (forall q, apart s l d q -> same_page (pmem s) (pmem s2) q /\ apart s2 l' d q) /\ (forall q, q ∈ l' -> q ∈ l) /\
    (length l <= S (length l'))%nat.
Proof using Hend.
  intros Hs Hm Ha Hpa Hf. destruct (walk_alloc kend Hkend s l d F va Hs) as [(-> & Et & E)|(t & l' & s1 & E & Et & Hs1 & Ho & Hu & Hm1 & Hq & Hll & Hlen)];
    [by left|right]. exists (t + 4 * PTX va), l', s1. split; [done|].
  destruct (entry_facts pa perm Ha Hpa Hf) as (Eu & Ep & Ea). set (e := Z.lor (Z.lor pa perm) PTE_P) in *. simpl in Eu, Ep, Ea.
  destruct (pte_page kend s1 l' d F va t Hs1 Et) as (Htp & Htd & Htl & HtF & Htu).
  assert (Hno : presentb (load32 (pmem s1) (t + 4 * PTX va)) = false).
  { specialize (Hm1 va). rewrite Hm in Hm1. unfold mapping in Hm1. rewrite Et in Hm1. simpl in Hm1. by destruct (presentb _). }
  split; [destruct Htp as [_ ?]; pose proof (PTX_range va); unfold KERNBASE in *; lia|]. split; [done|].
  assert (Hall : forall q, apart s l d q -> q ∉ l' /\ q ∉ slots (pmem s1) d 1024).
  { intros q (Hqa & Hql & Hqd & Hqs). assert (Hx : q ∈ l' ++ owned (pmem s1) d -> q ∈ upages (pmem s) d).
    { rewrite Ho. unfold owned. rewrite !elem_of_app, elem_of_cons, elem_of_app. tauto. }
    unfold owned in Hx. rewrite <- Hu in Hx. split; intros Hin.
    - pose proof (vi_nodup _ _ _ _ _ Hs1) as Hn. apply NoDup_app in Hn as (_ & Hn & _). apply (Hn q Hin).
      unfold owned. rewrite elem_of_app, elem_of_cons, elem_of_app. left. right. right. apply Hx.
      rewrite elem_of_app. by left.
    - eapply (vinv_upage kend s1 l' d F q Hs1); [|exact Hin]. apply Hx.
      rewrite elem_of_app, elem_of_cons, elem_of_app. right. right. by left. }
  intros e' s2. cbn [pmem set_pmem]. change e' with e in *. split; [|split; [|split; [|split; [|split; [done|lia]]]]].
  - apply (kinv_frame kend s1); [apply Hs1|done|]. intros p x Hp. cbn [pmem set_pmem].
    pose proof (ki_pages _ _ _ (vi_free _ _ _ _ _ Hs1)) as Hpl. rewrite Forall_forall in Hpl.
    apply (pte_same kend s1 l' d F va t e Hs1 Et); [by apply Hpl|congruence].
  - case_decide as Hud.
    + destruct (pte_upages_user kend s1 l' d F va t e Hs1 Et Hud) as (r & H1 & H2).
      assert (E1 : tab (pmem s1) t (PTX va) = None) by (unfold tab; by rewrite Hno).
      rewrite E1 in H1. rewrite tab_store, Eu, Ep, Ea in H2. cbn [option_list app] in H1, H2.
      unfold s2, owned. cbn [pmem set_pmem]. rewrite H2, <- H1, (slots_same _ _ _ _ (pte_dir kend s1 l' d F va t e Hs1 Et)) by lia.
      cbn [app]. etransitivity; [|apply perm_skip; exact Ho]. unfold owned. solve_Permutation.
    + unfold s2, owned. cbn [pmem set_pmem].
      rewrite (pte_upages_kernel kend s1 l' d F va t e Hs1 Et), (slots_same _ _ _ _ (pte_dir kend s1 l' d F va t e Hs1 Et)) by lia.
      cbn [app]. exact Ho.
  - intros va'. unfold s2. cbn [pmem set_pmem]. rewrite (pte_mapping kend s1 l' d F va t e Hs1 Et), Eu, Ep.
    by rewrite Hm1.
  - intros q Hap. destruct (Hall q Hap) as [Hl' Hsl]. destruct Hap as (Hqa & Hql & Hqd & _). split.
    2: { unfold apart, s2. cbn [pmem set_pmem]. by rewrite (slots_same _ _ _ _ (pte_dir kend s1 l' d F va t e Hs1 Et)) by lia. }
    intros x Hx. unfold s2. cbn [pmem set_pmem]. rewrite (pte_same kend s1 l' d F va t e Hs1 Et q); [exact (Hq q Hqa Hql Hqd x Hx)|done| |done].
    intros ->. apply Hsl, elem_of_slots. exists (PDX va). split; [apply PDX_range|done].
Qed.

(** ** mappages on one page of user memory *)
Lemma mappages_one s d va pa perm : aligned va -> 0 <= va < 2 ^ 32 ->
  mappages d va PGSIZE pa perm s = map_loop 0 d va va pa perm s.
Proof using Type.
  intros Ha Hr. unfold mappages. cbv zeta. rewrite (PGROUNDDOWN_id va) by done.
  assert (E : PGROUNDDOWN (u32 (va + PGSIZE - 1)) = va).
  { rewrite PGROUNDDOWN_spec. unfold aligned, PGSIZE in *. pose proof (Z.div_mod va 4096) as Hd.
    rewrite u32_small.
    - replace (va + 4096 - 1) with (4095 + va / 4096 * 4096) by lia. rewrite Z.mod_add by done.
      change (4095 mod 4096) with 4095. lia.
    - change (2 ^ 32) with (1048576 * 4096) in *. assert (va / 4096 < 1048576) by (apply Z.div_lt_upper_bound; lia). lia. }
  rewrite E, Z.sub_diag. done.
Qed.

Lemma map_page s l d v F va perm : vinv s l d (v :: F) -> aligned va -> 0 <= va < KERNBASE ->
  mapping (pmem s) d va = None -> 0 <= perm < 4096 ->
  (l = [] /\ mappages d va PGSIZE (V2P v) perm s = Ok (-1, s)) \/
  exists l' s', mappages d va PGSIZE (V2P v) perm s = Ok (0, s') /\ vinv s' l' d F /\
    l' ++ owned (pmem s') d ≡ₚ v :: l ++ owned (pmem s) d /\
    (forall va', mapping (pmem s') d va' =
      if decide (PDX va' = PDX va /\ PTX va' = PTX va) then Some (Z.lor (Z.lor (V2P v) perm) PTE_P)
      else mapping (pmem s) d va') /\
    (forall q, apart s l d q -> same_page (pmem s) (pmem s') q /\ apart s' l' d q) /\ (forall q, q ∈ l' -> q ∈ l) /\
    (length l <= S (length l'))%nat.
Proof using Hend.
  intros Hs Ha Hva Hm Hp. rewrite mappages_one by (done || unfold KERNBASE in *; lia). cbn [map_loop].
  assert (Hv : page_ok v).
  { pose proof (vinv_all _ _ _ _ _ Hs) as Hf. rewrite Forall_forall in Hf. apply Hf. rewrite !elem_of_app, elem_of_cons. auto. }
  destruct (map_step s l d (v :: F) va (V2P v) perm Hs Hm) as [(-> & E)|(a & l' & s1 & E & Ha0 & Hno & Hk & Ho & Hm2 & Hq1 & Hq2)].
  { rewrite (page_ok_V2P kend) by (done || apply Hkend). apply aligned_sub_KERNBASE, Hv. }
  { rewrite (page_ok_V2P kend) by (done || apply Hkend). destruct Hv as [_ ?]. unfold KERNBASE, PHYSTOP in *. lia. }
  { done. }
  { left. split; [done|]. rewrite (bind_Ok _ _ _ _ _ E). done. }
  right. rewrite (bind_Ok _ _ _ _ _ E). destruct (Z.eqb_spec a 0); [done|]. unfold word_at, set_word. mrun.
  rewrite Hno, Z.eqb_refl. rewrite decide_True in Ho by (apply PDX_user; unfold KERNBASE in *; lia).
  rewrite (page_ok_P2V kend) in Ho by (done || apply Hkend). cbn [app] in Ho.
  eexists l', _. split; [reflexivity|]. split; [|done].
  apply (vinv_perm kend s l d (v :: F)); [done..|]. rewrite app_assoc, Ho. solve_Permutation.
Qed.

(** ** deallocuvm *)
Lemma PGADDR_next a : 0 <= a < KERNBASE -> u32 (u32 (PGADDR (PDX a + 1) 0 0 - PGSIZE) + PGSIZE) = (PDX a + 1) * 4194304.
Proof using Type.
  intros Ha. pose proof (PDX_range a). assert (PDX a < 512) by (apply PDX_user; unfold KERNBASE in *; lia).
  unfold PGADDR. rewrite Z.shiftl_0_l, !Z.lor_0_r, Z.shiftl_mul_pow2 by lia. change (2 ^ 22) with 4194304.
  unfold PGSIZE. rewrite (u32_small ((PDX a + 1) * 4194304)) by lia.
  rewrite (u32_small ((PDX a + 1) * 4194304 - 4096)) by lia. rewrite u32_small by lia. lia.
Qed.

(** No page is mapped between [a] and the end of its absent table. *)
Lemma absent_unmapped m d a va : 0 <= a < KERNBASE -> tab m d (PDX a) = None -> a <= va < (PDX a + 1) * 4194304 ->
  mapping m d va = None.
Proof using Type.
  intros Ha Ht Hva. assert (E : PDX va = PDX a).
  { rewrite (PDX_div a) in Hva by (unfold KERNBASE in *; lia).
    assert (a / 4194304 < 512) by (apply Z.div_lt_upper_bound; unfold KERNBASE in *; lia).
    rewrite !PDX_div by (unfold KERNBASE in *; lia). pose proof (Z.div_mod a 4194304). pose proof (Z.mod_pos_bound a 4194304).
    symmetry. apply (Z.div_unique _ _ _ (va - a / 4194304 * 4194304)); lia. }
  unfold mapping. by rewrite E, Ht.
Qed.

Section Unmap.
Context (s : kmem) (l : list Z) (d : Z) (F : list Z) (va t e : Z).
Context (Hs : vinv s l d F) (Hva : 0 <= va < KERNBASE) (Ht : tab (pmem s) d (PDX va) = Some t).
Context (He : load32 (pmem s) (t + 4 * PTX va) = e) (Hp : presentb e = true).
#[local] Notation v := (P2V (PTE_ADDR e)).

Lemma unmap_upage : v ∈ upages (pmem s) d.
Proof using Hva Ht He Hp.
  apply elem_of_upages. exists (PDX va), t, (PTX va). split.
  { split; [apply PDX_range|]. apply PDX_user; unfold KERNBASE in *; lia. }
  split; [done|]. split; [apply PTX_range|]. unfold tab. by rewrite He, Hp.
Qed.

Lemma unmap_page : page_ok v /\ v <> d /\ v ∉ l /\ v ∉ F /\ v ∉ slots (pmem s) d 1024 /\ v <> t /\ PTE_ADDR e <> 0.
Proof using Hs Hva Ht He Hp Hend.
  destruct (vinv_upage kend s l d F v Hs unmap_upage) as (Hv & ? & ? & ? & Hsl). split; [done|].
  split_and!; try done.
  - intros E. apply Hsl. rewrite E. apply elem_of_slots. exists (PDX va). split; [apply PDX_range|done].
  - intros E. rewrite E in Hv. destruct Hv as [_ Hv]. change (P2V 0) with KERNBASE in Hv. lia.
Qed.

(** The entry cleared in a memory that differs on the freed page only. *)
Lemma unmap_mem m1 : (forall x, ~ in_page v x -> m1 x = pmem s x) ->
  let m2 := store32 m1 (t + 4 * PTX va) 0 in
  owned (pmem s) d ≡ₚ v :: owned m2 d /\ slots m2 d 1024 = slots (pmem s) d 1024 /\
  (forall va', mapping m2 d va' = if decide (PDX va' = PDX va /\ PTX va' = PTX va) then None else mapping (pmem s) d va') /\
  (forall q, aligned q -> q ∉ slots (pmem s) d 1024 -> q <> v -> same_page (pmem s) m2 q).
Proof using Hs Hva Ht He Hp Hend.
  intros Hm1 m2. destruct unmap_page as (Hv & Hvd & Hvl & HvF & Hvs & Hvt & _).
  set (mt := store32 (pmem s) (t + 4 * PTX va) 0).
  assert (Hsame : forall q, aligned q -> q <> v -> same_page mt m2 q).
  { intros q Hq Hqv x Hx. unfold m2, mt, store32. destruct (_ && _); [done|]. apply Hm1. intros Hxv. apply Hqv.
    eapply aligned_apart; [done|apply Hv|done|done]. }
  assert (Hdir : same_page mt m2 d) by (apply Hsame; [apply (vinv_dir _ _ _ _ _ Hs)|done]).
  assert (Htab : forall i u, 0 <= i < 1024 -> tab (pmem s) d i = Some u -> same_page mt m2 u).
  { intros i u Hi Hu. apply Hsame; [by apply (vinv_tab _ _ _ _ _ _ _ Hs Hi Hu)|]. intros ->. apply Hvs, elem_of_slots. eauto. }
  assert (Hd0 : same_page (pmem s) mt d) by exact (pte_dir kend s l d F va t 0 Hs Ht).
  assert (Esl : forall n, n <= 1024 -> slots m2 d n = slots (pmem s) d n).
  { intros n Hn. rewrite (slots_same mt m2), (slots_same (pmem s) mt) by done. done. }
  split; [|split; [by apply Esl|split]].
  - destruct (pte_upages_user kend s l d F va t 0 Hs Ht) as (r & H1 & H2); [apply PDX_user; unfold KERNBASE in *; lia|].
    fold mt in H2. assert (E1 : tab (pmem s) t (PTX va) = Some v) by (unfold tab; by rewrite He, Hp).
    assert (E2 : tab mt t (PTX va) = None) by (unfold mt; by rewrite tab_store).
    rewrite E1 in H1. rewrite E2 in H2. cbn [option_list app] in H1, H2.
    assert (Eu : upages m2 d = upages mt d).
    { apply upages_same; [done|]. rewrite (slots_same (pmem s) mt) by done. intros u (i & Hi & Ei)%elem_of_slots.
      apply (Htab i); [lia|done]. }
    unfold owned. rewrite (Esl 1024), Eu, H1, H2 by done. solve_Permutation.
  - intros va'. assert (Emt : mapping mt d va' = if decide (PDX va' = PDX va /\ PTX va' = PTX va) then None else mapping (pmem s) d va').
    { unfold mt. rewrite (pte_mapping kend s l d F va t 0 Hs Ht). done. }
    rewrite <- Emt. apply mapping_same; [done|]. intros u Hu. rewrite (tab_same (pmem s) mt) in Hu by (done || apply PDX_range).
    eapply Htab; [apply PDX_range|done].
  - intros q Hq Hqs Hqv x Hx. rewrite (Hsame q Hq Hqv x Hx). refine (pte_same kend s l d F va t 0 Hs Ht q Hq _ x Hx).
    intros ->. apply Hqs, elem_of_slots. exists (PDX va). split; [apply PDX_range|done].
Qed.

Lemma unmap_step : exists s1, kfree kend v s = Ok (tt, s1) /\
  let s2 := set_pmem (store32 (pmem s1) (t + 4 * PTX va) 0) s1 in
  vinv s2 (v :: l) d F /\ (v :: l) ++ owned (pmem s2) d ≡ₚ l ++ owned (pmem s) d /\
  slots (pmem s2) d 1024 = slots (pmem s) d 1024 /\
  (forall va', mapping (pmem s2) d va' = if decide (PDX va' = PDX va /\ PTX va' = PTX va) then None else mapping (pmem s) d va') /\
  (forall q, aligned q -> q ∉ slots (pmem s) d 1024 -> q <> v -> same_page (pmem s) (pmem s2) q).
Proof using Hs Hva Ht He Hp Hend.
  destruct unmap_page as (Hv & Hvd & Hvl & HvF & Hvs & Hvt & _).
  destruct (kfree_run kend Hkend s l v (vi_free _ _ _ _ _ Hs) Hv Hvl) as (s1 & E & Hk & Hm1).
  exists s1. split; [done|]. intros s2. destruct (unmap_mem (pmem s1) Hm1) as (Ho & Hsl & Hm & Hq).
  assert (Hc : (v :: l) ++ owned (pmem s2) d ≡ₚ l ++ owned (pmem s) d) by (rewrite Ho; unfold s2; cbn [pmem set_pmem]; solve_Permutation).
  split; [|done]. apply (vinv_perm kend s l d F); [done| |by rewrite app_assoc, Hc, app_assoc].
  apply (kinv_frame kend s1); [done..|]. intros p x Hpl Hx. unfold s2. cbn [pmem set_pmem].
  pose proof (ki_pages _ _ _ Hk) as Hpp. rewrite Forall_forall in Hpp.
  destruct (pte_page kend s l d F va t Hs Ht) as (Htp & _ & Htl & _).
  refine (store_entry_same _ t (PTX va) 0 p _ _ _ _ x Hx); [apply Htp|apply Hpp, Hpl| |apply PTX_range].
  intros ->. apply elem_of_cons in Hpl as [?|?]; [congruence|done].
Qed.
End Unmap.

Lemma same_vpage va va' : aligned va -> 0 <= va < 2 ^ 32 -> 0 <= va' < 2 ^ 32 ->
  (PDX va' = PDX va /\ PTX va' = PTX va) <-> va <= va' < va + PGSIZE.
Proof using Type.
  intros Ha Hr Hr'. rewrite <- vpn_eq by done. unfold vpn, aligned, PGSIZE in *.
  pose proof (Z.div_mod va 4096). pose proof (Z.div_mod va' 4096). pose proof (Z.mod_pos_bound va' 4096). split; [lia|].
  intros Hx. symmetry. apply (Z.div_unique _ _ _ (va' - va)); lia.
Qed.

Lemma rounddown_below va a : aligned a -> PGROUNDDOWN va < a <-> va < a.
Proof using Type.
  intros Ha. pose proof (PGROUNDDOWN_le va) as Hle. pose proof (PGROUNDDOWN_aligned va) as Hal.
  unfold aligned, PGSIZE in *. apply Z.mod_divide in Ha as [k ->]; [|done]. apply Z.mod_divide in Hal as [j Hj]; [|done]. lia.
Qed.

Lemma rounddown_in va a : aligned a -> a <= va < a + PGSIZE -> PGROUNDDOWN va = a.
Proof using Type.
  intros Ha H. rewrite PGROUNDDOWN_spec. unfold aligned, PGSIZE in *. apply Z.mod_divide in Ha as [k ->]; [|done].
  rewrite <- (Z.mod_unique va 4096 k (va - k * 4096)); lia.
Qed.

Lemma aligned_next a : aligned a -> aligned (a + PGSIZE).
Proof using Type. unfold aligned. intros H. rewrite Z.add_mod, H by done. done. Qed.

(** What [dealloc_loop] does to the pages from [a] up to [b]. *)
Definition dealloc_post (s : kmem) (l : list Z) (d : Z) (F : list Z) (a b : Z) (s' : kmem) (l' : list Z) : Prop :=
  vinv s' l' d F /\ l' ++ owned (pmem s') d ≡ₚ l ++ owned (pmem s) d /\
  slots (pmem s') d 1024 = slots (pmem s) d 1024 /\
  (forall va, 0 <= va < 2 ^ 32 -> mapping (pmem s') d va =
    if decide (a <= va /\ PGROUNDDOWN va < b) then None else mapping (pmem s) d va) /\
  (forall q, aligned q -> q ∉ slots (pmem s) d 1024 -> q ∉ l' -> same_page (pmem s) (pmem s') q) /\
  (forall p, p ∈ l -> p ∈ l').

Lemma dealloc_post_skip s l d F a a' b s' l' : a <= a' ->
  (forall va, a <= va < a' -> PGROUNDDOWN va < b -> mapping (pmem s) d va = None) ->
  dealloc_post s l d F a' b s' l' -> dealloc_post s l d F a b s' l'.
Proof using Type.
  intros Ha Hn (H1 & H2 & H3 & H4 & H5). split; [done|]. split; [done|]. split; [done|]. split; [|done].
  intros va Hva. rewrite H4 by done. repeat case_decide; try done; try lia. apply Hn; lia.
Qed.

Lemma dealloc_run n : forall s l d F a b, vinv s l d F -> aligned a -> 0 <= a -> b <= KERNBASE ->
  b - a <= Z.of_nat n * PGSIZE ->
  exists s' l', dealloc_loop kend n d a b s = Ok (tt, s') /\ dealloc_post s l d F a b s' l'.
Proof using Hend.
  induction n as [|n IH]; intros s l d F a b Hs Ha H0 Hb Hn; cbn [dealloc_loop];
    (destruct (Z.ltb_spec a b) as [Hlt|Hge]; [try lia|
     exists s, l; split; [done|]; split_and!; try done; intros va Hva; case_decide; [|done];
     pose proof (PGROUNDDOWN_le va); assert (a <= PGROUNDDOWN va) by (destruct (rounddown_below va a Ha); lia); lia]).
  assert (Har : 0 <= a < 2 ^ 32) by (unfold KERNBASE in *; lia).
  destruct (tab (pmem s) d (PDX a)) as [t|] eqn:Et.
  - rewrite (bind_Ok _ _ _ _ _ (walk_present s d a t false Et)). pose proof (PTX_range a).
    destruct (pte_page kend s l d F a t Hs Et) as ((Hta & Htr) & _).
    destruct (Z.eqb_spec (t + 4 * PTX a) 0); [unfold KERNBASE in *; lia|]. unfold word_at. mrun.
    rewrite (u32_small (a + PGSIZE)) by (unfold PGSIZE, KERNBASE in *; lia).
    assert (Hnext : b - (a + PGSIZE) <= Z.of_nat n * PGSIZE) by (unfold PGSIZE in *; lia).
    destruct (presentb (load32 (pmem s) (t + 4 * PTX a))) eqn:Ep.
    + destruct (unmap_page s l d F a t _ Hs ltac:(lia) Et eq_refl Ep) as (_ & _ & _ & _ & _ & _ & Hnz).
      destruct (Z.eqb_spec (PTE_ADDR (load32 (pmem s) (t + 4 * PTX a))) 0); [done|].
      destruct (unmap_step s l d F a t _ Hs ltac:(lia) Et eq_refl Ep) as (s1 & E1 & Hs2 & Ho & Hsl & Hm & Hq).
      rewrite E1. unfold set_word. mrun. cbn [pmem] in *.
      destruct (IH _ _ d F (a + PGSIZE) b Hs2 (aligned_next _ Ha) ltac:(unfold PGSIZE; lia) Hb Hnext) as (s3 & l3 & E3 & H3).
      exists s3, l3. split; [exact E3|]. destruct H3 as (Hv3 & Ho3 & Hsl3 & Hm3 & Hq3 & Hl3).
      split; [done|]. split; [by rewrite Ho3|]. split; [by rewrite Hsl3|]. split; [|split].
      * intros va Hva. rewrite Hm3, Hm by done. pose proof (same_vpage a va Ha Har Hva) as Hsv.
        pose proof (rounddown_in va a Ha). pose proof (PGROUNDDOWN_le va).
        repeat case_decide; try done; exfalso; lia.
      * intros q Hqa Hqs Hql x Hx. rewrite (Hq3 q Hqa) by (rewrite ?Hsl; done). apply (Hq q Hqa Hqs); [|done].
        intros ->. apply Hql, Hl3. by left.
      * intros p Hp. apply Hl3. by right.
    + destruct (IH s l d F (a + PGSIZE) b Hs (aligned_next _ Ha) ltac:(unfold PGSIZE; lia) Hb Hnext) as (s3 & l3 & E3 & H3).
      exists s3, l3. split; [exact E3|]. apply (dealloc_post_skip _ _ _ _ _ (a + PGSIZE)); [unfold PGSIZE; lia| |done].
      intros va Hva _. assert (Hvr : 0 <= va < 2 ^ 32) by (unfold PGSIZE, KERNBASE in *; lia).
      apply (same_vpage a va Ha Har Hvr) in Hva as [E1 E2]. unfold mapping. rewrite E1, E2, Et. simpl. by rewrite Ep.
  - rewrite (bind_Ok _ _ _ _ _ (walk_absent s d a Et)). cbn [Z.eqb]. rewrite PGADDR_next by lia.
    pose proof (PDX_div a Har) as Ed. pose proof (Z.div_mod a 4194304) as Hdm. pose proof (Z.mod_pos_bound a 4194304) as Hmb.
    assert (Hal : aligned ((PDX a + 1) * 4194304)).
    { unfold aligned, PGSIZE. replace ((PDX a + 1) * 4194304) with ((PDX a + 1) * 1024 * 4096) by lia. by apply Z.mod_mul. }
    assert (Hge : a + PGSIZE <= (PDX a + 1) * 4194304).
    { unfold aligned, PGSIZE in *. apply Z.mod_divide in Ha as [k Hk]; [|done]. lia. }
    destruct (IH s l d F ((PDX a + 1) * 4194304) b Hs Hal ltac:(unfold PGSIZE in *; lia) Hb ltac:(unfold PGSIZE in *; lia)) as (s3 & l3 & E3 & H3).
    exists s3, l3. split; [exact E3|]. apply (dealloc_post_skip _ _ _ _ _ ((PDX a + 1) * 4194304)); [unfold PGSIZE in *; lia| |done].
    intros va Hva _. apply (absent_unmapped _ _ a); [lia|done|done].
Qed.

Lemma PGROUNDUP_spec sz : 0 <= sz <= KERNBASE -> aligned (PGROUNDUP sz) /\ sz <= PGROUNDUP sz < sz + PGSIZE.
Proof using Type.
  intros H. unfold PGROUNDUP. split; [apply PGROUNDDOWN_aligned|].
  rewrite u32_small by (unfold PGSIZE, KERNBASE in *; lia). pose proof (PGROUNDDOWN_le (sz + PGSIZE - 1)). lia.
Qed.

Lemma deallocuvm_run s l d F oldsz newsz : vinv s l d F -> 0 <= newsz <= oldsz -> oldsz <= KERNBASE ->
  exists s' l', deallocuvm kend d oldsz newsz s = Ok (newsz, s') /\ dealloc_post s l d F (PGROUNDUP newsz) oldsz s' l'.
Proof using Hend.
  intros Hs Hn Hk. destruct (PGROUNDUP_spec newsz) as [Hal Hb]; [lia|].
  unfold deallocuvm. destruct (Z.leb_spec oldsz newsz) as [Hle|Hlt].
  - assert (oldsz = newsz) as -> by lia. exists s, l. split; [done|]. split_and!; try done.
    intros va Hva. case_decide as Hc; [|done]. pose proof (rounddown_below va _ Hal). lia.
  - destruct (dealloc_run (Z.to_nat (oldsz / PGSIZE + 1)) s l d F (PGROUNDUP newsz) oldsz Hs Hal) as (s' & l' & E & H); [lia|done| |].
    + pose proof (Z.div_mod oldsz PGSIZE ltac:(done)). pose proof (Z.mod_pos_bound oldsz PGSIZE ltac:(done)).
      assert (0 <= oldsz / PGSIZE) by (apply Z.div_pos; unfold PGSIZE; lia). unfold PGSIZE in *. lia.
    + exists s', l'. rewrite (bind_Ok _ _ _ _ _ E). done.
Qed.

(** ** Writing to pages held elsewhere *)
Lemma vinv_write s s' l d F : vinv s l d F -> freelist s' = freelist s ->
  (forall x, (forall p, p ∈ F -> ~ in_page p x) -> pmem s' x = pmem s x) ->
  vinv s' l d F /\ owned (pmem s') d = owned (pmem s) d /\ slots (pmem s') d 1024 = slots (pmem s) d 1024 /\
  upages (pmem s') d = upages (pmem s) d /\ (forall va, mapping (pmem s') d va = mapping (pmem s) d va) /\
  (forall q, page_ok q -> q ∉ F -> same_page (pmem s) (pmem s') q).
Proof using Type.
  intros Hs Ef Hm. pose proof (vinv_all _ _ _ _ _ Hs) as Ha. rewrite Forall_forall in Ha.
  assert (Hq : forall q, page_ok q -> q ∉ F -> same_page (pmem s) (pmem s') q).
  { intros q Hq HqF x Hx. apply Hm. intros p Hp Hxp. apply HqF. rewrite <- (aligned_apart p q x); [done| |apply Hq|done|done].
    apply Ha. rewrite !elem_of_app. auto. }
  destruct (vinv_dir _ _ _ _ _ Hs) as (Hdp & _ & HdF & _).
  assert (Ht : forall i t, 0 <= i < 1024 -> tab (pmem s) d i = Some t -> same_page (pmem s) (pmem s') t).
  { intros i t Hi Et. destruct (vinv_tab _ _ _ _ _ _ _ Hs Hi Et) as (? & _ & _ & ? & _). by apply Hq. }
  assert (Esl : slots (pmem s') d 1024 = slots (pmem s) d 1024) by (apply slots_same; [by apply Hq|lia]).
  assert (Eup : upages (pmem s') d = upages (pmem s) d).
  { apply upages_same; [by apply Hq|]. intros t (i & Hi & Et)%elem_of_slots. apply (Ht i); [lia|done]. }
  assert (Eow : owned (pmem s') d = owned (pmem s) d) by (unfold owned; by rewrite Esl, Eup).
  split_and!; try done.
  - split; rewrite ?Eow; [|apply Hs|apply Hs]. apply (kinv_frame kend s); [apply Hs|done|].
    intros p x Hp. apply Hq; [apply Ha; rewrite !elem_of_app; auto|]. intros HpF.
    pose proof (vi_nodup _ _ _ _ _ Hs) as Hn. apply NoDup_app in Hn as (_ & Hn & _). apply (Hn p Hp). rewrite elem_of_app. auto.
  - intros va. apply mapping_same; [by apply Hq|]. intros t. apply Ht, PDX_range.
Qed.

Lemma say_run msg out s : cprintf (cfmt msg) [] = Some out ->
  say msg s = Ok (tt, mkKmem (pmem s) (freelist s) (use_lock s) (kout s ++ out)).
Proof using Type. intros E. unfold say. rewrite E. done. Qed.

Definition zeroed (m : mem) (p : Z) : Prop := forall x, in_page p x -> m x = 0.

Lemma take_page s v l d F : vinv s (v :: l) d F -> exists s1, kalloc s = Ok (v, s1) /\ v <> 0 /\ page_ok v /\
  pmem s1 = pmem s /\ vinv s1 l d (v :: F).
Proof using Hend.
  intros Hs. destruct (kalloc_run kend Hkend s (v :: l) (vi_free _ _ _ _ _ Hs)) as (s1 & E & Hk & Em & Hv & H0).
  exists s1. split_and!; try done. apply (vinv_perm kend s (v :: l) d F); [done..|]. rewrite Em. solve_Permutation.
Qed.

Lemma zero_page s v l d F : vinv s l d (v :: F) ->
  let s2 := set_pmem (memset (pmem s) v 0 PGSIZE) s in
  vinv s2 l d (v :: F) /\ owned (pmem s2) d = owned (pmem s) d /\ slots (pmem s2) d 1024 = slots (pmem s) d 1024 /\
  (forall va, mapping (pmem s2) d va = mapping (pmem s) d va) /\ zeroed (pmem s2) v /\
  (forall q, aligned q -> q <> v -> same_page (pmem s) (pmem s2) q).
Proof using Type.
  intros Hs s2. assert (Hv : page_ok v).
  { pose proof (vinv_all _ _ _ _ _ Hs) as Ha. rewrite Forall_forall in Ha. apply Ha. rewrite !elem_of_app, elem_of_cons. auto. }
  assert (Hout : forall x, ~ in_page v x -> pmem s2 x = pmem s x).
  { intros x Hx. unfold s2. cbn [pmem set_pmem]. rewrite memset_spec. unfold in_page in Hx. cases_Z. }
  destruct (vinv_write s s2 l d (v :: F) Hs eq_refl) as (H1 & H2 & H3 & _ & H4 & _).
  { intros x Hx. apply Hout, Hx. by left. }
  split_and!; try done.
  - intros x Hx. unfold s2. cbn [pmem set_pmem]. rewrite memset_spec. unfold in_page in Hx. cases_Z; done.
  - intros q Hq Hne x Hx. apply Hout. intros Hxv. apply Hne. by eapply aligned_apart; [|apply Hv| |].
Qed.

(** [allocuvm] from page [a] on: what success and failure leave. *)
Definition in_range (a b va : Z) : Prop := a <= va /\ PGROUNDDOWN va < b.
#[local] Instance in_range_dec a b va : Decision (in_range a b va) := _.

Definition alloc_post (s : kmem) (l : list Z) (d : Z) (F : list Z) (a b : Z) (s' : kmem) (l' : list Z) : Prop :=
  vinv s' l' d F /\ l' ++ owned (pmem s') d ≡ₚ l ++ owned (pmem s) d /\
  (forall va, 0 <= va < 2 ^ 32 -> ~ in_range a b va -> mapping (pmem s') d va = mapping (pmem s) d va) /\
  (forall va, 0 <= va < 2 ^ 32 -> in_range a b va -> exists p,
    mapping (pmem s') d va = Some (Z.lor (Z.lor (V2P p) (Z.lor PTE_W PTE_U)) PTE_P) /\ p ∈ l /\ zeroed (pmem s') p) /\
  (forall q, apart s l d q -> same_page (pmem s) (pmem s') q /\ apart s' l' d q) /\ (forall q, q ∈ l' -> q ∈ l).

Definition alloc_fail (s : kmem) (l : list Z) (d : Z) (F : list Z) (a b : Z) (s' : kmem) (l' : list Z) : Prop :=
  vinv s' l' d F /\ l' ++ owned (pmem s') d ≡ₚ l ++ owned (pmem s) d /\
  (forall va, 0 <= va < 2 ^ 32 -> mapping (pmem s') d va = if decide (in_range a b va) then None else mapping (pmem s) d va) /\
  (forall q, apart s l d q -> q ∉ l' -> same_page (pmem s) (pmem s') q).

(** The state with something printed. *)
Lemma vinv_out s l d F out : vinv s l d F -> vinv (mkKmem (pmem s) (freelist s) (use_lock s) out) l d F.
Proof using Type. intros [[H1 H2 H3] H4 H5]. by repeat split. Qed.

Lemma dealloc_fail s l d F a b s' l' : dealloc_post s l d F a b s' l' -> alloc_fail s l d F a b s' l'.
Proof using Type.
  intros (H1 & H2 & H3 & H4 & H5 & H6). split_and!; try done. intros q (Ha & Hl & Hd & Hsl). by apply H5.
Qed.

Lemma free_page s v l d F : vinv s l d (v :: F) -> exists s', kfree kend v s = Ok (tt, s') /\ vinv s' (v :: l) d F /\
  owned (pmem s') d = owned (pmem s) d /\ slots (pmem s') d 1024 = slots (pmem s) d 1024 /\
  (forall va, mapping (pmem s') d va = mapping (pmem s) d va) /\ (forall q, aligned q -> q <> v -> same_page (pmem s) (pmem s') q).
Proof using Hend.
  intros Hs. pose proof (vinv_all _ _ _ _ _ Hs) as Ha. rewrite Forall_forall in Ha.
  assert (Hv : page_ok v) by (apply Ha; rewrite !elem_of_app, elem_of_cons; auto).
  assert (Hvl : v ∉ l).
  { intros Hx. pose proof (vi_nodup _ _ _ _ _ Hs) as Hn. apply NoDup_app in Hn as (_ & Hn & _). apply (Hn v Hx).
    rewrite elem_of_app, elem_of_cons. auto. }
  destruct (kfree_run kend Hkend s l v (vi_free _ _ _ _ _ Hs) Hv Hvl) as (s' & E & Hk & Hm). exists s'. split; [done|].
  destruct (vinv_write s (set_freelist (freelist s) s') l d (v :: F) Hs eq_refl) as (_ & Ho & Hsl & _ & Hmp & _).
  { intros x Hx. apply Hm, Hx. by left. }
  cbn [pmem set_freelist] in *. split_and!; try done.
  - apply (vinv_perm kend s l d (v :: F)); [done..|]. rewrite Ho. solve_Permutation.
  - intros q Hq Hne x Hx. apply Hm. intros Hxv. apply Hne. by eapply aligned_apart; [|apply Hv| |].
Qed.

(** [cprintf] of a constant message. *)
Ltac say_ok := erewrite say_run; [|vm_compute; reflexivity].

Lemma apart_zero s v l d F s2 q : vinv s (v :: l) d F -> slots (pmem s2) d 1024 = slots (pmem s) d 1024 ->
  apart s (v :: l) d q -> apart s2 l d q /\ q <> v.
Proof using Type.
  intros Hs Hsl (Ha & Hl & Hd & Hq). apply not_elem_of_cons in Hl as [Hv Hl]. unfold apart. by rewrite Hsl.
Qed.

(** The two ways one page of [allocuvm] can fail. *)
Lemma alloc_fail_now s d F oldsz newsz : vinv s [] d F -> 0 <= oldsz <= newsz -> newsz < KERNBASE ->
  exists s' l', (say "allocuvm out of memory\n";; deallocuvm kend d newsz oldsz;; mret 0) s = Ok (0, s') /\
    alloc_fail s [] d F (PGROUNDUP oldsz) newsz s' l'.
Proof using Hend.
  intros Hs Ho Hn. eapply vinv_out in Hs as Hs1.
  destruct (deallocuvm_run _ [] d F newsz oldsz Hs1 ltac:(lia) ltac:(lia)) as (s' & l' & E & H).
  exists s', l'. split; [|by apply dealloc_fail in H]. erewrite bind_Ok; [|say_ok; reflexivity]. by rewrite (bind_Ok _ _ _ _ _ E).
Qed.

Lemma alloc_fail_map s v d F oldsz newsz : vinv s [] d (v :: F) -> 0 <= oldsz <= newsz -> newsz < KERNBASE ->
  exists s' l', (say "allocuvm out of memory (2)\n";; deallocuvm kend d newsz oldsz;; kfree kend v;; mret 0) s = Ok (0, s') /\
    v ∈ l' /\ vinv s' l' d F /\ l' ++ owned (pmem s') d ≡ₚ v :: owned (pmem s) d /\
    (forall va, 0 <= va < 2 ^ 32 -> mapping (pmem s') d va =
      if decide (in_range (PGROUNDUP oldsz) newsz va) then None else mapping (pmem s) d va) /\
    (forall q, aligned q -> q ∉ slots (pmem s) d 1024 -> q ∉ l' -> same_page (pmem s) (pmem s') q).
Proof using Hend.
  intros Hs Ho Hn. eapply vinv_out in Hs as Hs1.
  destruct (deallocuvm_run _ [] d _ newsz oldsz Hs1 ltac:(lia) ltac:(lia)) as (s2 & l2 & E & H).
  destruct H as (Hs2 & Ho2 & Hsl2 & Hm2 & Hq2 & _).
  destruct (free_page s2 v l2 d F Hs2) as (s' & Ef & Hs' & Ho' & Hsl' & Hm' & Hq').
  exists s', (v :: l2). split.
  { erewrite bind_Ok; [|say_ok; reflexivity]. rewrite (bind_Ok _ _ _ _ _ E). by rewrite (bind_Ok _ _ _ _ _ Ef). }
  split; [by left|]. split; [done|]. split; [rewrite Ho'; cbn [app]; by apply perm_skip|]. split.
  - intros va Hva. rewrite Hm'. by apply Hm2.
  - intros q Hqa Hqs Hql x Hx. apply not_elem_of_cons in Hql as [Hqv Hql]. rewrite (Hq' q Hqa Hqv x Hx). exact (Hq2 q Hqa Hqs Hql x Hx).
Qed.

Lemma in_range_split a m b va : aligned a -> aligned m -> a <= m -> a < b ->
  in_range a b va <-> (in_range a m va /\ PGROUNDDOWN va < b) \/ in_range m b va.
Proof using Type.
  intros Ha Hm Hb. unfold in_range. pose proof (rounddown_below va m Hm). lia.
Qed.

Lemma mapping_upage m d va e : 0 <= va < KERNBASE -> mapping m d va = Some e -> P2V (PTE_ADDR e) ∈ upages m d.
Proof using Type.
  intros Hva Hm. unfold mapping in Hm. destruct (tab m d (PDX va)) as [t|] eqn:Et; [|done]. simpl in Hm.
  destruct (presentb (load32 m (t + 4 * PTX va))) eqn:Ep; [|done]. injection Hm as <-.
  apply elem_of_upages. exists (PDX va), t, (PTX va). split.
  { split; [apply PDX_range|apply PDX_user; unfold KERNBASE in *; lia]. }
  split; [done|]. split; [apply PTX_range|]. unfold tab. by rewrite Ep.
Qed.

Lemma upage_apart s l d F p : vinv s l d F -> p ∈ upages (pmem s) d -> apart s l d p.
Proof using Type. intros Hs Hp. destruct (vinv_upage _ _ _ _ _ _ Hs Hp) as ((? & _) & ? & ? & _ & ?). by repeat split. Qed.

Lemma pte_page_of p f : page_ok p -> 0 <= f < 4096 -> P2V (PTE_ADDR (Z.lor (Z.lor (V2P p) f) PTE_P)) = p.
Proof using Hend.
  intros Hp Hf. destruct (entry_facts (V2P p) f) as (_ & _ & E); [|apply u32_range|done|].
  - rewrite (page_ok_V2P kend Hkend p Hp). apply aligned_sub_KERNBASE, Hp.
  - rewrite E. apply (page_ok_P2V kend Hkend p Hp).
Qed.

Lemma alloc_post_trans s l d F a m b s1 l1 s' l' : vinv s l d F -> aligned a -> aligned m -> a <= m -> a < b -> b <= KERNBASE ->
  0 <= a -> m < b + PGSIZE ->
  alloc_post s l d F a m s1 l1 -> alloc_post s1 l1 d F m b s' l' -> alloc_post s l d F a b s' l'.
Proof using Hend.
  intros Hs Ha Hm Ham Hab Hb H0 Hmb (V1 & P1 & O1 & I1 & Q1 & L1) (V2 & P2 & O2 & I2 & Q2 & L2).
  split_and!; [done|by rewrite P2, P1| | | |auto].
  - intros va Hva Hr. rewrite (in_range_split a m b va Ha Hm Ham Hab) in Hr. rewrite O2 by (done || (intros Hx; apply Hr; by right)). apply O1; [done|].
    intros Hx. apply Hr. left. split; [done|]. destruct Hx as [_ Hx]. pose proof (PGROUNDDOWN_aligned va) as Hal.
    unfold aligned, PGSIZE in *. apply Z.mod_divide in Hal as [k Hk], Hm as [j Hj]; [|done..]. lia.
  - intros va Hva Hr. destruct (decide (in_range m b va)) as [Hr2|Hr2].
    + destruct (I2 va Hva Hr2) as (p & E & Hp & Hz). eauto.
    + rewrite (in_range_split a m b va Ha Hm Ham Hab) in Hr. destruct Hr as [[Hr Hr3]|?]; [|done].
      destruct (I1 va Hva Hr) as (p & E & Hp & Hz). exists p. split; [by rewrite O2|]. split; [done|].
      assert (Hpok : page_ok p).
      { pose proof (vinv_all _ _ _ _ _ Hs) as Hall. rewrite Forall_forall in Hall. apply Hall. rewrite elem_of_app. auto. }
      assert (Hpu : p ∈ upages (pmem s1) d).
      { rewrite <- (pte_page_of p (Z.lor PTE_W PTE_U) Hpok ltac:(done)). apply (mapping_upage _ _ va); [|done].
        pose proof (rounddown_below va KERNBASE eq_refl). lia. }
      intros x Hx. destruct (Q2 p (upage_apart _ _ _ _ _ V1 Hpu)) as [Hsp _]. rewrite (Hsp x Hx). by apply Hz.
  - intros q Hap. destruct (Q1 q Hap) as [E1 A1]. destruct (Q2 q A1) as [E2 A2]. split; [|done].
    intros x Hx. by rewrite (E2 x Hx), (E1 x Hx).
Qed.

Lemma alloc_fail_trans s l d F a0 a m b s1 l1 s' l' : a0 <= a -> aligned m -> m < b + PGSIZE ->
  (forall va, 0 <= va < 2 ^ 32 -> in_range a m va -> in_range a0 b va) ->
  alloc_post s l d F a m s1 l1 -> alloc_fail s1 l1 d F a0 b s' l' -> alloc_fail s l d F a0 b s' l'.
Proof using Type.
  intros Ha Hm Hmb Hsub (V1 & P1 & O1 & I1 & Q1 & L1) (V2 & P2 & O2 & Q2). split_and!; [done|by rewrite P2, P1| |].
  - intros va Hva. rewrite O2 by done. case_decide as Hc; [done|]. apply O1; [done|]. intros Hx. apply Hc. auto.
  - intros q Hap Hql x Hx. destruct (Q1 q Hap) as [E1 A1]. rewrite (Q2 q A1 Hql x Hx). by apply E1.
Qed.

(** One page: [kalloc], [memset] and [mappages]. *)
Lemma alloc_page s v l d F a : vinv s (v :: l) d F -> aligned a -> 0 <= a < KERNBASE -> mapping (pmem s) d a = None ->
  exists s1 s2, kalloc s = Ok (v, s1) /\ v <> 0 /\ fill v 0 PGSIZE s1 = Ok (tt, s2) /\
    (forall va, mapping (pmem s2) d va = mapping (pmem s) d va) /\
    slots (pmem s2) d 1024 = slots (pmem s) d 1024 /\ owned (pmem s2) d = owned (pmem s) d /\
    (forall q, aligned q -> q <> v -> same_page (pmem s) (pmem s2) q) /\
    ((l = [] /\ mappages d a PGSIZE (V2P v) (Z.lor PTE_W PTE_U) s2 = Ok (-1, s2) /\ vinv s2 [] d (v :: F)) \/
     exists s3 l3, mappages d a PGSIZE (V2P v) (Z.lor PTE_W PTE_U) s2 = Ok (0, s3) /\
       alloc_post s (v :: l) d F a (a + PGSIZE) s3 l3 /\ (length l <= S (length l3))%nat).
Proof using Hend.
  intros Hs Ha Har Hun. assert (Har2 : 0 <= a < 2 ^ 32) by (unfold KERNBASE in *; lia).
  destruct (take_page s v l d F Hs) as (s1 & E1 & Hv0 & Hvp & Em1 & Hs1).
  destruct (zero_page s1 v l d F Hs1) as (Hs2 & Ho2 & Hsl2 & Hm2 & Hz2 & Hq2).
  exists s1, (set_pmem (memset (pmem s1) v 0 PGSIZE) s1). set (s2 := set_pmem (memset (pmem s1) v 0 PGSIZE) s1) in *.
  rewrite Em1 in Ho2, Hsl2, Hm2, Hq2.
  split; [exact E1|]. split; [exact Hv0|]. split; [reflexivity|]. split; [exact Hm2|]. split; [exact Hsl2|].
  split; [exact Ho2|]. split; [exact Hq2|]. rewrite <- (Hm2 a) in Hun.
  destruct (map_page s2 l d v F a (Z.lor PTE_W PTE_U) Hs2 Ha Har Hun ltac:(done))
    as [(-> & E2)|(l3 & s3 & E3 & Hs3 & Ho3 & Hm3 & Hq3 & Hl3 & Hlen)]; [by left|right].
  exists s3, l3. split; [done|]. split; [|done]. split; [done|]. split; [by rewrite Ho3, Ho2|].
  assert (Hr : forall va, in_range a (a + PGSIZE) va <-> a <= va < a + PGSIZE).
  { intros va. unfold in_range. pose proof (rounddown_below va _ (aligned_next _ Ha)). lia. }
  split; [|split; [|split]].
  - intros va Hva Hn. rewrite Hr in Hn. rewrite Hm3. pose proof (same_vpage a va Ha Har2 Hva). case_decide; [tauto|by rewrite Hm2].
  - intros va Hva Hi. apply Hr in Hi. exists v. rewrite Hm3. pose proof (same_vpage a va Ha Har2 Hva).
    rewrite decide_True by tauto. split; [done|]. split; [by left|].
    assert (Hvz : apart s2 l d v).
    { destruct (vinv_dir _ _ _ _ _ Hs2) as (_ & _ & HdF & _). pose proof (vi_nodup _ _ _ _ _ Hs2) as Hn.
      apply NoDup_app in Hn as (_ & Hnl & Hn). apply NoDup_app in Hn as (_ & Hno & _). split; [apply Hvp|]. split; [|split].
      - intros Hx. apply (Hnl v Hx). rewrite elem_of_app, elem_of_cons. auto.
      - intros ->. apply HdF. by left.
      - intros Hx. apply (Hno v); [unfold owned; rewrite elem_of_cons, elem_of_app; auto|by left]. }
    intros x Hx. rewrite (proj1 (Hq3 v Hvz) x Hx). by apply Hz2.
  - intros q Hap. destruct (apart_zero s v l d F s2 q Hs Hsl2 Hap) as [Hap2 Hqv]. destruct (Hq3 q Hap2) as [E A].
    split; [|done]. intros x Hx. rewrite (E x Hx). exact (Hq2 q (proj1 Hap2) Hqv x Hx).
  - intros q Hq. right. auto.
Qed.

Lemma alloc_run n : forall s l d F a oldsz newsz, vinv s l d F -> aligned a -> PGROUNDUP oldsz <= a ->
  0 <= oldsz <= newsz -> newsz < KERNBASE -> newsz - a <= Z.of_nat n * PGSIZE ->
  (forall va, 0 <= va < 2 ^ 32 -> in_range a newsz va -> mapping (pmem s) d va = None) ->
  exists r s' l', alloc_loop kend n d a oldsz newsz s = Ok (r, s') /\
    ((r = newsz /\ alloc_post s l d F a newsz s' l') \/
     (r = 0 /\ alloc_fail s l d F (PGROUNDUP oldsz) newsz s' l' /\ Z.of_nat (length l) * PGSIZE < 2 * (PGROUNDUP newsz - a))).
Proof using Hend.
  induction n as [|n IH]; intros s l d F a oldsz newsz Hs Ha Hao Ho Hn Hf Hun; cbn [alloc_loop];
    (destruct (Z.ltb_spec a newsz) as [Hlt|Hge]; [try lia|
     exists newsz, s, l; split; [done|]; left; split; [done|]; split_and!; try done;
     intros va Hva [Hr1 Hr2]; exfalso; pose proof (rounddown_below va a Ha); lia]).
  destruct (PGROUNDUP_spec oldsz) as [Hoal Hor]; [lia|]. destruct (PGROUNDUP_spec newsz) as [Hnal Hnr]; [lia|].
  assert (Hroom : PGSIZE <= PGROUNDUP newsz - a).
  { unfold aligned, PGSIZE in *. apply Z.mod_divide in Ha as [k Hk], Hnal as [k' Hk']; [|done..]. lia. }
  destruct l as [|v l].
  { rewrite (bind_Ok _ _ _ _ _ (kalloc_run kend Hkend s [] (vi_free _ _ _ _ _ Hs))). cbn [Z.eqb].
    destruct (alloc_fail_now s d F oldsz newsz Hs Ho Hn) as (s' & l' & E & H). exists 0, s', l'. split; [done|]. right. split; [done|]. split; [done|]. cbn [length]. lia. }
  destruct (alloc_page s v l d F a Hs Ha ltac:(lia)) as (s1 & s2 & E1 & Hv0 & E2 & Hm2 & Hsl2 & Ho2 & Hq2 & Hc).
  { apply Hun; [unfold KERNBASE in *; lia|]. split; [lia|]. by rewrite PGROUNDDOWN_id. }
  rewrite (bind_Ok _ _ _ _ _ E1). destruct (Z.eqb_spec v 0); [done|]. rewrite (bind_Ok _ _ _ _ _ E2).
  destruct Hc as [(-> & E3 & Hs2)|(s3 & l3 & E3 & HP & Hlen)]; rewrite (bind_Ok _ _ _ _ _ E3); cbn [Z.ltb Z.compare].
  - destruct (alloc_fail_map s2 v d F oldsz newsz Hs2 Ho Hn) as (s' & l' & E & Hvl & H1 & H2 & H3 & H4).
    exists 0, s', l'. split; [exact E|]. right. split; [done|]. split; [split_and!; [done|by rewrite H2, Ho2| |]|cbn [length]; lia].
    + intros va Hva. rewrite H3 by done. by rewrite Hm2.
    + intros q Hap Hql x Hx. destruct (apart_zero s v [] d F s2 q Hs Hsl2 Hap) as [(Hqa & _ & Hqd & Hqs) Hqv].
      rewrite (H4 q Hqa Hqs Hql x Hx). exact (Hq2 q Hqa Hqv x Hx).
  - rewrite (u32_small (a + PGSIZE)) by (unfold PGSIZE, KERNBASE in *; lia). pose proof (aligned_next _ Ha) as Ha'.
    destruct (IH s3 l3 d F (a + PGSIZE) oldsz newsz (proj1 HP) Ha') as (r & s' & l' & E & HIH);
      [unfold PGSIZE; lia|lia|done|unfold PGSIZE in *; lia| |].
    { intros va Hva Hr. destruct HP as (_ & _ & HO & _). rewrite HO; [|done|].
      - apply Hun; [done|]. destruct Hr. split; [unfold PGSIZE in *; lia|done].
      - intros [_ Hx]. destruct Hr as [Hr _]. pose proof (rounddown_below va _ Ha'). lia. }
    exists r, s', l'. split; [exact E|]. destruct HIH as [[-> H]|(-> & H & Hleft)]; [left|right]; (split; [done|]).
    + by apply (alloc_post_trans s (v :: l) d F a (a + PGSIZE) newsz s3 l3); [| |try (unfold PGSIZE in *; lia)..].
    + split; [|cbn [length]; unfold PGSIZE in *; lia]. apply (alloc_fail_trans s (v :: l) d F _ a (a + PGSIZE) newsz s3 l3); [done|done|unfold PGSIZE; lia| |done|done].
      intros va Hva [Hr1 Hr2]. split; [lia|]. pose proof (rounddown_below va _ Ha'). pose proof (rounddown_in va a Ha). lia.
Qed.

(** ** freevm *)
Lemma free_tables m0 d js : forall s l, kinv s l -> aligned d -> same_page m0 (pmem s) d -> (forall i, i ∈ js -> 0 <= i < 1024) ->
  NoDup (omap (tab m0 d) js ++ d :: l) -> Forall page_ok (omap (tab m0 d) js) ->
  exists s' l', for_each js (fun i => e ← word_at (d + 4 * i);
      if presentb e then kfree kend (P2V (PTE_ADDR e)) else mret tt) s = Ok (tt, s') /\
    kinv s' l' /\ l' ≡ₚ omap (tab m0 d) js ++ l /\
    (forall q, aligned q -> q ∉ omap (tab m0 d) js -> same_page (pmem s) (pmem s') q).
Proof using Hend.
  induction js as [|i js IH]; intros s l Hk Hda Hd Hi Hn Hp; cbn [for_each]; [by exists s, l|].
  assert (Ei : load32 (pmem s) (d + 4 * i) = load32 m0 (d + 4 * i)) by (apply load_same; [done|apply Hi; by left]).
  rewrite omap_step in Hn, Hp |- *. unfold word_at at 1. unfold tab at 1 in Hn. unfold tab at 1 in Hp. unfold tab at 1 3.
  rewrite <- Ei in *. set (e := load32 (pmem s) (d + 4 * i)) in *.
  assert (Hi' : forall k, k ∈ js -> 0 <= k < 1024) by (intros k ?; apply Hi; by right).
  destruct (presentb e) eqn:Ep; cbn [option_list] in *; rewrite <- ?app_assoc in Hn; cbn [app] in Hn, Hp; rewrite ?app_nil_l in *.
  - apply NoDup_cons in Hn as [Hx Hn]. rewrite elem_of_app, elem_of_cons in Hx. apply Forall_cons in Hp as [Hv Hp].
    set (v := P2V (PTE_ADDR e)) in *. destruct (kfree_run kend Hkend s l v Hk Hv) as (s1 & E & Hk1 & Hm1); [tauto|].
    assert (Hsame : forall q, aligned q -> q <> v -> same_page (pmem s) (pmem s1) q).
    { intros q Hq Hne x Hxq. apply Hm1. intros Hxv. apply Hne. by eapply aligned_apart; [|apply Hv| |]. }
    destruct (IH s1 (v :: l) Hk1 Hda) as (s' & l' & E' & Hk' & Hl' & Hq').
    + assert (Hdv : d <> v) by (intros Ed; apply Hx; right; by left).
      intros x Hxd. rewrite (Hsame d Hda Hdv x Hxd). by apply Hd.
    + done.
    + assert (HN : NoDup (v :: omap (tab m0 d) js ++ d :: l)).
      { apply NoDup_cons. split; [rewrite elem_of_app, elem_of_cons; tauto|done]. }
      assert (HP : omap (tab m0 d) js ++ d :: v :: l ≡ₚ v :: omap (tab m0 d) js ++ d :: l)
        by solve_Permutation.
      by rewrite HP.
    + done.
    + exists s', l'. rewrite (bind_Ok _ _ s tt s1) by (unfold word_at; mrun; fold e; by rewrite Ep).
      split; [done|]. split; [done|]. split; [rewrite Hl'; solve_Permutation|].
      intros q Hq Hqn x Hxq. apply not_elem_of_cons in Hqn as [Hqv Hqn]. rewrite (Hq' q Hq Hqn x Hxq). exact (Hsame q Hq Hqv x Hxq).
  - destruct (IH s l Hk Hda Hd Hi' Hn Hp) as (s' & l' & E' & H'). exists s', l'.
    rewrite (bind_Ok _ _ s tt s) by (unfold word_at; mrun; fold e; by rewrite Ep). done.
Qed.

Lemma free_slots s l d n : kinv s l -> aligned d -> n <= 1024 ->
  NoDup (slots (pmem s) d n ++ d :: l) -> Forall page_ok (slots (pmem s) d n) ->
  exists s' l', for_each (seqZ 0 n) (fun i => e ← word_at (d + 4 * i);
      if presentb e then kfree kend (P2V (PTE_ADDR e)) else mret tt) s = Ok (tt, s') /\
    kinv s' l' /\ l' ≡ₚ slots (pmem s) d n ++ l /\
    (forall q, aligned q -> q ∉ slots (pmem s) d n -> same_page (pmem s) (pmem s') q).
Proof using Hend.
  intros Hk Hd Hn. rewrite slots_eq. intros HN Hp. apply free_tables; try done. intros i Hi%elem_of_seqZ. lia.
Qed.

Lemma upages_nil m d : (forall va, 0 <= va < KERNBASE -> mapping m d va = None) -> upages m d = [].
Proof using Type.
  intros H. apply elem_of_nil_inv. intros p (i & t & k & Hi & Et & Hk & Ek)%elem_of_upages.
  set (va := i * 4194304 + k * 4096). assert (Hva : 0 <= va < KERNBASE) by (unfold va, KERNBASE; lia).
  assert (Hr : 0 <= va < 2 ^ 32) by (unfold KERNBASE in *; lia).
  assert (Ei : PDX va = i).
  { rewrite PDX_div by done. symmetry. apply (Z.div_unique _ _ _ (k * 4096)); unfold va; lia. }
  assert (Ev : vpn va = i * 1024 + k) by (unfold vpn, va, PGSIZE; symmetry; apply (Z.div_unique _ _ _ 0); lia).
  assert (Ekk : PTX va = k) by (rewrite vpn_split, Ei in Ev by done; lia).
  specialize (H va Hva). unfold mapping in H. rewrite Ei, Et in H. simpl in H. rewrite Ekk in H.
  unfold tab in Ek. by destruct (presentb _).
Qed.

Lemma freevm_run s l d F : vinv s l d F -> exists s' l', freevm kend d s = Ok (tt, s') /\ kinv s' l' /\
  l' ≡ₚ l ++ owned (pmem s) d /\ (forall q, aligned q -> q ∉ l' -> same_page (pmem s) (pmem s') q).
Proof using Hend.
  intros Hs. destruct (vinv_dir _ _ _ _ _ Hs) as (Hdp & _). unfold freevm.
  destruct (Z.eqb_spec d 0) as [E0|_]; [destruct Hdp; unfold KERNBASE in *; lia|].
  destruct (deallocuvm_run s l d F KERNBASE 0 Hs ltac:(done) ltac:(done)) as (s1 & l1 & E1 & Hs1 & Ho1 & Hsl1 & Hm1 & Hq1 & _).
  rewrite (bind_Ok _ _ _ _ _ E1).
  assert (Hu : upages (pmem s1) d = []).
  { apply upages_nil. intros va Hva. rewrite Hm1 by (unfold KERNBASE in *; lia). apply decide_True.
    split; [change (PGROUNDUP 0) with 0; lia|]. apply rounddown_below; [done|lia]. }
  pose proof (vi_nodup _ _ _ _ _ Hs1) as Hn. pose proof (vi_pages _ _ _ _ _ Hs1) as Hp. unfold owned in Hn, Hp, Ho1.
  rewrite Hu, app_nil_r in *. apply Forall_app in Hp as [Hp _]. apply Forall_cons in Hp as [_ Hp].
  rewrite app_assoc in Hn. apply NoDup_app in Hn as (Hn & _).
  destruct (free_slots s1 l1 d NPDENTRIES (vi_free _ _ _ _ _ Hs1) (proj1 Hdp)) as (s2 & l2 & E2 & Hk2 & Hl2 & Hq2).
  { done. }
  { assert (HP : slots (pmem s1) d 1024 ++ d :: l1 ≡ₚ l1 ++ d :: slots (pmem s1) d 1024) by solve_Permutation. by rewrite HP. }
  { exact Hp. }
  rewrite (bind_Ok _ _ _ _ _ E2).
  assert (Hd2 : d ∉ l2).
  { rewrite Hl2. apply NoDup_app in Hn as (_ & Hx & Hn). apply NoDup_cons in Hn as [Hn _]. rewrite elem_of_app.
    intros [?|Hl]; [done|]. apply (Hx d Hl). by left. }
  destruct (kfree_run kend Hkend s2 l2 d Hk2 Hdp Hd2) as (s3 & E3 & Hk3 & Hm3).
  exists s3, (d :: l2). split; [exact E3|]. split; [done|].
  assert (HP : d :: l2 ≡ₚ l ++ owned (pmem s) d) by (unfold owned; rewrite <- Ho1, Hl2; solve_Permutation). split; [exact HP|].
  intros q Hq Hql x Hx. apply not_elem_of_cons in Hql as [Hqd Hql]. rewrite Hm3.
  2: { intros Hxd. apply Hqd. by eapply aligned_apart; [|apply Hdp| |]. }
  rewrite Hl2, elem_of_app in Hql. rewrite (Hq2 q Hq) by (done || tauto). apply (Hq1 q Hq); [rewrite <- Hsl1|..]; tauto.
Qed.

(** ** Mapping a range of kernel addresses *)
Definition range_pte (a pa perm va : Z) : Z := Z.lor (Z.lor (pa + (PGROUNDDOWN va - a)) perm) PTE_P.

Definition kmap_post (s : kmem) (l : list Z) (d : Z) (F : list Z) (a b pa perm r : Z) (s' : kmem) (l' : list Z) : Prop :=
  vinv s' l' d F /\ l' ++ owned (pmem s') d ≡ₚ l ++ owned (pmem s) d /\
  (forall q, apart s l d q -> same_page (pmem s) (pmem s') q /\ apart s' l' d q) /\
  (r = -1 \/ (r = 0 /\ forall va, 0 <= va < 2 ^ 32 -> mapping (pmem s') d va =
    if decide (a <= va < b) then Some (range_pte a pa perm va) else mapping (pmem s) d va)).

Lemma kmap_post_trans s l d F a m b pa perm s1 l1 r s' l' : a <= m <= b ->
  kmap_post s l d F a m pa perm 0 s1 l1 -> kmap_post s1 l1 d F m b (pa + (m - a)) perm r s' l' ->
  kmap_post s l d F a b pa perm r s' l'.
Proof using Type.
  intros Hm (V1 & P1 & Q1 & M1) (V2 & P2 & Q2 & M2). split_and!; [done|by rewrite P2| |].
  - intros q Hap. destruct (Q1 q Hap) as [E1 A1]. destruct (Q2 q A1) as [E2 A2]. split; [|done].
    intros x Hx. by rewrite (E2 x Hx), (E1 x Hx).
  - destruct M1 as [?|[_ M1]]; [done|]. destruct M2 as [->|[-> M2]]; [by left|right]. split; [done|].
    intros va Hva. rewrite M2, M1 by done. unfold range_pte.
    replace (pa + (m - a) + (PGROUNDDOWN va - m)) with (pa + (PGROUNDDOWN va - a)) by lia.
    repeat case_decide; try done; lia.
Qed.

Lemma map_kernel_step s l d F a pa perm : vinv s l d F -> aligned a -> KERNBASE <= a < 2 ^ 32 ->
  aligned pa -> 0 <= pa < 2 ^ 32 -> 0 <= perm < 4096 -> mapping (pmem s) d a = None ->
  walkpgdir d a true s = Ok (0, s) \/
  exists w l1 s1 s2, walkpgdir d a true s = Ok (w, s1) /\ w <> 0 /\ presentb (load32 (pmem s1) w) = false /\
    set_word w (Z.lor (Z.lor pa perm) PTE_P) s1 = Ok (tt, s2) /\ kmap_post s l d F a (a + PGSIZE) pa perm 0 s2 l1.
Proof using Hend.
  intros Hs Ha Hka Hpa Hpr Hf Hun. assert (Har : 0 <= a < 2 ^ 32) by (unfold KERNBASE in *; lia).
  destruct (map_step s l d F a pa perm Hs Hun Hpa Hpr Hf) as [(-> & E)|(w & l1 & s1 & E & Hw & Hno & Hk & Ho & Hm & Hq & Hl)];
    [by left|right].
  rewrite decide_False in Ho by (intros Hx; apply PDX_user in Hx; lia). rewrite app_nil_l in Ho.
  exists w, l1, s1, (set_pmem (store32 (pmem s1) w (Z.lor (Z.lor pa perm) PTE_P)) s1).
  split; [done|]. split; [done|]. split; [done|]. split; [done|]. split_and!; [|exact Ho|exact Hq|right; split; [done|]].
  - apply (vinv_perm kend s l d F); [done|done|]. rewrite !app_assoc. by rewrite Ho.
  - intros va Hva. rewrite Hm. pose proof (same_vpage a va Ha Har Hva) as Hsv. unfold range_pte.
    pose proof (rounddown_in va a Ha) as Hrd. repeat case_decide; try done; try tauto.
    rewrite Hrd, Z.sub_diag, Z.add_0_r by done. done.
Qed.

Lemma map_kernel n : forall s l d F a pa perm, vinv s l d F -> aligned a -> KERNBASE <= a ->
  a + (Z.of_nat n + 1) * PGSIZE <= 2 ^ 32 -> aligned pa -> 0 <= pa -> pa + (Z.of_nat n + 1) * PGSIZE <= 2 ^ 32 -> 0 <= perm < 4096 ->
  (forall va, a <= va < a + (Z.of_nat n + 1) * PGSIZE -> mapping (pmem s) d va = None) ->
  exists r s' l', map_loop n d a (a + Z.of_nat n * PGSIZE) pa perm s = Ok (r, s') /\
    kmap_post s l d F a (a + (Z.of_nat n + 1) * PGSIZE) pa perm r s' l'.
Proof using Hend.
  induction n as [|n IH]; intros s l d F a pa perm Hs Ha Hka Hb Hpa Hp0 Hpb Hf Hun; cbn [map_loop];
    (destruct (map_kernel_step s l d F a pa perm Hs Ha) as [E|(w & l1 & s1 & s2 & E & Hw & Hno & Ew & HP)];
      [unfold PGSIZE in *; lia|done|unfold PGSIZE in *; lia|done|apply Hun; unfold PGSIZE; lia| |]);
    rewrite (bind_Ok _ _ _ _ _ E);
    try (exists (-1), s, l; split; [done|]; split_and!; try done; by left);
    (destruct (Z.eqb_spec w 0); [done|]);
    rewrite (bind_Ok _ _ s1 (load32 (pmem s1) w) s1 eq_refl), Hno, (bind_Ok _ _ _ _ _ Ew).
  - destruct (Z.eqb_spec a (a + Z.of_nat 0 * PGSIZE)); [|lia]. exists 0, s2, l1. split; [done|].
    by replace (a + (Z.of_nat 0 + 1) * PGSIZE) with (a + PGSIZE) by lia.
  - destruct (Z.eqb_spec a (a + Z.of_nat (S n) * PGSIZE)); [unfold PGSIZE in *; lia|].
    rewrite !u32_small by (unfold PGSIZE, KERNBASE in *; lia).
    replace (a + Z.of_nat (S n) * PGSIZE) with (a + PGSIZE + Z.of_nat n * PGSIZE) by lia.
    destruct (IH s2 l1 d F (a + PGSIZE) (pa + PGSIZE) perm (proj1 HP) (aligned_next _ Ha)) as (r & s' & l' & E' & H');
      try (unfold PGSIZE in *; lia); [by apply aligned_next| |].
    { intros va Hva. destruct HP as (_ & _ & _ & [?|[_ HM]]); [done|].
      rewrite HM by (unfold PGSIZE, KERNBASE in *; lia). case_decide; [unfold PGSIZE in *; lia|].
      apply Hun. unfold PGSIZE in *. lia. }
    exists r, s', l'. split; [exact E'|].
    apply (kmap_post_trans s l d F a (a + PGSIZE) _ pa perm s2 l1); [unfold PGSIZE; lia|done|].
    replace (pa + (a + PGSIZE - a)) with (pa + PGSIZE) by lia.
    by replace (a + (Z.of_nat (S n) + 1) * PGSIZE) with (a + PGSIZE + (Z.of_nat n + 1) * PGSIZE) by lia.
Qed.

Lemma mappages_kernel s l d F va size pa perm : vinv s l d F -> aligned va -> KERNBASE <= va -> aligned size -> 0 < size ->
  va + size <= 2 ^ 32 -> aligned pa -> 0 <= pa -> pa + size <= 2 ^ 32 -> 0 <= perm < 4096 ->
  (forall v, va <= v < va + size -> mapping (pmem s) d v = None) ->
  exists r s' l', mappages d va size pa perm s = Ok (r, s') /\ kmap_post s l d F va (va + size) pa perm r s' l'.
Proof using Hend.
  intros Hs Ha Hk Hsz Hs0 Hb Hpa Hp0 Hpb Hf Hun. apply Z.mod_divide in Hsz as [k ->]; [|done].
  assert (Hlast : PGROUNDDOWN (u32 (va + k * PGSIZE - 1)) = va + (k - 1) * PGSIZE).
  { rewrite u32_small by (unfold KERNBASE, PGSIZE in *; lia). apply rounddown_in; [|unfold PGSIZE; lia].
    unfold aligned in *. rewrite Z.add_mod, Ha, Z.mod_mul by done. done. }
  unfold mappages. cbv zeta. rewrite (PGROUNDDOWN_id va Ha), Hlast.
  replace (va + (k - 1) * PGSIZE - va) with ((k - 1) * PGSIZE) by lia.
  assert (Hk0 : 0 < k) by (unfold PGSIZE in *; lia).
  rewrite u32_small, Z.div_mul by (unfold KERNBASE, PGSIZE in *; lia).
  destruct (map_kernel (Z.to_nat (k - 1)) s l d F va pa perm) as (r & s' & l' & E & HP); rewrite ?Z2Nat.id in * by lia;
    try done; try (unfold PGSIZE in *; lia).
  { intros v Hv. apply Hun. lia. }
  exists r, s', l'. split; [done|]. by replace (va + k * PGSIZE) with (va + (k - 1 + 1) * PGSIZE) by lia.
Qed.

(** ** setupkvm *)
Lemma held_apart s l d F q : vinv s l d F -> q ∈ F -> apart s l d q.
Proof using Type.
  intros Hs Hq. pose proof (vi_nodup _ _ _ _ _ Hs) as Hn. pose proof (vi_pages _ _ _ _ _ Hs) as Hp.
  rewrite Forall_forall in Hp. apply NoDup_app in Hn as (_ & Hl & Hn). apply NoDup_app in Hn as (_ & Ho & _).
  assert (Hno : q ∉ owned (pmem s) d) by (intros Hx; by apply (Ho q)).
  unfold owned in Hno. rewrite not_elem_of_cons, elem_of_app in Hno.
  split; [apply Hp; rewrite elem_of_app; auto|]. split; [intros Hx; apply (Hl q Hx); rewrite elem_of_app; auto|]. tauto.
Qed.

(** The mappings after some entries of [kmap], and when the next one can be
    added. *)
Definition kmap_add (dom : Z -> option Z) (k : Z * Z * Z * Z) (va : Z) : option Z :=
  let '(virt, phys_start, phys_end, perm) := k in
  if decide (virt <= va < virt + u32 (phys_end - phys_start)) then Some (range_pte virt phys_start perm va) else dom va.

Definition kmap_fits (dom : Z -> option Z) (k : Z * Z * Z * Z) : Prop :=
  let '(virt, phys_start, phys_end, perm) := k in
  let size := u32 (phys_end - phys_start) in
  (aligned virt /\ KERNBASE <= virt /\ aligned size /\ 0 < size /\ virt + size <= 2 ^ 32) /\
  (aligned phys_start /\ 0 <= phys_start /\ phys_start + size <= 2 ^ 32 /\ 0 <= perm < 4096) /\
  forall va, virt <= va < virt + size -> dom va = None.

Fixpoint kmap_ok (dom : Z -> option Z) (ks : list (Z * Z * Z * Z)) : Prop :=
  match ks with
  | [] => True
  | k :: ks' => kmap_fits dom k /\ kmap_ok (kmap_add dom k) ks'
  end.

Lemma kvm_loop d F ks : forall s l dom, vinv s l d F -> kmap_ok dom ks ->
  (forall va, 0 <= va < 2 ^ 32 -> mapping (pmem s) d va = dom va) ->
  exists r s', for_until ks (fun '(virt, phys_start, phys_end, perm) =>
      r ← mappages d virt (u32 (phys_end - phys_start)) phys_start perm;
      if r <? 0 then freevm kend d;; mret (Some 0) else mret None) s = Ok (r, s') /\
    (forall q, q ∈ F -> same_page (pmem s) (pmem s') q) /\
    match r with
    | Some v => v = 0 /\ exists l', kinv s' l' /\ l' ≡ₚ l ++ owned (pmem s) d
    | None => exists l', vinv s' l' d F /\ l' ++ owned (pmem s') d ≡ₚ l ++ owned (pmem s) d /\
        forall va, 0 <= va < 2 ^ 32 -> mapping (pmem s') d va = foldl kmap_add dom ks va
    end.
Proof using Hend.
  induction ks as [|[[[virt ps] pe] perm] ks IH]; intros s l dom Hs Hok Hdom; cbn [for_until].
  { exists None, s. split; [done|]. split; [done|]. by exists l. }
  destruct Hok as [((Ha & Hk & Hsz & Hs0 & Hb) & (Hpa & Hp0 & Hpb & Hf) & Hun) Hok].
  destruct (mappages_kernel s l d F virt (u32 (pe - ps)) ps perm Hs Ha Hk Hsz Hs0 Hb Hpa Hp0 Hpb Hf) as (r & s1 & l1 & E & V1 & P1 & Q1 & M1).
  { intros v Hv. rewrite Hdom by (unfold KERNBASE in *; lia). by apply Hun. }
  destruct M1 as [->|[-> M1]].
  - destruct (freevm_run s1 l1 d F V1) as (s2 & l2 & E2 & Hk2 & Hl2 & Hq2). exists (Some 0), s2.
    split; [|split; [|split; [done|exists l2; split; [done|by rewrite Hl2]]]].
    { erewrite bind_Ok; [|erewrite bind_Ok; [|exact E]; cbn [Z.ltb Z.compare]; by rewrite (bind_Ok _ _ _ _ _ E2)]. done. }
    intros q Hq x Hx. destruct (Q1 q (held_apart _ _ _ _ _ Hs Hq)) as [E1 _]. rewrite <- (E1 x Hx). apply (Hq2 q); [| |done].
    + by destruct (held_apart _ _ _ _ _ Hs Hq).
    + rewrite Hl2, elem_of_app. pose proof (vi_nodup _ _ _ _ _ V1) as Hn. rewrite app_assoc in Hn.
      apply NoDup_app in Hn as (_ & Hn & _). intros Hx'. apply (Hn q); [by rewrite elem_of_app|done].
  - destruct (IH s1 l1 (kmap_add dom (virt, ps, pe, perm)) V1 Hok) as (r & s' & E' & Hq' & H').
    { intros va Hva. rewrite M1 by done. unfold kmap_add. by rewrite Hdom. }
    exists r, s'. split; [|split].
    { erewrite bind_Ok; [|erewrite bind_Ok; [|exact E]; cbn [Z.ltb Z.compare]; reflexivity]. exact E'. }
    { intros q Hq x Hx. rewrite (Hq' q Hq x Hx). destruct (Q1 q (held_apart _ _ _ _ _ Hs Hq)) as [E1 _]. by apply E1. }
    destruct r as [v|].
    + destruct H' as (-> & l' & Hk' & Hl'). split; [done|]. exists l'. split; [done|]. by rewrite Hl'.
    + destruct H' as (l' & V' & P' & M'). exists l'. split; [done|]. split; [by rewrite P'|done].
Qed.

Section Kvm.
Context (kdata : Z) (Hda : aligned kdata) (Hdl : KERNLINK < kdata < KERNBASE + PHYSTOP).

(** The kernel's part of every address space. *)
Definition kmapping (va : Z) : option Z :=
  if va <? KERNBASE then None
  else if va <? KERNLINK then Some (Z.lor (Z.lor (PGROUNDDOWN va - KERNBASE) PTE_W) PTE_P)
  else if va <? kdata then Some (Z.lor (Z.lor (PGROUNDDOWN va - KERNBASE) 0) PTE_P)
  else if va <? KERNBASE + PHYSTOP then Some (Z.lor (Z.lor (PGROUNDDOWN va - KERNBASE) PTE_W) PTE_P)
  else if va <? DEVSPACE then None
  else Some (Z.lor (Z.lor (PGROUNDDOWN va) PTE_W) PTE_P).

Lemma kdata_V2P : V2P kdata = kdata - KERNBASE.
Proof using Hdl. unfold V2P. apply u32_small. unfold KERNLINK, KERNBASE, EXTMEM, PHYSTOP in *. lia. Qed.

Lemma kmap_sizes : u32 (EXTMEM - 0) = EXTMEM /\ u32 (V2P kdata - V2P KERNLINK) = kdata - KERNLINK /\
  u32 (PHYSTOP - V2P kdata) = KERNBASE + PHYSTOP - kdata /\ u32 (0 - DEVSPACE) = 2 ^ 32 - DEVSPACE.
Proof using Hdl.
  rewrite kdata_V2P. change (V2P KERNLINK) with EXTMEM. split; [done|]. split; [|split; [|done]].
  - rewrite u32_small; unfold KERNLINK, KERNBASE, EXTMEM, PHYSTOP in *; lia.
  - rewrite u32_small; unfold KERNLINK, KERNBASE, EXTMEM, PHYSTOP in *; lia.
Qed.

Lemma aligned_sub a b : aligned a -> aligned b -> aligned (a - b).
Proof using Type. unfold aligned. intros Ha Hb. rewrite Zminus_mod, Ha, Hb. done. Qed.

Lemma kmap_all : kmap_ok (fun _ => None) (kmap kdata) /\
  forall va, 0 <= va < 2 ^ 32 -> foldl kmap_add (fun _ => None) (kmap kdata) va = kmapping va.
Proof using Hda Hdl.
  destruct kmap_sizes as (E1 & E2 & E3 & E4).
  assert (H2 : aligned (kdata - KERNLINK)) by (by apply aligned_sub).
  assert (H3 : aligned (KERNBASE + PHYSTOP - kdata)) by (by apply aligned_sub).
  assert (H5 : aligned (V2P kdata)) by (rewrite kdata_V2P; by apply aligned_sub).
  unfold kmap. cbn [kmap_ok foldl]. unfold kmap_fits, kmap_add. rewrite E1, E2, E3, E4, kdata_V2P in *.
  change (V2P KERNLINK) with EXTMEM.
  assert (Hrng : KERNBASE + EXTMEM < kdata < KERNBASE + PHYSTOP) by (unfold KERNLINK in *; lia).
  split; [|intros va Hva; unfold kmapping, range_pte, KERNLINK].
  - unfold KERNLINK in *. unfold KERNBASE, EXTMEM, PHYSTOP, DEVSPACE, PTE_W in *.
    split_and!; try done; try lia; intros va Hva; repeat case_decide; (done || lia).
  - repeat case_decide; cases_Z; unfold KERNBASE, EXTMEM, PHYSTOP, DEVSPACE in *; try lia; try done; do 3 f_equal; lia.
Qed.

Lemma setupkvm_run s l F : kinv s l -> NoDup (l ++ F) -> Forall page_ok F ->
  exists r s', setupkvm kend kdata s = Ok (r, s') /\ (forall q, q ∈ F -> same_page (pmem s) (pmem s') q) /\
    ((r = 0 /\ exists l', kinv s' l' /\ l' ≡ₚ l) \/
     (r <> 0 /\ exists l', vinv s' l' r F /\ l' ++ owned (pmem s') r ≡ₚ l /\
        forall va, 0 <= va < 2 ^ 32 -> mapping (pmem s') r va = kmapping va)).
Proof using Hda Hdl Hend.
  intros Hk Hn HF. unfold setupkvm. pose proof (kalloc_run kend Hkend s l Hk) as Ha. destruct l as [|p l].
  { exists 0, s. rewrite (bind_Ok _ _ _ _ _ Ha). split; [done|]. split; [done|]. left. eauto. }
  destruct Ha as (s1 & E1 & Hk1 & Em1 & Hp & Hp0). rewrite (bind_Ok _ _ _ _ _ E1).
  destruct (Z.eqb_spec p 0); [done|]. unfold fill. rewrite (bind_Ok _ _ s1 tt _ eq_refl).
  set (s2 := set_pmem (memset (pmem s1) p 0 PGSIZE) s1). change (DEVSPACE <? P2V PHYSTOP) with false. cbv iota.
  assert (Hz : zeroed (pmem s2) p).
  { intros x Hx. unfold s2. cbn [pmem set_pmem]. rewrite memset_spec. unfold in_page in Hx. cases_Z; done. }
  assert (Hq : forall q, aligned q -> q <> p -> same_page (pmem s) (pmem s2) q).
  { intros q Hq Hne x Hx. unfold s2. cbn [pmem set_pmem]. rewrite memset_spec, Em1.
    destruct (decide (in_page p x)) as [Hxp|Hxp]; [|unfold in_page in Hxp; cases_Z].
    destruct Hne. by eapply aligned_apart; [|apply Hp| |]. }
  assert (Eo : owned (pmem s2) p = [p]).
  { unfold owned, upages. rewrite !slots_zeros by (done || lia). done. }
  cbn [app] in Hn. apply NoDup_cons in Hn as [Hpn Hn]. rewrite elem_of_app in Hpn.
  assert (Hs2 : vinv s2 l p F).
  { split; rewrite ?Eo.
    - apply (kinv_frame kend s1); [done..|]. rewrite Em1. intros q x Hql. apply Hq; [|intros ->; tauto].
      pose proof (ki_pages _ _ _ Hk1) as Hf. rewrite Forall_forall in Hf. by apply Hf.
    - assert (HP : l ++ [p] ++ F ≡ₚ p :: l ++ F) by solve_Permutation. rewrite HP. apply NoDup_cons. by rewrite elem_of_app.
    - cbn [app]. by apply Forall_cons. }
  destruct kmap_all as [Hok Hfold].
  destruct (kvm_loop p F (kmap kdata) s2 l (fun _ => None) Hs2 Hok) as (r & s' & E & Hq' & H).
  { intros va _. unfold mapping, tab. rewrite (load_zeros _ _ _ (PDX_range va) Hz). done. }
  exists (match r with Some v => v | None => p end), s'. rewrite (bind_Ok _ _ _ _ _ E). split; [done|]. split.
  { intros q HqF x Hx. rewrite (Hq' q HqF x Hx). rewrite Forall_forall in HF.
    refine (Hq q (proj1 (HF q HqF)) _ x Hx). intros ->. tauto. }
  rewrite Eo in H. destruct r as [v|].
  - destruct H as (-> & l' & Hk' & Hl'). left. split; [done|]. exists l'. split; [done|]. rewrite Hl'. solve_Permutation.
  - destruct H as (l' & V' & P' & M'). right. split; [done|]. exists l'. split; [done|].
    split; [rewrite P'; solve_Permutation|]. intros va Hva. rewrite M' by done. by apply Hfold.
Qed.

(** ** copyuvm *)
Section Copy.
(** [m0] is the memory when the copy starts, [d0] the parent's directory. *)
Context (m0 : mem) (d0 d : Z) (F0 L : list Z).
Context (Hpar : forall t i, 0 <= i < 1024 -> tab m0 d0 i = Some t -> page_ok t).
#[local] Notation F := (owned m0 d0 ++ F0).

(** The child's page for [va] has the parent's flags and content. *)
Definition copied (m : mem) (va : Z) : Prop := exists e p,
  mapping m0 d0 va = Some e /\ mapping m d va = Some (Z.lor (Z.lor (V2P p) (PTE_FLAGS e)) PTE_P) /\ page_ok p /\
  forall k, 0 <= k < PGSIZE -> m (p + k) = m0 (P2V (PTE_ADDR e) + k).

Record copying (i : Z) (s : kmem) (l : list Z) : Prop := {
  cp_inv : vinv s l d F;
  cp_pages : l ++ owned (pmem s) d ≡ₚ L;
  cp_held : forall q, q ∈ F -> same_page m0 (pmem s) q;
  cp_done : forall va, 0 <= va < i -> copied (pmem s) va;
  cp_rest : forall va, i <= va < 2 ^ 32 -> mapping (pmem s) d va = kmapping va
}.

Lemma flags_range e : 0 <= PTE_FLAGS e < 4096.
Proof using Type. unfold PTE_FLAGS. change 4095 with (Z.ones 12). rewrite Z.land_ones by lia. by apply Z.mod_pos_bound. Qed.

Lemma copying_parent i s l va e : copying i s l -> mapping m0 d0 va = Some e ->
  exists t, tab (pmem s) d0 (PDX va) = Some t /\ page_ok t /\ load32 (pmem s) (t + 4 * PTX va) = e /\ presentb e = true.
Proof using Hpar.
  intros H E. assert (Hd0 : same_page m0 (pmem s) d0) by (apply (cp_held _ _ _ H); unfold owned; by left).
  unfold mapping in E. destruct (tab m0 d0 (PDX va)) as [t|] eqn:Et; [|done]. simpl in E.
  assert (Ht : same_page m0 (pmem s) t).
  { apply (cp_held _ _ _ H). rewrite elem_of_app. left. unfold owned. rewrite elem_of_cons, elem_of_app. right. left.
    apply elem_of_slots. exists (PDX va). split; [apply PDX_range|done]. }
  exists t. rewrite (tab_same m0 (pmem s)) by (done || apply PDX_range). split; [done|].
  split; [by apply (Hpar t _ (PDX_range va))|].
  rewrite (load_same m0 (pmem s)) by (done || apply PTX_range). destruct (presentb _) eqn:Ep; [|done]. by injection E as <-.
Qed.

Lemma copied_same m m' va : copied m va -> mapping m' d va = mapping m d va ->
  (forall p, page_ok p -> p ∈ upages m d -> same_page m m' p) -> 0 <= va < KERNBASE -> copied m' va.
Proof using Hend.
  intros (e & p & E1 & E2 & Hp & Hc) Hm Hq Hva. exists e, p. split; [done|]. split; [by rewrite Hm|]. split; [done|].
  intros k Hk. rewrite <- Hc by done. apply (Hq p Hp); [|unfold in_page; lia].
  rewrite <- (pte_page_of p (PTE_FLAGS e) Hp (flags_range e)). by apply (mapping_upage _ _ va).
Qed.

(** What [goto bad] leaves for [freevm]. *)
Definition given_up (s : kmem) (l : list Z) : Prop :=
  vinv s l d F /\ l ++ owned (pmem s) d ≡ₚ L /\ forall q, q ∈ F -> same_page m0 (pmem s) q.

(** Writing the parent's page [p0] to the new page [v]. *)
Lemma move_page i s v l p0 : copying i s (v :: l) -> p0 ∈ F ->
  exists s1 s2, kalloc s = Ok (v, s1) /\ v <> 0 /\ page_ok v /\ move v p0 PGSIZE s1 = Ok (tt, s2) /\
    vinv s2 l d (v :: F) /\ owned (pmem s2) d = owned (pmem s) d /\ slots (pmem s2) d 1024 = slots (pmem s) d 1024 /\
    (forall va, mapping (pmem s2) d va = mapping (pmem s) d va) /\
    (forall q, page_ok q -> q <> v -> same_page (pmem s) (pmem s2) q) /\
    (forall k, 0 <= k < PGSIZE -> pmem s2 (v + k) = m0 (p0 + k)).
Proof using Hend.
  intros H Hp0. destruct (take_page s v l d F (cp_inv _ _ _ H)) as (s1 & E1 & Hv0 & Hv & Em1 & Hs1).
  set (s2 := set_pmem (memmove (pmem s1) v p0 (Z.to_nat PGSIZE)) s1).
  assert (Hmv : forall x, pmem s2 x = if decide (in_page v x) then pmem s (p0 + (x - v)) else pmem s x).
  { intros x. unfold s2. cbn [pmem set_pmem]. rewrite memmove_spec, Em1. unfold in_page.
    change (Z.of_nat (Z.to_nat PGSIZE)) with PGSIZE. case_decide; cases_Z. }
  destruct (vinv_write s1 s2 l d (v :: F) Hs1 eq_refl) as (Hs2 & Ho & Hsl & _ & Hm & _).
  { intros x Hx. rewrite Hmv, Em1. apply decide_False, Hx. by left. }
  rewrite Em1 in *. exists s1, s2. split; [done|]. split; [done|]. split; [done|]. split; [done|]. split; [done|].
  split; [done|]. split; [done|]. split; [done|]. split.
  - intros q Hq Hne x Hx. rewrite Hmv. apply decide_False. intros Hxv. apply Hne.
    eapply aligned_apart; [apply Hq|apply Hv|done|done].
  - intros k Hk. rewrite Hmv, decide_True by (unfold in_page; lia). rewrite Z.add_simpl_l.
    apply (cp_held _ _ _ H p0 Hp0). unfold in_page. lia.
Qed.

Lemma mapping_vpage m dir va va' : PDX va' = PDX va -> PTX va' = PTX va -> mapping m dir va' = mapping m dir va.
Proof using Type. intros E1 E2. unfold mapping. by rewrite E1, E2. Qed.

Lemma parent_page va e : 0 <= va < KERNBASE -> mapping m0 d0 va = Some e -> P2V (PTE_ADDR e) ∈ F.
Proof using Type.
  intros Hva E. rewrite elem_of_app. left. unfold owned. rewrite elem_of_cons, elem_of_app. right. right.
  by apply (mapping_upage _ _ va).
Qed.

Lemma copy_step i s v l e : copying i s (v :: l) -> aligned i -> 0 <= i < KERNBASE -> mapping m0 d0 i = Some e ->
  exists s1 s2, kalloc s = Ok (v, s1) /\ v <> 0 /\ move v (P2V (PTE_ADDR e)) PGSIZE s1 = Ok (tt, s2) /\
    ((exists s3 l3, mappages d i PGSIZE (V2P v) (PTE_FLAGS e) s2 = Ok (-1, s2) /\ kfree kend v s2 = Ok (tt, s3) /\ given_up s3 l3) \/
     exists s3 l3, mappages d i PGSIZE (V2P v) (PTE_FLAGS e) s2 = Ok (0, s3) /\ copying (i + PGSIZE) s3 l3).
Proof using Hend Hdl.
  intros H Hi Hir He. assert (Hir2 : 0 <= i < 2 ^ 32) by (unfold KERNBASE in *; lia).
  destruct (move_page i s v l (P2V (PTE_ADDR e)) H (parent_page i e Hir He))
    as (s1 & s2 & E1 & Hv0 & Hv & E2 & Hs2 & Ho2 & Hsl2 & Hm2 & Hq2 & Hc2).
  exists s1, s2. split; [done|]. split; [done|]. split; [done|].
  pose proof (vinv_all _ _ _ _ _ (cp_inv _ _ _ H)) as Hall. rewrite Forall_forall in Hall.
  assert (Hheld : forall q, q ∈ F -> page_ok q /\ q <> v).
  { intros q Hq. split; [apply Hall; rewrite !elem_of_app in *; tauto|]. intros ->.
    destruct (held_apart _ _ _ _ _ (cp_inv _ _ _ H) Hq) as (_ & Hx & _). apply Hx. by left. }
  assert (Hun : mapping (pmem s2) d i = None).
  { rewrite Hm2, (cp_rest _ _ _ H) by lia. unfold kmapping. destruct (Z.ltb_spec i KERNBASE); [done|lia]. }
  destruct (map_page s2 l d v F i (PTE_FLAGS e) Hs2 Hi Hir Hun (flags_range e)) as [(-> & E3)|(l3 & s3 & E3 & Hs3 & Ho3 & Hm3 & Hq3 & Hl3 & _)].
  - left. destruct (free_page s2 v [] d F Hs2) as (s3 & E4 & Hs3 & Ho3 & _ & _ & Hq3). exists s3, [v].
    split; [done|]. split; [done|]. split; [done|]. split; [rewrite Ho3, Ho2; apply (cp_pages _ _ _ H)|].
    intros q Hq x Hx. destruct (Hheld q Hq) as [Hqp Hqv]. rewrite (Hq3 q (proj1 Hqp) Hqv x Hx), (Hq2 q Hqp Hqv x Hx).
    by apply (cp_held _ _ _ H q Hq).
  - right. exists s3, l3. split; [done|].
    assert (Hsame : forall q, apart s2 l d q -> page_ok q -> q <> v -> same_page (pmem s) (pmem s3) q).
    { intros q Ha Hq Hne x Hx. rewrite (proj1 (Hq3 q Ha) x Hx). exact (Hq2 q Hq Hne x Hx). }
    split; [done| | | |].
    + rewrite Ho3, Ho2. apply (cp_pages _ _ _ H).
    + intros q Hq x Hx. destruct (Hheld q Hq) as [Hqp Hqv]. rewrite (Hsame q) by (done || (apply (held_apart _ _ _ _ _ Hs2); by right)).
      by apply (cp_held _ _ _ H q Hq).
    + intros va Hva. assert (Hvr : 0 <= va < 2 ^ 32) by (unfold PGSIZE, KERNBASE in *; lia).
      pose proof (same_vpage i va Hi Hir2 Hvr) as Hsv. destruct (decide (va < i)) as [Hlt|Hge].
      * apply (copied_same (pmem s)); [by apply (cp_done _ _ _ H); lia| | |lia].
        { rewrite Hm3, Hm2. apply decide_False. intros Hx. apply Hsv in Hx. lia. }
        intros p Hp Hpu. assert (Hap : apart s (v :: l) d p) by (by eapply upage_apart; [apply (cp_inv _ _ _ H)|]).
        destruct (apart_zero s v l d F s2 p (cp_inv _ _ _ H) Hsl2 Hap). by apply Hsame.
      * assert (Hsame_va : PDX va = PDX i /\ PTX va = PTX i) by (apply Hsv; lia). exists e, v.
        split; [by rewrite (mapping_vpage m0 d0 i va) by tauto|]. split; [rewrite Hm3; by apply decide_True|]. split; [done|].
        intros k Hk. rewrite <- Hc2 by done. apply (proj1 (Hq3 v (held_apart _ _ _ _ _ Hs2 ltac:(by left)))). unfold in_page. lia.
    + intros va Hva. rewrite Hm3, Hm2, decide_False; [apply (cp_rest _ _ _ H); unfold PGSIZE in *; lia|].
      intros Hx. apply same_vpage in Hx; [lia|done|done|unfold PGSIZE in *; lia].
Qed.

Lemma copy_run n : forall i s l sz, copying i s l -> aligned i -> 0 <= i -> 0 <= sz < KERNBASE -> sz - i <= Z.of_nat n * PGSIZE ->
  i < sz + PGSIZE ->
  (forall va, 0 <= va -> PGROUNDDOWN va < sz -> exists e, mapping m0 d0 va = Some e) ->
  exists ok s' l', copy_loop kend n d0 d i sz s = Ok (ok, s') /\
    if (ok : bool) then exists j, sz <= j < sz + PGSIZE /\ aligned j /\ copying j s' l' else given_up s' l'.
Proof using Hend Hdl Hpar.
  induction n as [|n IH]; intros i s l sz H Hi H0 Hsz Hn Hend' Hpm; cbn [copy_loop];
    (destruct (Z.ltb_spec i sz) as [Hlt|Hge]; [try lia|exists true, s, l; split; [done|]; exists i; split; [lia|done]]).
  destruct (Hpm i H0) as [e He]; [by rewrite PGROUNDDOWN_id|].
  destruct (copying_parent i s l i e H He) as (t & Et & Htp & El & Ep).
  rewrite (bind_Ok _ _ _ _ _ (walk_present s d0 i t false Et)). pose proof (PTX_range i).
  destruct (Z.eqb_spec (t + 4 * PTX i) 0) as [Hz|_]; [destruct Htp; unfold KERNBASE in *; lia|].
  unfold word_at. rewrite (bind_Ok _ _ s e s) by (unfold gets; by rewrite El). rewrite Ep. cbn [negb].
  destruct l as [|v l].
  { rewrite (bind_Ok _ _ _ _ _ (kalloc_run kend Hkend s [] (vi_free _ _ _ _ _ (cp_inv _ _ _ H)))). cbn [Z.eqb].
    exists false, s, []. split; [done|]. split; [apply H|]. split; [apply H|apply H]. }
  destruct (copy_step i s v l e H Hi ltac:(lia) He) as (s1 & s2 & E1 & Hv0 & E2 & Hc).
  rewrite (bind_Ok _ _ _ _ _ E1). destruct (Z.eqb_spec v 0); [done|]. rewrite (bind_Ok _ _ _ _ _ E2).
  destruct Hc as [(s3 & l3 & E3 & E4 & Hg)|(s3 & l3 & E3 & H3)]; rewrite (bind_Ok _ _ _ _ _ E3); cbn [Z.ltb Z.compare].
  - exists false, s3, l3. rewrite (bind_Ok _ _ _ _ _ E4). done.
  - rewrite u32_small by (unfold PGSIZE, KERNBASE in *; lia).
    apply (IH (i + PGSIZE) s3 l3 sz H3 (aligned_next _ Hi)); [unfold PGSIZE in *; lia|done|unfold PGSIZE in *; lia|unfold PGSIZE in *; lia|done].
Qed.
End Copy.

Lemma copyuvm_run s l d0 F0 sz : vinv s l d0 F0 -> 0 <= sz < KERNBASE ->
  (forall va, 0 <= va -> PGROUNDDOWN va < sz -> exists e, mapping (pmem s) d0 va = Some e) ->
  exists r s' l', copyuvm kend kdata d0 sz s = Ok (r, s') /\
    (forall q, q ∈ owned (pmem s) d0 ++ F0 -> same_page (pmem s) (pmem s') q) /\
    ((r = 0 /\ kinv s' l' /\ l' ≡ₚ l) \/
     (r <> 0 /\ vinv s' l' r (owned (pmem s) d0 ++ F0) /\ l' ++ owned (pmem s') r ≡ₚ l /\
       (forall va, 0 <= va -> PGROUNDDOWN va < sz -> copied (pmem s) d0 r (pmem s') va) /\
       (forall va, sz <= PGROUNDDOWN va < 2 ^ 32 -> mapping (pmem s') r va = kmapping va))).
Proof using Hda Hdl Hend.
  intros Hs Hsz Hpm. unfold copyuvm.
  destruct (setupkvm_run s l (owned (pmem s) d0 ++ F0)) as (d & s1 & E1 & Hq1 & Hc1); [apply Hs..|].
  rewrite (bind_Ok _ _ _ _ _ E1). destruct Hc1 as [(-> & l1 & Hk1 & Hl1)|(Hd & l1 & Hs1 & Hl1 & Hm1)].
  { cbn [Z.eqb]. exists 0, s1, l1. split; [done|]. split; [done|]. by left. }
  destruct (Z.eqb_spec d 0); [done|].
  assert (Hc0 : copying (pmem s) d0 d F0 l 0 s1 l1) by (split; [done|done|done|intros; lia|intros; apply Hm1; lia]).
  destruct (copy_run (pmem s) d0 d F0 l (fun t i Hi E => proj1 (vinv_tab _ _ _ _ _ _ _ Hs Hi E)) (Z.to_nat (sz / PGSIZE + 1)) 0 s1 l1 sz Hc0)
    as (ok & s2 & l2 & E2 & Hc2); [done|done|done| |unfold PGSIZE; lia|done|].
  { pose proof (Z.div_mod sz PGSIZE ltac:(done)). pose proof (Z.mod_pos_bound sz PGSIZE ltac:(done)).
    assert (0 <= sz / PGSIZE) by (apply Z.div_pos; unfold PGSIZE; lia). unfold PGSIZE in *. lia. }
  rewrite (bind_Ok _ _ _ _ _ E2). destruct ok.
  - destruct Hc2 as (j & Hj & Hja & [H1 H2 H3 H4 H5]). exists d, s2, l2. split; [done|]. split; [done|]. right.
    split; [done|]. split; [done|]. split; [done|]. split; intros va Hva.
    + intros Hv. apply H4. pose proof (rounddown_below va j Hja). lia.
    + pose proof (rounddown_below va j Hja). pose proof (rounddown_below va (2 ^ 32) eq_refl). apply H5.
      pose proof (PGROUNDDOWN_aligned va) as Hal. unfold aligned, PGSIZE in *. apply Z.mod_divide in Hal as [k Hk], Hja as [k' Hk']; [|done..]. lia.
  - destruct Hc2 as (H1 & H2 & H3). destruct (freevm_run s2 l2 d _ H1) as (s3 & l3 & E3 & Hk3 & Hl3 & Hq3).
    exists 0, s3, l3. rewrite (bind_Ok _ _ _ _ _ E3). split; [done|]. split; [|left; split; [done|split; [done|by rewrite Hl3]]].
    intros q Hq x Hx. rewrite <- (H3 q Hq x Hx). apply (Hq3 q); [|rewrite Hl3|done].
    + by destruct (held_apart _ _ _ _ _ H1 Hq).
    + pose proof (vi_nodup _ _ _ _ _ H1) as Hn. rewrite app_assoc in Hn. apply NoDup_app in Hn as (_ & Hn & _). intros Hx'. by apply (Hn q).
Qed.

Lemma allocuvm_run s l d F oldsz newsz : vinv s l d F -> 0 <= oldsz <= newsz -> newsz < KERNBASE ->
  (forall va, 0 <= va < 2 ^ 32 -> in_range (PGROUNDUP oldsz) newsz va -> mapping (pmem s) d va = None) ->
  exists r s' l', allocuvm kend d oldsz newsz s = Ok (r, s') /\
    ((r = newsz /\ alloc_post s l d F (PGROUNDUP oldsz) newsz s' l') \/
     (r = 0 /\ alloc_fail s l d F (PGROUNDUP oldsz) newsz s' l' /\
      Z.of_nat (length l) * PGSIZE < 2 * (PGROUNDUP newsz - PGROUNDUP oldsz))).
Proof using Hend.
  intros Hs Hsz Hk Hun. unfold allocuvm. destruct (Z.leb_spec KERNBASE newsz); [lia|]. destruct (Z.ltb_spec newsz oldsz); [lia|].
  destruct (PGROUNDUP_spec oldsz) as [Ha Hr]; [lia|]. apply alloc_run; try done.
  pose proof (Z.div_mod newsz PGSIZE ltac:(done)). pose proof (Z.mod_pos_bound newsz PGSIZE ltac:(done)).
  assert (0 <= newsz / PGSIZE) by (apply Z.div_pos; unfold PGSIZE; lia). unfold PGSIZE in *. lia.
Qed.

(** ** Properties *)

(** Claim C22. [allocuvm] grows an address space without panic or fault.  On success
    every page from the old size to the new one is mapped to a zeroed page
    that was free, user accessible and writable, and nothing else changes.
    Otherwise it returns 0, there were fewer than two free pages for each
    page asked for, the pages it had mapped are unmapped again and no page
    is lost. *)
Theorem allocuvm_correct s l d F oldsz newsz (Hs : vinv s l d F) (Hsz : 0 <= oldsz <= newsz) (Hk : newsz < KERNBASE)
    (Hun : forall va, 0 <= va < 2 ^ 32 -> in_range (PGROUNDUP oldsz) newsz va -> mapping (pmem s) d va = None) :
  exists r s' l', allocuvm kend d oldsz newsz s = Ok (r, s') /\
    ((r = newsz /\ alloc_post s l d F (PGROUNDUP oldsz) newsz s' l') \/
     (r = 0 /\ alloc_fail s l d F (PGROUNDUP oldsz) newsz s' l' /\
      Z.of_nat (length l) * PGSIZE < 2 * (PGROUNDUP newsz - PGROUNDUP oldsz))).
Proof using Hend. exact (allocuvm_run s l d F oldsz newsz Hs Hsz Hk Hun). Qed.

(** Claim C23. [freevm] gives every page of the address space back to the allocator,
    each exactly once, and changes no page that is still in use. *)
Theorem freevm_returns_pages s l d F (Hs : vinv s l d F) :
  exists s' l', freevm kend d s = Ok (tt, s') /\ kinv s' l' /\ l' ≡ₚ l ++ owned (pmem s) d /\
    (forall q, aligned q -> q ∉ l' -> same_page (pmem s) (pmem s') q).
Proof using Hend. exact (freevm_run s l d F Hs). Qed.

(** [setupkvm] either returns a directory with exactly the kernel's
    mappings, or returns 0 with all its pages back on the free list; the
    pages held elsewhere are unchanged. *)
Theorem setupkvm_correct s l F (Hfree : kinv s l) (Hn : NoDup (l ++ F)) (HF : Forall page_ok F) :
  exists r s', setupkvm kend kdata s = Ok (r, s') /\ (forall q, q ∈ F -> same_page (pmem s) (pmem s') q) /\
    ((r = 0 /\ exists l', kinv s' l' /\ l' ≡ₚ l) \/
     (r <> 0 /\ exists l', vinv s' l' r F /\ l' ++ owned (pmem s') r ≡ₚ l /\
        forall va, 0 <= va < 2 ^ 32 -> mapping (pmem s') r va = kmapping va)).
Proof using Hda Hdl Hend. exact (setupkvm_run s l F Hfree Hn HF). Qed.

(** Claim C21. [copyuvm] on an address space that is mapped up to [sz] either returns
    a new address space in which every page below [sz] has the parent's
    flags and content in a page of its own, or returns 0 with no page lost.
    The parent's pages and those held elsewhere are unchanged. *)
Theorem copyuvm_correct s l d0 F0 sz (Hs : vinv s l d0 F0) (Hsz : 0 <= sz < KERNBASE)
    (Hpm : forall va, 0 <= va -> PGROUNDDOWN va < sz -> exists e, mapping (pmem s) d0 va = Some e) :
  exists r s' l', copyuvm kend kdata d0 sz s = Ok (r, s') /\
    (forall q, q ∈ owned (pmem s) d0 ++ F0 -> same_page (pmem s) (pmem s') q) /\
    ((r = 0 /\ kinv s' l' /\ l' ≡ₚ l) \/
     (r <> 0 /\ vinv s' l' r (owned (pmem s) d0 ++ F0) /\ l' ++ owned (pmem s') r ≡ₚ l /\
       (forall va, 0 <= va -> PGROUNDDOWN va < sz -> copied (pmem s) d0 r (pmem s') va) /\
       (forall va, sz <= PGROUNDDOWN va < 2 ^ 32 -> mapping (pmem s') r va = kmapping va))).
Proof using Hda Hdl Hend. exact (copyuvm_run s l d0 F0 sz Hs Hsz Hpm). Qed.
End Kvm.
End VmThms.

(** ** A concrete memory

    The kernel ends at 2M; the directory at 4M is empty and three pages are
    free. *)
Definition kend0 : Z := KERNBASE + 2097152.
Definition dir0 : Z := KERNBASE + 4194304.
Definition zeros : kmem := mkKmem (fun _ => 0) 0 true [].
Definition freed_at (k : Z) (s : kmem) : kmem :=
  match kfree kend0 (dir0 + k * PGSIZE) s with Ok (_, s') => s' | _ => s end.
Definition vm0 : kmem := freed_at 3 (freed_at 2 (freed_at 1 zeros)).
Definition free0 : list Z := [dir0 + 3 * PGSIZE; dir0 + 2 * PGSIZE; dir0 + 1 * PGSIZE].

Lemma kend0_ok : KERNBASE < kend0.
Proof. done. Qed.

Lemma page0_ok k : 0 <= k < 100 -> page_ok kend0 (dir0 + k * PGSIZE).
Proof.
  intros Hk. split; [|unfold kend0, dir0, KERNBASE, PHYSTOP, PGSIZE; lia].
  unfold aligned. rewrite Z.add_mod, Z.mod_mul by done. done.
Qed.

Lemma zeros_vinv : vinv kend0 zeros [] (dir0 + 0 * PGSIZE) [dir0 + 1 * PGSIZE; dir0 + 2 * PGSIZE; dir0 + 3 * PGSIZE].
Proof.
  assert (E : owned (pmem zeros) (dir0 + 0 * PGSIZE) = [dir0 + 0 * PGSIZE]).
  { unfold owned, upages. rewrite !slots_zeros by done. done. }
  split; rewrite ?E.
  - split; [done|constructor|constructor].
  - apply (bool_decide_unpack _). vm_compute. done.
  - cbn [app]. repeat (apply Forall_cons; split; [apply page0_ok; lia|]). constructor.
Qed.

Lemma freed_at_run k s l F : vinv kend0 s l (dir0 + 0 * PGSIZE) (dir0 + k * PGSIZE :: F) ->
  owned (pmem s) (dir0 + 0 * PGSIZE) = [dir0 + 0 * PGSIZE] -> (forall va, mapping (pmem s) (dir0 + 0 * PGSIZE) va = None) ->
  vinv kend0 (freed_at k s) (dir0 + k * PGSIZE :: l) (dir0 + 0 * PGSIZE) F /\
  owned (pmem (freed_at k s)) (dir0 + 0 * PGSIZE) = [dir0 + 0 * PGSIZE] /\
  forall va, mapping (pmem (freed_at k s)) (dir0 + 0 * PGSIZE) va = None.
Proof.
  intros Hs Ho Hm. destruct (free_page kend0 kend0_ok _ _ _ _ _ Hs) as (s' & E & H1 & H2 & _ & H3 & _).
  unfold freed_at. rewrite E. split; [done|]. rewrite H2. split; [done|]. intros va. by rewrite H3.
Qed.

Lemma vm0_vinv : vinv kend0 vm0 free0 (dir0 + 0 * PGSIZE) [] /\ owned (pmem vm0) (dir0 + 0 * PGSIZE) = [dir0 + 0 * PGSIZE] /\
  forall va, mapping (pmem vm0) (dir0 + 0 * PGSIZE) va = None.
Proof.
  assert (E : owned (pmem zeros) (dir0 + 0 * PGSIZE) = [dir0 + 0 * PGSIZE]).
  { unfold owned, upages. rewrite !slots_zeros by done. done. }
  destruct (freed_at_run 1 zeros [] _ zeros_vinv E) as (H1 & E1 & M1); [done|].
  destruct (freed_at_run 2 _ _ _ H1 E1 M1) as (H2 & E2 & M2). exact (freed_at_run 3 _ _ _ H2 E2 M2).
Qed.

Lemma allocuvm_correct_witness :
  exists r s' l', allocuvm kend0 (dir0 + 0 * PGSIZE) 100 5000 vm0 = Ok (r, s') /\
    ((r = 5000 /\ alloc_post kend0 vm0 free0 (dir0 + 0 * PGSIZE) [] (PGROUNDUP 100) 5000 s' l') \/
     (r = 0 /\ alloc_fail kend0 vm0 free0 (dir0 + 0 * PGSIZE) [] (PGROUNDUP 100) 5000 s' l' /\
      Z.of_nat (length free0) * PGSIZE < 2 * (PGROUNDUP 5000 - PGROUNDUP 100))).
Proof.
  refine (allocuvm_correct kend0 kend0_ok vm0 free0 (dir0 + 0 * PGSIZE) [] 100 5000 (proj1 vm0_vinv) _ _ _);
    [lia|done|]. intros va _ _. apply vm0_vinv.
Defined.

Lemma freevm_returns_pages_witness :
  exists s' l', freevm kend0 (dir0 + 0 * PGSIZE) vm0 = Ok (tt, s') /\ kinv kend0 s' l' /\
    l' ≡ₚ free0 ++ owned (pmem vm0) (dir0 + 0 * PGSIZE) /\ (forall q, aligned q -> q ∉ l' -> same_page (pmem vm0) (pmem s') q).
Proof. exact (freevm_returns_pages kend0 kend0_ok vm0 free0 (dir0 + 0 * PGSIZE) [] (proj1 vm0_vinv)). Defined.

Definition kdata0 : Z := KERNBASE + 1097728.

Lemma setupkvm_correct_witness :
  exists r s', setupkvm kend0 kdata0 vm0 = Ok (r, s') /\ (forall q, q ∈ [] -> same_page (pmem vm0) (pmem s') q) /\
    ((r = 0 /\ exists l', kinv kend0 s' l' /\ l' ≡ₚ free0) \/
     (r <> 0 /\ exists l', vinv kend0 s' l' r [] /\ l' ++ owned (pmem s') r ≡ₚ free0 /\
        forall va, 0 <= va < 2 ^ 32 -> mapping (pmem s') r va = kmapping kdata0 va)).
Proof.
  refine (setupkvm_correct kend0 kend0_ok kdata0 eq_refl _ vm0 free0 [] (vi_free _ _ _ _ _ (proj1 vm0_vinv)) _ _);
    [done| |constructor]. rewrite app_nil_r. exact (ki_nodup _ _ _ (vi_free _ _ _ _ _ (proj1 vm0_vinv))).
Defined.

(** One page of user memory at address 0, and what is free then. *)
Definition vm1 : kmem := match allocuvm kend0 (dir0 + 0 * PGSIZE) 0 PGSIZE vm0 with Ok (_, s) => s | _ => vm0 end.

Lemma vm1_run : exists l1, allocuvm kend0 (dir0 + 0 * PGSIZE) 0 PGSIZE vm0 = Ok (PGSIZE, vm1) /\
  alloc_post kend0 vm0 free0 (dir0 + 0 * PGSIZE) [] (PGROUNDUP 0) PGSIZE vm1 l1.
Proof.
  destruct (allocuvm_run kend0 kend0_ok vm0 free0 (dir0 + 0 * PGSIZE) [] 0 PGSIZE (proj1 vm0_vinv)) as (r & s' & l' & E & H);
    [done|done|intros va _ _; apply vm0_vinv|].
  destruct H as [[-> H]|(_ & _ & H)]; [|vm_compute in H; done].
  exists l'. unfold vm1. rewrite E. split; [reflexivity|exact H].
Qed.

Lemma copyuvm_correct_witness :
  exists l1 r s' l', vinv kend0 vm1 l1 (dir0 + 0 * PGSIZE) [] /\ copyuvm kend0 kdata0 (dir0 + 0 * PGSIZE) PGSIZE vm1 = Ok (r, s') /\
    (forall q, q ∈ owned (pmem vm1) (dir0 + 0 * PGSIZE) ++ [] -> same_page (pmem vm1) (pmem s') q) /\
    ((r = 0 /\ kinv kend0 s' l' /\ l' ≡ₚ l1) \/
     (r <> 0 /\ vinv kend0 s' l' r (owned (pmem vm1) (dir0 + 0 * PGSIZE) ++ []) /\ l' ++ owned (pmem s') r ≡ₚ l1 /\
       (forall va, 0 <= va -> PGROUNDDOWN va < PGSIZE -> copied kend0 (pmem vm1) (dir0 + 0 * PGSIZE) r (pmem s') va) /\
       (forall va, PGSIZE <= PGROUNDDOWN va < 2 ^ 32 -> mapping (pmem s') r va = kmapping kdata0 va))).
Proof.
  destruct vm1_run as (l1 & _ & H1 & _ & _ & H2 & _). exists l1.
  destruct (copyuvm_correct kend0 kend0_ok kdata0 eq_refl ltac:(done) vm1 l1 (dir0 + 0 * PGSIZE) [] PGSIZE H1 ltac:(done))
    as (r & s' & l' & H); [|exists r, s', l'; split; [exact H1|exact H]].
  intros va H0 Hva. pose proof (PGROUNDDOWN_le va). destruct (H2 va) as (p & E & _); [unfold PGSIZE in *; lia| |eauto].
  split; [change (PGROUNDUP 0) with 0; lia|done].
Defined.
