(* ===== verification/Bio.v ===== *)
(** * Sleep locks and the buffer cache: sleeplock.c, bio.c

    A [struct buf*] is the index of the buffer in [bcache.buf]; the doubly
    linked list is the sequence of indices from [head.next] to [head.prev].
    One process runs the file system code at a time, so a sleep lock that is
    found held would never be released: [acquiresleep] then has no result and
    the call is a [Fault].  [iderw] is its effect when it returns (the driver
    itself is in Ide.v); [trace] collects the blocks written to the disk, in
    order, so that a crash is a prefix of it. *)

From stdpp Require Import prelude strings.
From S2P Require Import Prelude.

Open Scope Z_scope.

(** ** Sleep locks *)
Record sleeplock : Type := mkSl { sl_locked : bool; sl_pid : Z }.

Definition initsleeplock : sleeplock := mkSl false 0.

(** [None]: the caller sleeps on the lock. *)
Definition acquiresleep (pid : Z) (lk : sleeplock) : option sleeplock :=
  if sl_locked lk then None else Some (mkSl true pid).

Definition releasesleep (lk : sleeplock) : sleeplock := mkSl false 0.

Definition holdingsleep (pid : Z) (lk : sleeplock) : bool := sl_locked lk && (sl_pid lk =? pid).

(** ** The cache *)
Definition BSIZE : Z := 512.
Definition NBUF : nat := 30.
Definition FSSIZE : Z := 1000.

Notation block := (list Z).
Definition zero_block : block := replicate (Z.to_nat BSIZE) 0.

Record buf : Type := mkBuf {
  b_valid : bool;          (** [B_VALID] *)
  b_dirty : bool;          (** [B_DIRTY] *)
  b_dev : Z;
  b_blockno : Z;
  b_lock : sleeplock;
  b_refcnt : Z;
  b_data : block
}.

Definition set_b_flags (v d : bool) (b : buf) : buf :=
  mkBuf v d (b_dev b) (b_blockno b) (b_lock b) (b_refcnt b) (b_data b).
Definition set_b_lock (l : sleeplock) (b : buf) : buf :=
  mkBuf (b_valid b) (b_dirty b) (b_dev b) (b_blockno b) l (b_refcnt b) (b_data b).
Definition set_b_refcnt (n : Z) (b : buf) : buf :=
  mkBuf (b_valid b) (b_dirty b) (b_dev b) (b_blockno b) (b_lock b) n (b_data b).
Definition set_b_data (d : block) (b : buf) : buf :=
  mkBuf (b_valid b) (b_dirty b) (b_dev b) (b_blockno b) (b_lock b) (b_refcnt b) d.

Record bio : Type := mkBio {
  bufs : list buf;
  mru : list nat;                      (** [head.next] first *)
  disk : Z -> Z -> block;              (** device, block number *)
  trace : list (Z * Z * block)         (** the writes, oldest first *)
}.

Definition set_bufs (l : list buf) (s : bio) : bio := mkBio l (mru s) (disk s) (trace s).
Definition set_mru (l : list nat) (s : bio) : bio := mkBio (bufs s) l (disk s) (trace s).

Definition get_buf (i : nat) : M bio buf := s ← get; deref (bufs s !! i).
Definition upd_buf (i : nat) (f : buf -> buf) : M bio unit :=
  b ← get_buf i; modify (fun s => set_bufs (<[i := f b]> (bufs s)) s).

(** All buffers zero, the list built by inserting each behind [head]. *)
Definition binit (d : Z -> Z -> block) : bio :=
  mkBio (replicate NBUF (mkBuf false false 0 0 initsleeplock 0 zero_block))
        (reverse (seq 0 NBUF)) d [].

Definition write_disk (dev bno : Z) (d : block) (s : bio) : bio :=
  mkBio (bufs s) (mru s)
    (fun v b => if (v =? dev) && (b =? bno) then d else disk s v b)
    (trace s ++ [(dev, bno, d)]).

Section Bio.
(** [pid] is [myproc()->pid]. *)
Context (pid : Z).

Definition lock_buf (i : nat) : M bio unit :=
  b ← get_buf i; l ← deref (acquiresleep pid (b_lock b)); upd_buf i (set_b_lock l).

(** The first buffer of the list that satisfies [P]. *)
Fixpoint find_buf (P : buf -> bool) (bs : list buf) (l : list nat) : option nat :=
  match l with
  | [] => None
  | i :: l' =>
      match bs !! i with
      | Some b => if P b then Some i else find_buf P bs l'
      | None => None
      end
  end.

Definition is_block (dev blockno : Z) (b : buf) : bool := (b_dev b =? dev) && (b_blockno b =? blockno).
Definition unused (b : buf) : bool := (b_refcnt b =? 0) && negb (b_dirty b).

Definition bget (dev blockno : Z) : M bio nat :=
  s ← get;
  match find_buf (is_block dev blockno) (bufs s) (mru s) with
  | Some i =>
      upd_buf i (fun b => set_b_refcnt (u32 (b_refcnt b + 1)) b);; lock_buf i;; mret i
  | None =>
      match find_buf unused (bufs s) (reverse (mru s)) with
      | Some i =>
          upd_buf i (fun b => mkBuf false false dev blockno (b_lock b) 1 (b_data b));;
          lock_buf i;; mret i
      | None => panic "bget: no buffers"
      end
  end.

(** ide.c: write a dirty buffer, read one that is not valid. *)
Definition iderw (i : nat) : M bio unit :=
  b ← get_buf i;
  if negb (holdingsleep pid (b_lock b)) then panic "iderw: buf not locked"
  else if b_valid b && negb (b_dirty b) then panic "iderw: nothing to do"
  else if FSSIZE <=? b_blockno b then panic "incorrect blockno"
  else if b_dirty b then
    modify (write_disk (b_dev b) (b_blockno b) (b_data b));;
    upd_buf i (set_b_flags true false)
  else
    s ← get;
    upd_buf i (fun b => set_b_flags true false (set_b_data (disk s (b_dev b) (b_blockno b)) b)).

Definition bread (dev blockno : Z) : M bio nat :=
  i ← bget dev blockno;
  b ← get_buf i;
  (if negb (b_valid b) then iderw i else mret tt);;
  mret i.

Definition bwrite (i : nat) : M bio unit :=
  b ← get_buf i;
  if negb (holdingsleep pid (b_lock b)) then panic "bwrite"
  else upd_buf i (fun b => set_b_flags (b_valid b) true b);; iderw i.

Definition brelse (i : nat) : M bio unit :=
  b ← get_buf i;
  if negb (holdingsleep pid (b_lock b)) then panic "brelse"
  else
    upd_buf i (fun b => set_b_lock (releasesleep (b_lock b)) b);;
    upd_buf i (fun b => set_b_refcnt (u32 (b_refcnt b - 1)) b);;
    b ← get_buf i;
    if b_refcnt b =? 0 then modify (fun s => set_mru (i :: filter (.≠ i) (mru s)) s) else mret tt.
End Bio.
