(* ===== verification/BioInv.v ===== *)
(** * The buffer cache: coherence

    [view] is the content of a block as the kernel sees it: the cached copy
    if there is one, the disk otherwise.  [cinv] says that the cache holds
    each block at most once and that an unlocked copy differs from the disk
    only if it is dirty.  The lemmas give each operation's effect on [view],
    on the disk and on the sets of locked and dirty blocks. *)

From stdpp Require Import prelude strings.
From S2P Require Import Prelude Bio.

Open Scope Z_scope.

(** ** Counting *)
Definition count {A} (P : A -> bool) (l : list A) : nat := length (filter (fun x => P x = true) l).

Lemma count_cons {A} (P : A -> bool) x l : count P (x :: l) = (Nat.b2n (P x) + count P l)%nat.
Proof. unfold count. rewrite filter_cons. destruct (P x); case_decide; done. Qed.

Lemma count_insert {A} (P : A -> bool) l i x y : l !! i = Some x ->
  (count P (<[i := y]> l) + Nat.b2n (P x) = count P l + Nat.b2n (P y))%nat.
Proof.
  revert i. induction l as [|z l IH]; intros [|i] Hi; simpl in *; try done.
  - injection Hi as ->. rewrite !count_cons. lia.
  - rewrite !count_cons. specialize (IH i Hi). lia.
Qed.

Lemma count_pos {A} (P : A -> bool) l : (0 < count P l)%nat -> exists i x, l !! i = Some x /\ P x = true.
Proof.
  induction l as [|z l IH]; [cbv; lia|]. rewrite count_cons. destruct (P z) eqn:E.
  - intros _. by exists 0%nat, z.
  - intros H. destruct IH as (i & x & ? & ?); [simpl in H; lia|]. by exists (S i), x.
Qed.

Lemma count_le {A} (P Q : A -> bool) l : (forall x, P x = true -> Q x = true) -> (count P l <= count Q l)%nat.
Proof.
  intros H. induction l as [|z l IH]; [done|]. rewrite !count_cons. specialize (H z).
  destruct (P z), (Q z); simpl; lia || (by discriminate H).
Qed.

Lemma count_split {A} (P Q : A -> bool) l : (forall x, x ∈ l -> P x = negb (Q x)) -> (count P l + count Q l = length l)%nat.
Proof.
  induction l as [|z l IH]; intros H; [done|]. rewrite !count_cons. cbn [length].
  rewrite <- IH by (intros; apply H; by right). rewrite (H z) by by left. destruct (Q z); simpl; lia.
Qed.

(** ** Finding a buffer *)
Lemma find_buf_Some P bs l i : find_buf P bs l = Some i -> i ∈ l /\ exists b, bs !! i = Some b /\ P b = true.
Proof.
  induction l as [|j l IH]; simpl; [done|]. destruct (bs !! j) as [b|] eqn:E; [|done].
  destruct (P b) eqn:Eb.
  - intros [= <-]. split; [by left|eauto].
  - intros H. destruct (IH H) as [? ?]. split; [by right|done].
Qed.

Lemma find_buf_None P bs l i b : (forall j, j ∈ l -> is_Some (bs !! j)) -> find_buf P bs l = None -> i ∈ l -> bs !! i = Some b -> P b = false.
Proof.
  induction l as [|j l IH]; simpl; intros Hl H Hi Hb; [by apply elem_of_nil in Hi|].
  destruct (Hl j) as [x Ex]; [by left|]. rewrite Ex in H. destruct (P x) eqn:Ep; [done|].
  apply elem_of_cons in Hi as [->|Hi]; [congruence|]. apply IH; try done. intros k Hk. apply Hl. by right.
Qed.

Section BioInv.
Context (pid : Z).

Definition locked_by (b : buf) : bool := sl_locked (b_lock b).

(** A buffer in use by the caller, or not in use. *)
Definition buf_ok (b : buf) : Prop :=
  if locked_by b then sl_pid (b_lock b) = pid /\ b_refcnt b = 1 /\ b_dev b <> 0 else b_refcnt b = 0.

Record cinv (s : bio) : Prop := {
  ci_len : length (bufs s) = NBUF;
  ci_mru : mru s ≡ₚ seq 0 NBUF;
  ci_uniq : forall i j x y, bufs s !! i = Some x -> bufs s !! j = Some y -> b_dev x <> 0 ->
    b_dev x = b_dev y -> b_blockno x = b_blockno y -> i = j;
  ci_ok : forall i x, bufs s !! i = Some x -> buf_ok x;
  ci_valid : forall i x, bufs s !! i = Some x -> if b_dev x =? 0 then b_dirty x = false else b_valid x = true;
  ci_clean : forall i x, bufs s !! i = Some x -> b_dev x <> 0 -> b_dirty x = false -> locked_by x = false ->
    b_data x = disk s (b_dev x) (b_blockno x)
}.

(** ** The abstraction *)
Definition cached (s : bio) (dev bno : Z) : option buf :=
  find_buf (is_block dev bno) (bufs s) (mru s) ≫= fun i => bufs s !! i.
Definition view (s : bio) (dev bno : Z) : block :=
  match cached s dev bno with Some b => b_data b | None => disk s dev bno end.
Definition dirty (s : bio) (dev bno : Z) : bool :=
  match cached s dev bno with Some b => b_dirty b | None => false end.
Definition locked (s : bio) (dev bno : Z) : bool :=
  match cached s dev bno with Some b => locked_by b | None => false end.

(** Buffer [i] is held by the caller and contains this block. *)
Definition holds (s : bio) (i : nat) (dev bno : Z) : Prop :=
  exists b, bufs s !! i = Some b /\ b_dev b = dev /\ b_blockno b = bno /\ locked_by b = true.

Definition room (s : bio) : nat := count unused (bufs s).

Lemma is_block_spec dev bno b : is_block dev bno b = true <-> b_dev b = dev /\ b_blockno b = bno.
Proof using Type. unfold is_block. rewrite andb_true_iff, !Z.eqb_eq. done. Qed.

Lemma mru_all s i : cinv s -> i ∈ mru s <-> (i < NBUF)%nat.
Proof using Type. intros H. rewrite (ci_mru _ H), elem_of_seq. lia. Qed.

Lemma mru_some s i : cinv s -> i ∈ mru s -> is_Some (bufs s !! i).
Proof using Type. intros H Hi. apply lookup_lt_is_Some. rewrite (ci_len _ H). by apply (mru_all s). Qed.

Lemma buf_in_mru s i b : cinv s -> bufs s !! i = Some b -> i ∈ mru s.
Proof using Type. intros H Hb. apply (mru_all s); [done|]. rewrite <- (ci_len _ H). by eapply lookup_lt_Some. Qed.

Lemma cached_Some s i b dev bno : cinv s -> dev <> 0 -> bufs s !! i = Some b -> b_dev b = dev -> b_blockno b = bno ->
  find_buf (is_block dev bno) (bufs s) (mru s) = Some i /\ cached s dev bno = Some b.
Proof using Type.
  intros H Hd Hb <- <-. unfold cached. destruct (find_buf _ _ _) as [j|] eqn:E.
  - apply find_buf_Some in E as (Hj & c & Ec & Ep). apply is_block_spec in Ep as [E1 E2].
    assert (i = j) as <- by (by eapply (ci_uniq s H i j b c)). simpl. by rewrite Hb.
  - assert (Hc : is_block (b_dev b) (b_blockno b) b = false).
    { eapply find_buf_None; [intros j; apply mru_some; done|exact E|by eapply buf_in_mru|done]. }
    assert (Ht : is_block (b_dev b) (b_blockno b) b = true) by (by apply is_block_spec). congruence.
Qed.

Lemma cached_inv s dev bno b : cinv s -> cached s dev bno = Some b ->
  exists i, find_buf (is_block dev bno) (bufs s) (mru s) = Some i /\ bufs s !! i = Some b /\ b_dev b = dev /\ b_blockno b = bno.
Proof using Type.
  intros H. unfold cached. destruct (find_buf _ _ _) as [i|] eqn:E; [|done]. simpl. intros Hb.
  apply find_buf_Some in E as (_ & c & Ec & Ep). rewrite Hb in Ec. injection Ec as <-. apply is_block_spec in Ep. eauto.
Qed.

Lemma cached_None s dev bno i b : cinv s -> cached s dev bno = None -> bufs s !! i = Some b ->
  ~ (b_dev b = dev /\ b_blockno b = bno).
Proof using Type.
  intros H Hn Hb Hx. unfold cached in Hn. destruct (find_buf _ _ _) as [j|] eqn:E; simpl in Hn.
  - apply find_buf_Some in E as (_ & c & Ec & _). congruence.
  - apply is_block_spec in Hx. assert (Hf : is_block dev bno b = false); [|congruence].
    eapply find_buf_None; [intros k; by apply mru_some|exact E|by eapply buf_in_mru|done].
Qed.

(** Replacing buffer [i]: the block it held leaves the cache, the block it
    now holds enters. *)
Lemma cached_update s s' i x y : cinv s -> cinv s' -> bufs s' = <[i := y]> (bufs s) -> bufs s !! i = Some x ->
  b_dev y <> 0 ->
  forall dev bno, dev <> 0 -> cached s' dev bno =
    if is_block dev bno y then Some y else if is_block dev bno x then None else cached s dev bno.
Proof using Type.
  intros H H' Eb Hx Hd dev bno Hdev.
  assert (Hy : bufs s' !! i = Some y) by (rewrite Eb; apply list_lookup_insert_eq; by eapply lookup_lt_Some).
  destruct (is_block dev bno y) eqn:Iy.
  { apply is_block_spec in Iy as [<- <-]. by eapply (cached_Some s' i y). }
  destruct (cached s' dev bno) as [b|] eqn:E'.
  - apply cached_inv in E' as (j & _ & Hj & <- & <-); [|done]. assert (j <> i) as Hji.
    { intros ->. rewrite Hy in Hj. injection Hj as <-. by rewrite (proj2 (is_block_spec _ _ _)) in Iy. }
    rewrite Eb, list_lookup_insert_ne in Hj by done. destruct (is_block _ _ x) eqn:Ix.
    + apply is_block_spec in Ix as [E1 E2]. destruct Hji. by eapply (ci_uniq s H j i b x).
    + symmetry. by eapply (cached_Some s j b).
  - destruct (is_block dev bno x) eqn:Ix; [done|].
    destruct (cached s dev bno) as [b|] eqn:Ec; [|done]. apply cached_inv in Ec as (j & _ & Hj & <- & <-); [|done].
    assert (j <> i) as Hji by (intros ->; rewrite Hx in Hj; injection Hj as <-; by rewrite (proj2 (is_block_spec _ _ _)) in Ix).
    eapply (cached_None s' _ _ j b) in E'; [by destruct E'|done|]. by rewrite Eb, list_lookup_insert_ne.
Qed.

Lemma cinv_update s i x y m' d' t' : cinv s -> bufs s !! i = Some x -> m' ≡ₚ mru s -> buf_ok y ->
  b_dev y <> 0 -> b_valid y = true ->
  (b_dirty y = false -> locked_by y = false -> b_data y = d' (b_dev y) (b_blockno y)) ->
  (is_block (b_dev y) (b_blockno y) x = true \/ cached s (b_dev y) (b_blockno y) = None) ->
  (forall v b, is_block v b y = false -> d' v b = disk s v b) ->
  cinv (mkBio (<[i := y]> (bufs s)) m' d' t').
Proof using Type.
  intros H Hx Hm Hok Hd Hv Hcl Huq Hdk.
  assert (Hi : (i < length (bufs s))%nat) by by eapply lookup_lt_Some.
  assert (Hne : forall j z, j <> i -> bufs s !! j = Some z -> is_block (b_dev z) (b_blockno z) y = false).
  { intros j z Hji Hz. apply not_true_is_false. intros [E1 E2]%is_block_spec. destruct Huq as [Ix|Hn].
    - apply is_block_spec in Ix as [E3 E4]. apply Hji. eapply (ci_uniq s H j i z x); try done; congruence.
    - by eapply (cached_None s _ _ j z) in Hn; [destruct Hn; done|done|]. }
  assert (Hch : forall j z, <[i := y]> (bufs s) !! j = Some z -> (j = i /\ z = y) \/ (j <> i /\ bufs s !! j = Some z)).
  { intros j z. rewrite list_lookup_insert_Some. naive_solver. }
  split; cbn [bufs mru disk].
  - rewrite length_insert. apply H.
  - by rewrite Hm, (ci_mru s H).
  - intros j k z w [[-> ->]|[Hj Hz]]%Hch [[-> ->]|[Hk Hw]]%Hch Hnz E1 E2; try done.
    + specialize (Hne k w Hk Hw). by rewrite <- E1, <- E2, (proj2 (is_block_spec _ _ _)) in Hne.
    + specialize (Hne j z Hj Hz). by rewrite E1, E2, (proj2 (is_block_spec _ _ _)) in Hne.
    + by eapply (ci_uniq s H j k z w).
  - intros j z [[-> ->]|[Hj Hz]]%Hch; [done|by eapply ci_ok].
  - intros j z [[-> ->]|[Hj Hz]]%Hch; [|by eapply ci_valid]. by destruct (Z.eqb_spec (b_dev y) 0).
  - intros j z [[-> ->]|[Hj Hz]]%Hch Hnz Hdz Hlz; [auto|]. rewrite Hdk by by eapply Hne. by eapply (ci_clean s H).
Qed.

(** ** The operations, evaluated *)
Lemma get_buf_run s i b : bufs s !! i = Some b -> get_buf i s = Ok (b, s).
Proof using Type. intros H. unfold get_buf. mrun. by rewrite H. Qed.

Lemma upd_buf_run s i f b : bufs s !! i = Some b -> upd_buf i f s = Ok (tt, set_bufs (<[i := f b]> (bufs s)) s).
Proof using Type. intros H. unfold upd_buf. by rewrite (bind_Ok _ _ _ _ _ (get_buf_run s i b H)). Qed.

Lemma lookup_set s i x y : bufs s !! i = Some x -> bufs (set_bufs (<[i := y]> (bufs s)) s) !! i = Some y.
Proof using Type. intros H. simpl. apply list_lookup_insert_eq. by eapply lookup_lt_Some. Qed.

Lemma set_set s i y z : set_bufs (<[i := z]> (bufs (set_bufs (<[i := y]> (bufs s)) s))) (set_bufs (<[i := y]> (bufs s)) s) =
  set_bufs (<[i := z]> (bufs s)) s.
Proof using Type. unfold set_bufs. simpl. by rewrite list_insert_insert_eq. Qed.

Lemma bread_hit s dev bno i x : find_buf (is_block dev bno) (bufs s) (mru s) = Some i -> bufs s !! i = Some x ->
  locked_by x = false -> b_valid x = true -> b_refcnt x = 0 ->
  bread pid dev bno s = Ok (i, set_bufs (<[i := set_b_lock (mkSl true pid) (set_b_refcnt 1 x)]> (bufs s)) s).
Proof using Type.
  intros Hf Hx Hl Hv Hr. unfold bread.
  assert (E : bget pid dev bno s = Ok (i, set_bufs (<[i := set_b_lock (mkSl true pid) (set_b_refcnt 1 x)]> (bufs s)) s)).
  { unfold bget. rewrite (bind_Ok _ _ s s s) by done. rewrite Hf.
    rewrite (bind_Ok _ _ _ _ _ (upd_buf_run _ _ _ _ Hx)). rewrite Hr. change (u32 (0 + 1)) with 1.
    pose proof (lookup_set s i x (set_b_refcnt 1 x) Hx) as H1.
    rewrite (bind_Ok _ _ _ tt (set_bufs (<[i := set_b_lock (mkSl true pid) (set_b_refcnt 1 x)]> (bufs s)) s)); [done|].
    unfold lock_buf. rewrite (bind_Ok _ _ _ _ _ (get_buf_run _ _ _ H1)). unfold acquiresleep. cbn [b_lock set_b_refcnt].
    unfold locked_by in Hl. rewrite Hl. rewrite (bind_Ok _ _ _ (mkSl true pid) _ eq_refl).
    rewrite (upd_buf_run _ _ _ _ H1). by rewrite set_set. }
  rewrite (bind_Ok _ _ _ _ _ E). rewrite (bind_Ok _ _ _ _ _ (get_buf_run _ _ _ (lookup_set _ _ _ _ Hx))).
  cbn [b_valid set_b_lock set_b_refcnt]. by rewrite Hv.
Qed.

Lemma bread_miss s dev bno i x : find_buf (is_block dev bno) (bufs s) (mru s) = None ->
  find_buf unused (bufs s) (reverse (mru s)) = Some i -> bufs s !! i = Some x -> locked_by x = false -> bno < FSSIZE ->
  bread pid dev bno s = Ok (i, set_bufs (<[i := mkBuf true false dev bno (mkSl true pid) 1 (disk s dev bno)]> (bufs s)) s).
Proof using Type.
  intros Hf Hu Hx Hl Hb. unfold bread.
  set (y := mkBuf false false dev bno (mkSl true pid) 1 (b_data x)).
  assert (E : bget pid dev bno s = Ok (i, set_bufs (<[i := y]> (bufs s)) s)).
  { unfold bget. rewrite (bind_Ok _ _ s s s) by done. rewrite Hf, Hu.
    rewrite (bind_Ok _ _ _ _ _ (upd_buf_run _ _ _ _ Hx)).
    pose proof (lookup_set s i x (mkBuf false false dev bno (b_lock x) 1 (b_data x)) Hx) as H1.
    rewrite (bind_Ok _ _ _ tt (set_bufs (<[i := y]> (bufs s)) s)); [done|].
    unfold lock_buf. rewrite (bind_Ok _ _ _ _ _ (get_buf_run _ _ _ H1)). unfold acquiresleep. cbn [b_lock].
    unfold locked_by in Hl. rewrite Hl. rewrite (bind_Ok _ _ _ (mkSl true pid) _ eq_refl).
    rewrite (upd_buf_run _ _ _ _ H1). by rewrite set_set. }
  rewrite (bind_Ok _ _ _ _ _ E). pose proof (lookup_set _ _ _ y Hx) as Hy.
  rewrite (bind_Ok _ _ _ _ _ (get_buf_run _ _ _ Hy)). cbn [b_valid y negb].
  match goal with |- context [set_bufs (<[i := ?z]> _) s] => rewrite (bind_Ok _ _ _ tt (set_bufs (<[i := mkBuf true false dev bno (mkSl true pid) 1 (disk s dev bno)]> (bufs s)) s)) end; [done|].
  unfold iderw. rewrite (bind_Ok _ _ _ _ _ (get_buf_run _ _ _ Hy)).
  unfold holdingsleep, y. cbn [b_lock b_valid b_dirty b_blockno sl_locked sl_pid andb negb]. rewrite Z.eqb_refl. cbn [negb].
  destruct (Z.leb_spec FSSIZE bno); [lia|].
  rewrite (bind_Ok _ _ _ _ _ eq_refl). rewrite (upd_buf_run _ _ _ _ Hy). by rewrite set_set.
Qed.

Lemma bwrite_eval s i x : bufs s !! i = Some x -> b_lock x = mkSl true pid -> b_blockno x < FSSIZE ->
  bwrite pid i s = Ok (tt, write_disk (b_dev x) (b_blockno x) (b_data x) (set_bufs (<[i := set_b_flags true false x]> (bufs s)) s)).
Proof using Type.
  intros Hx Hl Hb. unfold bwrite. rewrite (bind_Ok _ _ _ _ _ (get_buf_run _ _ _ Hx)).
  unfold holdingsleep. rewrite Hl. cbn [sl_locked sl_pid andb]. rewrite Z.eqb_refl. cbn [negb].
  rewrite (bind_Ok _ _ _ _ _ (upd_buf_run _ _ _ _ Hx)).
  pose proof (lookup_set _ _ _ (set_b_flags (b_valid x) true x) Hx) as Hy.
  unfold iderw. rewrite (bind_Ok _ _ _ _ _ (get_buf_run _ _ _ Hy)).
  unfold holdingsleep. cbn [b_lock b_valid b_dirty b_blockno b_dev b_data set_b_flags]. rewrite Hl. cbn [sl_locked sl_pid andb]. rewrite Z.eqb_refl, andb_false_r. cbn [negb].
  destruct (Z.leb_spec FSSIZE (b_blockno x)); [lia|].
  rewrite (bind_Ok _ _ _ _ _ eq_refl). rewrite (upd_buf_run _ _ _ (set_b_flags (b_valid x) true x)) by exact Hy.
  f_equal. f_equal. unfold write_disk, set_bufs. cbn [bufs mru disk trace]. by rewrite list_insert_insert_eq.
Qed.

Lemma brelse_eval s i x : bufs s !! i = Some x -> b_lock x = mkSl true pid -> b_refcnt x = 1 ->
  brelse pid i s = Ok (tt, set_mru (i :: filter (.≠ i) (mru s)) (set_bufs (<[i := set_b_refcnt 0 (set_b_lock (mkSl false 0) x)]> (bufs s)) s)).
Proof using Type.
  intros Hx Hl Hr. unfold brelse. rewrite (bind_Ok _ _ _ _ _ (get_buf_run _ _ _ Hx)).
  unfold holdingsleep. rewrite Hl. cbn [sl_locked sl_pid andb]. rewrite Z.eqb_refl. cbn [negb].
  rewrite (bind_Ok _ _ _ _ _ (upd_buf_run _ _ _ _ Hx)).
  pose proof (lookup_set _ _ _ (set_b_lock (mkSl false 0) x) Hx) as Hy.
  rewrite (bind_Ok _ _ _ _ _ (upd_buf_run _ _ _ _ Hy)). unfold releasesleep. rewrite set_set.
  cbn [b_refcnt set_b_lock]. rewrite Hr. change (u32 (1 - 1)) with 0.
  rewrite (bind_Ok _ _ _ _ _ (get_buf_run _ _ _ (lookup_set _ _ _ _ Hx))). done.
Qed.
End BioInv.
