(* ===== verification/BioThms.v ===== *)
(** * The buffer cache refines a disk with a write-back copy

    [abs] relates the cache to what its clients see: the content of each
    block, the blocks that must not be evicted, the blocks that are locked,
    the disk and the order of its writes. *)

From stdpp Require Import prelude strings.
From S2P Require Import Prelude Bio BioInv.

Open Scope Z_scope.

Definition upd2 {A} (f : Z -> Z -> A) (dev bno : Z) (x : A) : Z -> Z -> A :=
  fun v b => if (v =? dev) && (b =? bno) then x else f v b.

Lemma upd2_eq {A} (f : Z -> Z -> A) dev bno x : upd2 f dev bno x dev bno = x.
Proof. unfold upd2. by rewrite !Z.eqb_refl. Qed.

Lemma upd2_ne {A} (f : Z -> Z -> A) dev bno x v b : v <> dev \/ b <> bno -> upd2 f dev bno x v b = f v b.
Proof. unfold upd2. intros H. destruct (Z.eqb_spec v dev), (Z.eqb_spec b bno); simpl; naive_solver. Qed.

Lemma is_block_upd2 {A} (f : Z -> Z -> A) y a v b :
  upd2 f (b_dev y) (b_blockno y) a v b = if is_block v b y then a else f v b.
Proof. unfold upd2, is_block. rewrite (Z.eqb_sym v), (Z.eqb_sym b). done. Qed.

(** ** The abstract state *)
Record astate : Type := mkA {
  a_view : Z -> Z -> block;
  a_dirty : Z -> Z -> bool;
  a_locked : Z -> Z -> bool;
  a_disk : Z -> Z -> block;
  a_trace : list (Z * Z * block)
}.

Definition set_view dev bno d (a : astate) : astate :=
  mkA (upd2 (a_view a) dev bno d) (a_dirty a) (a_locked a) (a_disk a) (a_trace a).
Definition set_dirty dev bno x (a : astate) : astate :=
  mkA (a_view a) (upd2 (a_dirty a) dev bno x) (a_locked a) (a_disk a) (a_trace a).
Definition set_locked dev bno x (a : astate) : astate :=
  mkA (a_view a) (a_dirty a) (upd2 (a_locked a) dev bno x) (a_disk a) (a_trace a).
Definition set_disk dev bno d (a : astate) : astate :=
  mkA (a_view a) (a_dirty a) (a_locked a) (upd2 (a_disk a) dev bno d) (a_trace a ++ [(dev, bno, d)]).

Lemma upd2_id {A} (f : Z -> Z -> A) dev bno x v b : f dev bno = x -> upd2 f dev bno x v b = f v b.
Proof. unfold upd2. intros <-. destruct (Z.eqb_spec v dev), (Z.eqb_spec b bno); by subst. Qed.

Section BioThms.
Context (pid : Z).

Record abs (s : bio) (a : astate) : Prop := {
  ab_inv : cinv pid s;
  ab_view : forall v b, v <> 0 -> view s v b = a_view a v b;
  ab_dirty : forall v b, v <> 0 -> dirty s v b = a_dirty a v b;
  ab_locked : forall v b, v <> 0 -> locked s v b = a_locked a v b;
  ab_disk : disk s = a_disk a;
  ab_trace : trace s = a_trace a
}.

(** ** Capacity: there is an unused buffer while fewer than [NBUF] blocks are pinned. *)
Definition pins (a : astate) (P : list (Z * Z)) : Prop :=
  forall v b, v <> 0 -> a_dirty a v b || a_locked a v b = true -> (v, b) ∈ P.

Definition pinned (b : buf) : bool := b_dirty b || locked_by b.
Definition key (b : buf) : Z * Z := (b_dev b, b_blockno b).

Lemma pinned_unused s i b : cinv pid s -> bufs s !! i = Some b -> unused b = negb (pinned b).
Proof using Type.
  intros H Hb. pose proof (ci_ok _ _ H i b Hb) as Hok. unfold buf_ok in Hok. unfold unused, pinned.
  destruct (locked_by b).
  - destruct Hok as (_ & -> & _). by rewrite orb_true_r.
  - rewrite Hok, orb_false_r. done.
Qed.

Lemma pinned_dev s i b : cinv pid s -> bufs s !! i = Some b -> pinned b = true -> b_dev b <> 0.
Proof using Type.
  intros H Hb Hp E0. pose proof (ci_ok _ _ H i b Hb) as Hok. pose proof (ci_valid _ _ H i b Hb) as Hv.
  rewrite E0 in Hv. simpl in Hv. unfold pinned, buf_ok in *. rewrite Hv in Hp. simpl in Hp. rewrite Hp in Hok. naive_solver.
Qed.

Lemma pinned_keys s : cinv pid s -> NoDup (key <$> filter (fun b => pinned b = true) (bufs s)).
Proof using Type.
  intros H. pose proof (fun i j x y => ci_uniq _ _ H i j x y) as Hu.
  pose proof (fun i b => pinned_dev s i b H) as Hd. clear H. induction (bufs s) as [|b l IH]; [constructor|].
  assert (Hl : NoDup (key <$> filter (fun b => pinned b = true) l)).
  { apply IH; [|intros i; apply (Hd (S i))]. intros i j x y Hx Hy H0 E1 E2. by specialize (Hu (S i) (S j) x y Hx Hy H0 E1 E2) as [= ->]. }
  rewrite filter_cons. case_decide as Hp; [|done]. rewrite fmap_cons. constructor; [|done].
  intros (c & Ec & Hc)%list_elem_of_fmap. apply list_elem_of_filter in Hc as [_ Hc].
  apply list_elem_of_lookup_1 in Hc as [j Hj]. injection Ec as E1 E2.
  specialize (Hu 0%nat (S j) b c eq_refl Hj (Hd 0%nat b eq_refl Hp) E1 E2). done.
Qed.

Lemma pins_room s a P : abs s a -> pins a P -> (length P < NBUF)%nat -> (0 < room s)%nat.
Proof using Type.
  intros Ha HP Hlen. pose proof (ab_inv _ _ Ha) as H.
  assert (E : (count unused (bufs s) + count pinned (bufs s) = length (bufs s))%nat).
  { apply count_split. intros b [i Hi]%list_elem_of_lookup_1. by eapply pinned_unused. }
  rewrite (ci_len _ _ H) in E. unfold room. cut (count pinned (bufs s) <= length P)%nat; [lia|].
  unfold count. rewrite <- (length_fmap key). apply submseteq_length, NoDup_submseteq; [by apply pinned_keys|].
  intros k (b & -> & Hb)%list_elem_of_fmap. apply list_elem_of_filter in Hb as [Hp Hb].
  apply list_elem_of_lookup_1 in Hb as [i Hi]. pose proof (pinned_dev _ _ _ H Hi Hp) as Hd. apply HP; [done|].
  rewrite <- (ab_dirty _ _ Ha), <- (ab_locked _ _ Ha) by done. unfold dirty, locked.
  destruct (cached_Some pid s i b _ _ H Hd Hi eq_refl eq_refl) as [_ ->]. done.
Qed.

(** ** Replacing one buffer *)
Lemma abs_replace s a i x y m' d' t' : abs s a -> bufs s !! i = Some x -> m' ≡ₚ mru s -> buf_ok pid y ->
  b_dev y <> 0 -> b_valid y = true ->
  (b_dirty y = false -> locked_by y = false -> b_data y = d' (b_dev y) (b_blockno y)) ->
  (is_block (b_dev y) (b_blockno y) x = true \/ (cached s (b_dev y) (b_blockno y) = None /\ unused x = true)) ->
  (forall v b, is_block v b y = false -> d' v b = disk s v b) ->
  abs (mkBio (<[i := y]> (bufs s)) m' d' t')
    (mkA (upd2 (a_view a) (b_dev y) (b_blockno y) (b_data y)) (upd2 (a_dirty a) (b_dev y) (b_blockno y) (b_dirty y))
         (upd2 (a_locked a) (b_dev y) (b_blockno y) (locked_by y)) d' t').
Proof using Type.
  intros Ha Hx Hm Hok Hd Hv Hcl Huq Hdk. pose proof (ab_inv _ _ Ha) as H.
  assert (H' : cinv pid (mkBio (<[i := y]> (bufs s)) m' d' t')) by (eapply cinv_update; eauto; naive_solver).
  pose proof (cached_update pid s _ i x y H H' eq_refl Hx Hd) as Hc.
  assert (Hev : forall v b, v <> 0 -> is_block v b y = false -> is_block v b x = true ->
    cached s v b = Some x /\ b_dirty x = false /\ locked_by x = false /\ b_data x = disk s v b).
  { intros v b Hv0 Iy Ix. pose proof (pinned_unused s i x H Hx) as Hpu. destruct Huq as [Iyx|[_ Hu]].
    - exfalso. apply is_block_spec in Ix as [<- <-]. apply is_block_spec in Iyx as [E1 E2].
      by rewrite E1, E2, (proj2 (is_block_spec _ _ _)) in Iy.
    - apply is_block_spec in Ix as [<- <-]. rewrite Hu in Hpu. symmetry in Hpu. apply negb_true_iff, orb_false_iff in Hpu as [Hdx Hlx].
      split; [by apply (cached_Some pid s i x)|]. split_and!; [done..|]. by apply (ci_clean _ _ H i x). }
  split; cbn [a_view a_dirty a_locked a_disk a_trace]; [done| | | |done..]; intros v b Hv0; rewrite is_block_upd2.
  - unfold view. rewrite Hc by done. destruct (is_block v b y) eqn:Iy; [done|]. cbn [disk]. rewrite <- (ab_view _ _ Ha) by done.
    unfold view. destruct (is_block v b x) eqn:Ix; [destruct (Hev v b Hv0 Iy Ix) as (-> & _ & _ & ->)|destruct (cached s v b); [done|]]; by apply Hdk.
  - unfold dirty. rewrite Hc by done. destruct (is_block v b y) eqn:Iy; [done|]. rewrite <- (ab_dirty _ _ Ha) by done. unfold dirty.
    destruct (is_block v b x) eqn:Ix; [|done]. by destruct (Hev v b Hv0 Iy Ix) as (-> & -> & _).
  - unfold locked. rewrite Hc by done. destruct (is_block v b y) eqn:Iy; [done|]. rewrite <- (ab_locked _ _ Ha) by done. unfold locked.
    destruct (is_block v b x) eqn:Ix; [|done]. by destruct (Hev v b Hv0 Iy Ix) as (-> & _ & -> & _).
Qed.

Lemma abs_ext s a a' : abs s a -> (forall v b, v <> 0 -> a_view a v b = a_view a' v b) ->
  (forall v b, v <> 0 -> a_dirty a v b = a_dirty a' v b) -> (forall v b, v <> 0 -> a_locked a v b = a_locked a' v b) ->
  a_disk a = a_disk a' -> a_trace a = a_trace a' -> abs s a'.
Proof using Type.
  intros H Hv Hd Hl E1 E2. split; [apply H|..].
  - intros v b N. rewrite <- Hv by done. by apply H.
  - intros v b N. rewrite <- Hd by done. by apply H.
  - intros v b N. rewrite <- Hl by done. by apply H.
  - rewrite <- E1. apply H.
  - rewrite <- E2. apply H.
Qed.

(** What the abstract state says of a buffer that is held. *)
Lemma holds_abs s a i dev bno : abs s a -> holds s i dev bno -> exists x, bufs s !! i = Some x /\
  b_dev x = dev /\ b_blockno x = bno /\ b_lock x = mkSl true pid /\ b_refcnt x = 1 /\ b_valid x = true /\ dev <> 0 /\
  a_view a dev bno = b_data x /\ a_dirty a dev bno = b_dirty x /\ a_locked a dev bno = true.
Proof using Type.
  intros Ha (x & Hx & Hdv & Hbn & Hl). pose proof (ab_inv _ _ Ha) as H.
  pose proof (ci_ok _ _ H i x Hx) as Hok. unfold buf_ok in Hok. rewrite Hl in Hok. destruct Hok as (Hp & Hr & Hd).
  pose proof (ci_valid _ _ H i x Hx) as Hv. destruct (Z.eqb_spec (b_dev x) 0); [done|].
  destruct (cached_Some pid s i x dev bno H) as [_ Hc]; [congruence|done..|].
  exists x. subst dev bno. split_and!; try done.
  - unfold locked_by in Hl. destruct (b_lock x). simpl in *. congruence.
  - rewrite <- (ab_view _ _ Ha) by done. unfold view. by rewrite Hc.
  - rewrite <- (ab_dirty _ _ Ha) by done. unfold dirty. by rewrite Hc.
  - rewrite <- (ab_locked _ _ Ha) by done. unfold locked. by rewrite Hc.
Qed.

Lemma holds_other s i y m' d' t' j v b : j <> i -> holds s j v b -> holds (mkBio (<[i := y]> (bufs s)) m' d' t') j v b.
Proof using Type. intros Hne (x & Hx & Hr). exists x. simpl. by rewrite list_lookup_insert_ne. Qed.

Lemma holds_self s i x y m' d' t' : bufs s !! i = Some x -> locked_by y = true ->
  holds (mkBio (<[i := y]> (bufs s)) m' d' t') i (b_dev y) (b_blockno y).
Proof using Type. intros Hx Hl. exists y. simpl. rewrite list_lookup_insert_eq by by eapply lookup_lt_Some. done. Qed.

(** Distinct blocks are held in distinct buffers. *)
Lemma holds_inj s i j v b w c : holds s i v b -> holds s j w c -> (v, b) <> (w, c) -> i <> j.
Proof using Type. intros (x & Hx & <- & <- & _) (y & Hy & <- & <- & _) Hne ->. congruence. Qed.

(** ** The operations *)
Lemma bread_run s a dev bno P : abs s a -> dev <> 0 -> bno < FSSIZE -> a_locked a dev bno = false ->
  pins a P -> a_dirty a dev bno = true \/ (length P < NBUF)%nat ->
  exists i s', bread pid dev bno s = Ok (i, s') /\ abs s' (set_locked dev bno true a) /\ holds s' i dev bno /\
    forall j v b, holds s j v b -> holds s' j v b.
Proof using Type.
  intros Ha Hd Hb Hl HP Hroom. pose proof (ab_inv _ _ Ha) as H.
  rewrite <- (ab_locked _ _ Ha) in Hl by done. rewrite <- (ab_dirty _ _ Ha) in Hroom by done.
  pose proof (ab_view _ _ Ha dev bno Hd) as Hvw. pose proof (ab_dirty _ _ Ha dev bno Hd) as Hdt.
  unfold locked, dirty, view in *. destruct (cached s dev bno) as [x|] eqn:Ec.
  - apply (cached_inv pid) in Ec as (i & Hf & Hx & Hxd & Hxb); [|done].
    pose proof (ci_ok _ _ H i x Hx) as Hok. unfold buf_ok in Hok. rewrite Hl in Hok.
    pose proof (ci_valid _ _ H i x Hx) as Hv. destruct (Z.eqb_spec (b_dev x) 0); [congruence|].
    rewrite (bread_hit pid s dev bno i x) by done. eexists i, _. split; [done|].
    set (y := set_b_lock (mkSl true pid) (set_b_refcnt 1 x)). subst dev bno. split_and!.
    + eapply abs_ext; [apply (abs_replace s a i x y); [..|left; by apply is_block_spec|]; done|..];
        cbn [y a_view a_dirty a_locked a_disk a_trace set_locked]; intros; try apply upd2_id; try done; apply Ha.
    + by eapply (holds_self s i x y).
    + intros j v b Hj. apply holds_other; [|done]. intros ->. destruct Hj as (z & Hz & _ & _ & Hlz). congruence.
  - assert (Hroom' : (0 < room s)%nat) by (destruct Hroom as [?|?]; [done|by eapply pins_room]).
    apply count_pos in Hroom' as (k & z & Hz & Hzu).
    destruct (find_buf unused (bufs s) (reverse (mru s))) as [i|] eqn:Hf; last first.
    { erewrite find_buf_None in Hzu; [done| |exact Hf| |exact Hz].
      - intros j Hj. apply (mru_some pid); [done|]. by rewrite elem_of_reverse in Hj.
      - apply elem_of_reverse. by eapply (buf_in_mru pid). }
    pose proof (find_buf_Some _ _ _ _ Hf) as (_ & x & Hx & Hxu). pose proof (pinned_unused s i x H Hx) as Hpu.
    rewrite Hxu in Hpu. symmetry in Hpu. apply negb_true_iff, orb_false_iff in Hpu as [Hdx Hlx].
    assert (Hn : find_buf (is_block dev bno) (bufs s) (mru s) = None).
    { unfold cached in Ec. destruct (find_buf (is_block dev bno) _ _) as [j|] eqn:Ej; [|done].
      apply find_buf_Some in Ej as (_ & c & Hc & _). simpl in Ec. congruence. }
    rewrite (bread_miss pid s dev bno i x) by done. eexists i, _. split; [done|].
    set (y := mkBuf true false dev bno (mkSl true pid) 1 (disk s dev bno)). split_and!.
    + eapply abs_ext; [apply (abs_replace s a i x y); [..|by right|]; done|..];
        cbn [y a_view a_dirty a_locked a_disk a_trace set_locked b_dev b_blockno b_data b_dirty]; intros; try apply upd2_id; try done; apply Ha.
    + by eapply (holds_self s i x y).
    + intros j v b Hj. apply holds_other; [|done]. intros ->. destruct Hj as (w & Hw & _ & _ & Hlw). congruence.
Qed.

(** Changing the data or the flags of a buffer that is held. *)
Lemma held_replace s a i x y d' t' : abs s a -> bufs s !! i = Some x -> b_lock x = mkSl true pid -> b_refcnt x = 1 ->
  b_dev x <> 0 -> b_dev y = b_dev x -> b_blockno y = b_blockno x -> b_lock y = b_lock x -> b_refcnt y = b_refcnt x -> b_valid y = true ->
  (forall v b, is_block v b y = false -> d' v b = disk s v b) -> a_locked a (b_dev x) (b_blockno x) = true ->
  abs (mkBio (<[i := y]> (bufs s)) (mru s) d' t')
    (mkA (upd2 (a_view a) (b_dev x) (b_blockno x) (b_data y)) (upd2 (a_dirty a) (b_dev x) (b_blockno x) (b_dirty y)) (a_locked a) d' t') /\
  forall j v b, holds s j v b -> holds (mkBio (<[i := y]> (bufs s)) (mru s) d' t') j v b.
Proof using Type.
  intros Ha Hx Hl Hr Hd Ed Eb El Er Hv Hdk Elk.
  assert (Hly : locked_by y = true) by (unfold locked_by; by rewrite El, Hl). split.
  - eapply abs_ext; [apply (abs_replace s a i x y); try done|..]; cbn [a_view a_dirty a_locked a_disk a_trace]; intros; rewrite ?Ed, ?Eb; try done.
    + unfold buf_ok. rewrite Hly, El, Hl, Er, Hr, Ed. done.
    + congruence.
    + left. by apply is_block_spec.
    + apply upd2_id. by rewrite Hly.
  - intros j v b Hj. destruct (decide (j = i)) as [->|Hne]; [|by apply holds_other].
    destruct Hj as (z & Hz & <- & <- & _). rewrite Hx in Hz. injection Hz as <-. rewrite <- Ed, <- Eb. by eapply (holds_self s i x y).
Qed.

Lemma upd_data_run s a i dev bno g f : abs s a -> holds s i dev bno -> (forall b, f b = set_b_data (g (b_data b)) b) ->
  exists s', upd_buf i f s = Ok (tt, s') /\ abs s' (set_view dev bno (g (a_view a dev bno)) a) /\
    forall j v b, holds s j v b -> holds s' j v b.
Proof using Type.
  intros Ha Hi Hf. destruct (holds_abs s a i dev bno Ha Hi) as (x & Hx & <- & <- & Hl & Hr & Hv & Hd & Evw & Edt & Elk).
  rewrite (upd_buf_run s i _ x Hx), Hf. eexists. split; [done|].
  destruct (held_replace s a i x (set_b_data (g (b_data x)) x) (disk s) (trace s)) as [Ha' Hh]; try done. split; [|done].
  eapply abs_ext; [exact Ha'|..]; cbn; intros; try apply upd2_id; rewrite ?Evw; try done; apply Ha.
Qed.

(** [b->flags |= B_DIRTY] *)
Lemma mark_dirty_run s a i dev bno : abs s a -> holds s i dev bno ->
  exists s', upd_buf i (fun b => set_b_flags (b_valid b) true b) s = Ok (tt, s') /\ abs s' (set_dirty dev bno true a) /\
    forall j v b, holds s j v b -> holds s' j v b.
Proof using Type.
  intros Ha Hi. destruct (holds_abs s a i dev bno Ha Hi) as (x & Hx & <- & <- & Hl & Hr & Hv & Hd & Evw & Edt & Elk).
  rewrite (upd_buf_run s i _ x Hx). eexists. split; [done|].
  destruct (held_replace s a i x (set_b_flags (b_valid x) true x) (disk s) (trace s)) as [Ha' Hh]; try done. split; [|done].
  eapply abs_ext; [exact Ha'|..]; cbn; intros; try apply upd2_id; try done; apply Ha.
Qed.

Lemma bwrite_run s a i dev bno : abs s a -> holds s i dev bno -> bno < FSSIZE ->
  exists s', bwrite pid i s = Ok (tt, s') /\ abs s' (set_dirty dev bno false (set_disk dev bno (a_view a dev bno) a)) /\
    forall j v b, holds s j v b -> holds s' j v b.
Proof using Type.
  intros Ha Hi Hb. destruct (holds_abs s a i dev bno Ha Hi) as (x & Hx & <- & <- & Hl & Hr & Hv & Hd & Evw & Edt & Elk).
  rewrite (bwrite_eval pid s i x) by done. eexists. split; [done|].
  destruct (held_replace s a i x (set_b_flags true false x) (upd2 (disk s) (b_dev x) (b_blockno x) (b_data x))
    (trace s ++ [(b_dev x, b_blockno x, b_data x)])) as [Ha' Hh]; try done.
  { intros v b Hn. change (b_dev x) with (b_dev (set_b_flags true false x)). change (b_blockno x) with (b_blockno (set_b_flags true false x)).
    by rewrite is_block_upd2, Hn. }
  split; [|done]. eapply abs_ext; [exact Ha'|..]; cbn; intros; try apply upd2_id; rewrite ?Evw; try done; f_equal; apply Ha.
Qed.

Lemma brelse_run s a i dev bno : abs s a -> holds s i dev bno ->
  (a_dirty a dev bno = false -> a_view a dev bno = a_disk a dev bno) ->
  exists s', brelse pid i s = Ok (tt, s') /\ abs s' (set_locked dev bno false a) /\
    forall j v b, holds s j v b -> (v, b) <> (dev, bno) -> holds s' j v b.
Proof using Type.
  intros Ha Hi Hcl. destruct (holds_abs s a i dev bno Ha Hi) as (x & Hx & <- & <- & Hl & Hr & Hv & Hd & Evw & Edt & Elk).
  rewrite (brelse_eval pid s i x) by done. eexists. split; [done|]. pose proof (ab_inv _ _ Ha) as H.
  assert (Hm : i :: filter (.≠ i) (mru s) ≡ₚ mru s).
  { assert (Hin : i ∈ mru s) by by eapply (buf_in_mru pid).
    assert (Hnd : NoDup (mru s)) by (rewrite (ci_mru _ _ H); apply NoDup_seq).
    apply NoDup_Permutation; [constructor; [|by apply NoDup_filter]|done|].
    - rewrite list_elem_of_filter. naive_solver.
    - intros j. rewrite elem_of_cons, list_elem_of_filter. destruct (decide (j = i)); naive_solver. }
  unfold set_mru, set_bufs. cbn [bufs disk trace mru]. set (y := set_b_refcnt 0 (set_b_lock (mkSl false 0) x)). split.
  - eapply abs_ext; [apply (abs_replace s a i x y); try done|..]; cbn [y a_view a_dirty a_locked a_disk a_trace set_locked]; intros; try apply upd2_id; try done; try apply Ha.
    + simpl. rewrite (ab_disk _ _ Ha), <- Hcl, Evw by (by rewrite Edt). done.
    + left. by apply is_block_spec.
  - intros j v b Hj Hne. apply holds_other; [|done]. by eapply holds_inj.
Qed.

(** A block that is neither locked nor dirty is on the disk. *)
Lemma abs_clean s a dev bno : abs s a -> dev <> 0 -> a_locked a dev bno = false -> a_dirty a dev bno = false ->
  a_view a dev bno = a_disk a dev bno.
Proof using Type.
  intros Ha Hd. rewrite <- (ab_locked _ _ Ha), <- (ab_dirty _ _ Ha), <- (ab_view _ _ Ha), <- (ab_disk _ _ Ha) by done.
  pose proof (ab_inv _ _ Ha) as H. unfold view, locked, dirty. destruct (cached s dev bno) as [x|] eqn:Ec; [|done].
  apply (cached_inv pid) in Ec as (i & _ & Hx & <- & <-); [|done]. intros Hl Hdt. by apply (ci_clean _ _ H i x).
Qed.

(** The cache after boot. *)
Lemma binit_abs d : abs (binit d) (mkA d (fun _ _ => false) (fun _ _ => false) d []).
Proof using Type.
  assert (Hc : forall v b, v <> 0 -> cached (binit d) v b = None).
  { intros v b Hv. unfold cached. destruct (find_buf _ _ _) as [i|] eqn:E; [|done].
    apply find_buf_Some in E as (_ & c & Hc & Hb). apply is_block_spec in Hb as [E1 E2].
    apply lookup_replicate in Hc as [-> _]. simpl in E1. congruence. }
  assert (Hr : forall i x, bufs (binit d) !! i = Some x -> x = mkBuf false false 0 0 initsleeplock 0 zero_block).
  { intros i x [-> _]%lookup_replicate. done. }
  split; [split|..]; try done.
  - cbn [binit mru]. by rewrite reverse_Permutation.
  - intros i j x y ->%Hr ->%Hr H0. simpl in H0. done.
  - by intros i x ->%Hr.
  - by intros i x ->%Hr.
  - intros i x ->%Hr H0. simpl in H0. done.
  - intros v b Hv. unfold view. by rewrite Hc.
  - intros v b Hv. unfold dirty. by rewrite Hc.
  - intros v b Hv. unfold locked. by rewrite Hc.
Qed.
End BioThms.

(** Claim C10. [bread] returns a buffer, locked for the caller, with the current
    content of the block: the cached copy if there is one, what the disk has
    otherwise.  It changes no block's content, pins nothing else, writes
    nothing, and finds a buffer whenever fewer than [NBUF] blocks are locked
    or dirty. *)
Theorem bread_coherent pid s a dev bno P : abs pid s a -> dev <> 0 -> bno < FSSIZE -> a_locked a dev bno = false ->
  pins a P -> (length P < NBUF)%nat ->
  exists i s' b, bread pid dev bno s = Ok (i, s') /\ abs pid s' (set_locked dev bno true a) /\
    bufs s' !! i = Some b /\ b_data b = view s dev bno /\ holdingsleep pid (b_lock b) = true /\
    disk s' = disk s /\ trace s' = trace s.
Proof.
  intros Ha Hd Hb Hl HP HL. destruct (bread_run pid s a dev bno P Ha Hd Hb Hl HP (or_intror HL)) as (i & s' & E & Ha' & Hi & _).
  destruct (holds_abs pid s' _ i dev bno Ha' Hi) as (x & Hx & _ & _ & Hlk & _ & _ & _ & Hv & _).
  exists i, s', x. split_and!; try done.
  - rewrite (ab_view _ _ _ Ha) by done. by rewrite <- Hv.
  - unfold holdingsleep. rewrite Hlk. simpl. apply Z.eqb_refl.
  - by rewrite (ab_disk _ _ _ Ha'), (ab_disk _ _ _ Ha).
  - by rewrite (ab_trace _ _ _ Ha'), (ab_trace _ _ _ Ha).
Qed.

Lemma bread_coherent_witness : exists i s' b, bread 7 1 5 (binit (fun _ _ => zero_block)) = Ok (i, s') /\
  bufs s' !! i = Some b /\ b_data b = zero_block.
Proof.
  destruct (bread_coherent 7 (binit (fun _ _ => zero_block)) _ 1 5 [] (binit_abs 7 _)) as (i & s' & b & E & _ & Hb & Hd & _); try done.
  { unfold NBUF. simpl. lia. }
  exists i, s', b. done.
Defined.
