(* ===== verification/Ide.v ===== *)
(** * The disk driver (ide.c) and its in-memory stand-in (memide.c)

    The driver keeps a linked queue of buffers; the buffer at its head is
    the one the controller works on.  The controller is hardware: it is a
    type [D] with the operations of [Controller].  Each definition is what
    runs between taking and giving up [idelock]. *)

From stdpp Require Import prelude strings gmap.
From S2P Require Import Prelude Bio.

Open Scope Z_scope.

Definition SECTOR_SIZE : Z := 512.
Definition IDE_BSY : Z := 128.
Definition IDE_DRDY : Z := 64.
Definition IDE_DF : Z := 32.
Definition IDE_ERR : Z := 1.
Definition IDE_CMD_READ : Z := 32.
Definition IDE_CMD_WRITE : Z := 48.
Definition IDE_CMD_RDMUL : Z := 196.
Definition IDE_CMD_WRMUL : Z := 197.

(** What [idestart] writes to the ports 0x1f2 to 0x1f7 and, for a write, to
    0x1f0. *)
Record regs : Type := mkRegs {
  r_count : Z;
  r_lba0 : Z;
  r_lba1 : Z;
  r_lba2 : Z;
  r_drive : Z;
  r_cmd : Z;
  r_data : option block
}.

(** The drive and the sector that the registers select. *)
Definition drive_of (r : regs) : Z := Z.land (Z.shiftr (r_drive r) 4) 1.
Definition lba_of (r : regs) : Z :=
  Z.lor (r_lba0 r) (Z.lor (Z.shiftl (r_lba1 r) 8) (Z.lor (Z.shiftl (r_lba2 r) 16) (Z.shiftl (Z.land (r_drive r) 15) 24))).

(** A controller has the contents of the sectors of its drives, carries out
    a command, and gives the data of a read. *)
Class Controller (D : Type) : Type := {
  sectors : D -> Z -> Z -> block;
  carry_out : regs -> D -> D;
  read_data : regs -> D -> block
}.

(** The documented behaviour of the commands that the driver uses. *)
Class ControllerOk (D : Type) `{Controller D} : Prop := {
  carry_out_write : forall r d b v l, r_cmd r = IDE_CMD_WRITE -> r_count r = 1 -> r_data r = Some b ->
    sectors (carry_out r d) v l = if (v =? drive_of r) && (l =? lba_of r) then b else sectors d v l;
  carry_out_read : forall r d, r_cmd r = IDE_CMD_READ -> carry_out r d = d;
  read_data_sector : forall r d, r_cmd r = IDE_CMD_READ -> r_count r = 1 -> read_data r d = sectors d (drive_of r) (lba_of r)
}.

Section Ide.
Context {D : Type} `{Controller D}.

Record ide : Type := mkIde {
  i_bufs : list buf;
  i_queue : option nat;          (** [idequeue] *)
  i_qnext : gmap nat nat;        (** [qnext]; no entry is a null pointer *)
  i_ctl : D;
  i_cmd : option regs;           (** the command under way *)
  i_havedisk1 : bool
}.

Definition set_i_bufs (l : list buf) (s : ide) : ide := mkIde l (i_queue s) (i_qnext s) (i_ctl s) (i_cmd s) (i_havedisk1 s).
Definition set_i_queue (q : option nat) (n : gmap nat nat) (s : ide) : ide := mkIde (i_bufs s) q n (i_ctl s) (i_cmd s) (i_havedisk1 s).
Definition set_i_ctl (d : D) (c : option regs) (s : ide) : ide := mkIde (i_bufs s) (i_queue s) (i_qnext s) d c (i_havedisk1 s).

Definition ide_buf (i : nat) : M ide buf := s ← get; deref (i_bufs s !! i).
Definition upd_ide_buf (i : nat) (f : buf -> buf) : M ide unit :=
  b ← ide_buf i; modify (fun s => set_i_bufs (<[i := f b]> (i_bufs s)) s).

(** [idewait] on the status bytes that the port gives, one after the other;
    [None]: none of them says that the disk is ready. *)
Fixpoint idewait (checkerr : bool) (status : list Z) : option Z :=
  match status with
  | [] => None
  | r :: l =>
      if Z.land r (Z.lor IDE_BSY IDE_DRDY) =? IDE_DRDY
      then Some (if checkerr && negb (Z.land r (Z.lor IDE_DF IDE_ERR) =? 0) then -1 else 0)
      else idewait checkerr l
  end.

(** [havedisk1]: one of 1000 status bytes of drive 1 is not 0. *)
Definition ideinit (status : list Z) (bs : list buf) (d : D) : ide :=
  mkIde bs None ∅ d None (existsb (fun r => negb (r =? 0)) (take 1000 status)).

Definition idestart (i : nat) : M ide unit :=
  b ← ide_buf i;
  if FSSIZE <=? b_blockno b then panic "incorrect blockno"
  else
    let sector_per_block := BSIZE / SECTOR_SIZE in
    let sector := b_blockno b * sector_per_block in
    let read_cmd := if sector_per_block =? 1 then IDE_CMD_READ else IDE_CMD_RDMUL in
    let write_cmd := if sector_per_block =? 1 then IDE_CMD_WRITE else IDE_CMD_WRMUL in
    if 7 <? sector_per_block then panic "idestart"
    else
      let drive := Z.lor (Z.lor 224 (Z.shiftl (Z.land (b_dev b) 1) 4)) (Z.land (Z.shiftr sector 24) 15) in
      let r cmd data := mkRegs sector_per_block (Z.land sector 255) (Z.land (Z.shiftr sector 8) 255) (Z.land (Z.shiftr sector 16) 255) drive cmd data in
      modify (fun s => set_i_ctl (i_ctl s) (Some (if b_dirty b then r write_cmd (Some (b_data b)) else r read_cmd None)) s).

(** The interrupt handler, run when the controller has carried out its
    command: [status] are the bytes that [idewait(1)] reads.  The result is
    the buffer whose process is woken. *)
Definition ideintr (status : list Z) : M ide (option nat) :=
  modify (fun s => match i_cmd s with Some r => set_i_ctl (carry_out r (i_ctl s)) (Some r) s | None => s end);;
  s ← get;
  match i_queue s with
  | None => mret None
  | Some i =>
      put (set_i_queue (i_qnext s !! i) (i_qnext s) s);;
      b ← ide_buf i;
      (if b_dirty b then mret tt
       else
         r ← deref (idewait true status);
         if 0 <=? r then
           s ← get;
           c ← deref (i_cmd s);
           upd_ide_buf i (set_b_data (read_data c (i_ctl s)))
         else mret tt);;
      upd_ide_buf i (fun b => set_b_flags true false b);;
      s ← get;
      match i_queue s with
      | Some j => idestart j;; mret (Some i)
      | None => modify (fun s => set_i_ctl (i_ctl s) None s);; mret (Some i)
      end
  end.

(** [*pp = b] for the last [pp] of the queue that starts at [p]. *)
Fixpoint append_loop (fuel : nat) (p i : nat) : M ide unit :=
  s ← get;
  match i_qnext s !! p with
  | None => put (set_i_queue (i_queue s) (<[p := i]> (i_qnext s)) s)
  | Some q => match fuel with O => fault | S f => append_loop f q i end
  end.

(** [iderw] up to the first [sleep]. *)
Definition iderw_start (pid : Z) (i : nat) : M ide unit :=
  b ← ide_buf i;
  if negb (holdingsleep pid (b_lock b)) then panic "iderw: buf not locked"
  else if b_valid b && negb (b_dirty b) then panic "iderw: nothing to do"
  else
    s ← get;
    if negb (b_dev b =? 0) && negb (i_havedisk1 s) then panic "iderw: ide disk 1 not present"
    else
      put (set_i_queue (i_queue s) (delete i (i_qnext s)) s);;
      (match i_queue s with
       | None => modify (fun s => set_i_queue (Some i) (i_qnext s) s)
       | Some p => append_loop (length (i_bufs s)) p i
       end);;
      s ← get;
      if bool_decide (i_queue s = Some i) then idestart i else mret tt.

(** The test of [iderw]'s loop: [true] when the call returns, [false] when
    it sleeps (again). *)
Definition iderw_done (i : nat) : M ide bool :=
  b ← ide_buf i; mret (b_valid b && negb (b_dirty b)).
End Ide.
Arguments ide : clear implicits.

(** ** memide.c *)
Module Memide.
(** [disksize] is in blocks; the image is the disk 1 of [disk]. *)
Definition iderw (pid disksize : Z) (i : nat) : M bio unit :=
  b ← get_buf i;
  if negb (holdingsleep pid (b_lock b)) then panic "iderw: buf not locked"
  else if b_valid b && negb (b_dirty b) then panic "iderw: nothing to do"
  else if negb (b_dev b =? 1) then panic "iderw: request not for disk 1"
  else if disksize <=? b_blockno b then panic "iderw: block out of range"
  else
    (if b_dirty b then
       upd_buf i (fun b => set_b_flags (b_valid b) false b);;
       modify (write_disk (b_dev b) (b_blockno b) (b_data b))
     else
       s ← get;
       upd_buf i (set_b_data (disk s (b_dev b) (b_blockno b))));;
    upd_buf i (fun b => set_b_flags true (b_dirty b) b).
End Memide.
