(* ===== verification/IdeThms.v ===== *)
(** * The disk driver serves requests one at a time, in order

    Processes put buffers on the queue and sleep; interrupts take them off.
    The driver refines a machine in which a request waits in a FIFO and is
    then served by one call of [Bio.iderw]. *)

From stdpp Require Import prelude strings gmap.
From S2P Require Import Prelude Bio Ide.

Open Scope Z_scope.

(** The registers for a buffer. *)
Definition regs_of (b : buf) : regs :=
  let sector := b_blockno b in
  mkRegs 1 (Z.land sector 255) (Z.land (Z.shiftr sector 8) 255) (Z.land (Z.shiftr sector 16) 255)
    (Z.lor (Z.lor 224 (Z.shiftl (Z.land (b_dev b) 1) 4)) (Z.land (Z.shiftr sector 24) 15))
    (if b_dirty b then IDE_CMD_WRITE else IDE_CMD_READ) (if b_dirty b then Some (b_data b) else None).

(** A request that the driver can serve. *)
Record queued (b : buf) : Prop := {
  q_locked : sl_locked (b_lock b) = true;
  q_work : b_valid b && negb (b_dirty b) = false;
  q_block : 0 <= b_blockno b < FSSIZE;
  q_dev : b_dev b = 0 \/ b_dev b = 1
}.

Definition select_ok (n : nat) : bool :=
  let r dev := regs_of (mkBuf false false dev (Z.of_nat n) initsleeplock 0 []) in
  (lba_of (r 0) =? Z.of_nat n) && (lba_of (r 1) =? Z.of_nat n) && (drive_of (r 0) =? 0) && (drive_of (r 1) =? 1).

Lemma select_all : forallb select_ok (seq 0 1000) = true.
Proof. vm_compute. reflexivity. Qed.

(** The registers select the block. *)
Lemma regs_select b : queued b -> lba_of (regs_of b) = b_blockno b /\ drive_of (regs_of b) = b_dev b.
Proof.
  intros [_ _ Hb Hd]. assert (H : select_ok (Z.to_nat (b_blockno b)) = true).
  { apply (proj1 (forallb_forall _ _) select_all). apply in_seq. unfold FSSIZE in Hb. lia. }
  unfold select_ok in H. rewrite Z2Nat.id in H by lia. apply andb_prop in H as [H H4]. apply andb_prop in H as [H H3]. apply andb_prop in H as [H1 H2].
  apply Z.eqb_eq in H1, H2, H3, H4. unfold lba_of, drive_of, regs_of in *. cbn [r_lba0 r_lba1 r_lba2 r_drive b_blockno b_dev] in *. by destruct Hd as [-> | ->].
Qed.

Section IdeThms.
Context {D : Type} {CD : Controller D} {CO : ControllerOk D}.
Implicit Types (s : ide D) (q : list nat).

Lemma idestart_run i b s : i_bufs s !! i = Some b -> b_blockno b < FSSIZE -> idestart i s = Ok (tt, set_i_ctl (i_ctl s) (Some (regs_of b)) s).
Proof using Type.
  intros Hb Hlt. unfold idestart, ide_buf. mrun. rewrite Hb. destruct (Z.leb_spec FSSIZE (b_blockno b)); [lia|]. unfold regs_of.
  change (BSIZE / SECTOR_SIZE) with 1. rewrite Z.mul_1_r. cbn [Z.ltb Z.compare Z.eqb Pos.eqb]. by destruct (b_dirty b).
Qed.

(** ** The queue *)
Fixpoint qlinks (n : gmap nat nat) (q : list nat) : Prop :=
  match q with
  | [] => True
  | x :: t => n !! x = head t /\ qlinks n t
  end.

Lemma qlinks_frame n n' q : qlinks n q -> (forall x, x ∈ q -> n' !! x = n !! x) -> qlinks n' q.
Proof using Type.
  induction q as [|x t IH]; simpl; [done|]. intros [H1 H2] Hf. split; [by rewrite Hf by left|]. apply IH; [done|]. intros y Hy. apply Hf. by right.
Qed.

Lemma qlinks_snoc n q p i : qlinks n (q ++ [p]) -> p ∉ q -> i ∉ q -> i <> p -> n !! i = None -> qlinks (<[p := i]> n) (q ++ [p; i]).
Proof using Type.
  induction q as [|x t IH]; simpl; intros Hq Hp Hi Hne Hn.
  - rewrite lookup_insert_eq. split; [done|]. split; [|done]. by rewrite lookup_insert_ne.
  - rewrite not_elem_of_cons in Hp, Hi. destruct Hp as [? Hp], Hi as [? Hi], Hq as [E1 E2]. split; [|by apply IH]. rewrite lookup_insert_ne by done. rewrite E1. by destruct t.
Qed.

Record ide_inv s q : Prop := {
  iv_head : i_queue s = head q;
  iv_links : qlinks (i_qnext s) q;
  iv_nodup : NoDup q;
  iv_bufs : forall i, i ∈ q -> exists b, i_bufs s !! i = Some b /\ queued b;
  iv_cmd : match q with [] => i_cmd s = None | i :: _ => forall b, i_bufs s !! i = Some b -> i_cmd s = Some (regs_of b) end;
  iv_disk1 : i_havedisk1 s = true
}.

Lemma queue_length s q : ide_inv s q -> (length q <= length (i_bufs s))%nat.
Proof using Type.
  intros Hi. rewrite <- (length_seq (length (i_bufs s)) 0). apply submseteq_length, NoDup_submseteq; [apply Hi|].
  intros i Hin. destruct (iv_bufs _ _ Hi i Hin) as (b & Hb & _). apply elem_of_seq. apply lookup_lt_Some in Hb. lia.
Qed.

Lemma queue_append_run i t : forall q p fuel s, qlinks (i_qnext s) (q ++ p :: t) -> NoDup (q ++ p :: t) -> i ∉ q ++ p :: t -> i_qnext s !! i = None -> (length t <= fuel)%nat ->
  exists n', append_loop fuel p i s = Ok (tt, set_i_queue (i_queue s) n' s) /\ qlinks n' (q ++ p :: t ++ [i]).
Proof using Type.
  induction t as [|y t IH]; intros q p fuel s Hl Hd Hi Hn Hf.
  - assert (Hp : i_qnext s !! p = None). { clear -Hl. induction q as [|x q IH]; simpl in *; [by destruct Hl|]. destruct Hl as [_ Hl]. by apply IH. }
    exists (<[p := i]> (i_qnext s)). split; [destruct fuel; cbn [append_loop]; mrun; by rewrite Hp|]. apply qlinks_snoc; try done.
    + intros Hin. apply NoDup_app in Hd as (_ & Hd & _). by apply (Hd p Hin), list_elem_of_singleton.
    + intros Hin. apply Hi, elem_of_app. by left.
    + intros ->. apply Hi, elem_of_app. right. by left.
  - assert (Hp : i_qnext s !! p = Some y). { clear -Hl. induction q as [|x q IH]; simpl in *; [by destruct Hl|]. destruct Hl as [_ Hl]. by apply IH. }
    destruct fuel as [|f]; [simpl in Hf; lia|]. cbn [append_loop]. destruct (IH (q ++ [p]) y f s) as (n' & E & Hl'); [by rewrite <- app_assoc|by rewrite <- app_assoc|by rewrite <- app_assoc|done|simpl in Hf; lia|].
    exists n'. rewrite <- app_assoc in Hl'. split; [|done]. mrun. rewrite Hp. exact E.
Qed.

(** ** The two halves of a request *)
Lemma request_run s q i b : ide_inv s q -> i ∉ q -> i_bufs s !! i = Some b -> queued b ->
  exists s', iderw_start (sl_pid (b_lock b)) i s = Ok (tt, s') /\ ide_inv s' (q ++ [i]) /\ i_bufs s' = i_bufs s /\ i_ctl s' = i_ctl s.
Proof using Type.
  intros Hi Hin Hb Hq. pose proof Hi as [Hhd Hl Hnd Hbs Hc Hd1]. unfold iderw_start, ide_buf. mrun. rewrite Hb. unfold holdingsleep. rewrite (q_locked _ Hq), Z.eqb_refl. cbn [negb andb].
  rewrite (q_work _ Hq), Hd1. cbn [negb]. rewrite andb_false_r, Hhd. cbn [i_queue set_i_queue i_bufs i_qnext].
  assert (Hl0 : qlinks (delete i (i_qnext s)) q) by (apply (qlinks_frame (i_qnext s)); [done|]; intros x Hx; rewrite lookup_delete_ne; [done|by intros ->]).
  destruct q as [|p t]; cbn [head].
  - rewrite bool_decide_true by done. pose proof (idestart_run i b (set_i_queue (Some i) (delete i (i_qnext s)) (set_i_queue None (delete i (i_qnext s)) s)) Hb ltac:(apply Hq)) as E. cbn in E. cbn. rewrite E.
    eexists. split; [reflexivity|]. split; [|done]. split; cbn; try done.
    + split; [by rewrite lookup_delete_eq|done].
    + apply NoDup_singleton.
    + intros j ->%list_elem_of_singleton. eauto.
    + intros b' Hb'. by simplify_eq.
  - pose proof (queue_length _ _ Hi) as Hlen. simpl in Hlen. set (s0 := set_i_queue (Some p) (delete i (i_qnext s)) s).
    destruct (queue_append_run i t [] p (length (i_bufs s)) s0) as (n' & E & Hl'); [done|done|done|cbn; by rewrite lookup_delete_eq|cbn; lia|].
    rewrite E. cbn [i_queue set_i_queue s0]. rewrite bool_decide_false by (intros [= ->]; apply Hin; left). eexists. split; [reflexivity|]. split; [|done]. split; cbn; try done.
    + change (p :: t ++ [i]) with ((p :: t) ++ [i]). apply NoDup_app. split_and!; [done| |apply NoDup_singleton]. intros x Hx ->%list_elem_of_singleton. done.
    + intros j. change (p :: t ++ [i]) with ((p :: t) ++ [i]). rewrite elem_of_app, list_elem_of_singleton. intros [Hj| ->]; [by apply Hbs|eauto].
Qed.

(** What serving a buffer does to it and to the sectors. *)
Definition served (d : D) (b : buf) : buf := set_b_flags true false (if b_dirty b then b else set_b_data (sectors d (b_dev b) (b_blockno b)) b).

Lemma intr_run s q i b status : ide_inv s (i :: q) -> i_bufs s !! i = Some b -> idewait true status = Some 0 ->
  exists s', ideintr status s = Ok (Some i, s') /\ ide_inv s' q /\ i_bufs s' = <[i := served (i_ctl s) b]> (i_bufs s) /\
    forall v l, sectors (i_ctl s') v l = if b_dirty b && (v =? b_dev b) && (l =? b_blockno b) then b_data b else sectors (i_ctl s) v l.
Proof using CO.
  intros Hi Hb Hst. pose proof Hi as [Hhd [Hn Hl] Hnd Hbs Hc Hd1]. specialize (Hc b Hb). apply NoDup_cons in Hnd as [Hiq Hnd].
  destruct (Hbs i ltac:(left)) as (b' & Hb' & Hq). rewrite Hb in Hb'. injection Hb' as <-. destruct (regs_select b Hq) as [Elba Edrv].
  assert (Hlt : (i < length (i_bufs s))%nat) by by eapply lookup_lt_Some.
  set (d' := carry_out (regs_of b) (i_ctl s)).
  assert (Hd' : forall v l, sectors d' v l = if b_dirty b && (v =? b_dev b) && (l =? b_blockno b) then b_data b else sectors (i_ctl s) v l).
  { intros v l. unfold d'. destruct (b_dirty b) eqn:Ed; [rewrite (carry_out_write _ _ (b_data b)); [by rewrite Elba, Edrv|unfold regs_of; cbn; by rewrite Ed..|done|unfold regs_of; cbn; by rewrite Ed]|].
    rewrite carry_out_read; [done|unfold regs_of; cbn; by rewrite Ed]. }
  set (bs' := <[i := served (i_ctl s) b]> (i_bufs s)).
  assert (Hmid : forall k : M (ide D) (option nat),
    (modify (fun s => match i_cmd s with Some r => set_i_ctl (carry_out r (i_ctl s)) (Some r) s | None => s end);; k) s = k (set_i_ctl d' (Some (regs_of b)) s)).
  { intros k. mrun. by rewrite Hc. }
  assert (E1 : ideintr status s = (match head q with
      | Some j => idestart j;; mret (Some i)
      | None => modify (fun s => set_i_ctl (i_ctl s) None s);; mret (Some i) end)
      (mkIde bs' (head q) (i_qnext s) d' (Some (regs_of b)) (i_havedisk1 s))).
  { unfold ideintr. rewrite Hmid. unfold ide_buf, upd_ide_buf, ide_buf. mrun. cbn [i_queue set_i_ctl]. rewrite Hhd. cbn [head i_bufs set_i_queue set_i_bufs set_i_ctl i_qnext i_cmd i_ctl i_havedisk1]. rewrite Hb, Hn.
    unfold bs', served. destruct (b_dirty b) eqn:Ed.
    - cbn [i_bufs i_queue set_i_bufs set_i_queue set_i_ctl i_qnext i_ctl i_cmd i_havedisk1]. rewrite Hb. cbn [i_bufs i_queue set_i_bufs set_i_queue set_i_ctl i_qnext i_ctl i_cmd i_havedisk1]. by destruct (head q).
    - rewrite Hst. cbn [Z.leb Z.compare i_bufs i_queue set_i_bufs set_i_queue set_i_ctl i_qnext i_ctl i_cmd i_havedisk1]. rewrite Hb. cbn [i_bufs i_queue set_i_bufs set_i_queue set_i_ctl i_qnext i_ctl i_cmd i_havedisk1]. rewrite list_lookup_insert_eq by done. cbn [i_bufs i_queue i_qnext i_ctl i_cmd i_havedisk1 set_i_bufs set_i_queue set_i_ctl].
      rewrite list_insert_insert_eq. rewrite read_data_sector; [|unfold regs_of; cbn; by rewrite Ed|done]. rewrite Elba, Edrv, Hd', ?Ed. cbn [andb]. by destruct (head q). }
  assert (Hbs' : forall j, j ∈ q -> exists c, bs' !! j = Some c /\ queued c /\ i_bufs s !! j = Some c).
  { intros j Hj. destruct (Hbs j ltac:(by right)) as (c & Hc' & Hqc). exists c. unfold bs'. rewrite list_lookup_insert_ne by (intros ->; done). done. }
  destruct q as [|j t]; cbn [head] in *.
  - rewrite E1. eexists. split; [reflexivity|]. split; [|done]. split; cbn; try done. by intros ? []%elem_of_nil.
  - destruct (Hbs' j ltac:(left)) as (c & Hc' & Hqc & _). rewrite E1. unfold mbind, M_bind. rewrite (idestart_run j c) by (done || apply Hqc). eexists. split; [reflexivity|]. split; [|done]. split; cbn; try done.
    + intros x Hx. destruct (Hbs' x Hx) as (c' & ? & ? & _). eauto.
    + intros c' E. by simplify_eq.
Qed.

(** ** The driver among its callers

    [B] are the buffers that a process has passed to [iderw] and not yet
    got back: their sleep locks keep all other code away from them.
    [EOwn] is everything else that is done to a buffer. *)
Inductive event : Type :=
| EReq (i : nat)
| EIntr
| ERet (i : nat)
| EOwn (i : nat) (b : buf).

Inductive dstep : ide D * gset nat -> event -> ide D * gset nat -> Prop :=
| d_req s B i b s' : i ∉ B -> i_bufs s !! i = Some b -> queued b -> iderw_start (sl_pid (b_lock b)) i s = Ok (tt, s') ->
    dstep (s, B) (EReq i) (s', {[i]} ∪ B)
| d_intr s B st w s' : idewait true st = Some 0 -> ideintr st s = Ok (w, s') -> dstep (s, B) EIntr (s', B)
| d_ret s B i : i ∈ B -> iderw_done i s = Ok (true, s) -> dstep (s, B) (ERet i) (s, B ∖ {[i]})
| d_own s B i b : i ∉ B -> dstep (s, B) (EOwn i b) (set_i_bufs (<[i := b]> (i_bufs s)) s, B).

(** The specification: a FIFO of requests, each served at once. *)
Inductive fifo_step : bio * list nat * gset nat -> event -> bio * list nat * gset nat -> Prop :=
| s_req a q B i b : i ∉ B -> bufs a !! i = Some b -> queued b -> fifo_step (a, q, B) (EReq i) (a, q ++ [i], {[i]} ∪ B)
| s_serve a q B i b a' : bufs a !! i = Some b -> iderw (sl_pid (b_lock b)) i a = Ok (tt, a') -> fifo_step (a, i :: q, B) EIntr (a', q, B)
| s_idle a B : fifo_step (a, [], B) EIntr (a, [], B)
| s_ret a q B i : i ∈ B -> i ∉ q -> fifo_step (a, q, B) (ERet i) (a, q, B ∖ {[i]})
| s_own a q B i b : i ∉ B -> fifo_step (a, q, B) (EOwn i b) (set_bufs (<[i := b]> (bufs a)) a, q, B).

Inductive execs {X : Type} (step : X -> event -> X -> Prop) : X -> list event -> X -> Prop :=
| execs_nil x : execs step x [] x
| execs_snoc x es y e z : execs step x es y -> step y e z -> execs step x (es ++ [e]) z.

Record sim (x : ide D * gset nat) (y : bio * list nat * gset nat) : Prop := {
  sm_inv : ide_inv x.1 y.1.2;
  sm_busy : x.2 = y.2 /\ forall i, i ∈ y.1.2 -> i ∈ x.2;
  sm_bufs : bufs y.1.1 = i_bufs x.1;
  sm_disk : forall v b, v = 0 \/ v = 1 -> 0 <= b < FSSIZE -> disk y.1.1 v b = sectors (i_ctl x.1) v b;
  sm_done : forall i, i ∈ x.2 -> i ∉ y.1.2 -> exists b, i_bufs x.1 !! i = Some b /\ b_valid b = true /\ b_dirty b = false
}.

Lemma sim_req s B a q i b s' : sim (s, B) (a, q, B) -> i ∉ B -> i_bufs s !! i = Some b -> queued b -> iderw_start (sl_pid (b_lock b)) i s = Ok (tt, s') ->
  sim (s', {[i]} ∪ B) (a, q ++ [i], {[i]} ∪ B).
Proof using CO.
  intros [Hi [_ Hb] Hbs Hdk Hdn] HiB Hbi Hq E. simpl in *. assert (Hiq : i ∉ q) by (intros Hin; by apply HiB, Hb).
  destruct (request_run s q i b Hi Hiq Hbi Hq) as (s1 & E1 & Hi1 & Eb & Ec). rewrite E in E1. injection E1 as <-. split; simpl; try done.
  - split; [done|]. intros j. rewrite elem_of_app, list_elem_of_singleton. set_solver.
  - by rewrite Eb.
  - by rewrite Ec.
  - intros j Hj Hjq. rewrite Eb. rewrite elem_of_app, list_elem_of_singleton in Hjq. apply Hdn; [set_solver|tauto].
Qed.

(** Serving the head of the queue is one call of [Bio.iderw]. *)
Lemma sim_serve s B a q i st : sim (s, B) (a, i :: q, B) -> idewait true st = Some 0 ->
  exists b s' a', bufs a !! i = Some b /\ ideintr st s = Ok (Some i, s') /\ iderw (sl_pid (b_lock b)) i a = Ok (tt, a') /\ sim (s', B) (a', q, B).
Proof using CO.
  intros [Hi [_ Hb] Hbs Hdk Hdn] Hst. simpl in *. destruct (iv_bufs _ _ Hi i ltac:(left)) as (b & Hbi & Hq). pose proof (iv_nodup _ _ Hi) as [Hiq _]%NoDup_cons.
  destruct (intr_run s q i b st Hi Hbi Hst) as (s' & E & Hi' & Eb & Ed). pose proof (q_block _ Hq) as Hbl.
  assert (Hlt : (i < length (i_bufs s))%nat) by by eapply lookup_lt_Some.
  set (a' := mkBio (i_bufs s') (mru a) (fun v l => if b_dirty b && (v =? b_dev b) && (l =? b_blockno b) then b_data b else disk a v l) (if b_dirty b then trace a ++ [(b_dev b, b_blockno b, b_data b)] else trace a)).
  exists b, s', a'. rewrite Hbs. split_and!; [done..| |].
  - unfold iderw, get_buf, upd_buf, get_buf. mrun. rewrite Hbs, Hbi. unfold holdingsleep. rewrite (q_locked _ Hq), Z.eqb_refl. cbn [negb andb]. rewrite (q_work _ Hq).
    destruct (Z.leb_spec FSSIZE (b_blockno b)); [lia|]. unfold a'. rewrite Eb. unfold served. destruct (b_dirty b) eqn:Edt; cbn; rewrite Hbs, Hbi; unfold set_bufs, write_disk; cbn; rewrite Hbs; [done|].
    rewrite Hdk by (apply Hq || done). done.
  - split; simpl; try done.
    + split; [done|]. intros j Hj. apply Hb. by right.
    + intros v l Hv Hl. rewrite Ed. by rewrite Hdk.
    + intros j Hj Hjq. rewrite Eb. destruct (decide (j = i)) as [-> |Hne]; [rewrite list_lookup_insert_eq by done; by eexists|]. rewrite list_lookup_insert_ne by done. apply Hdn; [done|]. rewrite elem_of_cons. tauto.
Qed.

Lemma sim_idle s st : ide_inv s [] -> ideintr st s = Ok (None, s).
Proof using Type. intros [Hh _ _ _ Hc _]. unfold ideintr. mrun. rewrite Hc. by rewrite Hh. Qed.

Lemma sim_step x y e x' : dstep x e x' -> sim x y -> exists y', fifo_step y e y' /\ sim x' y'.
Proof using CO.
  intros Hst Hs. destruct y as [[a q] B']. pose proof (sm_busy _ _ Hs) as [EB _]. simpl in EB. inversion Hst as [s B i b s' HiB Hbi Hq E|s B st w s' Hw E|s B i HiB E|s B i b HiB]; subst; simpl in *.
  - exists (a, q ++ [i], {[i]} ∪ B). split; [econstructor; [done| |exact Hq]|by eapply sim_req]. pose proof (sm_bufs _ _ Hs) as Ebs. simpl in Ebs. by rewrite Ebs.
  - destruct q as [|i q].
    + pose proof (sim_idle s st (sm_inv _ _ Hs)) as E2. rewrite E in E2. injection E2 as _ ->. exists (a, [], B). split; [constructor|done].
    + destruct (sim_serve s B a q i st Hs Hw) as (b & s1 & a' & Hb & E1 & Er & Hs'). rewrite E in E1. injection E1 as _ <-. exists (a', q, B). split; [by econstructor|done].
  - exists (a, q, B ∖ {[i]}). pose proof Hs as [Hi [_ Hb] Hbs Hdk Hdn]. simpl in *.
    assert (Hiq : i ∉ q).
    { intros Hin. destruct (iv_bufs _ _ Hi i Hin) as (b & Hbi & Hq). unfold iderw_done, ide_buf in E. revert E. mrun. rewrite Hbi, (q_work _ Hq). done. }
    split; [by constructor|]. split; simpl; try done; [|intros j Hj; apply Hdn; set_solver]. split; [done|]. intros j Hj. apply elem_of_difference. split; [by apply Hb|]. intros ->%elem_of_singleton. done.
  - exists (set_bufs (<[i := b]> (bufs a)) a, q, B). split; [by constructor|]. pose proof Hs as [Hi [_ Hb] Hbs Hdk Hdn]. simpl in *. assert (Hne : forall j, j ∈ q -> j <> i) by (intros j Hj ->; by apply HiB, Hb).
    split; simpl; try done; [|by rewrite Hbs|intros j Hj Hjq; rewrite list_lookup_insert_ne by (intros ->; done); by apply Hdn].
    destruct Hi as [H1 H2 H3 H4 H5 H6]. split; simpl; try done.
    + intros j Hj. rewrite list_lookup_insert_ne by (intros E; by apply (Hne j)). by apply H4.
    + destruct q as [|j q]; [done|]. intros c. rewrite list_lookup_insert_ne by (intros E; by apply (Hne j ltac:(left))). apply H5.
Qed.

Lemma sim_execs x y es x' : execs dstep x es x' -> sim x y -> exists y', execs fifo_step y es y' /\ sim x' y'.
Proof using CO.
  induction 1 as [x|x es x1 e x2 _ IH Hst]; intros Hs; [exists y; split; [constructor|done]|].
  destruct (IH Hs) as (y1 & Hr & Hs1). destruct (sim_step _ _ _ _ Hst Hs1) as (y2 & Hst2 & Hs2). exists y2. split; [by econstructor|done].
Qed.

(** The specification's start for a driver's. *)
Definition bio_of (bs : list buf) (m : list nat) (d : D) : bio := mkBio bs m (sectors d) [].

Lemma sim_init status bs m d : existsb (fun r => negb (r =? 0)) (take 1000 status) = true -> sim (ideinit status bs d, ∅) (bio_of bs m d, [], ∅).
Proof using Type. intros Hd. split; simpl; try done; [|split; [done|]; by intros ? []%elem_of_nil]. split; simpl; try done; [constructor|by intros ? []%elem_of_nil]. Qed.

(** [n] interrupts, one after the other. *)
Fixpoint interrupts (l : list (list Z)) : M (ide D) unit :=
  match l with
  | [] => mret tt
  | st :: l' => ideintr st;; interrupts l'
  end.

Lemma interrupts_run q : forall s B a l, sim (s, B) (a, q, B) -> Forall (fun st => idewait true st = Some 0) l -> length l = length q ->
  exists s' a', interrupts l s = Ok (tt, s') /\ sim (s', B) (a', [], B).
Proof using CO.
  induction q as [|i q IH]; intros s B a [|st l] Hs Hl Hlen; try done; [by exists s, a|]. apply Forall_cons in Hl as [Hst Hl].
  destruct (sim_serve s B a q i st Hs Hst) as (b & s1 & a1 & _ & E & _ & Hs1). destruct (IH s1 B a1 l Hs1 Hl ltac:(by injection Hlen)) as (s' & a' & E' & Hs').
  exists s', a'. split; [|done]. cbn [interrupts]. by rewrite (bind_Ok _ _ _ _ _ E).
Qed.
End IdeThms.

(** A controller that is an array of sectors, for concrete runs. *)
#[global] Instance array_controller : Controller (Z -> Z -> block) := {|
  sectors d := d;
  carry_out r d := match r_data r with
                   | Some b => if r_cmd r =? IDE_CMD_WRITE then fun v l => if (v =? drive_of r) && (l =? lba_of r) then b else d v l else d
                   | None => d
                   end;
  read_data r d := d (drive_of r) (lba_of r)
|}.

#[global] Instance array_controller_ok : ControllerOk (Z -> Z -> block).
Proof.
  split.
  - intros r d b v l Hc _ Hd. cbn. by rewrite Hd, Hc.
  - intros r d Hc. cbn. destruct (r_data r); [by rewrite Hc|done].
  - done.
Qed.

(** Claim C11. The disk driver refines a FIFO of requests that are served one
    at a time by [Bio.iderw]: whatever the order in which processes call
    [iderw], interrupts arrive and calls return, the buffers and the sectors
    are those of the specification after the same events, and a call
    returns only after its request was served. *)
Theorem ide_refines (D : Type) (CD : Controller D) (CO : ControllerOk D) status bs m (d : D) es s B :
  existsb (fun r => negb (r =? 0)) (take 1000 status) = true ->
  execs dstep (ideinit status bs d, ∅) es (s, B) ->
  exists a q, execs fifo_step (bio_of bs m d, [], ∅) es (a, q, B) /\ bufs a = i_bufs s /\
    (forall v b, v = 0 \/ v = 1 -> 0 <= b < FSSIZE -> disk a v b = sectors (i_ctl s) v b) /\
    forall i, i ∈ B -> i ∈ q \/ iderw_done i s = Ok (true, s).
Proof.
  intros Hd He. destruct (sim_execs _ _ _ _ He (sim_init status bs m d Hd)) as ([[a q] B'] & Hr & Hs). pose proof Hs as [Hi [EB Hb] Hbs Hdk Hdn]. simpl in *. subst B'.
  exists a, q. split_and!; [done..|]. intros i Hi2. destruct (decide (i ∈ q)) as [|Hn]; [by left|right]. destruct (Hdn i Hi2 Hn) as (b & Hbi & Hv & Hdt).
  unfold iderw_done, ide_buf. mrun. by rewrite Hbi, Hv, Hdt.
Qed.

Definition ide_bufs1 : list buf := [mkBuf false false 1 7 (mkSl true 3) 1 zero_block; mkBuf true true 1 8 (mkSl true 4) 1 (replicate 512 5)].
Definition disk0 : Z -> Z -> block := fun _ l => replicate 512 l.

Lemma ide_refines_witness : exists s, execs dstep (ideinit [80] ide_bufs1 disk0, ∅) [EReq 0; EReq 1; EIntr; EIntr] (s, {[1%nat]} ∪ ({[0%nat]} ∪ ∅)) /\
  (exists a q, execs fifo_step (bio_of ide_bufs1 [] disk0, [], ∅) [EReq 0; EReq 1; EIntr; EIntr] (a, q, {[1%nat]} ∪ ({[0%nat]} ∪ ∅)) /\ bufs a = i_bufs s) /\
  b_data <$> i_bufs s !! 0%nat = Some (replicate 512 7).
Proof.
  assert (Hq0 : queued (mkBuf false false 1 7 (mkSl true 3) 1 zero_block)) by (split; unfold FSSIZE; simpl; auto; lia).
  assert (Hq1 : queued (mkBuf true true 1 8 (mkSl true 4) 1 (replicate 512 5))) by (split; unfold FSSIZE; simpl; auto; lia).
  assert (He : exists s, execs dstep (ideinit [80] ide_bufs1 disk0, ∅) [EReq 0; EReq 1; EIntr; EIntr] (s, {[1%nat]} ∪ ({[0%nat]} ∪ ∅)) /\ b_data <$> i_bufs s !! 0%nat = Some (replicate 512 7)).
  { change [EReq 0; EReq 1; EIntr; EIntr] with (((([] ++ [EReq 0]) ++ [EReq 1]) ++ [EIntr]) ++ [EIntr]).
    eexists. split; [eapply execs_snoc; [eapply execs_snoc; [eapply execs_snoc; [eapply execs_snoc; [apply execs_nil|]|]|]|]|].
    - eapply d_req; [set_solver|reflexivity|exact Hq0|vm_compute; reflexivity].
    - eapply d_req; [set_solver|reflexivity|exact Hq1|vm_compute; reflexivity].
    - eapply (d_intr _ _ [64]); [reflexivity|vm_compute; reflexivity].
    - eapply (d_intr _ _ [64]); [reflexivity|vm_compute; reflexivity].
    - vm_compute. reflexivity. }
  destruct He as (s & He & Hd). exists s. split; [exact He|]. split; [|exact Hd]. destruct (ide_refines _ _ _ [80] ide_bufs1 [] disk0 _ _ _ eq_refl He) as (a & q & H1 & H2 & _). by exists a, q.
Defined.



(** A read that the disk fails is reported as done: when the
    status has an error bit the handler leaves the old bytes in the buffer
    and marks it valid all the same. *)
Theorem ide_error_ignored (D : Type) (CD : Controller D) (s : ide D) i b status :
  ide_inv s [i] -> i_bufs s !! i = Some b -> b_dirty b = false -> idewait true status = Some (-1) ->
  exists s', ideintr status s = Ok (Some i, s') /\ i_bufs s' !! i = Some (set_b_flags true false b) /\ iderw_done i s' = Ok (true, s').
Proof.
  intros [Hhd [Hn _] _ _ Hc _] Hb Hdt Hst. specialize (Hc b Hb). assert (Hlt : (i < length (i_bufs s))%nat) by by eapply lookup_lt_Some.
  eexists. split.
  { unfold ideintr, ide_buf, upd_ide_buf, ide_buf. mrun. rewrite Hc. cbn [i_queue set_i_ctl]. rewrite Hhd. cbn [head i_bufs set_i_queue set_i_bufs set_i_ctl i_qnext i_cmd i_ctl]. rewrite Hb, Hn, Hdt, Hst.
    cbn [Z.leb Z.compare i_bufs set_i_queue set_i_ctl]. rewrite Hb. cbn. reflexivity. }
  cbn [i_bufs set_i_ctl set_i_bufs set_i_queue]. assert (E : <[i:=set_b_flags true false b]> (i_bufs s) !! i = Some (set_b_flags true false b)) by by apply list_lookup_insert_eq.
  split; [exact E|]. unfold iderw_done, ide_buf. mrun. cbn [i_bufs set_i_ctl set_i_bufs set_i_queue]. by rewrite E.
Qed.

Lemma ide_error_ignored_witness : exists s s' : ide (Z -> Z -> block), ideintr [65] s = Ok (Some 0%nat, s') /\ b_data <$> i_bufs s' !! 0%nat = Some zero_block /\ iderw_done 0 s' = Ok (true, s').
Proof.
  set (b := mkBuf false false 1 7 (mkSl true 3) 1 zero_block).
  set (s := mkIde [b] (Some 0%nat) ∅ disk0 (Some (regs_of b)) true : ide (Z -> Z -> block)).
  assert (Hi : ide_inv s [0%nat]).
  { split; try done; [apply NoDup_singleton| |]; [intros i ->%list_elem_of_singleton; exists b; split; [done|]; split; unfold FSSIZE; simpl; auto; lia|]. intros b' [= <-]. done. }
  destruct (ide_error_ignored _ _ s 0%nat b [65] Hi eq_refl eq_refl eq_refl) as (s' & E & Hb & Hd). exists s, s'. split; [exact E|]. split; [by rewrite Hb|exact Hd].
Defined.

(** The in-memory disk does what the driver does, for an image of the full
    size on disk 1. *)
Lemma memide_same pid i s b : bufs s !! i = Some b -> b_dev b = 1 -> Memide.iderw pid FSSIZE i s = iderw pid i s \/ exists e e', Memide.iderw pid FSSIZE i s = Panic e /\ iderw pid i s = Panic e'.
Proof.
  intros Hb Hd. assert (Hlt : (i < length (bufs s))%nat) by by eapply lookup_lt_Some.
  unfold Memide.iderw, iderw, upd_buf, get_buf. mrun. rewrite Hb, Hd. destruct (negb (holdingsleep pid (b_lock b))); [by left|]. destruct (b_valid b && negb (b_dirty b)); [by left|].
  cbn [Z.eqb Pos.eqb negb]. destruct (FSSIZE <=? b_blockno b); [right; eauto|left]. destruct (b_dirty b) eqn:Ed.
  - cbn [bufs set_bufs write_disk]. rewrite Hb. cbn [bufs set_bufs write_disk]. rewrite list_lookup_insert_eq by done. unfold set_bufs, write_disk. cbn. by rewrite list_insert_insert_eq.
  - cbn [bufs set_bufs]. rewrite Hb. cbn [bufs set_bufs]. rewrite list_lookup_insert_eq by done. unfold set_bufs. cbn. rewrite list_insert_insert_eq, Ed, Hd. done.
Qed.
