(* ===== verification/Log.v ===== *)
(** * The log (log.c, [readsb] of fs.c)

    The log adds its in-memory header to the buffer cache.  Each function
    runs as one step: [log.lock] and the sleeps on [&log] order the steps and
    are not part of the state.  [begin_op] returns [false] when the caller
    sleeps. *)

From stdpp Require Import prelude strings.
From S2P Require Import Prelude Bio.

Open Scope Z_scope.

(** ** The [k]-th 32-bit word of a block, little endian *)
Definition byte_at (d : block) (i : nat) : Z := default 0 (d !! i).
Definition get32 (d : block) (k : nat) : Z :=
  byte_at d (4 * k) + 256 * (byte_at d (4 * k + 1) + 256 * (byte_at d (4 * k + 2) + 256 * byte_at d (4 * k + 3))).
Definition put32 (d : block) (k : nat) (z : Z) : block :=
  <[(4 * k)%nat := z mod 256]> (<[(4 * k + 1)%nat := Z.shiftr z 8 mod 256]>
    (<[(4 * k + 2)%nat := Z.shiftr z 16 mod 256]> (<[(4 * k + 3)%nat := Z.shiftr z 24 mod 256]> d))).

(** ** The super block (fs.h) *)
Record superblock : Type := mkSb {
  sb_size : Z; sb_nblocks : Z; sb_ninodes : Z; sb_nlog : Z;
  sb_logstart : Z; sb_inodestart : Z; sb_bmapstart : Z
}.

Definition sb_decode (d : block) : superblock :=
  mkSb (get32 d 0) (get32 d 1) (get32 d 2) (get32 d 3) (get32 d 4) (get32 d 5) (get32 d 6).

(** ** State *)
Definition MAXOPBLOCKS : Z := 10.
Definition LOGSIZE : Z := MAXOPBLOCKS * 3.

Record log : Type := mkLog {
  lg_start : Z;
  lg_size : Z;
  lg_outstanding : Z;
  lg_committing : bool;
  lg_dev : Z;
  lh_n : Z;                 (** [log.lh.n] *)
  lh_block : list Z         (** [log.lh.block\[LOGSIZE\]] *)
}.

Record lst : Type := mkLst { lb : bio; lg : log }.

Definition set_lh (n : Z) (bs : list Z) (l : log) : log :=
  mkLog (lg_start l) (lg_size l) (lg_outstanding l) (lg_committing l) (lg_dev l) n bs.
Definition set_ops (o : Z) (c : bool) (l : log) : log :=
  mkLog (lg_start l) (lg_size l) o c (lg_dev l) (lh_n l) (lh_block l).

Definition set_lg (l : log) (s : lst) : lst := mkLst (lb s) l.

(** A buffer cache operation. *)
Definition lift {A} (m : M bio A) : M lst A := fun s =>
  match m (lb s) with
  | Ok (a, b) => Ok (a, mkLst b (lg s))
  | Panic e => Panic e
  | Fault => Fault
  end.

Section Log.
Context (pid : Z).

Definition readsb (dev : Z) : M bio superblock :=
  i ← bread pid dev 1; b ← get_buf i; brelse pid i;; mret (sb_decode (b_data b)).

(** [log.lh.block\[k\]]; outside the array the access is undefined. *)
Definition lh_at (k : Z) : M lst Z := s ← get; deref (nthZ (lh_block (lg s)) k).

Definition set_lh_block (k v : Z) : M lst unit :=
  s ← get; bs ← deref (updZ (lh_block (lg s)) k v); put (set_lg (set_lh (lh_n (lg s)) bs (lg s)) s).
Definition set_lh_n (n : Z) : M lst unit :=
  modify (fun s => set_lg (set_lh n (lh_block (lg s)) (lg s)) s).

(** [memmove(to->data, from->data, BSIZE)] *)
Definition copy_data (to from : nat) : M lst unit :=
  b ← lift (get_buf from); lift (upd_buf to (set_b_data (b_data b))).

Definition install_body (tail : Z) : M lst unit :=
  s ← get;
  lbuf ← lift (bread pid (lg_dev (lg s)) (u32 (lg_start (lg s) + tail + 1)));
  k ← lh_at tail;
  dbuf ← lift (bread pid (lg_dev (lg s)) (u32 k));
  copy_data dbuf lbuf;;
  lift (bwrite pid dbuf);; lift (brelse pid lbuf);; lift (brelse pid dbuf).

Definition install_trans : M lst unit :=
  s ← get; for_each (seqZ 0 (lh_n (lg s))) install_body.

Definition read_head : M lst unit :=
  s ← get;
  i ← lift (bread pid (lg_dev (lg s)) (u32 (lg_start (lg s))));
  b ← lift (get_buf i);
  let n := s32 (get32 (b_data b) 0) in
  set_lh_n n;;
  for_each (seqZ 0 n) (fun i => set_lh_block i (s32 (get32 (b_data b) (S (Z.to_nat i)))));;
  lift (brelse pid i).

(** [hb->block\[k\] = log.lh.block\[k\]] into buffer [i]. *)
Definition write_head_body (i : nat) (k : Z) : M lst unit :=
  v ← lh_at k; lift (upd_buf i (fun b => set_b_data (put32 (b_data b) (S (Z.to_nat k)) v) b)).

Definition write_head : M lst unit :=
  s ← get;
  i ← lift (bread pid (lg_dev (lg s)) (u32 (lg_start (lg s))));
  lift (upd_buf i (fun b => set_b_data (put32 (b_data b) 0 (lh_n (lg s))) b));;
  for_each (seqZ 0 (lh_n (lg s))) (write_head_body i);;
  lift (bwrite pid i);; lift (brelse pid i).

Definition recover_from_log : M lst unit :=
  read_head;; install_trans;; set_lh_n 0;; write_head.

(** [sizeof(struct logheader)] is [4 * (LOGSIZE + 1)]. *)
Definition initlog (dev : Z) : M lst unit :=
  if BSIZE <=? 4 * (LOGSIZE + 1) then panic "initlog: too big logheader"
  else
    sb ← lift (readsb dev);
    modify (fun s => set_lg (mkLog (s32 (sb_logstart sb)) (s32 (sb_nlog sb)) (lg_outstanding (lg s)) (lg_committing (lg s)) dev
      (lh_n (lg s)) (lh_block (lg s))) s);;
    recover_from_log.

Definition begin_op : M lst bool :=
  s ← get;
  let l := lg s in
  if lg_committing l then mret false
  else if LOGSIZE <? lh_n l + (lg_outstanding l + 1) * MAXOPBLOCKS then mret false
  else put (set_lg (set_ops (lg_outstanding l + 1) (lg_committing l) l) s);; mret true.

Definition write_log_body (tail : Z) : M lst unit :=
  s ← get;
  to ← lift (bread pid (lg_dev (lg s)) (u32 (lg_start (lg s) + tail + 1)));
  k ← lh_at tail;
  from ← lift (bread pid (lg_dev (lg s)) (u32 k));
  copy_data to from;;
  lift (bwrite pid to);; lift (brelse pid from);; lift (brelse pid to).

Definition write_log : M lst unit :=
  s ← get; for_each (seqZ 0 (lh_n (lg s))) write_log_body.

Definition commit : M lst unit :=
  s ← get;
  if 0 <? lh_n (lg s) then
    write_log;; write_head;; install_trans;; set_lh_n 0;; write_head
  else mret tt.

Definition end_op : M lst unit :=
  s ← get;
  let o := lg_outstanding (lg s) - 1 in
  modify (fun s => set_lg (set_ops o (lg_committing (lg s)) (lg s)) s);;
  if lg_committing (lg s) then panic "log.committing"
  else if o =? 0 then
    modify (fun s => set_lg (set_ops o true (lg s)) s);;
    commit;;
    modify (fun s => set_lg (set_ops (lg_outstanding (lg s)) false (lg s)) s)
  else mret tt.

(** The index at which the [for] loop of [log_write] stops. *)
Fixpoint absorb (bs : list Z) (n : nat) (bno : Z) : Z :=
  match n, bs with
  | S n', b :: bs' => if u32 b =? bno then 0 else 1 + absorb bs' n' bno
  | _, _ => 0
  end.

Definition log_write (i : nat) : M lst unit :=
  s ← get;
  let l := lg s in
  if (LOGSIZE <=? lh_n l) || (lg_size l - 1 <=? lh_n l) then panic "too big a transaction"
  else if lg_outstanding l <? 1 then panic "log_write outside of trans"
  else
    b ← lift (get_buf i);
    let k := absorb (lh_block l) (Z.to_nat (lh_n l)) (b_blockno b) in
    set_lh_block k (s32 (b_blockno b));;
    (if k =? lh_n l then set_lh_n (lh_n l + 1) else mret tt);;
    lift (upd_buf i (fun b => set_b_flags (b_valid b) true b)).
End Log.
