(* ===== verification/LogThms.v ===== *)
(** * The log: what each function writes

    [a_write ws a] is the abstract cache state after the disk writes [ws]
    have been made through the cache.  Every function of the log is shown to
    make a list of writes that is a function of the log header and of the
    blocks it sees. *)

From stdpp Require Import prelude strings.
From S2P Require Import Prelude Bio BioInv BioThms Log.

Open Scope Z_scope.

(** ** Words of a block *)
Lemma byte_at_insert d i x j : byte_at (<[i := x]> d) j = if decide (i = j /\ (i < length d)%nat) then x else byte_at d j.
Proof.
  unfold byte_at. case_decide as H.
  - destruct H as [<- H]. by rewrite list_lookup_insert_eq.
  - destruct (decide (i = j)) as [<-|Hne]; [|by rewrite list_lookup_insert_ne].
    rewrite list_insert_ge by (destruct (decide (i < length d)%nat); [naive_solver|lia]). done.
Qed.

Lemma put32_length d k z : length (put32 d k z) = length d.
Proof. unfold put32. by rewrite !length_insert. Qed.

Lemma get_put_eq d k z : (4 * k + 4 <= length d)%nat -> get32 (put32 d k z) k = u32 z.
Proof.
  intros H. unfold get32, put32. rewrite !byte_at_insert, !length_insert. repeat case_decide; try lia.
  apply bytes_word.
Qed.

Lemma get_put_ne d k j z : k <> j -> get32 (put32 d k z) j = get32 d j.
Proof. intros H. unfold get32, put32. rewrite !byte_at_insert, !length_insert. repeat case_decide; try lia. Qed.

(** ** The header block *)
Fixpoint put_blocks (d : block) (i : nat) (bs : list Z) : block :=
  match bs with [] => d | b :: bs' => put_blocks (put32 d (S i) b) (S i) bs' end.
Definition enc_head (d : block) (bs : list Z) : block := put_blocks (put32 d 0 (Z.of_nat (length bs))) 0 bs.

Definition head_n (d : block) : Z := s32 (get32 d 0).
Definition head_block (d : block) (i : nat) : Z := s32 (get32 d (S i)).

Lemma put_blocks_length d i bs : length (put_blocks d i bs) = length d.
Proof. revert d i. induction bs as [|b bs IH]; intros; simpl; [done|]. by rewrite IH, put32_length. Qed.

Lemma put_blocks_below d i bs j : (j <= i)%nat -> get32 (put_blocks d i bs) j = get32 d j.
Proof. revert d i. induction bs as [|b bs IH]; intros d i Hj; simpl; [done|]. rewrite IH by lia. apply get_put_ne. lia. Qed.

Lemma put_blocks_at d i bs j b : (4 * (i + length bs + 1) <= length d)%nat -> bs !! j = Some b ->
  get32 (put_blocks d i bs) (S (i + j)) = u32 b.
Proof.
  revert d i j. induction bs as [|c bs IH]; intros d i j Hl Hj; simpl in *; [done|]. destruct j as [|j].
  - injection Hj as ->. rewrite Nat.add_0_r, put_blocks_below by lia. apply get_put_eq. lia.
  - replace (S (i + S j))%nat with (S (S i + j))%nat by lia. apply IH; [rewrite put32_length; lia|done].
Qed.

Lemma s32_u32 z : - 2 ^ 31 <= z < 2 ^ 31 -> s32 (u32 z) = z.
Proof.
  intros H. unfold s32, u32. rewrite Zplus_mod_idemp_l. rewrite Z.mod_small; lia.
Qed.

Lemma enc_head_n d bs : length d = Z.to_nat BSIZE -> Z.of_nat (length bs) <= LOGSIZE -> head_n (enc_head d bs) = Z.of_nat (length bs).
Proof.
  intros Hd Hb. unfold head_n, enc_head. rewrite put_blocks_below by lia. unfold BSIZE, LOGSIZE, MAXOPBLOCKS in *.
  rewrite get_put_eq by lia. apply s32_u32. lia.
Qed.

Lemma enc_head_block d bs i b : length d = Z.to_nat BSIZE -> Z.of_nat (length bs) <= LOGSIZE -> bs !! i = Some b ->
  0 <= b < FSSIZE -> head_block (enc_head d bs) i = b.
Proof.
  intros Hd Hb Hi Hr. unfold head_block, enc_head. unfold BSIZE, LOGSIZE, MAXOPBLOCKS, FSSIZE in *.
  pose proof (put_blocks_at (put32 d 0 (Z.of_nat (length bs))) 0 bs i b) as E. simpl in E. rewrite E; [|rewrite put32_length; lia|done]. apply s32_u32. lia.
Qed.

(** ** Writes *)
Definition write : Type := Z * Z * block.
Definition apply_writes (ws : list write) (f : Z -> Z -> block) : Z -> Z -> block :=
  foldl (fun f w => upd2 f (w.1.1) (w.1.2) (w.2)) f ws.
Definition clear_writes (ws : list write) (g : Z -> Z -> bool) : Z -> Z -> bool :=
  foldl (fun g w => upd2 g (w.1.1) (w.1.2) false) g ws.

Definition a_write (ws : list write) (a : astate) : astate :=
  mkA (apply_writes ws (a_view a)) (clear_writes ws (a_dirty a)) (a_locked a) (apply_writes ws (a_disk a)) (a_trace a ++ ws).

Lemma apply_app ws us f : apply_writes (ws ++ us) f = apply_writes us (apply_writes ws f).
Proof. apply foldl_app. Qed.

Lemma apply_cons v b x ws f : apply_writes ((v, b, x) :: ws) f = apply_writes ws (upd2 f v b x).
Proof. done. Qed.

Lemma a_write_app ws us a : a_write (ws ++ us) a = a_write us (a_write ws a).
Proof. unfold a_write, apply_writes, clear_writes. cbn. by rewrite !foldl_app, app_assoc. Qed.

Lemma apply_notin ws f v b : (v, b) ∉ ws.*1 -> apply_writes ws f v b = f v b.
Proof.
  revert f. induction ws as [|[[w c] x] ws IH]; intros f H; [done|]. cbn in *. rewrite not_elem_of_cons in H. destruct H as [H1 H2].
  fold (apply_writes ws (upd2 f w c x)). rewrite IH by done. apply upd2_ne. destruct (decide (v = w)), (decide (b = c)); naive_solver.
Qed.

Lemma clear_notin ws g v b : (v, b) ∉ ws.*1 -> clear_writes ws g v b = g v b.
Proof.
  revert g. induction ws as [|[[w c] x] ws IH]; intros g H; [done|]. cbn in *. rewrite not_elem_of_cons in H. destruct H as [H1 H2].
  fold (clear_writes ws (upd2 g w c false)). rewrite IH by done. apply upd2_ne. destruct (decide (v = w)), (decide (b = c)); naive_solver.
Qed.

Lemma clear_sub ws g v b : clear_writes ws g v b = true -> g v b = true.
Proof.
  revert g. induction ws as [|[[w c] x] ws IH]; intros g H; [done|]. apply IH in H. revert H. cbn. unfold upd2. by destruct (_ && _).
Qed.

Lemma clear_in ws g v b : (v, b) ∈ ws.*1 -> clear_writes ws g v b = false.
Proof.
  revert g. induction ws as [|[[w c] x] ws IH]; intros g; [by intros ?%elem_of_nil|]. cbn. intros [E|H]%elem_of_cons; [|by apply IH].
  injection E as -> ->. fold (clear_writes ws (upd2 g w c false)). apply not_true_is_false. intros H%clear_sub. by rewrite upd2_eq in H.
Qed.

Section LogRuns.
Context (pid : Z).

Notation abs := (abs pid).

Lemma lift_Ok {A} (m : M bio A) b l a b' : m b = Ok (a, b') -> lift m (mkLst b l) = Ok (a, mkLst b' l).
Proof using Type. intros H. unfold lift. cbn. by rewrite H. Qed.

Definition unlocked (a : astate) : Prop := forall v b, v <> 0 -> a_locked a v b = false.

(** ** Copying one block to another through the cache *)
Definition copy_tail (to from : nat) : M lst unit :=
  copy_data to from;; lift (bwrite pid to);; lift (brelse pid from);; lift (brelse pid to).

Lemma copy_tail_run b l a i j dev T F : abs b a -> unlocked a -> dev <> 0 -> T < FSSIZE -> T <> F ->
  forall b', abs b' (set_locked dev F true (set_locked dev T true a)) -> holds b' i dev T -> holds b' j dev F ->
  exists b'', copy_tail i j (mkLst b' l) = Ok (tt, mkLst b'' l) /\ abs b'' (a_write [(dev, T, a_view a dev F)] a).
Proof using Type.
  intros Ha Hul Hd HT HTF b1 Hb1 Hi Hj. unfold copy_tail, copy_data.
  destruct (holds_abs pid b1 _ j dev F Hb1 Hj) as (x & Hx & _ & _ & _ & _ & _ & _ & Evw & _). cbn in Evw.
  destruct (upd_data_run pid b1 _ i dev T (fun _ => b_data x) (set_b_data (b_data x)) Hb1 Hi ltac:(done)) as (b2 & E2 & Hb2 & Hh2).
  rewrite (bind_Ok _ _ _ tt (mkLst b2 l)); last first.
  { rewrite (bind_Ok _ _ _ _ _ (lift_Ok _ _ l _ _ (get_buf_run _ _ _ Hx))). apply lift_Ok, E2. }
  destruct (bwrite_run pid b2 _ i dev T Hb2 (Hh2 _ _ _ Hi) HT) as (b3 & E3 & Hb3 & Hh3).
  rewrite (bind_Ok _ _ _ _ _ (lift_Ok _ _ l _ _ E3)).
  destruct (brelse_run pid b3 _ j dev F Hb3 (Hh3 _ _ _ (Hh2 _ _ _ Hj))) as (b4 & E4 & Hb4 & Hh4).
  { cbn. rewrite !upd2_ne by (right; congruence). intros Hdt. apply (abs_clean pid b); auto. }
  rewrite (bind_Ok _ _ _ _ _ (lift_Ok _ _ l _ _ E4)).
  destruct (brelse_run pid b4 _ i dev T Hb4) as (b5 & E5 & Hb5 & _).
  { apply Hh4; [by apply Hh3, Hh2|congruence]. }
  { cbn. by rewrite !upd2_eq. }
  rewrite (lift_Ok _ _ l _ _ E5). eexists. split; [done|].
  eapply abs_ext; [exact Hb5|..]; cbn; intros; try done.
  - unfold upd2. destruct (_ && _); congruence.
  - unfold upd2. destruct (Z.eqb_spec v dev), (Z.eqb_spec b0 T), (Z.eqb_spec b0 F); subst; cbn; try done; symmetry; by apply Hul.
  - rewrite upd2_eq. congruence.
  - rewrite upd2_eq. congruence.
Qed.

(** ** The layout *)
Record lwf (l : log) : Prop := {
  lw_dev : lg_dev l <> 0;
  lw_start : 2 <= lg_start l;
  lw_end : lg_start l + lg_size l <= FSSIZE;
  lw_size : 1 <= lg_size l <= LOGSIZE;
  lw_block : length (lh_block l) = Z.to_nat LOGSIZE
}.

(** The blocks that transactions change: not the boot block, the super
    block or the log. *)
Definition home (l : log) (b : Z) : Prop :=
  2 <= b < FSSIZE /\ ~ (lg_start l <= b < lg_start l + lg_size l).

Lemma pins_lock a P dev bno : pins a P -> pins (set_locked dev bno true a) ((dev, bno) :: P).
Proof using Type.
  intros H v b Hv. cbn. unfold upd2. destruct (Z.eqb_spec v dev), (Z.eqb_spec b bno); subst; cbn; rewrite ?orb_true_r, elem_of_cons; auto.
Qed.

Lemma read_two b a P dev X Y : abs b a -> unlocked a -> dev <> 0 -> X <> Y -> X < FSSIZE -> Y < FSSIZE -> pins a P ->
  (length P < NBUF)%nat -> a_dirty a dev Y = true \/ (S (length P) < NBUF)%nat ->
  exists i b1 j b2, bread pid dev X b = Ok (i, b1) /\ bread pid dev Y b1 = Ok (j, b2) /\
    abs b2 (set_locked dev Y true (set_locked dev X true a)) /\ holds b2 i dev X /\ holds b2 j dev Y.
Proof using Type.
  intros Ha Hul Hd HXY HX HY HP HL HD.
  destruct (bread_run pid b a dev X P Ha Hd HX (Hul _ _ Hd) HP (or_intror HL)) as (i & b1 & E1 & Hb1 & Hi & _).
  destruct (bread_run pid b1 _ dev Y ((dev, X) :: P) Hb1 Hd HY) as (j & b2 & E2 & Hb2 & Hj & Hfr).
  - cbn. rewrite upd2_ne by (right; congruence). by apply Hul.
  - by apply pins_lock.
  - done.
  - eauto 10.
Qed.

Lemma set_locked_swap dev X Y a b : abs b (set_locked dev Y true (set_locked dev X true a)) -> abs b (set_locked dev X true (set_locked dev Y true a)).
Proof using Type. intros H. eapply abs_ext; [exact H|..]; cbn; intros; try done. unfold upd2. repeat destruct (_ =? _); done. Qed.

Lemma u32_block z : 0 <= z < FSSIZE -> u32 z = z.
Proof using Type. intros H. apply u32_small. unfold FSSIZE in *. lia. Qed.

Lemma lh_at_run b l i k : lh_block l !! i = Some k -> lh_at (Z.of_nat i) (mkLst b l) = Ok (k, mkLst b l).
Proof using Type. intros H. unfold lh_at. mrun. cbn. by rewrite nthZ_nat, H. Qed.

(** The log block of entry [i]. *)
Definition slot (l : log) (i : nat) : Z := lg_start l + Z.of_nat i + 1.

Lemma slot_spec l i k : lwf l -> Z.of_nat i + 1 < lg_size l -> home l k ->
  0 <= slot l i < FSSIZE /\ slot l i <> k /\ u32 (slot l i) = slot l i /\ u32 k = k.
Proof using Type.
  intros Hl Hi [Hk Hn]. destruct Hl. unfold slot.
  assert (0 <= lg_start l + Z.of_nat i + 1 < FSSIZE) by lia. split_and!; try lia; apply u32_block; lia.
Qed.

Lemma write_body_run b l a P i k : lwf l -> abs b a -> unlocked a -> pins a P -> (length P < NBUF)%nat ->
  lh_block l !! i = Some k -> home l k -> a_dirty a (lg_dev l) k = true -> Z.of_nat i + 1 < lg_size l ->
  exists b', write_log_body pid (Z.of_nat i) (mkLst b l) = Ok (tt, mkLst b' l) /\
    abs b' (a_write [(lg_dev l, slot l i, a_view a (lg_dev l) k)] a).
Proof using Type.
  intros Hl Ha Hul HP HL Hk Hh Hdt Hi. destruct (slot_spec l i k Hl Hi Hh) as (Hs & Hne & Eu & Ek).
  destruct (read_two b a P (lg_dev l) (slot l i) k) as (x & b1 & y & b2 & E1 & E2 & Hb2 & Hx & Hy); try done; try apply Hl; try apply Hs; try apply Hh; auto.
  unfold write_log_body. rewrite (bind_Ok _ _ _ _ _ eq_refl). cbn [lg]. fold (slot l i). rewrite Eu.
  rewrite (bind_Ok _ _ _ _ _ (lift_Ok _ _ l _ _ E1)), (bind_Ok _ _ _ _ _ (lh_at_run b1 l i k Hk)), Ek.
  rewrite (bind_Ok _ _ _ _ _ (lift_Ok _ _ l _ _ E2)).
  apply (copy_tail_run b l a x y (lg_dev l) (slot l i) k); try done; [apply Hl|apply Hs].
Qed.

Lemma install_body_run b l a P i k : lwf l -> abs b a -> unlocked a -> pins a P -> (length P < NBUF)%nat ->
  lh_block l !! i = Some k -> home l k -> a_dirty a (lg_dev l) k = true \/ (S (length P) < NBUF)%nat -> Z.of_nat i + 1 < lg_size l ->
  exists b', install_body pid (Z.of_nat i) (mkLst b l) = Ok (tt, mkLst b' l) /\
    abs b' (a_write [(lg_dev l, k, a_view a (lg_dev l) (slot l i))] a).
Proof using Type.
  intros Hl Ha Hul HP HL Hk Hh Hdt Hi. destruct (slot_spec l i k Hl Hi Hh) as (Hs & Hne & Eu & Ek).
  destruct (read_two b a P (lg_dev l) (slot l i) k) as (x & b1 & y & b2 & E1 & E2 & Hb2 & Hx & Hy); try done; try apply Hl; try apply Hs; try apply Hh.
  unfold install_body. rewrite (bind_Ok _ _ _ _ _ eq_refl). cbn [lg]. fold (slot l i). rewrite Eu.
  rewrite (bind_Ok _ _ _ _ _ (lift_Ok _ _ l _ _ E1)), (bind_Ok _ _ _ _ _ (lh_at_run b1 l i k Hk)), Ek.
  rewrite (bind_Ok _ _ _ _ _ (lift_Ok _ _ l _ _ E2)).
  apply (copy_tail_run b l a y x (lg_dev l) k (slot l i)); try done; [apply Hl|apply Hh|by apply set_locked_swap].
Qed.

(** ** The loops *)
Fixpoint log_writes (l : log) (V : Z -> Z -> block) (i : nat) (bs : list Z) : list write :=
  match bs with [] => [] | k :: bs' => (lg_dev l, slot l i, V (lg_dev l) k) :: log_writes l V (S i) bs' end.
Fixpoint inst_writes (l : log) (V : Z -> Z -> block) (i : nat) (bs : list Z) : list write :=
  match bs with [] => [] | k :: bs' => (lg_dev l, k, V (lg_dev l) (slot l i)) :: inst_writes l V (S i) bs' end.

Lemma log_writes_ext l V V' i bs : (forall k, k ∈ bs -> V (lg_dev l) k = V' (lg_dev l) k) -> log_writes l V i bs = log_writes l V' i bs.
Proof using Type.
  revert i. induction bs as [|k bs IH]; intros i H; [done|]. simpl. rewrite (H k) by by left. f_equal. apply IH. intros j Hj. apply H. by right.
Qed.

Lemma inst_writes_ext l V V' i bs : (forall j, (i <= j < i + length bs)%nat -> V (lg_dev l) (slot l j) = V' (lg_dev l) (slot l j)) ->
  inst_writes l V i bs = inst_writes l V' i bs.
Proof using Type.
  revert i. induction bs as [|k bs IH]; intros i H; [done|]. simpl in *. rewrite (H i) by lia. f_equal. apply IH. intros j Hj. apply H. lia.
Qed.

Lemma seqZ_nat i n : seqZ (Z.of_nat i) (Z.of_nat (S n)) = Z.of_nat i :: seqZ (Z.of_nat (S i)) (Z.of_nat n).
Proof using Type. rewrite seqZ_cons by lia. f_equal. f_equal; lia. Qed.

Lemma home_slot l i k : home l k -> Z.of_nat i + 1 < lg_size l -> k <> slot l i.
Proof using Type. unfold home, slot. lia. Qed.

Lemma pins_write ws a P : pins a P -> unlocked a -> pins (a_write ws a) P.
Proof using Type. intros H Hul v b Hv. cbn. rewrite Hul, orb_false_r by done. intros Hc%clear_sub. apply H; [done|]. by rewrite Hc. Qed.

Lemma write_loop l P bs : lwf l -> (length P < NBUF)%nat -> Forall (home l) bs -> forall i b a,
  abs b a -> unlocked a -> pins a P -> (forall j k, bs !! j = Some k -> lh_block l !! (i + j)%nat = Some k) ->
  (forall k, k ∈ bs -> a_dirty a (lg_dev l) k = true) -> Z.of_nat (i + length bs) < lg_size l ->
  exists b', for_each (seqZ (Z.of_nat i) (Z.of_nat (length bs))) (write_log_body pid) (mkLst b l) = Ok (tt, mkLst b' l) /\
    abs b' (a_write (log_writes l (a_view a) i bs) a).
Proof using Type.
  intros Hl HL. induction 1 as [|k bs Hk Hbs IH]; intros i b a Ha Hul HP Hlk Hdt Hsz; cbn [length] in *.
  { exists b. split; [done|]. unfold a_write. cbn. rewrite app_nil_r. by destruct a. }
  rewrite seqZ_nat. cbn [for_each].
  assert (Hi : Z.of_nat i + 1 < lg_size l) by lia.
  destruct (write_body_run b l a P i k) as (b1 & E1 & Hb1); try done.
  { rewrite <- (Nat.add_0_r i). by apply Hlk. }
  { apply Hdt. by left. }
  rewrite (bind_Ok _ _ _ _ _ E1).
  assert (Hne : forall j, j ∈ bs -> j <> slot l i).
  { intros j Hj. apply home_slot; [by eapply Forall_forall in Hbs|done]. }
  destruct (IH (S i) b1 _ Hb1) as (b2 & E2 & Hb2); try done.
  - by apply pins_write.
  - intros j z Hj. replace (S i + j)%nat with (i + S j)%nat by lia. by apply Hlk.
  - intros j Hj. cbn. rewrite upd2_ne by (right; by apply Hne). apply Hdt. by right.
  - lia.
  - exists b2. split; [done|]. simpl. change ((lg_dev l, slot l i, a_view a (lg_dev l) k) :: log_writes l (a_view a) (S i) bs)
      with ([(lg_dev l, slot l i, a_view a (lg_dev l) k)] ++ log_writes l (a_view a) (S i) bs).
    rewrite a_write_app. erewrite log_writes_ext; [exact Hb2|]. intros j Hj. cbn. rewrite upd2_ne by (right; by apply Hne). done.
Qed.

Lemma install_loop l P bs : lwf l -> (length P < NBUF)%nat -> Forall (home l) bs -> NoDup bs -> forall i b a,
  abs b a -> unlocked a -> pins a P -> (forall j k, bs !! j = Some k -> lh_block l !! (i + j)%nat = Some k) ->
  (forall k, k ∈ bs -> a_dirty a (lg_dev l) k = true \/ (S (length P) < NBUF)%nat) -> Z.of_nat (i + length bs) < lg_size l ->
  exists b', for_each (seqZ (Z.of_nat i) (Z.of_nat (length bs))) (install_body pid) (mkLst b l) = Ok (tt, mkLst b' l) /\
    abs b' (a_write (inst_writes l (a_view a) i bs) a).
Proof using Type.
  intros Hl HL Hbs. induction Hbs as [|k bs Hk Hbs IH]; intros Hnd i b a Ha Hul HP Hlk Hdt Hsz; cbn [length] in *.
  { exists b. split; [done|]. unfold a_write. cbn. rewrite app_nil_r. by destruct a. }
  rewrite seqZ_nat. cbn [for_each]. apply NoDup_cons in Hnd as [Hnk Hnd].
  destruct (install_body_run b l a P i k) as (b1 & E1 & Hb1); try done.
  { rewrite <- (Nat.add_0_r i). by apply Hlk. }
  { apply Hdt. by left. }
  { lia. }
  rewrite (bind_Ok _ _ _ _ _ E1).
  destruct (IH Hnd (S i) b1 _ Hb1) as (b2 & E2 & Hb2); try done.
  - by apply pins_write.
  - intros j z Hj. replace (S i + j)%nat with (i + S j)%nat by lia. by apply Hlk.
  - intros j Hj. cbn. rewrite upd2_ne by (right; congruence). apply Hdt. by right.
  - lia.
  - exists b2. split; [done|]. simpl. change ((lg_dev l, k, a_view a (lg_dev l) (slot l i)) :: inst_writes l (a_view a) (S i) bs)
      with ([(lg_dev l, k, a_view a (lg_dev l) (slot l i))] ++ inst_writes l (a_view a) (S i) bs).
    rewrite a_write_app. erewrite inst_writes_ext; [exact Hb2|]. intros j Hj. cbn. rewrite upd2_ne; [done|].
    right. intros E. apply (home_slot l j k); [done|lia|done].
Qed.

(** ** The header *)
Lemma set_view_twice dev bno d d' a b : abs b (set_view dev bno d' (set_view dev bno d a)) -> abs b (set_view dev bno d' a).
Proof using Type. intros H. eapply abs_ext; [exact H|..]; cbn; intros; try done. unfold upd2. by destruct (_ && _). Qed.

Lemma write_head_loop l x S bs : forall i b d a, abs b (set_view (lg_dev l) S d a) -> holds b x (lg_dev l) S ->
  (forall j k, bs !! j = Some k -> lh_block l !! (i + j)%nat = Some k) ->
  exists b', for_each (seqZ (Z.of_nat i) (Z.of_nat (length bs))) (write_head_body x) (mkLst b l) = Ok (tt, mkLst b' l) /\
    abs b' (set_view (lg_dev l) S (put_blocks d i bs) a) /\ holds b' x (lg_dev l) S.
Proof using Type.
  induction bs as [|k bs IH]; intros i b d a Ha Hx Hlk; cbn [length].
  { exists b. done. }
  rewrite seqZ_nat. cbn [for_each put_blocks].
  assert (Hk : lh_block l !! i = Some k) by (rewrite <- (Nat.add_0_r i); by apply Hlk).
  destruct (upd_data_run pid b _ x (lg_dev l) S (fun d => put32 d (Datatypes.S i) k)
    (fun b => set_b_data (put32 (b_data b) (Datatypes.S i) k) b) Ha Hx ltac:(done)) as (b1 & E1 & Hb1 & Hh1).
  cbn [a_view set_view] in Hb1. rewrite upd2_eq in Hb1. apply set_view_twice in Hb1.
  rewrite (bind_Ok _ _ _ tt (mkLst b1 l)).
  - apply IH; [done|by apply Hh1|]. intros j z Hj. replace (Datatypes.S i + j)%nat with (i + Datatypes.S j)%nat by lia. by apply Hlk.
  - unfold write_head_body. rewrite (bind_Ok _ _ _ _ _ (lh_at_run b l i k Hk)), Nat2Z.id. by apply lift_Ok.
Qed.

Lemma write_head_run b l a P bs : lwf l -> abs b a -> unlocked a -> pins a P -> (length P < NBUF)%nat ->
  lh_n l = Z.of_nat (length bs) -> (forall j k, bs !! j = Some k -> lh_block l !! j = Some k) ->
  exists b', write_head pid (mkLst b l) = Ok (tt, mkLst b' l) /\
    abs b' (a_write [(lg_dev l, lg_start l, enc_head (a_view a (lg_dev l) (lg_start l)) bs)] a).
Proof using Type.
  intros Hl Ha Hul HP HL Hn Hlk. pose proof (lw_dev l Hl) as Hd.
  assert (HS : 0 <= lg_start l < FSSIZE) by (destruct Hl; lia).
  unfold write_head. rewrite (bind_Ok _ _ _ _ _ eq_refl). cbn [lg]. rewrite (u32_block _ HS).
  destruct (bread_run pid b a (lg_dev l) (lg_start l) P Ha Hd (proj2 HS) (Hul _ _ Hd) HP (or_intror HL)) as (x & b1 & E1 & Hb1 & Hx & _).
  rewrite (bind_Ok _ _ _ _ _ (lift_Ok _ _ l _ _ E1)).
  destruct (upd_data_run pid b1 _ x _ _ (fun d => put32 d 0 (lh_n l)) (fun b => set_b_data (put32 (b_data b) 0 (lh_n l)) b) Hb1 Hx ltac:(done)) as (b2 & E2 & Hb2 & Hh2).
  rewrite (bind_Ok _ _ _ _ _ (lift_Ok _ _ l _ _ E2)).
  destruct (write_head_loop l x _ bs 0 b2 _ _ Hb2 (Hh2 _ _ _ Hx)) as (b3 & E3 & Hb3 & Hx3); [done|].
  rewrite Hn. rewrite (bind_Ok _ _ _ _ _ E3). rewrite Hn in Hb3.
  destruct (bwrite_run pid b3 _ x _ _ Hb3 Hx3 (proj2 HS)) as (b4 & E4 & Hb4 & Hh4).
  rewrite (bind_Ok _ _ _ _ _ (lift_Ok _ _ l _ _ E4)).
  destruct (brelse_run pid b4 _ x _ _ Hb4 (Hh4 _ _ _ Hx3)) as (b5 & E5 & Hb5 & _).
  { cbn. by rewrite !upd2_eq. }
  rewrite (lift_Ok _ _ l _ _ E5). eexists. split; [done|]. fold (enc_head (a_view a (lg_dev l) (lg_start l)) bs) in Hb5.
  eapply abs_ext; [exact Hb5|..]; cbn; intros; rewrite ?upd2_eq; try done.
  unfold upd2. destruct (Z.eqb_spec v (lg_dev l)), (Z.eqb_spec b0 (lg_start l)); subst; cbn; try done. symmetry. by apply Hul.
Qed.

(** Reading a block and releasing it unchanged. *)
Lemma read_release b a P dev bno : abs b a -> unlocked a -> pins a P -> (length P < NBUF)%nat -> dev <> 0 -> bno < FSSIZE ->
  exists i b1 x b2, bread pid dev bno b = Ok (i, b1) /\ bufs b1 !! i = Some x /\ b_data x = a_view a dev bno /\
    brelse pid i b1 = Ok (tt, b2) /\ abs b2 a.
Proof using Type.
  intros Ha Hul HP HL Hd Hb.
  destruct (bread_run pid b a dev bno P Ha Hd Hb (Hul _ _ Hd) HP (or_intror HL)) as (i & b1 & E1 & Hb1 & Hi & _).
  destruct (holds_abs pid b1 _ i dev bno Hb1 Hi) as (x & Hx & _ & _ & _ & _ & _ & _ & Evw & _).
  destruct (brelse_run pid b1 _ i dev bno Hb1 Hi) as (b2 & E2 & Hb2 & _).
  { cbn. intros Hdt. apply (abs_clean pid b); auto. }
  exists i, b1, x, b2. split_and!; try done. eapply abs_ext; [exact Hb2|..]; cbn; intros; try done.
  unfold upd2. destruct (Z.eqb_spec v dev), (Z.eqb_spec b0 bno); subst; cbn; try done. symmetry. by apply Hul.
Qed.

Lemma read_head_loop d (bs : list Z) : forall i b l, (i + length bs <= length (lh_block l))%nat ->
  exists blk, for_each (seqZ (Z.of_nat i) (Z.of_nat (length bs)))
      (fun k => set_lh_block k (s32 (get32 d (S (Z.to_nat k))))) (mkLst b l) = Ok (tt, mkLst b (set_lh (lh_n l) blk l)) /\
    length blk = length (lh_block l) /\ (forall j, (j < i)%nat -> blk !! j = lh_block l !! j) /\
    (forall j, (i <= j < i + length bs)%nat -> blk !! j = Some (head_block d j)).
Proof using Type.
  induction bs as [|k bs IH]; intros i b l Hi; cbn [length] in *.
  { exists (lh_block l). split_and!; try done; [by destruct l|lia]. }
  rewrite seqZ_nat. cbn [for_each].
  rewrite (bind_Ok _ _ _ tt (mkLst b (set_lh (lh_n l) (<[i := head_block d i]> (lh_block l)) l))); last first.
  { unfold set_lh_block. mrun. cbn [lg lb]. rewrite updZ_nat by lia. rewrite Nat2Z.id. done. }
  destruct (IH (S i) b (set_lh (lh_n l) (<[i := head_block d i]> (lh_block l)) l)) as (blk & E & Hl & H1 & H2).
  { cbn. rewrite length_insert. lia. }
  exists blk. rewrite E. cbn in *. rewrite length_insert in Hl. split_and!; [done|done|..].
  - intros j Hj. rewrite H1 by lia. apply list_lookup_insert_ne. lia.
  - intros j Hj. destruct (decide (j = i)) as [->|Hne]; [|apply H2; lia]. rewrite H1 by lia. apply list_lookup_insert_eq. lia.
Qed.

(** A header block that names the blocks [bs]. *)
Record head_ok (l : log) (d : block) (bs : list Z) : Prop := {
  ho_n : head_n d = Z.of_nat (length bs);
  ho_block : forall j k, bs !! j = Some k -> head_block d j = k;
  ho_len : Z.of_nat (length bs) < lg_size l;
  ho_home : Forall (home l) bs;
  ho_nd : NoDup bs
}.

Lemma read_head_run b l a P bs : lwf l -> abs b a -> unlocked a -> pins a P -> (length P < NBUF)%nat ->
  head_ok l (a_view a (lg_dev l) (lg_start l)) bs ->
  exists b' blk, read_head pid (mkLst b l) = Ok (tt, mkLst b' (set_lh (Z.of_nat (length bs)) blk l)) /\ abs b' a /\
    length blk = Z.to_nat LOGSIZE /\ (forall j k, bs !! j = Some k -> blk !! j = Some k).
Proof using Type.
  intros Hl Ha Hul HP HL Hh. pose proof (lw_dev l Hl) as Hd.
  assert (HS : 0 <= lg_start l < FSSIZE) by (destruct Hl; lia).
  unfold read_head. rewrite (bind_Ok _ _ _ _ _ eq_refl). cbn [lg]. rewrite (u32_block _ HS).
  destruct (read_release b a P (lg_dev l) (lg_start l)) as (i & b1 & x & b2 & E1 & Hx & Ex & E2 & Hb2); try done; [lia|].
  rewrite (bind_Ok _ _ _ _ _ (lift_Ok _ _ l _ _ E1)), (bind_Ok _ _ _ _ _ (lift_Ok _ _ l _ _ (get_buf_run _ _ _ Hx))), Ex.
  set (d := a_view a (lg_dev l) (lg_start l)) in *. fold (head_n d). rewrite (ho_n _ _ _ Hh).
  rewrite (bind_Ok _ _ _ _ _ eq_refl). cbn [lg lb set_lg].
  destruct (read_head_loop d bs 0 b1 (set_lh (Z.of_nat (length bs)) (lh_block l) l)) as (blk & E3 & Hlen & _ & Hblk).
  { cbn. rewrite (lw_block l Hl). destruct Hl, Hh. lia. }
  rewrite (bind_Ok _ _ _ _ _ E3). rewrite (lift_Ok _ _ _ _ _ E2). exists b2, blk. split_and!; try done.
  - rewrite Hlen. apply Hl.
  - intros j k Hj. rewrite Hblk by (simpl; apply lookup_lt_Some in Hj; lia). by rewrite (ho_block _ _ _ Hh j k).
Qed.
End LogRuns.
