(* ===== verification/LogCrash.v ===== *)
(** * The log: transactions are atomic with respect to crashes

    A crash keeps the disk writes made so far, which is a prefix of the
    trace, and loses the cache and the in-memory log.  The machine then boots
    and runs [initlog]. *)

From stdpp Require Import prelude strings.
From S2P Require Import Prelude Bio BioInv BioThms Log LogThms.

Open Scope Z_scope.

(** The log and the cache at boot, with disk [d]. *)
Definition boot (d : Z -> Z -> block) : lst :=
  mkLst (binit d) (mkLog 0 0 0 false 0 0 (replicate (Z.to_nat LOGSIZE) 0)).

(** ** The writes of the loops *)
Lemma log_writes_keys l V i bs v b : (v, b) ∈ (log_writes l V i bs).*1 -> exists j, (i <= j < i + length bs)%nat /\ b = slot l j.
Proof.
  revert i. induction bs as [|k bs IH]; intros i; cbn; [by intros ?%elem_of_nil|]. intros [E|H]%elem_of_cons.
  - injection E as _ ->. exists i. split; [lia|done].
  - destruct (IH (S i) H) as (j & Hj & ->). exists j. split; [lia|done].
Qed.

Lemma inst_writes_keys l V i bs : (inst_writes l V i bs).*1 = (fun k => (lg_dev l, k)) <$> bs.
Proof. revert i. induction bs as [|k bs IH]; intros i; cbn; [done|]. f_equal. apply IH. Qed.

Lemma slot_inj l i j : slot l i = slot l j -> i = j.
Proof. unfold slot. lia. Qed.

Lemma apply_log l V i bs f j k : bs !! j = Some k ->
  apply_writes (log_writes l V i bs) f (lg_dev l) (slot l (i + j)) = V (lg_dev l) k.
Proof.
  revert i j f. induction bs as [|c bs IH]; intros i j f Hj; [done|]. cbn [log_writes]. rewrite apply_cons.
  destruct j as [|j].
  - injection Hj as ->. rewrite Nat.add_0_r, apply_notin; [apply upd2_eq|].
    intros (j & Hj & E)%log_writes_keys. apply slot_inj in E. lia.
  - replace (i + S j)%nat with (S i + j)%nat by lia. by apply IH.
Qed.

Lemma apply_inst l V i bs f j k : NoDup bs -> bs !! j = Some k ->
  apply_writes (inst_writes l V i bs) f (lg_dev l) k = V (lg_dev l) (slot l (i + j)).
Proof.
  revert i j f. induction bs as [|c bs IH]; intros i j f Hnd Hj; [done|]. cbn [inst_writes]. rewrite apply_cons.
  apply NoDup_cons in Hnd as [Hc Hnd]. destruct j as [|j].
  - injection Hj as ->. rewrite Nat.add_0_r, apply_notin; [apply upd2_eq|].
    rewrite inst_writes_keys. intros (z & E & Hz)%list_elem_of_fmap. injection E as <-. done.
  - replace (i + S j)%nat with (S i + j)%nat by lia. by apply IH.
Qed.

Lemma take_keys (ws : list write) k x : x ∈ (take k ws).*1 -> x ∈ ws.*1.
Proof. rewrite fmap_take. intros H. rewrite <- (take_drop k (ws.*1)). apply elem_of_app. by left. Qed.

Lemma inst_notin l V i bs v b : v <> lg_dev l \/ b ∉ bs -> (v, b) ∉ (inst_writes l V i bs).*1.
Proof. rewrite inst_writes_keys. intros H (z & E & Hz)%list_elem_of_fmap. injection E as -> ->. naive_solver. Qed.

Lemma log_notin l V i bs v b : b < lg_start l + 1 \/ lg_start l + 1 + Z.of_nat (i + length bs) <= b -> (v, b) ∉ (log_writes l V i bs).*1.
Proof. intros H (j & Hj & ->)%log_writes_keys. unfold slot in H. lia. Qed.

Section Crash.
Context (pid : Z).

Notation abs := (abs pid).

(** ** Recovery *)
Definition outside (l : log) (b : Z) : Prop := ~ (lg_start l <= b < lg_start l + lg_size l).

Definition recover_writes (l : log) (V : Z -> Z -> block) (bs : list Z) : list write :=
  inst_writes l V 0 bs ++ [(lg_dev l, lg_start l, enc_head (V (lg_dev l) (lg_start l)) [])].

Lemma start_not_home l bs : lwf l -> Forall (home l) bs -> lg_start l ∉ bs.
Proof using Type. intros Hl Hb Hin. eapply Forall_forall in Hb; [|exact Hin]. destruct Hl. unfold home in Hb. lia. Qed.

Lemma lwf_set_lh l n blk : lwf l -> length blk = Z.to_nat LOGSIZE -> lwf (set_lh n blk l).
Proof using Type. intros [] H. by split. Qed.

Lemma inst_writes_log l l' V i bs : lg_dev l = lg_dev l' -> lg_start l = lg_start l' -> inst_writes l V i bs = inst_writes l' V i bs.
Proof using Type.
  intros Ed Es. revert i. induction bs as [|k bs IH]; intros i; simpl; [done|]. rewrite IH, Ed. unfold slot. by rewrite Es.
Qed.

Lemma recover_run b l a bs : lwf l -> abs b a -> unlocked a -> pins a [] -> head_ok l (a_view a (lg_dev l) (lg_start l)) bs ->
  exists b' blk, recover_from_log pid (mkLst b l) = Ok (tt, mkLst b' (set_lh 0 blk l)) /\ length blk = Z.to_nat LOGSIZE /\
    abs b' (a_write (recover_writes l (a_view a) bs) a).
Proof using Type.
  intros Hl Ha Hul HP Hh. assert (HL : (@length (Z * Z) [] < NBUF)%nat) by (unfold NBUF; simpl; lia).
  destruct (read_head_run pid b l a [] bs Hl Ha Hul HP HL Hh) as (b1 & blk & E1 & Hb1 & Hlen & Hblk).
  set (l1 := set_lh (Z.of_nat (length bs)) blk l) in *. assert (Hl1 : lwf l1) by by apply lwf_set_lh.
  unfold recover_from_log. rewrite (bind_Ok _ _ _ _ _ E1).
  destruct (install_loop pid l1 [] bs Hl1 HL) with (i := 0%nat) (b := b1) (a := a) as (b2 & E2 & Hb2); try apply Hh; try done.
  { intros. right. unfold NBUF. simpl. lia. }
  rewrite (bind_Ok _ _ _ tt (mkLst b2 l1)) by exact E2. rewrite (bind_Ok _ _ _ _ _ eq_refl). cbn [lg lb set_lg].
  change (set_lh 0 (lh_block l1) l1) with (set_lh 0 blk l).
  destruct (write_head_run pid b2 (set_lh 0 blk l) (a_write (inst_writes l1 (a_view a) 0 bs) a) [] []) as (b3 & E3 & Hb3); try done.
  { by apply lwf_set_lh. }
  { by apply pins_write. }
  exists b3, blk. split_and!; try done. unfold recover_writes. rewrite a_write_app.
  rewrite (inst_writes_log l l1) by done.
  replace (a_view a (lg_dev l) (lg_start l)) with (a_view (a_write (inst_writes l1 (a_view a) 0 bs) a) (lg_dev l) (lg_start l)); [exact Hb3|].
  cbn. apply apply_notin, inst_notin. right. by eapply start_not_home; [|apply Hh].
Qed.

(** The disk says where the log is, and its header block names [bs]. *)
Record disk_ok (l : log) (d : Z -> Z -> block) (bs : list Z) : Prop := {
  do_sb : s32 (sb_logstart (sb_decode (d (lg_dev l) 1))) = lg_start l /\ s32 (sb_nlog (sb_decode (d (lg_dev l) 1))) = lg_size l;
  do_len : length (d (lg_dev l) (lg_start l)) = Z.to_nat BSIZE;
  do_head : head_ok l (d (lg_dev l) (lg_start l)) bs
}.

(** The first use of the log, with a cache in which nothing was changed. *)
Lemma initlog_from b0 l d bs : abs b0 (mkA d (fun _ _ => false) (fun _ _ => false) d []) -> lwf l -> disk_ok l d bs ->
  exists b blk, initlog pid (lg_dev l) (mkLst b0 (lg (boot d))) = Ok (tt, mkLst b (set_lh 0 blk (set_ops 0 false l))) /\ length blk = Z.to_nat LOGSIZE /\
    abs b (a_write (recover_writes l d bs) (mkA d (fun _ _ => false) (fun _ _ => false) d [])).
Proof using Type.
  intros Ha Hl [Hsb Hlen Hh]. set (a0 := mkA d _ _ d []) in *.
  assert (Hul : unlocked a0) by done. assert (HP : pins a0 []) by done.
  assert (HL : (@length (Z * Z) [] < NBUF)%nat) by (unfold NBUF; simpl; lia).
  destruct (read_release pid _ a0 [] (lg_dev l) 1 Ha Hul HP HL (lw_dev l Hl)) as (i & b1 & x & b2 & E1 & Hx & Ex & E2 & Hb2); [unfold FSSIZE; lia|].
  unfold initlog. change (BSIZE <=? 4 * (LOGSIZE + 1)) with false. cbv iota. cbn [a_view a0] in Ex. unfold boot.
  rewrite (bind_Ok _ _ _ (sb_decode (d (lg_dev l) 1)) (mkLst b2 (lg (boot d)))); last first.
  { apply lift_Ok. unfold readsb. rewrite (bind_Ok _ _ _ _ _ E1), (bind_Ok _ _ _ _ _ (get_buf_run _ _ _ Hx)), (bind_Ok _ _ _ _ _ E2), Ex. done. }
  rewrite (bind_Ok _ _ _ _ _ eq_refl). cbn [lg lb set_lg boot lg_outstanding lg_committing lh_n lh_block].
  destruct Hsb as [-> ->]. set (l0 := mkLog (lg_start l) (lg_size l) 0 false (lg_dev l) 0 (replicate (Z.to_nat LOGSIZE) 0)).
  assert (Hl0 : lwf l0) by (destruct Hl; split; try done; by rewrite length_replicate).
  destruct (recover_run b2 l0 a0 bs Hl0 Hb2 Hul HP) as (b3 & blk & E3 & Hblk & Hb3).
  { destruct Hh. split; try done. }
  exists b3, blk. split_and!; try done. unfold recover_writes in *.
  by rewrite (inst_writes_log l l0).
Qed.

Lemma recovered_in l d bs j k : lwf l -> head_ok l (d (lg_dev l) (lg_start l)) bs -> bs !! j = Some k ->
  apply_writes (recover_writes l d bs) d (lg_dev l) k = d (lg_dev l) (slot l j).
Proof using Type.
  intros Hl Hh Hj. unfold recover_writes. rewrite apply_app, apply_cons. cbn. rewrite upd2_ne.
  - apply (apply_inst l d 0 bs d j k); [apply Hh|done].
  - right. intros ->. eapply start_not_home; [done|apply Hh|by eapply list_elem_of_lookup_2].
Qed.

Lemma recovered_out l d bs b : lwf l -> outside l b -> b ∉ bs -> apply_writes (recover_writes l d bs) d (lg_dev l) b = d (lg_dev l) b.
Proof using Type.
  intros Hl Ho Hb. unfold recover_writes. rewrite apply_app, apply_cons. cbn. rewrite upd2_ne.
  - apply apply_notin, inst_notin. by right.
  - right. intros ->. apply Ho. destruct Hl. lia.
Qed.

(** ** Transactions

    [linv st a bs]: the log holds the open transaction that has changed the
    blocks [bs]; the disk still has no committed transaction. *)
Record linv (st : lst) (a : astate) (bs : list Z) : Prop := {
  li_wf : lwf (lg st);
  li_abs : abs (lb st) a;
  li_n : lh_n (lg st) = Z.of_nat (length bs);
  li_blocks : forall j k, bs !! j = Some k -> lh_block (lg st) !! j = Some k;
  li_home : Forall (home (lg st)) bs;
  li_nd : NoDup bs;
  li_len : Z.of_nat (length bs) < lg_size (lg st);
  li_dirty : forall v b, v <> 0 -> a_dirty a v b = true <-> v = lg_dev (lg st) /\ b ∈ bs;
  li_disk : disk_ok (lg st) (a_disk a) []
}.

Definition home_writes (l : log) (V : Z -> Z -> block) (bs : list Z) : list write :=
  (fun k => (lg_dev l, k, V (lg_dev l) k)) <$> bs.

Definition commit_writes (l : log) (V : Z -> Z -> block) (bs : list Z) : list write :=
  let h := enc_head (V (lg_dev l) (lg_start l)) bs in
  log_writes l V 0 bs ++ [(lg_dev l, lg_start l, h)] ++ home_writes l V bs ++ [(lg_dev l, lg_start l, enc_head h [])].

Lemma inst_home l V V' bs : (forall j k, bs !! j = Some k -> V' (lg_dev l) (slot l j) = V (lg_dev l) k) ->
  inst_writes l V' 0 bs = home_writes l V bs.
Proof using Type.
  intros H. assert (Hi : forall i, (forall j k, bs !! j = Some k -> V' (lg_dev l) (slot l (i + j)) = V (lg_dev l) k) ->
    inst_writes l V' i bs = home_writes l V bs); [|by apply Hi]. clear H.
  induction bs as [|k bs IH]; intros i H; [done|]. cbn. rewrite <- (H 0%nat k eq_refl), Nat.add_0_r. f_equal.
  apply IH. intros j c Hj. specialize (H (S j) c Hj). by replace (S i + j)%nat with (i + S j)%nat by lia.
Qed.

Lemma linv_pins st a bs : linv st a bs -> unlocked a -> exists P, pins a P /\ (length P < NBUF)%nat.
Proof using Type.
  intros H Hul. exists ((fun k => (lg_dev (lg st), k)) <$> bs). split.
  - intros v b Hv. rewrite Hul, orb_false_r by done. intros [-> Hb]%(li_dirty _ _ _ H); [|done]. by apply list_elem_of_fmap_2.
  - rewrite length_fmap. destruct H. destruct li_wf0. unfold NBUF, LOGSIZE, MAXOPBLOCKS in *. lia.
Qed.

(** Up to the commit point. *)
Lemma commit_log_run b l a bs P : linv (mkLst b l) a bs -> unlocked a -> pins a P -> (length P < NBUF)%nat ->
  exists b1 b2, write_log pid (mkLst b l) = Ok (tt, mkLst b1 l) /\ write_head pid (mkLst b1 l) = Ok (tt, mkLst b2 l) /\
    abs b2 (a_write (log_writes l (a_view a) 0 bs ++ [(lg_dev l, lg_start l, enc_head (a_view a (lg_dev l) (lg_start l)) bs)]) a).
Proof using Type.
  intros H Hul HP HL. destruct H as [Hl Ha Hn Hblk Hh Hnd Hlen Hdt Hdk]. cbn [lg lb] in *.
  destruct (write_loop pid l P bs Hl HL Hh 0 b a) as (b1 & E1 & Hb1); try done.
  { intros k Hk. apply Hdt; [apply Hl|done]. }
  set (a1 := a_write (log_writes l (a_view a) 0 bs) a) in *.
  destruct (write_head_run pid b1 l a1 P bs) as (b2 & E2 & Hb2); try done; [by apply pins_write|].
  exists b1, b2. split_and!; [|done|].
  - unfold write_log. rewrite (bind_Ok _ _ _ _ _ eq_refl). cbn [lg]. by rewrite Hn.
  - replace (a_view a1 (lg_dev l) (lg_start l)) with (a_view a (lg_dev l) (lg_start l)) in Hb2; [by rewrite a_write_app|].
    symmetry. apply apply_notin, log_notin. left. lia.
Qed.

(** After it: [V] is what the transaction made of its blocks. *)
Lemma commit_install_run b l a bs V P h : lwf l -> abs b a -> unlocked a -> pins a P -> (length P < NBUF)%nat ->
  lh_n l = Z.of_nat (length bs) -> (forall j k, bs !! j = Some k -> lh_block l !! j = Some k) -> Forall (home l) bs -> NoDup bs ->
  Z.of_nat (length bs) < lg_size l -> (forall k, k ∈ bs -> a_dirty a (lg_dev l) k = true) ->
  (forall j k, bs !! j = Some k -> a_view a (lg_dev l) (slot l j) = V (lg_dev l) k) -> a_view a (lg_dev l) (lg_start l) = h ->
  exists b1 b2, install_trans pid (mkLst b l) = Ok (tt, mkLst b1 l) /\
    write_head pid (mkLst b1 (set_lh 0 (lh_block l) l)) = Ok (tt, mkLst b2 (set_lh 0 (lh_block l) l)) /\
    abs b2 (a_write (home_writes l V bs ++ [(lg_dev l, lg_start l, enc_head h [])]) a).
Proof using Type.
  intros Hl Ha Hul HP HL Hn Hblk Hh Hnd Hlen Hdt Hslot Hhd.
  destruct (install_loop pid l P bs Hl HL Hh Hnd 0 b a) as (b3 & E3 & Hb3); try done; [by auto|].
  rewrite (inst_home l V (a_view a) bs Hslot) in Hb3. set (a3 := a_write (home_writes l V bs) a) in *.
  assert (HV3 : a_view a3 (lg_dev l) (lg_start l) = h).
  { cbn. rewrite apply_notin; [done|]. unfold home_writes. rewrite <- list_fmap_compose. cbn.
    intros (k & E & Hk)%list_elem_of_fmap. injection E as <-. by eapply start_not_home. }
  destruct (write_head_run pid b3 (set_lh 0 (lh_block l) l) a3 P []) as (b4 & E4 & Hb4); try done.
  { apply lwf_set_lh; [done|apply Hl]. }
  { by apply pins_write. }
  exists b3, b4. split_and!; [|done|].
  - unfold install_trans. rewrite (bind_Ok _ _ _ _ _ eq_refl). cbn [lg]. by rewrite Hn.
  - cbn [lg_dev lg_start set_lh] in Hb4. rewrite HV3 in Hb4. by rewrite a_write_app.
Qed.

Lemma commit_run b l a bs : linv (mkLst b l) a bs -> unlocked a -> bs <> [] ->
  exists b', commit pid (mkLst b l) = Ok (tt, mkLst b' (set_lh 0 (lh_block l) l)) /\ abs b' (a_write (commit_writes l (a_view a) bs) a).
Proof using Type.
  intros H Hul Hne. destruct (linv_pins _ _ _ H Hul) as (P & HP & HL).
  destruct (commit_log_run b l a bs P H Hul HP HL) as (b1 & b2 & E1 & E2 & Hb2).
  destruct H as [Hl Ha Hn Hblk Hh Hnd Hlen Hdt Hdk]. cbn [lg lb] in *.
  unfold commit. rewrite (bind_Ok _ _ _ _ _ eq_refl). cbn [lg]. rewrite Hn.
  destruct (Z.ltb_spec 0 (Z.of_nat (length bs))); [|destruct bs; [done|simpl in *; lia]].
  rewrite (bind_Ok _ _ _ _ _ E1), (bind_Ok _ _ _ _ _ E2). set (h := enc_head _ bs) in *. set (a2 := a_write _ a) in *.
  destruct (commit_install_run b2 l a2 bs (a_view a) P h) as (b3 & b4 & E3 & E4 & Hb4); try done.
  - by apply pins_write.
  - intros k Hk. assert (Hkh : home l k) by (by eapply Forall_forall in Hh). unfold a2. rewrite a_write_app.
    cbn. rewrite upd2_ne, clear_notin; [apply Hdt; [apply Hl|done]|..].
    + intros (j & Hj & ->)%log_writes_keys. eapply home_slot; [done| |done]. lia.
    + right. intros ->. by eapply start_not_home.
  - intros j k Hj. unfold a2. rewrite a_write_app. cbn. rewrite upd2_ne by (right; unfold slot; lia). by apply (apply_log l (a_view a) 0 bs).
  - unfold a2. rewrite a_write_app. cbn. apply upd2_eq.
  - rewrite (bind_Ok _ _ _ _ _ E3), (bind_Ok _ _ _ _ _ eq_refl). exists b4. split; [exact E4|].
    unfold commit_writes. fold h. rewrite app_assoc, a_write_app. exact Hb4.
Qed.

(** ** Every crash point *)
Section Points.
Context (l : log) (V D : Z -> Z -> block) (bs : list Z).
Hypothesis Hl : lwf l.
Hypothesis Hhome : Forall (home l) bs.
Hypothesis Hnd : NoDup bs.
Hypothesis Hlen : Z.of_nat (length bs) < lg_size l.
Hypothesis HD : disk_ok l D [].
Hypothesis HV : forall b, b ∉ bs -> V (lg_dev l) b = D (lg_dev l) b.

Let h : block := enc_head (V (lg_dev l) (lg_start l)) bs.

Lemma home_keys b : (lg_dev l, b) ∈ (home_writes l V bs).*1 -> b ∈ bs.
Proof using Type. unfold home_writes. rewrite <- list_fmap_compose. intros (k & E & Hk)%list_elem_of_fmap. injection E as ->. done. Qed.

Lemma apply_home f b : b ∈ bs -> apply_writes (home_writes l V bs) f (lg_dev l) b = V (lg_dev l) b.
Proof using Hnd.
  intros Hb. clear HV Hhome Hlen. revert f. induction bs as [|c cs IH]; intros f; [by apply elem_of_nil in Hb|].
  cbn [home_writes fmap list_fmap]. rewrite apply_cons. apply NoDup_cons in Hnd as [Hc Hnd'].
  apply elem_of_cons in Hb as [->|Hb].
  - rewrite apply_notin; [apply upd2_eq|]. rewrite <- list_fmap_compose. intros (k & E & Hk)%list_elem_of_fmap. injection E as <-. done.
  - by apply IH.
Qed.

Lemma outside_slot b j : outside l b -> (j < length bs)%nat -> b <> slot l j.
Proof using Hlen. unfold outside, slot. lia. Qed.

Lemma outside_start b : outside l b -> b <> lg_start l.
Proof using Hl. clear - Hl. unfold outside. destruct Hl. lia. Qed.

Lemma super_outside : outside l 1 /\ 1 ∉ bs.
Proof using Hl Hhome. clear - Hl Hhome. split; [unfold outside; destruct Hl; lia|]. intros H. eapply Forall_forall in Hhome; [|exact H]. unfold home in Hhome. lia. Qed.

(** Blocks outside the log are not touched before the commit point. *)
Lemma log_part_outside k b : outside l b -> apply_writes (take k (log_writes l V 0 bs)) D (lg_dev l) b = D (lg_dev l) b.
Proof using Hlen. intros Ho. apply apply_notin. intros (j & Hj & ->)%take_keys%log_writes_keys. by eapply outside_slot; [|apply Hj|]. Qed.

Lemma log_part_start k : apply_writes (take k (log_writes l V 0 bs)) D (lg_dev l) (lg_start l) = D (lg_dev l) (lg_start l).
Proof using Type. clear. apply apply_notin. intros H%take_keys. revert H. apply log_notin. left. lia. Qed.

Lemma crash_before k : let d := apply_writes (take k (log_writes l V 0 bs)) D in
  disk_ok l d [] /\ forall b, outside l b -> apply_writes (recover_writes l d []) d (lg_dev l) b = D (lg_dev l) b.
Proof using Hl Hlen HD Hhome.
  intros d. assert (Hs : d (lg_dev l) (lg_start l) = D (lg_dev l) (lg_start l)) by apply log_part_start.
  assert (Ho : forall b, outside l b -> d (lg_dev l) b = D (lg_dev l) b) by (intros b; apply log_part_outside).
  split.
  - split; rewrite ?Hs, ?(Ho 1 (proj1 super_outside)); apply HD.
  - intros b Hb. rewrite recovered_out by (try done; by apply not_elem_of_nil). by apply Ho.
Qed.

(** The header on the disk after the commit point. *)
Lemma head_written : length h = Z.to_nat BSIZE /\ head_ok l h bs.
Proof using Hl Hhome Hnd Hlen HD HV.
  assert (Hd : length (V (lg_dev l) (lg_start l)) = Z.to_nat BSIZE).
  { rewrite HV by by eapply start_not_home. apply HD. }
  assert (Hle : Z.of_nat (length bs) <= LOGSIZE) by (destruct Hl; lia). split.
  - unfold h, enc_head. by rewrite put_blocks_length, put32_length.
  - split; try done.
    + by apply enc_head_n.
    + intros j k Hj. apply enc_head_block; try done. eapply Forall_lookup_1 in Hhome; [|exact Hj]. unfold home in Hhome. lia.
Qed.

Lemma head_cleared : length (enc_head h []) = Z.to_nat BSIZE /\ head_ok l (enc_head h []) [].
Proof using Hl Hhome Hnd Hlen HD HV.
  destruct head_written as [Hd _]. split.
  - unfold enc_head. by rewrite put_blocks_length, put32_length.
  - split; try done; [apply enc_head_n; [done|cbv; done]|simpl; destruct Hl; lia|constructor].
Qed.

(** The disk from the commit point on, with [m] blocks installed. *)
Definition mid (m : nat) : Z -> Z -> block :=
  apply_writes (log_writes l V 0 bs ++ (lg_dev l, lg_start l, h) :: take m (home_writes l V bs)) D.

Lemma mid_start m : mid m (lg_dev l) (lg_start l) = h.
Proof using Hl Hhome.
  unfold mid. rewrite apply_app, apply_cons, apply_notin; [apply upd2_eq|].
  intros H%take_keys%home_keys. by eapply start_not_home.
Qed.

Lemma mid_slot m j k : bs !! j = Some k -> mid m (lg_dev l) (slot l j) = V (lg_dev l) k.
Proof using Hhome Hlen.
  intros Hj. pose proof (lookup_lt_Some _ _ _ Hj) as Hjl. unfold mid. rewrite apply_app, apply_cons, apply_notin.
  - rewrite upd2_ne by (right; unfold slot; lia). by apply (apply_log l V 0 bs).
  - intros H%take_keys%home_keys. eapply Forall_forall in Hhome; [|exact H]. unfold home, slot in Hhome. lia.
Qed.

Lemma mid_out m b : outside l b -> b ∉ bs -> mid m (lg_dev l) b = D (lg_dev l) b.
Proof using Hl Hlen.
  intros Ho Hb. unfold mid. rewrite apply_app, apply_cons, apply_notin.
  - rewrite upd2_ne by (right; by apply outside_start). rewrite <- (firstn_all (log_writes l V 0 bs)). by apply log_part_outside.
  - by intros H%take_keys%home_keys.
Qed.

Lemma crash_between m : disk_ok l (mid m) bs /\
  forall b, outside l b -> apply_writes (recover_writes l (mid m) bs) (mid m) (lg_dev l) b = V (lg_dev l) b.
Proof using Hl Hhome Hnd Hlen HD HV.
  destruct super_outside as [Ho1 Hn1]. split.
  - split; rewrite ?mid_start, ?mid_out by done; [apply HD|apply head_written..].
  - intros b Hb. destruct (decide (b ∈ bs)) as [Hin|Hin].
    + apply list_elem_of_lookup_1 in Hin as [j Hj]. erewrite recovered_in; [by apply mid_slot|done| |done]. rewrite mid_start. apply head_written.
    + rewrite recovered_out, mid_out by done. by rewrite HV.
Qed.

Lemma crash_after : let d := apply_writes (commit_writes l V bs) D in
  disk_ok l d [] /\ (forall b, outside l b -> d (lg_dev l) b = V (lg_dev l) b) /\
  forall b, outside l b -> apply_writes (recover_writes l d []) d (lg_dev l) b = V (lg_dev l) b.
Proof using Hl Hhome Hnd Hlen HD HV.
  intros d. assert (Ed : d = upd2 (mid (length bs)) (lg_dev l) (lg_start l) (enc_head h [])).
  { unfold d, commit_writes, mid. fold h. rewrite !apply_app, firstn_all2; [done|]. unfold home_writes. by rewrite length_fmap. }
  assert (Hs : d (lg_dev l) (lg_start l) = enc_head h []) by (rewrite Ed; apply upd2_eq).
  assert (Ho : forall b, outside l b -> d (lg_dev l) b = V (lg_dev l) b).
  { intros b Hb. rewrite Ed, upd2_ne by (right; by apply outside_start). destruct (decide (b ∈ bs)) as [Hin|Hin].
    - unfold mid. rewrite apply_app, apply_cons, firstn_all2 by (unfold home_writes; by rewrite length_fmap). by apply apply_home.
    - rewrite mid_out by done. by rewrite HV. }
  destruct super_outside as [Ho1 Hn1]. split_and!; [|done|].
  - split; rewrite ?Hs, ?(Ho 1 Ho1), ?(HV 1 Hn1); [apply HD|apply head_cleared..].
  - intros b Hb. rewrite recovered_out by (try done; by apply not_elem_of_nil). by apply Ho.
Qed.

Lemma crash_points k : let d := apply_writes (take k (commit_writes l V bs)) D in exists bs', disk_ok l d bs' /\
  ((forall b, outside l b -> apply_writes (recover_writes l d bs') d (lg_dev l) b = D (lg_dev l) b) \/
   (forall b, outside l b -> apply_writes (recover_writes l d bs') d (lg_dev l) b = V (lg_dev l) b)).
Proof using Hl Hhome Hnd Hlen HD HV.
  intros d. unfold d, commit_writes. fold h. set (LW := log_writes l V 0 bs). set (HW := home_writes l V bs).
  destruct (decide (k <= length LW)%nat) as [Hk|Hk].
  { rewrite take_app_le by done. exists []. destruct (crash_before k) as [H1 H2]. split; [done|by left]. }
  rewrite take_app_ge by lia. destruct (k - length LW)%nat as [|m] eqn:Em; [lia|]. cbn [app firstn].
  destruct (decide (m <= length HW)%nat) as [Hm|Hm].
  { rewrite take_app_le by done. exists bs. destruct (crash_between m) as [H1 H2]. split; [done|by right]. }
  rewrite firstn_all2 by (rewrite length_app; simpl; lia). exists [].
  destruct crash_after as (H1 & H2 & H3). split; [done|by right].
Qed.
End Points.
End Crash.
