(* ===== verification/LogSpec.v ===== *)
(** * The log: its contract

    Transactions are atomic, recovery can be interrupted, and what a client
    writes between [begin_op] and [end_op] is on the disk after [end_op]. *)

From stdpp Require Import prelude strings.
From S2P Require Import Prelude Bio BioInv BioThms Log LogThms LogCrash.

Open Scope Z_scope.

Section LogSpec.
Context (pid : Z).

Notation abs := (abs pid).
Notation linv := (linv pid).

(** ** Recovery gives a log with no transaction *)
Lemma disk_ok_ext l l' d bs : lg_dev l = lg_dev l' -> lg_start l = lg_start l' -> lg_size l = lg_size l' -> disk_ok l d bs -> disk_ok l' d bs.
Proof using Type.
  intros E1 E2 E3 [Hs Hn Hh]. split; rewrite <- ?E1, <- ?E2, <- ?E3; try done. destruct Hh. split; rewrite <- ?E3; try done.
  eapply Forall_impl; [done|]. intros b. unfold home. by rewrite E2, E3.
Qed.

Lemma recovered_ok l d bs : lwf l -> disk_ok l d bs -> disk_ok l (apply_writes (recover_writes l d bs) d) [].
Proof using Type.
  intros Hl [Hs Hn Hh].
  assert (E1 : apply_writes (recover_writes l d bs) d (lg_dev l) 1 = d (lg_dev l) 1).
  { apply recovered_out; [done|unfold outside; destruct Hl; lia|]. intros H. pose proof (ho_home _ _ _ Hh) as Hf.
    eapply Forall_forall in Hf; [|exact H]. unfold home in Hf. lia. }
  assert (E2 : apply_writes (recover_writes l d bs) d (lg_dev l) (lg_start l) = enc_head (d (lg_dev l) (lg_start l)) []).
  { unfold recover_writes. rewrite apply_app, apply_cons. cbn. by rewrite upd2_eq. }
  split; rewrite ?E1, ?E2; [done|unfold enc_head; by rewrite put_blocks_length, put32_length|].
  split; try done; [apply enc_head_n; [done|cbv; done]|simpl; destruct Hl; lia|constructor].
Qed.

Lemma initlog_linv_from b0 l d bs : abs b0 (mkA d (fun _ _ => false) (fun _ _ => false) d []) -> lwf l -> disk_ok l d bs ->
  exists r a, initlog pid (lg_dev l) (mkLst b0 (lg (boot d))) = Ok (tt, r) /\ linv r a [] /\ unlocked a /\
    (lg_dev (lg r) = lg_dev l /\ lg_start (lg r) = lg_start l /\ lg_size (lg r) = lg_size l) /\
    (lg_outstanding (lg r) = 0 /\ lg_committing (lg r) = false) /\
    trace (lb r) = recover_writes l d bs /\ disk (lb r) = apply_writes (recover_writes l d bs) d /\
    forall b, view (lb r) (lg_dev l) b = disk (lb r) (lg_dev l) b.
Proof using Type.
  intros Ha0 Hl Hd. destruct (initlog_from pid b0 l d bs Ha0 Hl Hd) as (b & blk & E & Hblk & Hb). eexists _, _. split; [exact E|].
  assert (Hnd : forall v x, clear_writes (recover_writes l d bs) (fun _ _ => false) v x = false).
  { intros v x. apply not_true_is_false. by intros H%clear_sub. }
  assert (Hl' : lwf (set_lh 0 blk (set_ops 0 false l))) by (by apply lwf_set_lh; [destruct Hl|]).
  assert (HL : linv (mkLst b (set_lh 0 blk (set_ops 0 false l)))
    (a_write (recover_writes l d bs) (mkA d (fun _ _ => false) (fun _ _ => false) d [])) []).
  { split; cbn [lg lb]; try done; try by constructor.
    - cbn. destruct Hl. lia.
    - intros v x Hv. cbn [a_write a_dirty]. rewrite Hnd. split; [done|]. by intros [_ ?%elem_of_nil].
    - eapply disk_ok_ext; [..|by apply recovered_ok]; done. }
  split_and!; try done; cbn [lb]; [by rewrite (ab_trace _ _ _ Hb)|by rewrite (ab_disk _ _ _ Hb)|].
  intros x. rewrite (ab_view _ _ _ Hb), (ab_disk _ _ _ Hb) by apply Hl. done.
Qed.

Lemma initlog_linv l d bs : lwf l -> disk_ok l d bs ->
  exists r a, initlog pid (lg_dev l) (boot d) = Ok (tt, r) /\ linv r a [] /\ unlocked a /\
    (lg_dev (lg r) = lg_dev l /\ lg_start (lg r) = lg_start l /\ lg_size (lg r) = lg_size l) /\
    (lg_outstanding (lg r) = 0 /\ lg_committing (lg r) = false) /\
    trace (lb r) = recover_writes l d bs /\ disk (lb r) = apply_writes (recover_writes l d bs) d /\
    forall b, view (lb r) (lg_dev l) b = disk (lb r) (lg_dev l) b.
Proof using Type. apply (initlog_linv_from (binit d)). apply binit_abs. Qed.

(** ** Commit *)
Lemma linv_ops b l a bs o c : linv (mkLst b l) a bs -> linv (mkLst b (set_ops o c l)) a bs.
Proof using Type. intros []. split; try done; [by destruct li_wf|]. eapply disk_ok_ext; [..|done]; done. Qed.

Lemma linv_view st a bs b : linv st a bs -> unlocked a -> b ∉ bs -> a_view a (lg_dev (lg st)) b = a_disk a (lg_dev (lg st)) b.
Proof using Type.
  intros H Hul Hb. pose proof (lw_dev _ (li_wf _ _ _ _ H)) as Hd. eapply abs_clean; [apply H|done|by apply Hul|].
  apply not_true_is_false. intros [_ ?]%(li_dirty _ _ _ _ H); done.
Qed.

Lemma commit_writes_length l V bs n w : (forall b, length (V (lg_dev l) b) = n) -> w ∈ commit_writes l V bs -> length w.2 = n.
Proof using Type.
  intros HV. unfold commit_writes, home_writes. assert (Hh : forall d cs, length (enc_head d cs) = length d) by (intros; unfold enc_head; by rewrite put_blocks_length, put32_length).
  assert (Hlog : forall i, w ∈ log_writes l V i bs -> length w.2 = n).
  { induction bs as [|c cs IH]; intros i; simpl; [by intros ?%elem_of_nil|]. intros [->|H]%elem_of_cons; [apply HV|by eapply IH]. }
  rewrite !elem_of_app, !list_elem_of_singleton. intros [H|[->|[H| ->]]]; [by eapply Hlog|simpl; by rewrite Hh, HV| |simpl; by rewrite !Hh, HV].
  apply list_elem_of_fmap_1 in H as (c & -> & _). apply HV.
Qed.

Lemma commit_any b l a bs : linv (mkLst b l) a bs -> unlocked a ->
  exists b' W, commit pid (mkLst b l) = Ok (tt, mkLst b' (set_lh 0 (lh_block l) l)) /\ abs b' (a_write W a) /\
    linv (mkLst b' (set_lh 0 (lh_block l) l)) (a_write W a) [] /\
    (forall x, outside l x -> apply_writes W (a_disk a) (lg_dev l) x = a_view a (lg_dev l) x) /\
    (forall n w, (forall x, length (a_view a (lg_dev l) x) = n) -> w ∈ W -> length w.2 = n) /\
    forall k, let d := apply_writes (take k W) (a_disk a) in exists bs', disk_ok l d bs' /\
      ((forall x, outside l x -> apply_writes (recover_writes l d bs') d (lg_dev l) x = a_disk a (lg_dev l) x) \/
       (forall x, outside l x -> apply_writes (recover_writes l d bs') d (lg_dev l) x = a_view a (lg_dev l) x)).
Proof using Type.
  intros H Hul. pose proof (fun x => linv_view _ _ _ x H Hul) as HV. pose proof H as [Hl Ha Hn Hblk Hh Hnd Hlen Hdt Hdk]. cbn [lg lb] in *.
  destruct (decide (bs = [])) as [->|Hne].
  - exists b, []. assert (Ea : a_write [] a = a) by (unfold a_write; cbn; rewrite app_nil_r; by destruct a). rewrite Ea.
    assert (El : set_lh 0 (lh_block l) l = l) by (destruct l; simpl in *; by subst). rewrite El.
    split_and!; try done.
    + unfold commit. rewrite (bind_Ok _ _ _ _ _ eq_refl). cbn [lg]. by rewrite Hn.
    + intros x Hx. symmetry. apply HV, not_elem_of_nil.
    + by intros n w _ ?%elem_of_nil.
    + intros k. rewrite take_nil. exists []. split; [done|]. left. intros x Hx. apply recovered_out; [done..|]. apply not_elem_of_nil.
  - destruct (commit_run pid b l a bs H Hul Hne) as (b' & E & Hb').
    destruct (crash_after l (a_view a) (a_disk a) bs Hl Hh Hnd Hlen Hdk HV) as (Hdk' & Ho & _).
    exists b', (commit_writes l (a_view a) bs). split_and!; try done.
    + split; cbn [lg lb]; try done; try by constructor.
      * apply lwf_set_lh; [done|apply Hl].
      * cbn. destruct Hl. lia.
      * intros v x Hv. cbn [a_write a_dirty]. split; [|by intros [_ ?%elem_of_nil]]. intros Hc. exfalso.
        pose proof (clear_sub _ _ _ _ Hc) as [-> Hx]%Hdt; [|done]. rewrite clear_in in Hc; [done|].
        unfold commit_writes. rewrite !fmap_app, !elem_of_app. right. right. left. unfold home_writes. rewrite <- list_fmap_compose.
        by apply list_elem_of_fmap_2.
      * eapply disk_ok_ext; [..|exact Hdk']; done.
    + intros n w Hn' Hw. by eapply commit_writes_length.
    + apply crash_points; done.
Qed.

(** The last [end_op]. *)
Lemma end_op_run b l a bs : linv (mkLst b l) a bs -> unlocked a -> lg_outstanding l = 1 -> lg_committing l = false ->
  exists b' W, let l1 := set_ops 0 true l in let l2 := set_ops 0 false (set_lh 0 (lh_block l1) l1) in
    end_op pid (mkLst b l) = Ok (tt, mkLst b' l2) /\ abs b' (a_write W a) /\ linv (mkLst b' l2) (a_write W a) [] /\
    (forall x, outside l x -> apply_writes W (a_disk a) (lg_dev l) x = a_view a (lg_dev l) x) /\
    (forall n w, (forall x, length (a_view a (lg_dev l) x) = n) -> w ∈ W -> length w.2 = n) /\
    forall k, let d := apply_writes (take k W) (a_disk a) in exists bs', disk_ok l1 d bs' /\
      ((forall x, outside l x -> apply_writes (recover_writes l1 d bs') d (lg_dev l) x = a_disk a (lg_dev l) x) \/
       (forall x, outside l x -> apply_writes (recover_writes l1 d bs') d (lg_dev l) x = a_view a (lg_dev l) x)).
Proof using Type.
  intros H Hul Ho Hc. destruct (commit_any b (set_ops 0 true l) a bs (linv_ops _ _ _ _ _ _ H) Hul) as (b' & W & E & Hb' & HL & Hout & Hlen & Hcr).
  exists b', W. cbv zeta. split; [|split; [done|split; [by apply linv_ops|done]]].
  unfold end_op. rewrite (bind_Ok _ _ _ _ _ eq_refl). cbn [lg]. rewrite Ho, Hc. rewrite (bind_Ok _ _ _ _ _ eq_refl).
  change (1 - 1 =? 0) with true. cbv iota. rewrite (bind_Ok _ _ _ tt (mkLst b (set_ops 0 true l))) by done. by rewrite (bind_Ok _ _ _ _ _ E).
Qed.

(** Claim C7. [end_op] of the last operation makes every block of the file system hold
    on the disk what the operations saw.  If the machine stops after any
    number [k] of the disk writes that [end_op] makes, the next boot sees
    either every block as it was before the transaction, or every block as
    the transaction left it. *)
Theorem end_op_crash_atomic st a bs : linv st a bs -> unlocked a ->
  lg_outstanding (lg st) = 1 -> lg_committing (lg st) = false ->
  exists st' a' W, end_op pid st = Ok (tt, st') /\ trace (lb st') = trace (lb st) ++ W /\
    linv st' a' [] /\ lg_outstanding (lg st') = 0 /\ lg_committing (lg st') = false /\
    (forall b, outside (lg st) b -> disk (lb st') (lg_dev (lg st)) b = view (lb st) (lg_dev (lg st)) b) /\
    forall k, exists r, initlog pid (lg_dev (lg st)) (boot (apply_writes (take k W) (disk (lb st)))) = Ok (tt, r) /\
      ((forall b, outside (lg st) b -> view (lb r) (lg_dev (lg st)) b = disk (lb st) (lg_dev (lg st)) b) \/
       (forall b, outside (lg st) b -> view (lb r) (lg_dev (lg st)) b = view (lb st) (lg_dev (lg st)) b)).
Proof using Type.
  destruct st as [b l]. cbn [lg lb]. intros H Hul Ho Hc. pose proof (li_abs _ _ _ _ H) as Ha. cbn [lb] in Ha.
  pose proof (lw_dev _ (li_wf _ _ _ _ H)) as Hd. cbn [lg] in Hd.
  destruct (end_op_run b l a bs H Hul Ho Hc) as (b' & W & E & Hb' & HL & Hout & _ & Hcr). set (l1 := set_ops 0 true l) in *.
  exists (mkLst b' (set_ops 0 false (set_lh 0 (lh_block l1) l1))), (a_write W a), W. split; [exact E|].
  split_and!; try done; cbn [lb].
  - rewrite (ab_trace _ _ _ Hb'), (ab_trace _ _ _ Ha). done.
  - intros x Hx. rewrite (ab_disk _ _ _ Hb'), (ab_view _ _ _ Ha) by done. by apply Hout.
  - intros k. rewrite (ab_disk _ _ _ Ha). destruct (Hcr k) as (bs' & Hok & Hcase).
    destruct (initlog_linv l1 _ bs' (li_wf _ _ _ _ (linv_ops b l a bs 0 true H)) Hok) as (r & ar & Er & _ & _ & _ & _ & _ & Edk & Hvw).
    exists r. split; [exact Er|]. destruct Hcase as [Hold|Hnew]; [left|right]; intros x Hx; (etrans; [exact (Hvw x)|]); rewrite Edk.
    + by apply Hold.
    + rewrite (ab_view _ _ _ Ha) by done. by apply Hnew.
Qed.

(** ** Crashes during recovery *)
Lemma recover_points l d bs k : lwf l -> disk_ok l d bs ->
  let d' := apply_writes (take k (recover_writes l d bs)) d in exists bs', disk_ok l d' bs' /\
    forall b, outside l b -> apply_writes (recover_writes l d' bs') d' (lg_dev l) b = apply_writes (recover_writes l d bs) d (lg_dev l) b.
Proof using Type.
  intros Hl Hd d'. pose proof Hd as [Hs Hn Hh]. destruct (decide (k <= length (inst_writes l d 0 bs))%nat) as [Hk|Hk].
  - rename d' into e.
    assert (He : forall b, b ∉ bs -> e (lg_dev l) b = d (lg_dev l) b).
    { intros b Hb. unfold e, recover_writes. rewrite take_app_le by done. apply apply_notin. intros H%take_keys. revert H. apply inst_notin. by right. }
    assert (Hst : e (lg_dev l) (lg_start l) = d (lg_dev l) (lg_start l)) by (apply He; eapply start_not_home; [done|apply Hh]).
    assert (H1 : 1 ∉ bs).
    { intros H. pose proof (ho_home _ _ _ Hh) as Hf. eapply Forall_forall in Hf; [|exact H]. unfold home in Hf. lia. }
    exists bs. split; [split; rewrite ?Hst, ?(He 1 H1); done|]. intros b Hb. destruct (decide (b ∈ bs)) as [Hin|Hin].
    + apply list_elem_of_lookup_1 in Hin as [j Hj]. rewrite (recovered_in l e bs j b), (recovered_in l d bs j b) by (try done; by rewrite Hst).
      apply He. intros Hin. pose proof (ho_home _ _ _ Hh) as Hf. eapply Forall_forall in Hf; [|exact Hin].
      eapply home_slot; [exact Hf| |done]. apply lookup_lt_Some in Hj. pose proof (ho_len _ _ _ Hh). lia.
    + rewrite !recovered_out by done. by apply He.
  - unfold d'. rewrite firstn_all2 by (unfold recover_writes; rewrite length_app; simpl; lia). exists [].
    split; [by apply recovered_ok|]. intros b Hb. apply recovered_out; [done..|]. apply not_elem_of_nil.
Qed.

(** Claim C8. Recovery may be interrupted after any number of its own writes: running
    it again from there gives the same file system. *)
Theorem recovery_restartable l d bs : lwf l -> disk_ok l d bs ->
  exists r, initlog pid (lg_dev l) (boot d) = Ok (tt, r) /\
  forall k, exists r', initlog pid (lg_dev l) (boot (apply_writes (take k (trace (lb r))) d)) = Ok (tt, r') /\
    forall b, outside l b -> view (lb r') (lg_dev l) b = view (lb r) (lg_dev l) b.
Proof using Type.
  intros Hl Hd. destruct (initlog_linv l d bs Hl Hd) as (r & a & E & _ & _ & _ & _ & Etr & Edk & Hvw). exists r. split; [done|].
  intros k. rewrite Etr. destruct (recover_points l d bs k Hl Hd) as (bs' & Hd' & Heq).
  destruct (initlog_linv l _ bs' Hl Hd') as (r' & a' & E' & _ & _ & _ & _ & _ & Edk' & Hvw'). exists r'. split; [done|].
  intros b Hb. rewrite Hvw', Hvw, Edk', Edk. by apply Heq.
Qed.

(** ** Inside a transaction *)
Definition home_range (b : Z) : Prop := 0 <= b < FSSIZE.

Lemma absorb_spec bs n b : home_range b -> (n <= length bs)%nat -> (forall j k, (j < n)%nat -> bs !! j = Some k -> 0 <= k < FSSIZE) ->
  exists m : nat, absorb bs n b = Z.of_nat m /\ (m <= n)%nat /\ ((m < n)%nat -> bs !! m = Some b) /\ (m = n -> b ∉ take n bs).
Proof using Type.
  intros Hb. revert n. induction bs as [|c bs IH]; intros n Hn Hr.
  { exists 0%nat. destruct n; simpl in *; [|lia]. split_and!; try done; [lia|]. intros _. apply not_elem_of_nil. }
  destruct n as [|n]; simpl in *.
  { exists 0%nat. split_and!; try done; [lia|]. intros _. apply not_elem_of_nil. }
  rewrite (u32_block c) by (apply (Hr 0%nat); [lia|done]). destruct (Z.eqb_spec c b) as [->|Hne].
  - exists 0%nat. split_and!; try done; lia.
  - destruct (IH n) as (m & -> & H1 & H2 & H3); [lia|intros j k Hj; apply (Hr (S j)); lia|].
    exists (S m). split_and!; [lia|lia|intros; apply H2; lia|]. intros [= ->]. rewrite not_elem_of_cons. auto.
Qed.

Definition add_block (bs : list Z) (b : Z) : list Z := if decide (b ∈ bs) then bs else bs ++ [b].

Lemma add_block_elem b bs c : b ∈ add_block bs c -> b ∈ bs \/ b = c.
Proof. unfold add_block. case_decide; [auto|]. rewrite elem_of_app, list_elem_of_singleton. done. Qed.

Lemma log_write_eval b l i x : bufs b !! i = Some x -> (LOGSIZE <=? lh_n l) || (lg_size l - 1 <=? lh_n l) = false ->
  1 <= lg_outstanding l -> forall b', upd_buf i (fun b => set_b_flags (b_valid b) true b) b = Ok (tt, b') ->
  forall m : nat, absorb (lh_block l) (Z.to_nat (lh_n l)) (b_blockno x) = Z.of_nat m -> (m < length (lh_block l))%nat ->
  log_write i (mkLst b l) =
    Ok (tt, mkLst b' (set_lh (if Z.of_nat m =? lh_n l then lh_n l + 1 else lh_n l) (<[m := s32 (b_blockno x)]> (lh_block l)) l)).
Proof using Type.
  intros Hx Hsz Ho b' Eb' m Em Hm. unfold log_write. rewrite (bind_Ok _ _ _ _ _ eq_refl). cbn [lg]. rewrite Hsz.
  destruct (Z.ltb_spec (lg_outstanding l) 1); [lia|].
  rewrite (bind_Ok _ _ _ _ _ (lift_Ok _ _ l _ _ (get_buf_run _ _ _ Hx))). rewrite Em.
  rewrite (bind_Ok _ _ _ tt (mkLst b (set_lh (lh_n l) (<[m := s32 (b_blockno x)]> (lh_block l)) l))); last first.
  { unfold set_lh_block. mrun. cbn [lg lb]. by rewrite updZ_nat. }
  destruct (Z.of_nat m =? lh_n l); rewrite (bind_Ok _ _ _ _ _ eq_refl); by apply lift_Ok.
Qed.

(** The entry the loop of [log_write] finds, and the entries after it. *)
Lemma absorb_run blk bs c : home_range c -> Forall home_range bs -> (length bs < length blk)%nat ->
  (forall j k, bs !! j = Some k -> blk !! j = Some k) ->
  exists m : nat, absorb blk (length bs) c = Z.of_nat m /\ (m < length blk)%nat /\
    (if Z.of_nat m =? Z.of_nat (length bs) then Z.of_nat (length bs) + 1 else Z.of_nat (length bs)) = Z.of_nat (length (add_block bs c)) /\
    forall j k, add_block bs c !! j = Some k -> <[m := c]> blk !! j = Some k.
Proof using Type.
  intros Hc Hr Hlen Hblk.
  assert (Htk : take (length bs) blk = bs).
  { apply list_eq. intros j. destruct (decide (j < length bs)%nat) as [Hj|Hj].
    - rewrite lookup_take_lt by done. destruct (lookup_lt_is_Some_2 _ _ Hj) as [k Hk]. rewrite Hk. by apply Hblk.
    - rewrite lookup_take_ge, lookup_ge_None_2 by lia. done. }
  destruct (absorb_spec blk (length bs) c Hc) as (m & Em & H1 & H2 & H3); [lia|..].
  { intros j k Hj Hk. destruct (lookup_lt_is_Some_2 _ _ Hj) as [k' Hk']. rewrite (Hblk _ _ Hk') in Hk. injection Hk as ->.
    by eapply Forall_lookup_1 in Hr; [|exact Hk']. }
  rewrite Htk in H3. exists m. split; [done|].
  assert (Hin : c ∈ bs <-> (m < length bs)%nat).
  { split; intros H; [|apply H2 in H as H'; rewrite <- Htk; eapply list_elem_of_lookup_2; by rewrite lookup_take_lt].
    destruct (decide (m = length bs)) as [->|]; [by destruct (H3 eq_refl)|lia]. }
  unfold add_block. split_and!; [lia|..].
  - destruct (Z.eqb_spec (Z.of_nat m) (Z.of_nat (length bs))); case_decide as Hd; rewrite ?Hin in Hd; rewrite ?length_app; simpl; lia.
  - intros j k Hj. destruct (decide (j = m)) as [->|Hne].
    + rewrite list_lookup_insert_eq by lia. case_decide as Hd.
      * rewrite <- (H2 (proj1 Hin Hd)). by apply Hblk.
      * rewrite Hin in Hd. replace m with (length bs) in Hj by lia. rewrite lookup_app_r, Nat.sub_diag in Hj by lia. by injection Hj as ->.
    + rewrite list_lookup_insert_ne by done. apply Hblk. case_decide as Hd; [done|]. rewrite Hin in Hd.
      pose proof (lookup_lt_Some _ _ _ Hj) as Hjl. rewrite length_app in Hjl. simpl in Hjl. by rewrite lookup_app_l in Hj by lia.
Qed.

Lemma log_write_run b l a bs i c : linv (mkLst b l) a bs -> holds b i (lg_dev l) c -> home l c ->
  1 <= lg_outstanding l -> Z.of_nat (length bs) < lg_size l - 1 ->
  exists b' n blk, log_write i (mkLst b l) = Ok (tt, mkLst b' (set_lh n blk l)) /\
    linv (mkLst b' (set_lh n blk l)) (set_dirty (lg_dev l) c true a) (add_block bs c) /\
    forall j v x, holds b j v x -> holds b' j v x.
Proof using Type.
  intros [Hl Ha Hn Hblk Hh Hnd Hlen Hdt Hdk] Hi Hc Ho Hsz. cbn [lg lb] in *.
  destruct (holds_abs pid b a i _ _ Ha Hi) as (x & Hx & _ & Hxc & _).
  destruct (mark_dirty_run pid b a i _ _ Ha Hi) as (b' & Eb' & Hb' & Hfr).
  pose proof (lw_size l Hl) as Hls. pose proof (lw_block l Hl) as Hlb.
  destruct (absorb_run (lh_block l) bs c) as (m & Em & Hm & Hlen' & Hblk').
  { unfold home_range. destruct Hc. lia. }
  { eapply Forall_impl; [exact Hh|]. intros k [Hk _]. unfold home_range. lia. }
  { lia. }
  { done. }
  erewrite (log_write_eval b l i x Hx); [| |done|exact Eb'|rewrite Hn, Nat2Z.id, Hxc; exact Em|lia].
  2: { rewrite Hn. destruct (Z.leb_spec LOGSIZE (Z.of_nat (length bs))), (Z.leb_spec (lg_size l - 1) (Z.of_nat (length bs))); simpl; try done; lia. }
  rewrite Hxc, Hn, Hlen', (s32_small c) by (unfold home, FSSIZE in Hc; lia). eexists b', _, _. split; [done|]. split; [|done].
  split; cbn [lg lb lg_dev lh_block set_lh]; try done.
  - apply lwf_set_lh; [done|]. by rewrite length_insert.
  - unfold add_block. case_decide; [done|]. apply Forall_app_2; [done|by apply Forall_singleton].
  - unfold add_block. case_decide as Hd; [done|]. apply NoDup_app. split_and!; [done| |apply NoDup_singleton]. by intros k Hk ->%list_elem_of_singleton.
  - unfold add_block. cbn [lg_size set_lh]. case_decide; rewrite ?length_app; simpl; lia.
  - intros v y Hv. cbn [a_dirty set_dirty]. unfold upd2, add_block. pose proof (Hdt v y Hv) as Hvy.
    case_decide as Hd; destruct (Z.eqb_spec v (lg_dev l)), (Z.eqb_spec y c); subst; cbn; rewrite ?Hvy, ?elem_of_app, ?list_elem_of_singleton; naive_solver.
  - eapply disk_ok_ext; [..|exact Hdk]; done.
Qed.

(** Claim C9. [log_write] adds the block of a held buffer to the transaction, once
    however often it is called, and pins the buffer; it panics when the log
    is full and outside a transaction. *)
Theorem log_write_correct st a bs i c : linv st a bs -> holds (lb st) i (lg_dev (lg st)) c -> home (lg st) c ->
  (1 <= lg_outstanding (lg st) -> Z.of_nat (length bs) < lg_size (lg st) - 1 ->
   exists st', log_write i st = Ok (tt, st') /\ linv st' (set_dirty (lg_dev (lg st)) c true a) (add_block bs c)) /\
  (lg_size (lg st) - 1 <= Z.of_nat (length bs) -> log_write i st = Panic "too big a transaction") /\
  (Z.of_nat (length bs) < lg_size (lg st) - 1 -> lg_outstanding (lg st) < 1 -> log_write i st = Panic "log_write outside of trans").
Proof using Type.
  destruct st as [b l]. cbn [lg lb]. intros H Hi Hc. split_and!.
  - intros Ho Hsz. destruct (log_write_run b l a bs i c H Hi Hc Ho Hsz) as (b' & n & blk & E & HL & _). eauto.
  - intros Hsz. pose proof (li_n _ _ _ _ H) as Hn. cbn [lg] in Hn. unfold log_write. mrun. cbn [lg]. rewrite Hn. destruct (Z.leb_spec (lg_size l - 1) (Z.of_nat (length bs))); [|lia].
    by rewrite orb_true_r.
  - intros Hsz Ho. pose proof (li_n _ _ _ _ H) as Hn. cbn [lg] in Hn. unfold log_write. mrun. cbn [lg]. rewrite Hn. pose proof (lw_size _ (li_wf _ _ _ _ H)) as Hls. cbn [lg] in Hls.
    destruct (Z.leb_spec (lg_size l - 1) (Z.of_nat (length bs))), (Z.leb_spec LOGSIZE (Z.of_nat (length bs))), (Z.ltb_spec (lg_outstanding l) 1); try lia. done.
Qed.
End LogSpec.

(** ** A concrete file system

    The super block that mkfs.c writes, and zero blocks. *)
Definition super0 : block :=
  put32 (put32 (put32 (put32 (put32 (put32 (put32 zero_block 0 1000) 1 941) 2 200) 3 30) 4 2) 5 32) 6 58.
Definition disk0 (dev b : Z) : block := if b =? 1 then super0 else zero_block.
Definition log0 : log := mkLog 2 30 0 false 1 0 (replicate (Z.to_nat LOGSIZE) 0).

Lemma log0_wf : lwf log0.
Proof. split; cbv; done. Qed.

Lemma disk0_ok : disk_ok log0 disk0 [].
Proof. split; [split; vm_compute; done|vm_compute; done|]. split; try done; try constructor; vm_compute; done. Qed.

(** After [begin_op], with a buffer for block 100 held. *)
Lemma held_example : exists b l a i, linv 7 (mkLst b l) a [] /\ holds b i (lg_dev l) 100 /\ home l 100 /\
  lg_outstanding l = 1 /\ lg_committing l = false /\ lg_size l = 30 /\ lg_dev l = 1 /\
  forall v x, v <> 0 -> (v, x) <> (1, 100) -> a_locked a v x = false.
Proof.
  destruct (initlog_linv 7 log0 disk0 [] log0_wf disk0_ok) as ([b l] & a & _ & HL & Hul & (Ed & Es & Ez) & (Eo & Ec) & _).
  cbn [lg] in *. apply (linv_ops 7 b l a [] 1 false) in HL. set (l1 := set_ops 1 false l) in *.
  destruct (linv_pins 7 _ _ _ HL Hul) as (P & HP & HPl). pose proof (li_abs _ _ _ _ HL) as Ha. cbn [lb] in Ha.
  destruct (bread_run 7 b a 1 100 P Ha) as (i & b1 & _ & Hb1 & Hi & _); try done; [by apply Hul|by right|].
  exists b1, l1, (set_locked 1 100 true a), i. split_and!; try done.
  - destruct HL; by split.
  - cbn [l1 lg_dev set_ops]. by rewrite Ed.
  - split; [unfold FSSIZE; lia|]. cbn [l1 lg_start lg_size set_ops]. rewrite Es, Ez. cbn. lia.
  - intros v x Hv Hne. cbn. rewrite upd2_ne; [by apply Hul|]. destruct (decide (v = 1)), (decide (x = 100)); naive_solver.
Qed.

(** A transaction that has changed block 100. *)
Lemma txn_example : exists st a, linv 7 st a [100] /\ unlocked a /\ lg_outstanding (lg st) = 1 /\ lg_committing (lg st) = false.
Proof.
  destruct held_example as (b1 & l1 & a & i & HL1 & Hi & Hh & Ho & Hc & Hz & Hd & Hul).
  destruct (log_write_run 7 b1 l1 a [] i 100 HL1 Hi Hh) as (b2 & n & blk & _ & HL2 & Hfr); [lia|simpl; lia|].
  rewrite Hd in *. destruct (brelse_run 7 b2 _ i 1 100 (li_abs _ _ _ _ HL2) (Hfr _ _ _ Hi)) as (b3 & _ & Hb3 & _).
  { done. }
  exists (mkLst b3 (set_lh n blk l1)), (set_locked 1 100 false (set_dirty 1 100 true a)).
  split_and!; [destruct HL2; by split| |done|done].
  intros v x Hv. cbn. unfold upd2. destruct (Z.eqb_spec v 1), (Z.eqb_spec x 100); simpl; try done; apply Hul; naive_solver.
Qed.

Lemma end_op_crash_atomic_witness : exists st st' W, end_op 7 st = Ok (tt, st') /\ trace (lb st') = trace (lb st) ++ W.
Proof.
  destruct txn_example as (st & a & HL & Hul & Ho & Hc).
  destruct (end_op_crash_atomic 7 st a [100] HL Hul Ho Hc) as (st' & a' & W & E & Ht & _). by exists st, st', W.
Defined.

Lemma recovery_restartable_witness : exists r, initlog 7 1 (boot disk0) = Ok (tt, r) /\
  forall k, exists r', initlog 7 1 (boot (apply_writes (take k (trace (lb r))) disk0)) = Ok (tt, r') /\
    forall b, outside log0 b -> view (lb r') 1 b = view (lb r) 1 b.
Proof. exact (recovery_restartable 7 log0 disk0 [] log0_wf disk0_ok). Defined.

Lemma log_write_correct_witness : exists st a i st', linv 7 st a [] /\ log_write i st = Ok (tt, st') /\
  linv 7 st' (set_dirty 1 100 true a) [100].
Proof.
  destruct held_example as (b & l & a & i & HL & Hi & Hh & Ho & Hc & Hz & Hd & _).
  destruct (log_write_correct 7 (mkLst b l) a [] i 100 HL Hi Hh) as [H _]. cbn [lg] in H.
  destruct H as (st' & E & HL'); [lia|simpl; lia|]. exists (mkLst b l), a, i, st'. rewrite Hd in HL'. done.
Defined.

(** ** The bound of [begin_op]

    Adding one block to the transaction. *)
Definition log_block (b : Z) : M lst unit :=
  i ← lift (bread 7 1 b); log_write i;; lift (brelse 7 i).
Definition log_blocks (n : Z) : M lst unit := for_each (seqZ 100 n) log_block.

Definition is_Ok {A} (r : result A) : bool := match r with Ok _ => true | _ => false end.

(** [begin_op] lets three operations of [MAXOPBLOCKS] blocks each into the
    transaction, [LOGSIZE] blocks in all, on the file system that mkfs
    makes.  The log has room for one block less: when the operations write
    that many blocks, the last [log_write] panics. *)
Theorem begin_op_overcommits : exists s, (initlog 7 1;; begin_op;; begin_op;; begin_op) (boot disk0) = Ok (true, s) /\
  is_Ok (log_blocks (3 * MAXOPBLOCKS - 1) s) = true /\
  log_blocks (3 * MAXOPBLOCKS) s = Panic "too big a transaction".
Proof.
  assert (H : match (initlog 7 1;; begin_op;; begin_op;; begin_op) (boot disk0) with
    | Ok (true, s) => is_Ok (log_blocks (3 * MAXOPBLOCKS - 1) s) &&
        match log_blocks (3 * MAXOPBLOCKS) s with Panic m => bool_decide (m = "too big a transaction"%string) | _ => false end
    | _ => false end = true) by (vm_compute; reflexivity).
  destruct ((initlog 7 1;; _) _) as [[[] s]| |]; try done. apply andb_true_iff in H as [H1 H2]. exists s. split_and!; try done.
  destruct (log_blocks (3 * MAXOPBLOCKS) s) as [| |]; try done. by apply bool_decide_eq_true_1 in H2 as ->.
Qed.
