(* ===== verification/Fs.v ===== *)
(** * The file system (fs.c)

    The state adds the inode cache and the super block to the log.  An
    inode pointer is an index into [icache.inode].  Data that a C function
    copies to a caller's buffer is returned as the list of the bytes copied;
    a [char *] source is the list of the bytes from that address on. *)

From stdpp Require Import prelude strings.
From S2P Require Import Prelude CString Console Bio Log.

Open Scope Z_scope.

(** ** On-disk layout (fs.h, stat.h) *)
Definition NINODE : nat := 50.
Definition NDEV : Z := 10.
Definition ROOTDEV : Z := 1.
Definition ROOTINO : Z := 1.
Definition NDIRECT : nat := 12.
Definition NINDIRECT : Z := BSIZE / 4.
Definition MAXFILE : Z := Z.of_nat NDIRECT + NINDIRECT.
Definition IPB : Z := BSIZE / 64.
Definition BPB : Z := BSIZE * 8.
Definition DIRSIZ : nat := 14.
Definition T_DIR : Z := 1.
Definition T_FILE : Z := 2.
Definition T_DEV : Z := 3.

Definition IBLOCK (i : Z) (sb : superblock) : Z := u32 (i / IPB + sb_inodestart sb).
Definition BBLOCK (b : Z) (sb : superblock) : Z := u32 (b / BPB + sb_bmapstart sb).

Definition s16 (z : Z) : Z := (z + 2 ^ 15) mod 2 ^ 16 - 2 ^ 15.
Definition get16 (d : block) (i : nat) : Z := byte_at d i + 256 * byte_at d (S i).
Definition put16 (d : block) (i : nat) (z : Z) : block :=
  <[i := z mod 256]> (<[S i := Z.shiftr z 8 mod 256]> d).

(** Copying bytes into a buffer at an offset. *)
Definition blit (d : block) (off : nat) (l : list Z) : block :=
  take off d ++ l ++ drop (off + length l) d.
(** The [n] bytes of a buffer at an offset. *)
Definition slice (d : list Z) (off n : nat) : list Z := take n (drop off d).

Record dinode : Type := mkDi {
  di_type : Z; di_major : Z; di_minor : Z; di_nlink : Z; di_size : Z;
  di_addrs : list Z
}.

(** Inode [k] of a block starts at byte [64 * k], word [16 * k]. *)
Definition get_dinode (d : block) (k : nat) : dinode :=
  mkDi (s16 (get16 d (64 * k))) (s16 (get16 d (64 * k + 2))) (s16 (get16 d (64 * k + 4))) (s16 (get16 d (64 * k + 6)))
    (get32 d (16 * k + 2)) ((fun j => get32 d (16 * k + 3 + j)) <$> seq 0 (S NDIRECT)).

Fixpoint put_words (d : block) (k : nat) (l : list Z) : block :=
  match l with [] => d | z :: l' => put_words (put32 d k z) (S k) l' end.

Definition put_dinode (d : block) (k : nat) (x : dinode) : block :=
  put_words (put32 (put16 (put16 (put16 (put16 d (64 * k) (di_type x)) (64 * k + 2) (di_major x)) (64 * k + 4) (di_minor x))
    (64 * k + 6) (di_nlink x)) (16 * k + 2) (di_size x)) (16 * k + 3) (di_addrs x).

(** ** Inodes in memory (file.h) *)
Record inode : Type := mkIn {
  i_dev : Z;
  i_inum : Z;
  i_ref : Z;
  i_lock : sleeplock;
  i_valid : bool;
  i_d : dinode            (** the copy of the disk inode *)
}.

Definition set_i_ref (r : Z) (x : inode) : inode := mkIn (i_dev x) (i_inum x) r (i_lock x) (i_valid x) (i_d x).
Definition set_i_lock (l : sleeplock) (x : inode) : inode := mkIn (i_dev x) (i_inum x) (i_ref x) l (i_valid x) (i_d x).
Definition set_i_d (v : bool) (d : dinode) (x : inode) : inode := mkIn (i_dev x) (i_inum x) (i_ref x) (i_lock x) v d.
Definition set_di_type (t : Z) (d : dinode) : dinode := mkDi t (di_major d) (di_minor d) (di_nlink d) (di_size d) (di_addrs d).
Definition set_di_dev (mj mn : Z) (d : dinode) : dinode := mkDi (di_type d) mj mn (di_nlink d) (di_size d) (di_addrs d).
Definition set_di_nlink (n : Z) (d : dinode) : dinode := mkDi (di_type d) (di_major d) (di_minor d) n (di_size d) (di_addrs d).
Definition set_di_size (n : Z) (d : dinode) : dinode := mkDi (di_type d) (di_major d) (di_minor d) (di_nlink d) n (di_addrs d).
Definition set_di_addrs (a : list Z) (d : dinode) : dinode := mkDi (di_type d) (di_major d) (di_minor d) (di_nlink d) (di_size d) a.

Record fsst : Type := mkFsst {
  flog : lst;
  icache : list inode;
  fsb : superblock;
  fout : list Z            (** what was printed *)
}.

Definition set_flog (l : lst) (s : fsst) : fsst := mkFsst l (icache s) (fsb s) (fout s).
Definition set_icache (c : list inode) (s : fsst) : fsst := mkFsst (flog s) c (fsb s) (fout s).

Definition in_log {A} (m : M lst A) : M fsst A := fun s =>
  match m (flog s) with
  | Ok (a, l) => Ok (a, set_flog l s)
  | Panic e => Panic e
  | Fault => Fault
  end.
Definition in_bio {A} (m : M bio A) : M fsst A := in_log (lift m).

Definition get_inode (i : nat) : M fsst inode := s ← get; deref (icache s !! i).
Definition upd_inode (i : nat) (f : inode -> inode) : M fsst unit :=
  x ← get_inode i; modify (fun s => set_icache (<[i := f x]> (icache s)) s).

(** Changing the disk copy of inode [i]. *)
Definition upd_di (i : nat) (f : dinode -> dinode) : M fsst unit := upd_inode i (fun x => set_i_d (i_valid x) (f (i_d x)) x).

Definition fs_min (a b : Z) : Z := if a <? b then a else b.

Section Fs.
Context (pid : Z).

(** [bp->data] of a buffer, and a change of it. *)
Definition data_of (i : nat) : M fsst block := b ← in_bio (get_buf i); mret (b_data b).
Definition upd_data (i : nat) (f : block -> block) : M fsst unit :=
  in_bio (upd_buf i (fun b => set_b_data (f (b_data b)) b)).
Definition brelse_ (i : nat) : M fsst unit := in_bio (brelse pid i).
Definition bread_ (dev bno : Z) : M fsst nat := in_bio (bread pid dev bno).

(** ** Blocks *)
Definition bzero (dev bno : Z) : M fsst unit :=
  bp ← bread_ dev bno; upd_data bp (fun _ => zero_block);; in_log (log_write bp);; brelse_ bp.

Definition bit_mask (bi : Z) : Z := Z.shiftl 1 (bi mod 8).
Definition bit_clear (d : block) (bi : Z) : bool := Z.land (byte_at d (Z.to_nat (bi / 8))) (bit_mask bi) =? 0.
Definition set_bit (d : block) (bi : Z) : block :=
  <[Z.to_nat (bi / 8) := Z.lor (byte_at d (Z.to_nat (bi / 8))) (bit_mask bi)]> d.
Definition clear_bit (d : block) (bi : Z) : block :=
  <[Z.to_nat (bi / 8) := Z.land (byte_at d (Z.to_nat (bi / 8))) (Z.lnot (bit_mask bi))]> d.

(** The inner loop of [balloc]: the first clear bit from [bi] on. *)
Fixpoint free_bit (d : block) (b size : Z) (n : nat) (bi : Z) : option Z :=
  match n with
  | O => None
  | S n' => if size <=? b + bi then None
            else if bit_clear d bi then Some bi else free_bit d b size n' (bi + 1)
  end.

Definition balloc_body (dev b : Z) : M fsst (option Z) :=
  s ← get;
  bp ← bread_ dev (BBLOCK b (fsb s));
  d ← data_of bp;
  match free_bit d b (sb_size (fsb s)) (Z.to_nat BPB) 0 with
  | Some bi =>
      upd_data bp (fun d => set_bit d bi);; in_log (log_write bp);; brelse_ bp;;
      bzero dev (b + bi);; mret (Some (b + bi))
  | None => brelse_ bp;; mret None
  end.

(** The values of [b] in the loop: the multiples of [BPB] below [sb.size]. *)
Definition multiples (step bound : Z) : list Z := (fun k => step * k) <$> seqZ 0 ((bound + step - 1) / step).

Definition balloc (dev : Z) : M fsst Z :=
  s ← get;
  r ← for_until (multiples BPB (sb_size (fsb s))) (balloc_body dev);
  match r with Some b => mret b | None => panic "balloc: out of blocks" end.

Definition bfree (dev b : Z) : M fsst unit :=
  s ← get;
  bp ← bread_ dev (BBLOCK b (fsb s));
  d ← data_of bp;
  let bi := b mod BPB in
  if bit_clear d bi then panic "freeing free block"
  else upd_data bp (fun d => clear_bit d bi);; in_log (log_write bp);; brelse_ bp.

(** ** Inodes *)
Definition free_inode : inode := mkIn 0 0 0 initsleeplock false (mkDi 0 0 0 0 0 (replicate (S NDIRECT) 0)).

Definition iinit (dev : Z) : M fsst unit :=
  modify (fun s => set_icache (set_i_lock initsleeplock <$> icache s) s);;
  sb ← in_bio (readsb pid dev);
  modify (fun s => mkFsst (flog s) (icache s) sb (fout s));;
  out ← deref (cprintf (cfmt "sb: size %d nblocks %d ninodes %d nlog %d logstart %d inodestart %d bmap start %d\n")
    [CInt (sb_size sb); CInt (sb_nblocks sb); CInt (sb_ninodes sb); CInt (sb_nlog sb); CInt (sb_logstart sb);
     CInt (sb_inodestart sb); CInt (sb_bmapstart sb)]);
  modify (fun s => mkFsst (flog s) (icache s) (fsb s) (fout s ++ out)).

(** The loop of [iget]: the cached inode if there is one, and the first
    empty slot otherwise. *)
Fixpoint iget_scan (l : list inode) (k : nat) (dev inum : Z) (empty : option nat) : nat + option nat :=
  match l with
  | [] => inr empty
  | x :: l' =>
      if (0 <? i_ref x) && (i_dev x =? dev) && (i_inum x =? inum) then inl k
      else iget_scan l' (S k) dev inum
             (match empty with None => if i_ref x =? 0 then Some k else None | _ => empty end)
  end.

Definition iget (dev inum : Z) : M fsst nat :=
  s ← get;
  match iget_scan (icache s) 0 dev inum None with
  | inl k => upd_inode k (fun x => set_i_ref (s32 (i_ref x + 1)) x);; mret k
  | inr None => panic "iget: no inodes"
  | inr (Some k) => upd_inode k (fun x => mkIn dev inum 1 (i_lock x) false (i_d x));; mret k
  end.

Definition ialloc_body (dev type inum : Z) : M fsst (option nat) :=
  s ← get;
  bp ← bread_ dev (IBLOCK inum (fsb s));
  d ← data_of bp;
  let k := Z.to_nat (inum mod IPB) in
  if di_type (get_dinode d k) =? 0 then
    upd_data bp (fun d => put_dinode d k (mkDi type 0 0 0 0 (replicate (S NDIRECT) 0)));;
    in_log (log_write bp);; brelse_ bp;;
    ip ← iget dev inum; mret (Some ip)
  else brelse_ bp;; mret None.

Definition ialloc (dev type : Z) : M fsst nat :=
  s ← get;
  r ← for_until (seqZ 1 (sb_ninodes (fsb s) - 1)) (ialloc_body dev type);
  match r with Some ip => mret ip | None => panic "ialloc: no inodes" end.

Definition iupdate (ip : nat) : M fsst unit :=
  s ← get;
  x ← get_inode ip;
  bp ← bread_ (i_dev x) (IBLOCK (i_inum x) (fsb s));
  upd_data bp (fun d => put_dinode d (Z.to_nat (i_inum x mod IPB)) (i_d x));;
  in_log (log_write bp);; brelse_ bp.

Definition idup (ip : nat) : M fsst nat :=
  upd_inode ip (fun x => set_i_ref (s32 (i_ref x + 1)) x);; mret ip.

(** [acquiresleep(&ip->lock)] *)
Definition lock_inode (ip : nat) : M fsst unit :=
  x ← get_inode ip; l ← deref (acquiresleep pid (i_lock x)); upd_inode ip (set_i_lock l).

Definition ilock (ip : nat) : M fsst unit :=
  s ← get;
  x ← get_inode ip;
  if i_ref x <? 1 then panic "ilock"
  else
    lock_inode ip;;
    if i_valid x then mret tt
    else
      bp ← bread_ (i_dev x) (IBLOCK (i_inum x) (fsb s));
      d ← data_of bp;
      let di := get_dinode d (Z.to_nat (i_inum x mod IPB)) in
      upd_inode ip (set_i_d (i_valid x) di);; brelse_ bp;; upd_inode ip (set_i_d true di);;
      if di_type di =? 0 then panic "ilock: no type" else mret tt.

Definition iunlock (ip : nat) : M fsst unit :=
  x ← get_inode ip;
  if negb (holdingsleep pid (i_lock x)) || (i_ref x <? 1) then panic "iunlock"
  else upd_inode ip (fun x => set_i_lock (releasesleep (i_lock x)) x).

(** ** Inode content *)
Definition set_addr (k : nat) (v : Z) : dinode -> dinode := fun d => set_di_addrs (<[k := v]> (di_addrs d)) d.

(** [if((addr = ip->addrs\[k\]) == 0) ip->addrs\[k\] = addr = balloc(ip->dev)] *)
Definition bmap_slot (ip k : nat) : M fsst Z :=
  x ← get_inode ip;
  addr ← deref (di_addrs (i_d x) !! k);
  if addr =? 0 then a ← balloc (i_dev x); upd_di ip (set_addr k a);; mret a else mret addr.

Definition bmap (ip : nat) (bn : Z) : M fsst Z :=
  if bn <? Z.of_nat NDIRECT then bmap_slot ip (Z.to_nat bn)
  else
    let bn := bn - Z.of_nat NDIRECT in
    if bn <? NINDIRECT then
      addr ← bmap_slot ip NDIRECT;
      x ← get_inode ip;
      bp ← bread_ (i_dev x) addr;
      d ← data_of bp;
      let addr := get32 d (Z.to_nat bn) in
      if addr =? 0 then
        a ← balloc (i_dev x);
        upd_data bp (fun d => put32 d (Z.to_nat bn) a);; in_log (log_write bp);; brelse_ bp;; mret a
      else brelse_ bp;; mret addr
    else panic "bmap: out of range".

Definition itrunc_direct (ip i : nat) : M fsst unit :=
  x ← get_inode ip;
  a ← deref (di_addrs (i_d x) !! i);
  if a =? 0 then mret tt else bfree (i_dev x) a;; upd_di ip (set_addr i 0).

Definition itrunc (ip : nat) : M fsst unit :=
  for_each (seq 0 NDIRECT) (itrunc_direct ip);;
  x ← get_inode ip;
  a ← deref (di_addrs (i_d x) !! NDIRECT);
  (if a =? 0 then mret tt
   else
     bp ← bread_ (i_dev x) a;
     d ← data_of bp;
     for_each (seq 0 (Z.to_nat NINDIRECT)) (fun j => if get32 d j =? 0 then mret tt else bfree (i_dev x) (get32 d j));;
     brelse_ bp;;
     bfree (i_dev x) a;;
     upd_di ip (set_addr NDIRECT 0));;
  upd_di ip (set_di_size 0);;
  iupdate ip.

Definition iput (ip : nat) : M fsst unit :=
  lock_inode ip;;
  x ← get_inode ip;
  (if i_valid x && (di_nlink (i_d x) =? 0) && (i_ref x =? 1) then
     itrunc ip;;
     upd_di ip (set_di_type 0);;
     iupdate ip;;
     upd_inode ip (fun x => set_i_d false (i_d x) x)
   else mret tt);;
  upd_inode ip (fun x => set_i_lock (releasesleep (i_lock x)) x);;
  upd_inode ip (fun x => set_i_ref (s32 (i_ref x - 1)) x).

Definition iunlockput (ip : nat) : M fsst unit := iunlock ip;; iput ip.

Record stat : Type := mkStat { st_dev : Z; st_ino : Z; st_type : Z; st_nlink : Z; st_size : Z }.

Definition stati (ip : nat) : M fsst stat :=
  x ← get_inode ip;
  mret (mkStat (s32 (i_dev x)) (i_inum x) (di_type (i_d x)) (di_nlink (i_d x)) (di_size (i_d x))).
End Fs.
