(* ===== verification/Dir.v ===== *)
(** * File content, directories and path names (fs.c)

    [readi] and [writei] with their loops, [dirlookup] and [dirlink],
    [skipelem] and [namex].  A read returns the bytes it copies. *)

From stdpp Require Import prelude strings.
From S2P Require Import Prelude CString Bio Log Fs.

Open Scope Z_scope.

(** The device switch: the table [devsw] of read and write functions. *)
Record devsw : Type := mkDevsw {
  dv_read : Z -> option (nat -> Z -> M fsst (Z * list Z));
  dv_write : Z -> option (nat -> list Z -> Z -> M fsst Z)
}.

Definition dev_lookup {A} (f : Z -> option A) (major : Z) : option A :=
  if (major <? 0) || (NDEV <=? major) then None else f major.

(** The [m] bytes at a source address. *)
Definition read_src (src : list Z) (m : nat) : option (list Z) :=
  if (m <=? length src)%nat then Some (take m src) else None.

(** ** Directory entries (fs.h) *)
Record dirent : Type := mkDe { de_inum : Z; de_name : list Z }.
Definition DESIZE : Z := 16.

Definition get_dirent (l : list Z) : dirent := mkDe (get16 l 0) (slice l 2 DIRSIZ).
Definition put_dirent (de : dirent) : list Z := [de_inum de mod 256; Z.shiftr (de_inum de) 8 mod 256] ++ de_name de.

Section Dir.
Context (pid : Z) (dv : devsw).

(** ** Reading and writing a file

    The loop stops after at most [n / BSIZE + 2] blocks, which is the fuel. *)
Fixpoint readi_loop (fuel : nat) (ip : nat) (off n tot : Z) : M fsst (list Z) :=
  if n <=? tot then mret []
  else
    match fuel with
    | O => fault
    | S fuel' =>
        a ← bmap pid ip (off / BSIZE);
        x ← get_inode ip;
        bp ← bread_ pid (i_dev x) a;
        d ← data_of bp;
        let m := fs_min (n - tot) (BSIZE - off mod BSIZE) in
        brelse_ pid bp;;
        l ← readi_loop fuel' ip (off + m) n (tot + m);
        mret (slice d (Z.to_nat (off mod BSIZE)) (Z.to_nat m) ++ l)
    end.

Definition blocks_fuel (n : Z) : nat := Z.to_nat (n / BSIZE + 2).

Definition readi (ip : nat) (off n : Z) : M fsst (Z * list Z) :=
  x ← get_inode ip;
  if di_type (i_d x) =? T_DEV then
    match dev_lookup (dv_read dv) (di_major (i_d x)) with
    | None => mret (-1, [])
    | Some f => f ip (s32 n)
    end
  else if (di_size (i_d x) <? off) || (u32 (off + n) <? off) then mret (-1, [])
  else
    let n := if di_size (i_d x) <? u32 (off + n) then di_size (i_d x) - off else n in
    l ← readi_loop (blocks_fuel n) ip off n 0;
    mret (s32 n, l).

Fixpoint writei_loop (fuel : nat) (ip : nat) (src : list Z) (off n tot : Z) : M fsst unit :=
  if n <=? tot then mret tt
  else
    match fuel with
    | O => fault
    | S fuel' =>
        a ← bmap pid ip (off / BSIZE);
        x ← get_inode ip;
        bp ← bread_ pid (i_dev x) a;
        let m := fs_min (n - tot) (BSIZE - off mod BSIZE) in
        l ← deref (read_src src (Z.to_nat m));
        upd_data bp (fun d => blit d (Z.to_nat (off mod BSIZE)) l);;
        in_log (log_write bp);;
        brelse_ pid bp;;
        writei_loop fuel' ip (drop (Z.to_nat m) src) (off + m) n (tot + m)
    end.

Definition writei (ip : nat) (src : list Z) (off n : Z) : M fsst Z :=
  x ← get_inode ip;
  if di_type (i_d x) =? T_DEV then
    match dev_lookup (dv_write dv) (di_major (i_d x)) with
    | None => mret (-1)
    | Some f => f ip src (s32 n)
    end
  else if (di_size (i_d x) <? off) || (u32 (off + n) <? off) then mret (-1)
  else if MAXFILE * BSIZE <? u32 (off + n) then mret (-1)
  else
    writei_loop (blocks_fuel n) ip src off n 0;;
    (if (0 <? n) && (di_size (i_d x) <? off + n) then
       upd_di ip (set_di_size (off + n));; iupdate pid ip
     else mret tt);;
    mret (s32 n).

(** ** Directories *)
Definition namecmp (s t : list Z) : M fsst Z := deref (strncmp s t DIRSIZ).

(** Reading one entry; any other length is a panic with message [msg]. *)
Definition read_dirent (dp : nat) (off : Z) (msg : string) : M fsst dirent :=
  r ← readi dp off DESIZE;
  if r.1 =? DESIZE then mret (get_dirent r.2) else panic msg.

Definition lookup_body (dp : nat) (name : list Z) (off : Z) : M fsst (option (nat * Z)) :=
  de ← read_dirent dp off "dirlookup read";
  if de_inum de =? 0 then mret None
  else
    c ← namecmp name (de_name de);
    if c =? 0 then x ← get_inode dp; ip ← iget (i_dev x) (de_inum de); mret (Some (ip, off))
    else mret None.

(** The inode and its offset, [None] for a null pointer. *)
Definition dirlookup (dp : nat) (name : list Z) : M fsst (option (nat * Z)) :=
  x ← get_inode dp;
  if negb (di_type (i_d x) =? T_DIR) then panic "dirlookup not DIR"
  else for_until (multiples DESIZE (di_size (i_d x))) (lookup_body dp name).

Definition empty_body (dp : nat) (off : Z) : M fsst (option Z) :=
  de ← read_dirent dp off "dirlink read";
  mret (if de_inum de =? 0 then Some off else None).

(** [garbage] is what [de.name] held, which [strncpy] overwrites. *)
Definition dirlink (garbage : list Z) (dp : nat) (name : list Z) (inum : Z) : M fsst Z :=
  r ← dirlookup dp name;
  match r with
  | Some (ip, _) => iput pid ip;; mret (-1)
  | None =>
      x ← get_inode dp;
      let offs := multiples DESIZE (di_size (i_d x)) in
      e ← for_until offs (empty_body dp);
      let off := match e with Some off => off | None => DESIZE * Z.of_nat (length offs) end in
      name' ← deref (strncpy garbage name DIRSIZ);
      w ← writei dp (put_dirent (mkDe (inum mod 2 ^ 16) name')) off DESIZE;
      if w =? DESIZE then mret 0 else panic "dirlink"
  end.
End Dir.

(** ** Paths *)
Definition SLASH : Z := 47.

Fixpoint skip_slashes (p : list Z) : option (list Z) :=
  match p with
  | [] => None
  | c :: p' => if c =? SLASH then skip_slashes p' else Some p
  end.

(** The bytes up to the next slash or NUL, and what follows. *)
Fixpoint take_elem (p : list Z) : option (list Z * list Z) :=
  match p with
  | [] => None
  | c :: p' =>
      if (c =? SLASH) || (c =? 0) then Some ([], p)
      else '(e, r) ← take_elem p'; Some (c :: e, r)
  end.

(** The new contents of the [DIRSIZ]-byte buffer [name]. *)
Definition put_name (name e : list Z) : list Z :=
  if (DIRSIZ <=? length e)%nat then take DIRSIZ e ++ drop DIRSIZ name
  else e ++ 0 :: drop (S (length e)) name.

(** [Some None] is the null pointer. *)
Definition skipelem (path name : list Z) : option (option (list Z * list Z)) :=
  p ← skip_slashes path;
  match p with
  | [] => None
  | c :: _ =>
      if c =? 0 then Some None
      else '(e, r) ← take_elem p; r' ← skip_slashes r; Some (Some (r', put_name name e))
  end.

Section Path.
Context (pid : Z) (dv : devsw) (cwd : nat).

(** Each turn consumes at least one byte of the path, so its length is
    enough fuel. *)
Fixpoint namex_loop (fuel : nat) (ip : nat) (path name : list Z) (parent : bool) : M fsst (option (nat * list Z)) :=
  e ← deref (skipelem path name);
  match e with
  | None => if parent then iput pid ip;; mret None else mret (Some (ip, name))
  | Some (path', name') =>
      match fuel with
      | O => fault
      | S fuel' =>
          ilock pid ip;;
          x ← get_inode ip;
          if negb (di_type (i_d x) =? T_DIR) then iunlockput pid ip;; mret None
          else if parent && (default 1 (head path') =? 0) then iunlock pid ip;; mret (Some (ip, name'))
          else
            r ← dirlookup pid dv ip name';
            match r with
            | None => iunlockput pid ip;; mret None
            | Some (next, _) => iunlockput pid ip;; namex_loop fuel' next path' name' parent
            end
      end
  end.

Definition namex (path : list Z) (parent : bool) (name : list Z) : M fsst (option (nat * list Z)) :=
  c ← deref (head path);
  ip ← (if c =? SLASH then iget ROOTDEV ROOTINO else idup cwd);
  namex_loop (length path) ip path name parent.

(** [garbage] is the value of the uninitialised [name]. *)
Definition namei (garbage path : list Z) : M fsst (option nat) :=
  r ← namex path false garbage; mret (fst <$> r).

Definition nameiparent (path name : list Z) : M fsst (option (nat * list Z)) := namex path true name.
End Path.
