(* ===== verification/File.v ===== *)
(** * Open files (file.c) and the creation of pipes (pipe.c)

    The state of the layers below the process table: memory, the file
    system, the open file table and the pipes, which live in pages of their
    own.  [k_pid] is the pid of the process a call runs for.  The wakeups of
    a call are collected in [k_woken]. *)

From stdpp Require Import prelude strings.
From S2P Require Import Prelude CString Kalloc Vm Pipe Bio Log Fs Dir.

Open Scope Z_scope.

Definition NFILE : nat := 100.

Inductive filetype : Type := FD_NONE | FD_PIPE | FD_INODE.

Record file : Type := mkFile {
  f_type : filetype;
  f_ref : Z;
  f_readable : bool;
  f_writable : bool;
  f_pipe : Z;              (** the page of the pipe *)
  f_ip : nat;
  f_off : Z
}.

Definition set_f_ref (r : Z) (f : file) : file := mkFile (f_type f) r (f_readable f) (f_writable f) (f_pipe f) (f_ip f) (f_off f).
Definition set_f_off (o : Z) (f : file) : file := mkFile (f_type f) (f_ref f) (f_readable f) (f_writable f) (f_pipe f) (f_ip f) o.
Definition set_f_type (t : filetype) (f : file) : file := mkFile t (f_ref f) (f_readable f) (f_writable f) (f_pipe f) (f_ip f) (f_off f).

Record kfs : Type := mkKfs {
  k_mem : kmem;
  k_fs : fsst;
  k_ft : list file;
  k_pipes : list (Z * pipe);
  k_pid : Z;
  k_woken : list chan
}.

Definition set_k_ft (t : list file) (s : kfs) : kfs := mkKfs (k_mem s) (k_fs s) t (k_pipes s) (k_pid s) (k_woken s).
Definition set_k_pipes (p : list (Z * pipe)) (s : kfs) : kfs := mkKfs (k_mem s) (k_fs s) (k_ft s) p (k_pid s) (k_woken s).

Definition on_mem {A} (m : M kmem A) : M kfs A := fun s =>
  match m (k_mem s) with
  | Ok (a, x) => Ok (a, mkKfs x (k_fs s) (k_ft s) (k_pipes s) (k_pid s) (k_woken s))
  | Panic e => Panic e
  | Fault => Fault
  end.

(** A call into the file system on behalf of [k_pid]. *)
Definition on_fs {A} (m : Z -> M fsst A) : M kfs A := fun s =>
  match m (k_pid s) (k_fs s) with
  | Ok (a, x) => Ok (a, mkKfs (k_mem s) x (k_ft s) (k_pipes s) (k_pid s) (k_woken s))
  | Panic e => Panic e
  | Fault => Fault
  end.

Definition wake (cs : list chan) : M kfs unit :=
  modify (fun s => mkKfs (k_mem s) (k_fs s) (k_ft s) (k_pipes s) (k_pid s) (k_woken s ++ cs)).

(** [begin_op] that does not have to wait; [end_op] wakes the waiters. *)
Definition begin_op_ : M kfs unit := b ← on_fs (fun _ => in_log begin_op); if (b : bool) then mret tt else asleep.
Definition end_op_ : M kfs unit := on_fs (fun pid => in_log (end_op pid));; wake [ChanLog].

Definition get_file (i : nat) : M kfs file := s ← get; deref (k_ft s !! i).
Definition upd_file (i : nat) (f : file -> file) : M kfs unit :=
  x ← get_file i; modify (fun s => set_k_ft (<[i := f x]> (k_ft s)) s).

Fixpoint find_pipe (p : Z) (l : list (Z * pipe)) : option pipe :=
  match l with
  | [] => None
  | (q, x) :: l' => if q =? p then Some x else find_pipe p l'
  end.
Definition set_pipe (p : Z) (x : pipe) (l : list (Z * pipe)) : list (Z * pipe) :=
  (p, x) :: filter (fun e => e.1 ≠ p) l.
Definition get_pipe (p : Z) : M kfs pipe := s ← get; deref (find_pipe p (k_pipes s)).
Definition put_pipe (p : Z) (x : pipe) : M kfs unit := modify (fun s => set_k_pipes (set_pipe p x (k_pipes s)) s).

Section File.
(** [kend] is the linker's symbol [end]; [pgdir] the page table in use. *)
Context (kend : Z) (dv : devsw).

(** ** The file table *)
Fixpoint free_file (l : list file) (k : nat) : option nat :=
  match l with
  | [] => None
  | f :: l' => if f_ref f =? 0 then Some k else free_file l' (S k)
  end.

Definition filealloc : M kfs (option nat) :=
  s ← get;
  match free_file (k_ft s) 0 with
  | Some i => upd_file i (set_f_ref 1);; mret (Some i)
  | None => mret None
  end.

Definition filedup (f : nat) : M kfs nat :=
  x ← get_file f;
  if f_ref x <? 1 then panic "filedup"
  else upd_file f (set_f_ref (s32 (f_ref x + 1)));; mret f.

(** The page goes back to the allocator when both ends are closed. *)
Definition pipeclose_ (p : Z) (writable : bool) : M kfs unit :=
  x ← get_pipe p;
  let '(x', cs, last) := pipeclose p writable x in
  wake cs;;
  if (last : bool) then modify (fun s => set_k_pipes (filter (fun e => e.1 ≠ p) (k_pipes s)) s);; on_mem (kfree kend p)
  else put_pipe p x'.

Definition fileclose (f : nat) : M kfs unit :=
  x ← get_file f;
  if f_ref x <? 1 then panic "fileclose"
  else if 0 <? f_ref x - 1 then upd_file f (set_f_ref (f_ref x - 1))
  else
    upd_file f (fun x => set_f_type FD_NONE (set_f_ref 0 x));;
    match f_type x with
    | FD_PIPE => pipeclose_ (f_pipe x) (f_writable x)
    | FD_INODE => begin_op_;; on_fs (fun pid => iput pid (f_ip x));; end_op_
    | FD_NONE => mret tt
    end.

(** ** pipealloc *)
Definition close_opt (f : option nat) : M kfs unit :=
  match f with Some i => fileclose i | None => mret tt end.

Definition pipe_page (p : Z) : M kfs (list Z) :=
  gets (fun s => (fun i => pmem (k_mem s) (p + i)) <$> seqZ 0 PIPESIZE).

Definition pipealloc : M kfs (option (nat * nat)) :=
  f0 ← filealloc;
  f1 ← (match f0 with Some _ => filealloc | None => mret None end);
  p ← (match f1 with Some _ => on_mem kalloc | None => mret 0 end);
  match f0, f1 with
  | Some i, Some j =>
      if p =? 0 then fileclose i;; fileclose j;; mret None
      else
        page ← pipe_page p;
        put_pipe p (pipe_init page);;
        upd_file i (fun f => mkFile FD_PIPE (f_ref f) true false p (f_ip f) (f_off f));;
        upd_file j (fun f => mkFile FD_PIPE (f_ref f) false true p (f_ip f) (f_off f));;
        mret (Some (i, j))
  | _, _ => close_opt f0;; close_opt f1;; mret None
  end.

(** ** Operations on an open file

    Data for the caller's buffer is returned; on a pipe the run may end
    asleep. *)
Definition filestat (f : nat) : M kfs (option stat) :=
  x ← get_file f;
  match f_type x with
  | FD_INODE =>
      on_fs (fun pid => ilock pid (f_ip x));;
      st ← on_fs (fun _ => stati (f_ip x));
      on_fs (fun pid => iunlock pid (f_ip x));;
      mret (Some st)
  | _ => mret None
  end.

Definition fileread (killed : bool) (f : nat) (n : Z) : M kfs (io_end * list Z) :=
  x ← get_file f;
  if negb (f_readable x) then mret (Return (-1), [])
  else
    match f_type x with
    | FD_PIPE =>
        p ← get_pipe (f_pipe x);
        let '(p', l, cs, e) := piperead (f_pipe x) killed n p in
        put_pipe (f_pipe x) p';; wake cs;; mret (e, l)
    | FD_INODE =>
        on_fs (fun pid => ilock pid (f_ip x));;
        r ← on_fs (fun pid => readi pid dv (f_ip x) (f_off x) (u32 n));
        (if 0 <? r.1 then upd_file f (set_f_off (u32 (f_off x + r.1))) else mret tt);;
        on_fs (fun pid => iunlock pid (f_ip x));;
        mret (Return r.1, r.2)
    | FD_NONE => panic "fileread"
    end.

(** Bytes per transaction in [filewrite]. *)
Definition WMAX : Z := ((MAXOPBLOCKS - 1 - 1 - 2) / 2) * 512.

(** One turn of the loop: [writei] of [n1] bytes in its own transaction. *)
Definition write_chunk (f : nat) (src : list Z) (n1 : Z) : M kfs Z :=
  begin_op_;;
  x ← get_file f;
  on_fs (fun pid => ilock pid (f_ip x));;
  r ← on_fs (fun pid => writei pid dv (f_ip x) src (f_off x) (u32 n1));
  (if 0 <? r then upd_file f (set_f_off (u32 (f_off x + r))) else mret tt);;
  on_fs (fun pid => iunlock pid (f_ip x));;
  end_op_;;
  mret r.

(** The loop from [i] on; each turn writes at least one byte.  The result
    is the final [i]. *)
Fixpoint filewrite_loop (fuel : nat) (f : nat) (src : list Z) (n i : Z) : M kfs Z :=
  if n <=? i then mret i
  else
    match fuel with
    | O => fault
    | S fuel' =>
        let n1 := if WMAX <? n - i then WMAX else n - i in
        r ← write_chunk f (drop (Z.to_nat i) src) n1;
        if r <? 0 then mret i
        else if negb (r =? n1) then panic "short filewrite"
        else filewrite_loop fuel' f src n (i + r)
    end.

(** With the number of bytes a pipe has taken. *)
Definition filewrite (killed : bool) (f : nat) (src : list Z) (n : Z) : M kfs (io_end * nat) :=
  x ← get_file f;
  if negb (f_writable x) then mret (Return (-1), O)
  else
    match f_type x with
    | FD_PIPE =>
        p ← get_pipe (f_pipe x);
        l ← deref (read_src src (Z.to_nat n));
        let '(p', k, cs, e) := pipewrite (f_pipe x) killed n p l in
        put_pipe (f_pipe x) p';; wake cs;; mret (e, k)
    | FD_INODE =>
        i ← filewrite_loop (Z.to_nat (n / WMAX + 1)) f src n 0;
        mret (Return (if i =? n then n else -1), O)
    | FD_NONE => panic "filewrite"
    end.
End File.
