(* ===== verification/FsRep.v ===== *)
(** * The file system over the log: the blocks a transaction sees

    [rep s V bs L] says that the running transaction sees the block contents
    [V], has changed the blocks [bs] and holds the buffers [L].  With it the
    rest of the file system can be described by what it does to [V]. *)

From stdpp Require Import prelude strings.
From S2P Require Import Prelude Bio BioInv BioThms Log LogThms LogCrash LogSpec Fs.

Open Scope Z_scope.

Definition updV (V : Z -> block) (b : Z) (d : block) : Z -> block := fun x => if x =? b then d else V x.

Lemma updV_eq V b d : updV V b d b = d.
Proof. unfold updV. by rewrite Z.eqb_refl. Qed.
Lemma updV_ne V b d x : x <> b -> updV V b d x = V x.
Proof. unfold updV. intros H. by destruct (Z.eqb_spec x b). Qed.

Section FsRep.
Context (pid : Z).

Notation linv := (linv pid).

Definition flg (s : fsst) : log := lg (flog s).

(** ** The relation *)
Record rep_with (s : fsst) (a : astate) (V : Z -> block) (bs : list Z) (L : list (nat * Z)) : Prop := {
  rp_inv : linv (flog s) a bs;
  rp_view : forall b, a_view a (lg_dev (flg s)) b = V b;
  rp_locked : forall v b, v <> 0 -> a_locked a v b = true -> v = lg_dev (flg s) /\ b ∈ L.*2;
  rp_holds : forall i b, (i, b) ∈ L -> holds (lb (flog s)) i (lg_dev (flg s)) b;
  rp_nd : NoDup (L.*2);
  rp_clean : forall b, b ∈ L.*2 -> a_dirty a (lg_dev (flg s)) b = false -> V b = a_disk a (lg_dev (flg s)) b
}.

Definition rep (s : fsst) (V : Z -> block) (bs : list Z) (L : list (nat * Z)) : Prop := exists a, rep_with s a V bs L.

(** What the operations on files leave alone. *)
Record same_env (s s' : fsst) : Prop := {
  sr_fsb : fsb s' = fsb s;
  sr_fout : fout s' = fout s;
  sr_dev : lg_dev (flg s') = lg_dev (flg s);
  sr_start : lg_start (flg s') = lg_start (flg s);
  sr_size : lg_size (flg s') = lg_size (flg s);
  sr_ops : lg_outstanding (flg s') = lg_outstanding (flg s);
  sr_commit : lg_committing (flg s') = lg_committing (flg s)
}.

#[global] Instance same_env_po : PreOrder same_env.
Proof. split; [by intros s; split|]. intros s1 s2 s3 [] []. split; etrans; eauto. Qed.

(** What the operations on blocks leave alone. *)
Record same_rest (s s' : fsst) : Prop := {
  sr_icache : icache s' = icache s;
  sr_env :> same_env s s'
}.

#[global] Instance same_rest_po : PreOrder same_rest.
Proof. split; [by intros s; split|]. intros s1 s2 s3 [E1 ?] [E2 ?]. split; [by rewrite E2|by etrans]. Qed.

Lemma in_log_Ok {A} (m : M lst A) s a l : m (flog s) = Ok (a, l) -> in_log m s = Ok (a, set_flog l s).
Proof using Type. intros H. unfold in_log. by rewrite H. Qed.

Lemma in_bio_Ok {A} (m : M bio A) s a b : m (lb (flog s)) = Ok (a, b) -> in_bio m s = Ok (a, set_flog (mkLst b (flg s)) s).
Proof using Type. intros H. unfold in_bio. apply in_log_Ok. unfold lift. by rewrite H. Qed.

Lemma rep_pins s a V bs L : rep_with s a V bs L ->
  pins a (((fun b => (lg_dev (flg s), b)) <$> bs) ++ ((fun b => (lg_dev (flg s), b)) <$> L.*2)).
Proof using Type.
  intros H v b Hv. rewrite elem_of_app. intros [Hd|Hl]%orb_true_iff.
  - left. apply (li_dirty _ _ _ _ (rp_inv _ _ _ _ _ H)) in Hd as [-> Hb]; [|done]. by apply (list_elem_of_fmap_2 (fun b => (lg_dev (flg s), b))).
  - right. apply (rp_locked _ _ _ _ _ H) in Hl as [-> Hb]; [|done]. by apply (list_elem_of_fmap_2 (fun b => (lg_dev (flg s), b))).
Qed.

(** Changing the cache under an unchanged log. *)
Lemma linv_cache b b' l a a' bs : linv (mkLst b l) a bs -> abs pid b' a' ->
  (forall v x, v <> 0 -> a_dirty a' v x = a_dirty a v x) -> a_disk a' = a_disk a -> linv (mkLst b' l) a' bs.
Proof using Type.
  intros [] Ha Hd Hk. split; cbn [lg lb] in *; try done.
  - intros v x Hv. rewrite Hd by done. by apply li_dirty.
  - by rewrite Hk.
Qed.

Lemma linv_here s a bs : linv (flog s) a bs -> linv (mkLst (lb (flog s)) (flg s)) a bs.
Proof using Type. unfold flg. by destruct (flog s). Qed.

(** ** Reading a block *)
Lemma bread_rep s V bs L b : rep s V bs L -> 0 <= b < FSSIZE -> b ∉ L.*2 -> (length bs + length L < NBUF)%nat ->
  exists i s', bread_ pid (lg_dev (flg s)) b s = Ok (i, s') /\ rep s' V bs ((i, b) :: L) /\ same_rest s s'.
Proof using Type.
  intros [a H] Hb Hn HL. pose proof (rp_inv _ _ _ _ _ H) as Hi. pose proof (li_abs _ _ _ _ Hi) as Ha.
  pose proof (lw_dev _ (li_wf _ _ _ _ Hi)) as Hd. fold (flg s) in Hd.
  assert (Hlk : a_locked a (lg_dev (flg s)) b = false).
  { apply not_true_is_false. intros Hx. by destruct (rp_locked _ _ _ _ _ H _ _ Hd Hx). }
  destruct (bread_run pid _ a (lg_dev (flg s)) b _ Ha Hd (proj2 Hb) Hlk (rep_pins _ _ _ _ _ H)) as (i & b1 & E & Hb1 & Hih & Hfr).
  { right. rewrite length_app, !length_fmap. done. }
  exists i, (set_flog (mkLst b1 (flg s)) s). split; [by apply in_bio_Ok|]. split; [|by repeat split].
  exists (set_locked (lg_dev (flg s)) b true a). split; try done; cbn [flog set_flog flg lg].
  - eapply linv_cache; [by apply linv_here, H|exact Hb1|done|done].
  - apply H.
  - intros v x Hv. cbn. unfold upd2. rewrite elem_of_cons.
    destruct (Z.eqb_spec v (lg_dev (flg s))), (Z.eqb_spec x b); subst; cbn; try (intros ?%(rp_locked _ _ _ _ _ H)); naive_solver.
  - intros j x [[= -> ->]|Hj]%elem_of_cons; [done|]. by apply Hfr, H.
  - cbn. constructor; [done|apply H].
  - intros x [->|Hx]%elem_of_cons; cbn; [|by apply H]. intros Hdt. rewrite <- (rp_view _ _ _ _ _ H). by eapply abs_clean.
Qed.

Lemma data_rep s V bs L i b : rep s V bs L -> (i, b) ∈ L -> data_of i s = Ok (V b, s).
Proof using Type.
  intros [a H] Hi. pose proof (li_abs _ _ _ _ (rp_inv _ _ _ _ _ H)) as Ha.
  destruct (holds_abs pid _ _ i _ b Ha (rp_holds _ _ _ _ _ H i b Hi)) as (x & Hx & _ & _ & _ & _ & _ & _ & Hv & _).
  unfold data_of. rewrite (bind_Ok _ _ _ _ _ (in_bio_Ok _ s _ _ (get_buf_run _ _ _ Hx))).
  mrun. f_equal. f_equal; [by rewrite <- Hv, (rp_view _ _ _ _ _ H)|]. unfold set_flog, flg. destruct s as [[? ?] ? ? ?]. done.
Qed.

(** ** Changing a block that is held *)
Lemma upd_log_rep s V bs L i b f : rep s V bs L -> (i, b) ∈ L -> home (flg s) b -> Z.of_nat (length bs) < lg_size (flg s) - 1 ->
  1 <= lg_outstanding (flg s) ->
  exists s1 s', upd_data i f s = Ok (tt, s1) /\ in_log (log_write i) s1 = Ok (tt, s') /\
    rep s' (updV V b (f (V b))) (add_block bs b) L /\ same_rest s s'.
Proof using Type.
  intros [a H] Hi Hh Hsz Hops. pose proof (rp_inv _ _ _ _ _ H) as Hinv. pose proof (li_abs _ _ _ _ Hinv) as Ha.
  destruct (upd_data_run pid _ a i _ b f (fun x => set_b_data (f (b_data x)) x) Ha (rp_holds _ _ _ _ _ H i b Hi) ltac:(done)) as (b1 & E1 & Hb1 & Hh1).
  set (s1 := set_flog (mkLst b1 (flg s)) s).
  assert (Hinv1 : linv (mkLst b1 (flg s)) (set_view (lg_dev (flg s)) b (f (a_view a (lg_dev (flg s)) b)) a) bs).
  { eapply linv_cache; [by apply linv_here, H|exact Hb1|done|done]. }
  destruct (log_write_run pid b1 (flg s) _ bs i b Hinv1) as (b2 & n & blk & E2 & Hinv2 & Hh2); try done.
  { by apply Hh1, H. }
  exists s1, (set_flog (mkLst b2 (set_lh n blk (flg s))) s). split_and!; [by apply in_bio_Ok|by apply (in_log_Ok _ s1)| |by repeat split].
  exists (set_dirty (lg_dev (flg s)) b true (set_view (lg_dev (flg s)) b (f (a_view a (lg_dev (flg s)) b)) a)).
  split; cbn [flog set_flog flg lg lb lg_dev set_lh lg_outstanding]; try done.
  - intros x. cbn. unfold upd2, updV. rewrite Z.eqb_refl. simpl. rewrite !(rp_view _ _ _ _ _ H). done.
  - intros v x Hv. cbn. by apply H.
  - intros j x Hj. apply Hh2, Hh1. by apply H.
  - apply H.
  - intros x Hx. cbn. unfold upd2, updV. rewrite Z.eqb_refl. destruct (Z.eqb_spec x b); simpl; [done|]. by apply H.
Qed.

(** ** Releasing a block *)
Lemma brelse_rep s V bs L i b : rep s V bs ((i, b) :: L) ->
  exists s', brelse_ pid i s = Ok (tt, s') /\ rep s' V bs L /\ same_rest s s'.
Proof using Type.
  intros [a H]. pose proof (rp_inv _ _ _ _ _ H) as Hinv. pose proof (li_abs _ _ _ _ Hinv) as Ha.
  assert (Hi : (i, b) ∈ (i, b) :: L) by by left.
  destruct (brelse_run pid _ a i _ b Ha (rp_holds _ _ _ _ _ H i b Hi)) as (b1 & E1 & Hb1 & Hh1).
  { intros Hdt. rewrite (rp_view _ _ _ _ _ H). apply (rp_clean _ _ _ _ _ H); [by left|done]. }
  pose proof (rp_nd _ _ _ _ _ H) as [Hn Hnd]%NoDup_cons.
  exists (set_flog (mkLst b1 (flg s)) s). split_and!; [by apply in_bio_Ok| |by repeat split].
  exists (set_locked (lg_dev (flg s)) b false a). split; try done; cbn [flog set_flog flg lg].
  - eapply linv_cache; [by apply linv_here, H|exact Hb1|done|done].
  - apply H.
  - intros v x Hv. cbn. unfold upd2.
    destruct (Z.eqb_spec v (lg_dev (flg s))), (Z.eqb_spec x b); subst; cbn; try done;
      intros [Hvd Hx]%(rp_locked _ _ _ _ _ H); try done; cbn in Hx; apply elem_of_cons in Hx as [?|?]; done.
  - intros j x Hj. apply Hh1; [apply H; by right|]. intros [= ->]. apply Hn. by apply (list_elem_of_fmap_2' snd _ (j, b)).
  - intros x Hx. cbn. apply H. by right.
Qed.
End FsRep.
