(* ===== verification/FsAlloc.v ===== *)
(** * Allocation of disk blocks

    [balloc] and [bfree] as operations on the free bit map.  A file system
    of at most [FSSIZE] blocks has one bit map block. *)

From stdpp Require Import prelude strings.
From S2P Require Import Prelude Bio BioInv BioThms Log LogThms LogCrash LogSpec Fs FsRep.

Open Scope Z_scope.

(** ** The bit map *)
Definition bit (d : block) (b : Z) : bool := Z.testbit (byte_at d (Z.to_nat (b / 8))) (b mod 8).

Lemma bit_mask_testbit b k : 0 <= k -> Z.testbit (bit_mask b) k = (k =? b mod 8).
Proof.
  intros Hk. unfold bit_mask. pose proof (Z.mod_pos_bound b 8). rewrite Z.shiftl_spec by done.
  destruct (Z.eqb_spec k (b mod 8)) as [->|Hne]; [by rewrite Z.sub_diag|].
  assert (Hd : k - b mod 8 <> 0) by lia. destruct (k - b mod 8) as [|p|p]; [done|by destruct p|done].
Qed.

Lemma bit_clear_spec d b : bit_clear d b = negb (bit d b).
Proof.
  unfold bit_clear, bit. set (x := byte_at d (Z.to_nat (b / 8))). pose proof (Z.mod_pos_bound b 8) as Hb.
  assert (E : Z.land x (bit_mask b) = 0 <-> Z.testbit x (b mod 8) = false).
  { split.
    - intros H. apply (f_equal (fun z => Z.testbit z (b mod 8))) in H. rewrite Z.land_spec, bit_mask_testbit, Z.eqb_refl, Z.bits_0, andb_true_r in H by lia. done.
    - intros H. apply Z.bits_inj. intros k. rewrite Z.land_spec, Z.bits_0. destruct (decide (k < 0)); [by rewrite Z.testbit_neg_r by lia|].
      rewrite bit_mask_testbit by lia. destruct (Z.eqb_spec k (b mod 8)) as [->|]; [by rewrite H|by rewrite andb_false_r]. }
  destruct (Z.eqb_spec (Z.land x (bit_mask b)) 0) as [H|H], (Z.testbit x (b mod 8)); simpl; naive_solver.
Qed.

Lemma div_mod_8 a b : 0 <= a -> 0 <= b -> Z.to_nat (a / 8) = Z.to_nat (b / 8) -> a mod 8 = b mod 8 -> a = b.
Proof. intros Ha Hb E1 E2. pose proof (Z.div_mod a 8). pose proof (Z.div_mod b 8). pose proof (Z.div_pos a 8). pose proof (Z.div_pos b 8). lia. Qed.

Definition bit_in (d : block) (b : Z) : Prop := 0 <= b /\ (Z.to_nat (b / 8) < length d)%nat.

Lemma set_bit_spec d b c : bit_in d b -> 0 <= c -> bit (set_bit d b) c = if c =? b then true else bit d c.
Proof.
  intros [Hb Hl] Hc. unfold bit, set_bit. rewrite (LogThms.byte_at_insert d).
  pose proof (Z.mod_pos_bound c 8) as Hc8. destruct (decide _) as [[E _]|Hn].
  - rewrite Z.lor_spec, bit_mask_testbit by lia. destruct (Z.eqb_spec c b) as [->|Hne]; [by rewrite Z.eqb_refl, orb_true_r|].
    destruct (Z.eqb_spec (c mod 8) (b mod 8)) as [E'|]; [|by rewrite orb_false_r, E]. destruct Hne. symmetry. by apply div_mod_8.
  - destruct (Z.eqb_spec c b) as [->|]; [|done]. destruct Hn. done.
Qed.

Lemma clear_bit_spec d b c : bit_in d b -> 0 <= c -> bit (clear_bit d b) c = if c =? b then false else bit d c.
Proof.
  intros [Hb Hl] Hc. unfold bit, clear_bit. rewrite (LogThms.byte_at_insert d).
  pose proof (Z.mod_pos_bound c 8) as Hc8. destruct (decide _) as [[E _]|Hn].
  - rewrite Z.land_spec, Z.lnot_spec, bit_mask_testbit by lia. destruct (Z.eqb_spec c b) as [->|Hne]; [by rewrite Z.eqb_refl, andb_false_r|].
    destruct (Z.eqb_spec (c mod 8) (b mod 8)) as [E'|]; [|by rewrite andb_true_r, E]. destruct Hne. symmetry. by apply div_mod_8.
  - destruct (Z.eqb_spec c b) as [->|]; [|done]. destruct Hn. done.
Qed.

(** The inner loop of [balloc] finds the first free block. *)
Lemma free_bit_spec d b size n : forall bi,
  match free_bit d b size n bi with
  | Some k => bi <= k < bi + Z.of_nat n /\ b + k < size /\ bit d k = false /\ forall j, bi <= j < k -> bit d j = true
  | None => forall j, bi <= j < bi + Z.of_nat n -> b + j < size -> bit d j = true
  end.
Proof.
  induction n as [|n IH]; intros bi; cbn [free_bit]; [lia|].
  destruct (Z.leb_spec size (b + bi)); [intros; lia|]. rewrite bit_clear_spec. destruct (bit d bi) eqn:E; cbn [negb].
  - specialize (IH (bi + 1)). destruct (free_bit d b size n (bi + 1)) as [k|].
    + destruct IH as (H1 & H2 & H3 & H4). split_and!; [lia|lia|done|done|]. intros j Hj. destruct (decide (j = bi)) as [->|]; [done|]. apply H4. lia.
    + intros j Hj Hs. destruct (decide (j = bi)) as [->|]; [done|]. apply IH; lia.
  - split_and!; try done; intros; lia.
Qed.

(** ** Geometry *)
Record geo (s : fsst) : Prop := {
  g_size : sb_size (fsb s) <= FSSIZE;
  g_inode : lg_start (flg s) + lg_size (flg s) <= sb_inodestart (fsb s);
  g_ninodes : 0 <= sb_ninodes (fsb s);
  g_bmap : sb_inodestart (fsb s) + sb_ninodes (fsb s) / IPB + 1 <= sb_bmapstart (fsb s);
  g_data : sb_bmapstart (fsb s) + 1 < sb_size (fsb s);
  g_log : lwf (flg s)
}.

Lemma geo_same s s' : same_env s s' -> lwf (flg s') -> geo s -> geo s'.
Proof. intros [E2 E3 E4 E5 E6 E7] Hl []. split; rewrite ?E2, ?E5, ?E6; done. Qed.

Lemma geo_home s b : geo s -> sb_inodestart (fsb s) <= b < sb_size (fsb s) -> home (flg s) b.
Proof. intros [G1 G2 G3 G4 G5 G6] Hb. destruct G6. unfold home. lia. Qed.

Lemma rep_lwf pid s V bs L : rep pid s V bs L -> lwf (flg s).
Proof. intros [a H]. apply (li_wf _ _ _ _ (rp_inv _ _ _ _ _ _ H)). Qed.

(** A running operation, with room in the log for [n] more changed blocks
    or held buffers. *)
Definition space (s : fsst) (bs : list Z) (n : nat) : Prop :=
  Z.of_nat (length bs + n) < lg_size (flg s) /\ 1 <= lg_outstanding (flg s).

Lemma space_le s bs n m : space s bs n -> (m <= n)%nat -> space s bs m.
Proof. unfold space. lia. Qed.

Lemma add_block_length bs b : (length (add_block bs b) <= S (length bs))%nat.
Proof. unfold add_block. case_decide; rewrite ?length_app; simpl; lia. Qed.

Lemma space_add s s' bs b n : space s bs (S n) -> same_env s s' -> space s' (add_block bs b) n.
Proof. unfold space. intros H S. rewrite (sr_size _ _ S), (sr_ops _ _ S). pose proof (add_block_length bs b). lia. Qed.

Lemma space_same s s' bs n : space s bs n -> same_env s s' -> space s' bs n.
Proof. unfold space. intros H S. by rewrite (sr_size _ _ S), (sr_ops _ _ S). Qed.

Section Alloc.
Context (pid : Z).

Notation rep := (rep pid).

(** ** Read, modify, log, release *)
Lemma rmw_run s V bs L b f : rep s V bs L -> home (flg s) b -> b ∉ L.*2 -> space s bs (S (length L)) ->
  exists s', (bp ← bread_ pid (lg_dev (flg s)) b; upd_data bp f;; in_log (log_write bp);; brelse_ pid bp) s = Ok (tt, s') /\
    rep s' (updV V b (f (V b))) (add_block bs b) L /\ same_rest s s'.
Proof using Type.
  intros H Hh Hb Hsp. pose proof (rep_lwf _ _ _ _ _ H) as Hl. pose proof (lw_size _ Hl) as Hz. unfold space in Hsp.
  destruct (bread_rep pid s V bs L b H) as (i & s1 & E1 & H1 & S1); [unfold home in Hh; lia|done|unfold NBUF, LOGSIZE, MAXOPBLOCKS in *; lia|].
  rewrite (bind_Ok _ _ _ _ _ E1).
  destruct (upd_log_rep pid s1 V bs ((i, b) :: L) i b f H1) as (s2 & s3 & E2 & E3 & H3 & S3).
  { by left. }
  { unfold home in *. by rewrite (sr_start _ _ S1), (sr_size _ _ S1). }
  { rewrite (sr_size _ _ S1). lia. }
  { rewrite (sr_ops _ _ S1). lia. }
  rewrite (bind_Ok _ _ _ _ _ E2), (bind_Ok _ _ _ _ _ E3).
  destruct (brelse_rep pid s3 _ _ L i b H3) as (s4 & E4 & H4 & S4). exists s4. split_and!; [done|done|]. by etrans; [|etrans].
Qed.

Lemma bzero_run s V bs L b : rep s V bs L -> home (flg s) b -> b ∉ L.*2 -> space s bs (S (length L)) ->
  exists s', bzero pid (lg_dev (flg s)) b s = Ok (tt, s') /\ rep s' (updV V b zero_block) (add_block bs b) L /\ same_rest s s'.
Proof using Type. intros H Hh Hb Hsp. apply (rmw_run s V bs L b (fun _ => zero_block)); done. Qed.

(** ** balloc and bfree *)
Definition bmb (s : fsst) : Z := sb_bmapstart (fsb s).

Lemma geo_facts s : geo s -> 2 < sb_inodestart (fsb s) < bmb s /\ bmb s + 1 < sb_size (fsb s) <= FSSIZE.
Proof using Type.
  intros [G1 G2 G3 G4 G5 G6]. destruct G6. assert (0 <= sb_ninodes (fsb s) / IPB) by (apply Z.div_pos; [done|cbv; done]).
  unfold bmb. lia.
Qed.

Lemma one_bitmap s b : geo s -> 0 <= b < sb_size (fsb s) -> BBLOCK b (fsb s) = bmb s.
Proof using Type.
  intros G Hb. unfold BBLOCK. destruct (geo_facts s G) as [H1 H2]. unfold bmb, FSSIZE in *.
  rewrite Z.div_small by (unfold BPB, BSIZE; lia). apply u32_small. lia.
Qed.

Lemma one_pass s : geo s -> multiples BPB (sb_size (fsb s)) = [0].
Proof using Type.
  intros G. unfold multiples. destruct (geo_facts s G) as [H1 H2]. unfold FSSIZE, BPB, BSIZE in *.
  replace ((sb_size (fsb s) + 512 * 8 - 1) / (512 * 8)) with 1; [done|]. apply Z.div_unique with (sb_size (fsb s) - 1); lia.
Qed.

Lemma bmb_home s : geo s -> home (flg s) (bmb s).
Proof using Type.
  intros G. apply geo_home; [done|]. destruct (geo_facts s G). lia.
Qed.

(** The bit map marks the blocks before the data as used. *)
Record bitmap_ok (s : fsst) (d : block) : Prop := {
  bm_len : length d = Z.to_nat BSIZE;
  bm_meta : forall b, 0 <= b <= bmb s -> bit d b = true
}.

Lemma bit_in_map s d b : geo s -> length d = Z.to_nat BSIZE -> 0 <= b < sb_size (fsb s) -> bit_in d b.
Proof using Type.
  intros G Hd Hb. split; [lia|]. rewrite Hd. pose proof (g_size s G). unfold FSSIZE, BSIZE in *.
  assert (b / 8 < 512) by (apply Z.div_lt_upper_bound; lia). assert (0 <= b / 8) by (apply Z.div_pos; lia). lia.
Qed.

(** What allocating [b] does to the blocks. *)
Definition alloc_view (s : fsst) (V : Z -> block) (b : Z) : Z -> block :=
  updV (updV V (bmb s) (set_bit (V (bmb s)) b)) b zero_block.

Lemma balloc_run s V bs L : geo s -> rep s V bs L -> bitmap_ok s (V (bmb s)) -> bmb s ∉ L.*2 ->
  (forall b, b ∈ L.*2 -> bit (V (bmb s)) b = true) -> space s bs (2 + length L) ->
  (exists b, 0 <= b < sb_size (fsb s) /\ bit (V (bmb s)) b = false) ->
  exists b s', balloc pid (lg_dev (flg s)) s = Ok (b, s') /\ bmb s < b < sb_size (fsb s) /\ bit (V (bmb s)) b = false /\
    rep s' (alloc_view s V b) (add_block (add_block bs (bmb s)) b) L /\ same_rest s s'.
Proof using Type.
  intros G H Hbm Hn HL Hsp Hex. pose proof (bmb_home s G) as Hh. pose proof (rep_lwf _ _ _ _ _ H) as Hl. pose proof (lw_size _ Hl) as Hz.
  destruct (bread_rep pid s V bs L (bmb s) H) as (i & s1 & E1 & H1 & S1); [unfold home in Hh; lia|done|unfold space, NBUF, LOGSIZE, MAXOPBLOCKS in *; lia|].
  pose proof (free_bit_spec (V (bmb s)) 0 (sb_size (fsb s)) (Z.to_nat BPB) 0) as Hf.
  assert (HB : 0 < sb_size (fsb s) <= Z.of_nat (Z.to_nat BPB)).
  { pose proof (g_size s G). destruct Hex as (b & Hb & _). unfold FSSIZE, BPB, BSIZE in *. lia. }
  destruct (free_bit (V (bmb s)) 0 (sb_size (fsb s)) (Z.to_nat BPB) 0) as [b|] eqn:Ef; last first.
  { exfalso. destruct Hex as (b & Hb & Hc). rewrite Hf in Hc; [done|lia|lia]. }
  destruct Hf as (Hb1 & Hb2 & Hb3 & _).
  assert (Hbb : bmb s < b). { destruct (decide (b <= bmb s)); [|lia]. rewrite (bm_meta _ _ Hbm) in Hb3; [done|lia]. }
  destruct (upd_log_rep pid s1 V bs ((i, bmb s) :: L) i (bmb s) (fun d => set_bit d b) H1) as (s2 & s3 & E2 & E3 & H3 & S3).
  { by left. }
  { unfold home in *. by rewrite (sr_start _ _ S1), (sr_size _ _ S1). }
  { rewrite (sr_size _ _ S1). unfold space in Hsp. lia. }
  { rewrite (sr_ops _ _ S1). apply Hsp. }
  destruct (brelse_rep pid s3 _ _ L i (bmb s) H3) as (s4 & E4 & H4 & S4).
  assert (S14 : same_rest s s4) by (by etrans; [|etrans]).
  assert (Hhb : home (flg s) b) by (apply geo_home; [done|]; destruct (geo_facts s G); lia).
  destruct (bzero_run s4 _ _ L b H4) as (s5 & E5 & H5 & S5).
  { unfold home in *. by rewrite (sr_start _ _ S14), (sr_size _ _ S14). }
  { intros Hin. apply HL in Hin. congruence. }
  { eapply space_add; [|apply S14]. done. }
  rewrite (sr_dev _ _ S14) in E5.
  exists b, s5. split_and!; [|done|lia|done|done|by etrans].
  unfold balloc. rewrite (bind_Ok _ _ _ _ _ eq_refl), (one_pass s G). cbn [for_until].
  rewrite (bind_Ok _ _ _ (Some b) s5); [done|]. rewrite (bind_Ok _ _ _ (Some b) s5); [done|].
  unfold balloc_body. rewrite (bind_Ok _ _ _ _ _ eq_refl), (one_bitmap s 0 G) by lia.
  rewrite (bind_Ok _ _ _ _ _ E1), (bind_Ok _ _ _ _ _ (data_rep pid s1 V _ _ i (bmb s) H1 ltac:(by left))), Ef.
  rewrite (bind_Ok _ _ _ _ _ E2), (bind_Ok _ _ _ _ _ E3), (bind_Ok _ _ _ _ _ E4). cbn [Z.add]. by rewrite (bind_Ok _ _ _ _ _ E5).
Qed.

Lemma balloc_full s V bs : geo s -> rep s V bs [] -> space s bs 0 -> (forall b, 0 <= b < sb_size (fsb s) -> bit (V (bmb s)) b = true) ->
  balloc pid (lg_dev (flg s)) s = Panic "balloc: out of blocks".
Proof using Type.
  intros G H Hsp Hall. pose proof (bmb_home s G) as Hh. pose proof (rep_lwf _ _ _ _ _ H) as Hl. pose proof (lw_size _ Hl) as Hz.
  destruct (bread_rep pid s V bs [] (bmb s) H) as (i & s1 & E1 & H1 & S1);
    [unfold home in Hh; lia|by apply not_elem_of_nil|unfold space, NBUF, LOGSIZE, MAXOPBLOCKS in *; simpl; lia|].
  pose proof (free_bit_spec (V (bmb s)) 0 (sb_size (fsb s)) (Z.to_nat BPB) 0) as Hf.
  destruct (free_bit (V (bmb s)) 0 (sb_size (fsb s)) (Z.to_nat BPB) 0) as [b|] eqn:Ef.
  { destruct Hf as (Hb1 & Hb2 & Hb3 & _). rewrite Hall in Hb3; [done|lia]. }
  destruct (brelse_rep pid s1 _ _ [] i (bmb s) H1) as (s4 & E4 & H4 & S4).
  unfold balloc. rewrite (bind_Ok _ _ _ _ _ eq_refl), (one_pass s G). cbn [for_until].
  rewrite (bind_Ok _ _ _ None s4); [done|]. rewrite (bind_Ok _ _ _ None s4); [done|].
  unfold balloc_body. rewrite (bind_Ok _ _ _ _ _ eq_refl), (one_bitmap s 0 G) by (destruct (geo_facts s G); lia).
  rewrite (bind_Ok _ _ _ _ _ E1), (bind_Ok _ _ _ _ _ (data_rep pid s1 V _ _ i (bmb s) H1 ltac:(by left))), Ef.
  by rewrite (bind_Ok _ _ _ _ _ E4).
Qed.

Lemma bfree_run s V bs L b : geo s -> rep s V bs L -> bmb s ∉ L.*2 -> space s bs (1 + length L) -> 0 <= b < sb_size (fsb s) ->
  bit (V (bmb s)) b = true ->
  exists s', bfree pid (lg_dev (flg s)) b s = Ok (tt, s') /\
    rep s' (updV V (bmb s) (clear_bit (V (bmb s)) b)) (add_block bs (bmb s)) L /\ same_rest s s'.
Proof using Type.
  intros G H Hn Hsp Hb Hbit. pose proof (bmb_home s G) as Hh. pose proof (rep_lwf _ _ _ _ _ H) as Hl. pose proof (lw_size _ Hl) as Hz.
  destruct (bread_rep pid s V bs L (bmb s) H) as (i & s1 & E1 & H1 & S1); [unfold home in Hh; lia|done|unfold space, NBUF, LOGSIZE, MAXOPBLOCKS in *; lia|].
  destruct (upd_log_rep pid s1 V bs ((i, bmb s) :: L) i (bmb s) (fun d => clear_bit d b) H1) as (s2 & s3 & E2 & E3 & H3 & S3).
  { by left. }
  { unfold home in *. by rewrite (sr_start _ _ S1), (sr_size _ _ S1). }
  { rewrite (sr_size _ _ S1). unfold space in Hsp. lia. }
  { rewrite (sr_ops _ _ S1). apply Hsp. }
  destruct (brelse_rep pid s3 _ _ L i (bmb s) H3) as (s4 & E4 & H4 & S4).
  exists s4. split_and!; [|done|by etrans; [|etrans]].
  unfold bfree. rewrite (bind_Ok _ _ _ _ _ eq_refl), (one_bitmap s b G) by done.
  rewrite (bind_Ok _ _ _ _ _ E1), (bind_Ok _ _ _ _ _ (data_rep pid s1 V _ _ i (bmb s) H1 ltac:(by left))).
  assert (E : b mod BPB = b). { apply Z.mod_small. pose proof (g_size s G). unfold FSSIZE, BPB, BSIZE in *. lia. }
  rewrite E, bit_clear_spec, Hbit. cbn [negb]. by rewrite (bind_Ok _ _ _ _ _ E2), (bind_Ok _ _ _ _ _ E3).
Qed.

Lemma bfree_free s V bs b : geo s -> rep s V bs [] -> space s bs 0 -> 0 <= b < sb_size (fsb s) -> bit (V (bmb s)) b = false ->
  bfree pid (lg_dev (flg s)) b s = Panic "freeing free block".
Proof using Type.
  intros G H Hsp Hb Hbit. pose proof (bmb_home s G) as Hh. pose proof (rep_lwf _ _ _ _ _ H) as Hl. pose proof (lw_size _ Hl) as Hz.
  destruct (bread_rep pid s V bs [] (bmb s) H) as (i & s1 & E1 & H1 & S1);
    [unfold home in Hh; lia|by apply not_elem_of_nil|unfold space, NBUF, LOGSIZE, MAXOPBLOCKS in *; simpl; lia|].
  unfold bfree. rewrite (bind_Ok _ _ _ _ _ eq_refl), (one_bitmap s b G) by done.
  rewrite (bind_Ok _ _ _ _ _ E1), (bind_Ok _ _ _ _ _ (data_rep pid s1 V _ _ i (bmb s) H1 ltac:(by left))).
  assert (E : b mod BPB = b). { apply Z.mod_small. pose proof (g_size s G). unfold FSSIZE, BPB, BSIZE in *. lia. }
  by rewrite E, bit_clear_spec, Hbit.
Qed.
End Alloc.
