(* ===== verification/FsFile.v ===== *)
(** * Files: [bmap], [readi] and [writei] on the content of an inode

    [fblock V d bn] is the disk block of block [bn] of the file with inode
    [d], 0 when there is none; [fbyte V d k] is byte [k] of the file.  The
    lemmas say what the operations do to [fbyte], and that they leave every
    other used block alone. *)

From stdpp Require Import prelude strings.
From S2P Require Import Prelude Bio BioInv BioThms Log LogThms LogCrash LogSpec Fs Dir FsRep FsAlloc.

Open Scope Z_scope.

(** ** The blocks of a file *)
Definition addr_at (d : dinode) (k : nat) : Z := default 0 (di_addrs d !! k).

Definition fblock (V : Z -> block) (d : dinode) (bn : Z) : Z :=
  if bn <? Z.of_nat NDIRECT then addr_at d (Z.to_nat bn)
  else if addr_at d NDIRECT =? 0 then 0
  else get32 (V (addr_at d NDIRECT)) (Z.to_nat (bn - Z.of_nat NDIRECT)).

Definition fbyte (V : Z -> block) (d : dinode) (k : Z) : Z :=
  if fblock V d (k / BSIZE) =? 0 then 0 else byte_at (V (fblock V d (k / BSIZE))) (Z.to_nat (k mod BSIZE)).

Definition blocks_ok (V : Z -> block) : Prop := forall b, length (V b) = Z.to_nat BSIZE.

(** A data block in use. *)
Definition data_block (s : fsst) (V : Z -> block) (a : Z) : Prop :=
  bmb s < a < sb_size (fsb s) /\ bit (V (bmb s)) a = true.

Record inode_ok (s : fsst) (V : Z -> block) (d : dinode) : Prop := {
  io_addrs : length (di_addrs d) = S NDIRECT;
  io_ind : addr_at d NDIRECT <> 0 -> data_block s V (addr_at d NDIRECT);
  io_data : forall bn, 0 <= bn < MAXFILE -> fblock V d bn <> 0 ->
    data_block s V (fblock V d bn) /\ fblock V d bn <> addr_at d NDIRECT;
  io_inj : forall bn bm, 0 <= bn < MAXFILE -> 0 <= bm < MAXFILE -> fblock V d bn <> 0 ->
    fblock V d bn = fblock V d bm -> bn = bm
}.

(** ** Counting free blocks *)
Lemma count_ext {A} (P Q : A -> bool) l : (forall x, x ∈ l -> P x = Q x) -> count P l = count Q l.
Proof.
  induction l as [|c l IH]; intros H; [done|]. rewrite !count_cons, IH by (intros; apply H; by right). by rewrite H by by left.
Qed.

Lemma count_flip {A} (P Q : A -> bool) l b : NoDup l -> b ∈ l -> P b = true -> Q b = false ->
  (forall x, x <> b -> P x = Q x) -> count P l = S (count Q l).
Proof.
  intros Hnd Hb HP HQ Hx. induction l as [|c l IH]; [by apply elem_of_nil in Hb|]. apply NoDup_cons in Hnd as [Hc Hnd].
  rewrite !count_cons. apply elem_of_cons in Hb as [->|Hb].
  - rewrite HP, HQ. simpl. f_equal. apply count_ext. intros x Hin. apply Hx. by intros ->.
  - rewrite IH, (Hx c) by (try done; by intros ->). lia.
Qed.

Definition nfree (s : fsst) (V : Z -> block) : nat := count (fun b => negb (bit (V (bmb s)) b)) (seqZ 0 (sb_size (fsb s))).

Lemma nfree_pos s V : (0 < nfree s V)%nat -> exists b, 0 <= b < sb_size (fsb s) /\ bit (V (bmb s)) b = false.
Proof.
  intros (i & b & Hi & Hb)%count_pos. apply list_elem_of_lookup_2, elem_of_seqZ in Hi. exists b. split; [lia|]. by apply negb_true_iff.
Qed.

Lemma nfree_same s s' V V' : fsb s' = fsb s -> V' (bmb s) = V (bmb s) -> nfree s' V' = nfree s V.
Proof. intros E1 E2. unfold nfree, bmb in *. by rewrite E1, E2. Qed.

Lemma nfree_alloc s V b : geo s -> length (V (bmb s)) = Z.to_nat BSIZE -> bmb s < b < sb_size (fsb s) -> bit (V (bmb s)) b = false ->
  nfree s V = S (nfree s (alloc_view s V b)).
Proof.
  intros G Hl Hb Hbit. destruct (geo_facts s G). unfold nfree, alloc_view. rewrite updV_ne, updV_eq by lia.
  rewrite (count_ext (fun c => negb (bit (set_bit (V (bmb s)) b) c)) (fun c => negb (if c =? b then true else bit (V (bmb s)) c))).
  - apply (count_flip _ _ _ b); [apply NoDup_seqZ|apply elem_of_seqZ; lia|by rewrite Hbit|by rewrite Z.eqb_refl|].
    intros x Hx. by destruct (Z.eqb_spec x b).
  - intros c Hc%elem_of_seqZ. rewrite set_bit_spec; [done|apply (bit_in_map s); [done|done|lia]|lia].
Qed.

(** ** The state of the file system around one inode *)
Section File.
Context (pid : Z).

Notation rep := (rep pid).

Record fstate (s : fsst) (V : Z -> block) (bs : list Z) (ip : nat) (x : inode) : Prop := {
  fs_geo : geo s;
  fs_rep : rep s V bs [];
  fs_blocks : blocks_ok V;
  fs_bm : bitmap_ok s (V (bmb s));
  fs_ip : icache s !! ip = Some x;
  fs_dev : i_dev x = lg_dev (flg s);
  fs_ok : inode_ok s V (i_d x)
}.

(** The blocks of a file. *)
Definition owns (V : Z -> block) (d : dinode) (b : Z) : Prop :=
  addr_at d NDIRECT = b \/ exists bn, 0 <= bn < MAXFILE /\ fblock V d bn = b.

(** A used block that is not part of the file, nor the bit map, stays so and
    keeps its content. *)
Definition others (s : fsst) (V V' : Z -> block) (d d' : dinode) : Prop :=
  forall b, 0 < b -> bmb s <> b -> bit (V (bmb s)) b = true -> ~ owns V d b ->
    bit (V' (bmb s)) b = true /\ V' b = V b /\ ~ owns V' d' b.

Lemma others_refl s V d : others s V V d d.
Proof using Type. by intros b. Qed.

Lemma others_trans s V1 V2 V3 d1 d2 d3 : others s V1 V2 d1 d2 -> others s V2 V3 d2 d3 -> others s V1 V3 d1 d3.
Proof using Type.
  intros H1 H2 b Hb Hne Hbit Ho. destruct (H1 b Hb Hne Hbit Ho) as (A1 & A2 & A3). destruct (H2 b Hb Hne A1 A3) as (B1 & B2 & B3).
  split_and!; [done|congruence|done].
Qed.

(** Allocating a block. *)
Lemma balloc_fresh s V bs L : geo s -> rep s V bs L -> blocks_ok V -> bitmap_ok s (V (bmb s)) -> bmb s ∉ L.*2 ->
  (forall b, b ∈ L.*2 -> bit (V (bmb s)) b = true) -> space s bs (2 + length L) -> (0 < nfree s V)%nat ->
  exists a s' bs', balloc pid (lg_dev (flg s)) s = Ok (a, s') /\ bmb s < a < sb_size (fsb s) /\ bit (V (bmb s)) a = false /\
    rep s' (alloc_view s V a) bs' L /\ same_rest s s' /\ (length bs' <= 2 + length bs)%nat /\
    blocks_ok (alloc_view s V a) /\ bitmap_ok s (alloc_view s V a (bmb s)) /\ nfree s V = S (nfree s (alloc_view s V a)) /\
    (forall b, 0 <= b -> bit (alloc_view s V a (bmb s)) b = if b =? a then true else bit (V (bmb s)) b) /\
    (forall b, b ∈ bs' -> b ∈ bs \/ b = bmb s \/ b = a).
Proof using Type.
  intros G H Hb Hbm Hn HL Hsp Hf.
  destruct (balloc_run pid s V bs L G H Hbm Hn HL Hsp (nfree_pos s V Hf)) as (a & s' & E & Ha & Hbit & H' & S).
  assert (Hbits : forall b, 0 <= b -> bit (alloc_view s V a (bmb s)) b = if b =? a then true else bit (V (bmb s)) b).
  { intros b Hb0. unfold alloc_view. rewrite updV_ne, updV_eq by lia. destruct (geo_facts s G). apply set_bit_spec; [|done]. apply (bit_in_map s); [done|apply Hb|lia]. }
  exists a, s', (add_block (add_block bs (bmb s)) a). split_and!; try done; try apply Ha.
  - pose proof (add_block_length bs (bmb s)). pose proof (add_block_length (add_block bs (bmb s)) a). lia.
  - intros b. unfold alloc_view, updV. destruct (Z.eqb_spec b a); [done|]. destruct (Z.eqb_spec b (bmb s)); [|done]. unfold set_bit. rewrite length_insert. apply Hb.
  - split.
    + unfold alloc_view. rewrite updV_ne, updV_eq by lia. unfold set_bit. rewrite length_insert. apply Hb.
    + intros b Hb'. rewrite Hbits by lia. destruct (b =? a); [done|]. by apply Hbm.
  - apply nfree_alloc; [done|apply Hb|done|done].
  - intros b [[Hin| ->]%add_block_elem| ->]%add_block_elem; auto.
Qed.

(** ** Attaching a fresh block to a file *)
Lemma zero_byte i : byte_at zero_block i = 0.
Proof using Type.
  unfold byte_at. destruct (zero_block !! i) as [z|] eqn:E; [|done]. unfold zero_block in E. apply lookup_replicate in E as [-> _]. done.
Qed.

Lemma zero_word i : get32 zero_block i = 0.
Proof using Type. unfold get32. by rewrite !zero_byte. Qed.

(** [d'] and [V'] differ from [d] and [V] in that block [bn], which was a
    hole, is now the fresh zero block [a]. *)
Record attached (s : fsst) (V V' : Z -> block) (d d' : dinode) (bn a : Z) : Prop := {
  at_fresh : bmb s < a < sb_size (fsb s) /\ bit (V (bmb s)) a = false;
  at_hole : fblock V d bn = 0;
  at_addrs : length (di_addrs d') = length (di_addrs d);
  at_ind : addr_at d' NDIRECT = addr_at d NDIRECT;
  at_block : forall bm, 0 <= bm < MAXFILE -> fblock V' d' bm = if bm =? bn then a else fblock V d bm;
  at_bits : forall b, 0 <= b -> bit (V' (bmb s)) b = if b =? a then true else bit (V (bmb s)) b;
  at_zero : V' a = zero_block;
  at_same : forall b, b <> a -> b <> bmb s -> b <> addr_at d NDIRECT -> V' b = V b
}.

Lemma attached_ok s V V' d d' bn a : geo s -> attached s V V' d d' bn a -> inode_ok s V d -> inode_ok s V' d'.
Proof using Type.
  intros G [Hf Hh Hl Hi Hb Hbits Hz Hs] [I1 I2 I3 I4]. destruct (geo_facts s G) as [G1 G2].
  assert (Hkeep : forall c, data_block s V c -> data_block s V' c /\ c <> a).
  { intros c [Hc Hbc]. split; [|intros ->; naive_solver congruence]. split; [done|]. rewrite Hbits by lia. by destruct (c =? a). }
  assert (Hnew : data_block s V' a) by (split; [apply Hf|]; rewrite Hbits, Z.eqb_refl by lia; done).
  split.
  - congruence.
  - rewrite Hi. intros H. by apply Hkeep, I2.
  - intros bm Hbm. rewrite (Hb bm Hbm), Hi. destruct (bm =? bn).
    + intros _. split; [done|]. intros ->. destruct (decide (addr_at d NDIRECT = 0)) as [E|E]; [lia|]. by destruct (Hkeep _ (I2 E)).
    + intros H. destruct (I3 bm Hbm H). split; [by apply Hkeep|done].
  - intros bm bk Hbm Hbk. rewrite (Hb bm Hbm), (Hb bk Hbk). destruct (Z.eqb_spec bm bn) as [->|], (Z.eqb_spec bk bn) as [->|]; try done.
    + intros _ E. destruct (decide (fblock V d bk = 0)); [lia|]. destruct (I3 bk Hbk) as [H _]; [done|]. apply Hkeep in H as [_ H]. congruence.
    + intros H E. destruct (I3 bm Hbm H) as [H' _]. apply Hkeep in H' as [_ H']. congruence.
    + by apply I4.
Qed.

Lemma attached_byte s V V' d d' bn a k : geo s -> attached s V V' d d' bn a -> inode_ok s V d -> 0 <= k < MAXFILE * BSIZE ->
  fbyte V' d' k = fbyte V d k.
Proof using Type.
  intros G [Hf Hh Hl Hi Hb Hbits Hz Hs] [I1 I2 I3 I4] Hk. destruct (geo_facts s G) as [G1 G2].
  assert (Hbk : 0 <= k / BSIZE < MAXFILE). { split; [apply Z.div_pos; [lia|cbv; done]|apply Z.div_lt_upper_bound; [cbv; done|lia]]. }
  unfold fbyte. rewrite (Hb _ Hbk). destruct (Z.eqb_spec (k / BSIZE) bn) as [E|E].
  - rewrite E, Hh. destruct (Z.eqb_spec a 0); [lia|]. simpl. by rewrite Hz, zero_byte.
  - destruct (Z.eqb_spec (fblock V d (k / BSIZE)) 0); [done|]. destruct (I3 _ Hbk) as [[Hr Hbit] Hni]; [done|]. rewrite Hs; [done|..]; [|lia|done].
    intros E'. rewrite E' in Hbit. naive_solver congruence.
Qed.

Lemma attached_others s V V' d d' bn a : geo s -> attached s V V' d d' bn a -> others s V V' d d'.
Proof using Type.
  intros G [Hf Hh Hl Hi Hb Hbits Hz Hs] b Hb0 Hne Hbit Ho.
  assert (Hba : b <> a) by (intros ->; naive_solver congruence).
  split_and!.
  - rewrite Hbits by lia. by destruct (b =? a).
  - apply Hs; [done|congruence|]. intros ->. apply Ho. by left.
  - intros [H|(bm & Hbm & H)].
    + apply Ho. left. congruence.
    + rewrite (Hb bm Hbm) in H. destruct (bm =? bn); [congruence|]. apply Ho. right. eauto.
Qed.

(** The three places a fresh block goes to. *)
Lemma addr_at_set d k a j : (k < length (di_addrs d))%nat -> addr_at (set_addr k a d) j = if decide (j = k) then a else addr_at d j.
Proof using Type.
  intros Hk. unfold addr_at, set_addr. cbn. case_decide as E; [subst; by rewrite list_lookup_insert_eq|]. by rewrite list_lookup_insert_ne by done.
Qed.

Lemma alloc_view_other s V a b : b <> a -> b <> bmb s -> alloc_view s V a b = V b.
Proof using Type. intros H1 H2. unfold alloc_view. by rewrite !updV_ne. Qed.

Lemma alloc_view_zero s V a : alloc_view s V a a = zero_block.
Proof using Type. apply updV_eq. Qed.

Section Fresh.
Context (s : fsst) (V : Z -> block) (d : dinode) (a : Z).
Hypothesis G : geo s.
Hypothesis Hok : inode_ok s V d.
Hypothesis Hr : bmb s < a < sb_size (fsb s).
Hypothesis Hbit : bit (V (bmb s)) a = false.
Hypothesis Hbits : forall b, 0 <= b -> bit (alloc_view s V a (bmb s)) b = if b =? a then true else bit (V (bmb s)) b.

Lemma ind_apart : addr_at d NDIRECT <> 0 -> addr_at d NDIRECT <> a /\ addr_at d NDIRECT <> bmb s.
Proof using Hok Hr Hbit. intros H. destruct (io_ind _ _ _ Hok H) as [H1 H2]. split; [intros E; rewrite E in H2; congruence|lia]. Qed.

Lemma attach_direct k : (k < NDIRECT)%nat -> addr_at d k = 0 -> attached s V (alloc_view s V a) d (set_addr k a d) (Z.of_nat k) a.
Proof using G Hok Hr Hbit Hbits.
  intros Hk H0. assert (Hlen := io_addrs _ _ _ Hok). assert (HN : NDIRECT = 12%nat) by done.
  assert (Hi : addr_at (set_addr k a d) NDIRECT = addr_at d NDIRECT) by (rewrite addr_at_set by lia; case_decide; [lia|done]).
  split; try done.
  - unfold fblock. destruct (Z.ltb_spec (Z.of_nat k) (Z.of_nat NDIRECT)); [|lia]. by rewrite Nat2Z.id.
  - cbn. by rewrite length_insert.
  - intros bm Hbm. unfold fblock. rewrite Hi. destruct (Z.ltb_spec bm (Z.of_nat NDIRECT)).
    + rewrite addr_at_set by lia. case_decide; destruct (Z.eqb_spec bm (Z.of_nat k)); try lia; done.
    + destruct (Z.eqb_spec bm (Z.of_nat k)); [lia|]. destruct (Z.eqb_spec (addr_at d NDIRECT) 0) as [|E]; [done|].
      destruct (ind_apart E). by rewrite alloc_view_other.
  - apply alloc_view_zero.
  - intros b H1 H2 H3. by apply alloc_view_other.
Qed.

Lemma attach_entry j : (j < Z.to_nat NINDIRECT)%nat -> addr_at d NDIRECT <> 0 -> get32 (V (addr_at d NDIRECT)) j = 0 ->
  blocks_ok V -> sb_size (fsb s) < 2 ^ 32 ->
  attached s V (updV (alloc_view s V a) (addr_at d NDIRECT) (put32 (V (addr_at d NDIRECT)) j a)) d d (Z.of_nat (NDIRECT + j)) a.
Proof using G Hok Hr Hbit Hbits.
  intros Hj Hi H0 Hb H32. destruct (ind_apart Hi) as [A1 A2]. destruct (geo_facts s G) as [G1 G2].
  assert (HN : NDIRECT = 12%nat) by done. assert (HI : NINDIRECT = 128) by done.
  split; try done.
  - unfold fblock. destruct (Z.ltb_spec (Z.of_nat (NDIRECT + j)) (Z.of_nat NDIRECT)); [lia|]. destruct (Z.eqb_spec (addr_at d NDIRECT) 0); [done|].
    by replace (Z.to_nat (Z.of_nat (NDIRECT + j) - Z.of_nat NDIRECT)) with j by lia.
  - intros bm Hbm. unfold fblock. destruct (Z.ltb_spec bm (Z.of_nat NDIRECT)).
    + by destruct (Z.eqb_spec bm (Z.of_nat (NDIRECT + j))); [lia|].
    + destruct (Z.eqb_spec (addr_at d NDIRECT) 0); [done|]. rewrite updV_eq. destruct (Z.eqb_spec bm (Z.of_nat (NDIRECT + j))) as [->|].
      * replace (Z.to_nat (Z.of_nat (NDIRECT + j) - Z.of_nat NDIRECT)) with j by lia. rewrite get_put_eq by (rewrite Hb; unfold BSIZE; lia). apply u32_small. lia.
      * rewrite get_put_ne; [done|lia].
  - intros b Hb0. rewrite updV_ne by done. by apply Hbits.
  - rewrite updV_ne by done. apply alloc_view_zero.
  - intros b H1 H2 H3. rewrite updV_ne by done. by apply alloc_view_other.
Qed.

(** A fresh indirect block: no entry of it is in use. *)
Lemma attach_indirect : addr_at d NDIRECT = 0 -> let d' := set_addr NDIRECT a d in let V' := alloc_view s V a in
  inode_ok s V' d' /\ (forall bm, 0 <= bm < MAXFILE -> fblock V' d' bm = fblock V d bm) /\
  (forall k, 0 <= k < MAXFILE * BSIZE -> fbyte V' d' k = fbyte V d k) /\ others s V V' d d'.
Proof using G Hok Hr Hbit Hbits.
  intros H0 d' V'. destruct (geo_facts s G) as [G1 G2]. pose proof Hok as [I1 I2 I3 I4].
  assert (Hi : addr_at d' NDIRECT = a) by (unfold d'; rewrite addr_at_set by (rewrite I1; lia); by rewrite decide_True).
  assert (Hfb : forall bm, 0 <= bm < MAXFILE -> fblock V' d' bm = fblock V d bm).
  { intros bm Hbm. unfold fblock. rewrite Hi, H0. destruct (Z.ltb_spec bm (Z.of_nat NDIRECT)).
    - unfold d'. rewrite addr_at_set by (rewrite I1; lia). case_decide; [lia|done].
    - destruct (Z.eqb_spec a 0); [lia|]. simpl. unfold V'. by rewrite alloc_view_zero, zero_word. }
  assert (Hda : forall c, data_block s V c -> data_block s V' c /\ c <> a).
  { intros c [Hc Hbc]. split; [|intros ->; congruence]. split; [done|]. unfold V'. rewrite Hbits by lia. by destruct (c =? a). }
  split_and!; [|done|..].
  - split.
    + unfold d'. cbn. by rewrite length_insert.
    + rewrite Hi. intros _. split; [done|]. unfold V'. by rewrite Hbits, Z.eqb_refl by lia.
    + intros bm Hbm. rewrite Hfb, Hi by done. intros H. destruct (I3 bm Hbm H) as [H1 _]. by apply Hda.
    + intros bm bk Hbm Hbk. rewrite !Hfb by done. by apply I4.
  - intros k Hk. assert (Hbk : 0 <= k / BSIZE < MAXFILE). { split; [apply Z.div_pos; [lia|cbv; done]|apply Z.div_lt_upper_bound; [cbv; done|lia]]. }
    unfold fbyte. rewrite Hfb by done. destruct (Z.eqb_spec (fblock V d (k / BSIZE)) 0); [done|].
    destruct (I3 _ Hbk) as [H1 _]; [done|]. destruct (Hda _ H1) as [_ H2]. destruct H1 as [H1 _]. unfold V'. rewrite alloc_view_other; [done|done|lia].
  - intros b Hb0 Hne Hb Ho. assert (Hba : b <> a) by (intros ->; congruence). split_and!.
    + unfold V'. rewrite Hbits by lia. by destruct (b =? a).
    + apply alloc_view_other; [done|congruence].
    + intros [E|(bm & Hbm & E)]; [congruence|]. rewrite Hfb in E by done. apply Ho. right. eauto.
Qed.
End Fresh.
End File.
