(* ===== verification/FsBmap.v ===== *)
(** * [bmap]: the block of a file, allocated on demand

    [bmap] attaches at most two fresh blocks to the inode, changes no byte of
    the file and no block of another one. *)

From stdpp Require Import prelude strings.
From S2P Require Import Prelude Bio BioInv BioThms Log LogThms LogCrash LogSpec Fs Dir FsRep FsAlloc FsFile.

Open Scope Z_scope.

Lemma get_inode_run s i x : icache s !! i = Some x -> get_inode i s = Ok (x, s).
Proof. intros H. unfold get_inode. mrun. by rewrite H. Qed.

Lemma upd_inode_run s i f x : icache s !! i = Some x -> upd_inode i f s = Ok (tt, set_icache (<[i := f x]> (icache s)) s).
Proof. intros H. unfold upd_inode. by rewrite (bind_Ok _ _ _ _ _ (get_inode_run s i x H)). Qed.

Lemma icache_lookup s i x c : icache s !! i = Some x -> c = <[i := x]> (icache s) -> c = icache s.
Proof. intros H ->. by apply list_insert_id. Qed.

Section Bmap.
Context (pid : Z).

Notation rep := (rep pid).
Notation fstate := (fstate pid).

Lemma rep_icache s V bs L c : rep s V bs L -> rep (set_icache c s) V bs L.
Proof using Type. intros [a []]. by exists a. Qed.

Lemma rep_same s s' V bs L : rep s V bs L -> rep s' V bs L -> same_env s s' -> geo s -> geo s'.
Proof using Type. intros H H' S G. eapply geo_same; [exact S|by eapply rep_lwf|done]. Qed.

(** The state after a change of the inode's addresses. *)
Lemma bmb_env s s' : same_env s s' -> bmb s' = bmb s.
Proof using Type. intros S. unfold bmb. by rewrite (sr_fsb _ _ S). Qed.

Lemma inode_ok_env s s' V d : same_env s s' -> inode_ok s V d -> inode_ok s' V d.
Proof using Type.
  intros S [I1 I2 I3 I4]. pose proof (bmb_env s s' S) as Eb. pose proof (sr_fsb _ _ S) as Es.
  split; try done; unfold data_block in *; rewrite Eb, Es; done.
Qed.

Lemma bitmap_ok_env s s' d : same_env s s' -> bitmap_ok s d -> bitmap_ok s' d.
Proof using Type. intros S [B1 B2]. split; [done|]. by rewrite (bmb_env s s' S). Qed.

Lemma rep_bufs s V bs L : rep s V bs L -> (length bs < NBUF)%nat.
Proof using Type.
  intros [a H]. pose proof (rp_inv _ _ _ _ _ _ H) as Hi. pose proof (li_len _ _ _ _ Hi). pose proof (lw_size _ (li_wf _ _ _ _ Hi)).
  unfold NBUF, LOGSIZE, MAXOPBLOCKS in *. lia.
Qed.

Lemma space_bufs s V bs L n : rep s V bs L -> space s bs n -> (length bs < NBUF)%nat.
Proof using Type.
  intros H [Hs _]. pose proof (lw_size _ (rep_lwf _ _ _ _ _ H)). unfold NBUF, LOGSIZE, MAXOPBLOCKS in *. lia.
Qed.

(** ** One address of the inode *)
Record slot_new (s s' : fsst) (V : Z -> block) (bs bs' : list Z) (ip : nat) (x : inode) (k : nat) (a : Z) : Prop := {
  sn_hole : addr_at (i_d x) k = 0;
  sn_range : bmb s < a < sb_size (fsb s);
  sn_bit : bit (V (bmb s)) a = false;
  sn_bits : forall b, 0 <= b -> bit (alloc_view s V a (bmb s)) b = if b =? a then true else bit (V (bmb s)) b;
  sn_rep : rep s' (alloc_view s V a) bs' [];
  sn_blocks : blocks_ok (alloc_view s V a);
  sn_bm : bitmap_ok s (alloc_view s V a (bmb s));
  sn_icache : icache s' = <[ip := set_i_d (i_valid x) (set_addr k a (i_d x)) x]> (icache s);
  sn_env : same_env s s';
  sn_len : (length bs' <= 2 + length bs)%nat;
  sn_free : nfree s V = S (nfree s (alloc_view s V a));
  sn_log : forall b, b ∈ bs' -> b ∈ bs \/ b = bmb s \/ b = a
}.

Lemma bmap_slot_run s V bs ip x k : fstate s V bs ip x -> (k <= NDIRECT)%nat -> space s bs 2 -> (0 < nfree s V)%nat ->
  exists a s' bs', bmap_slot pid ip k s = Ok (a, s') /\
    ((addr_at (i_d x) k = a /\ a <> 0 /\ s' = s /\ bs' = bs) \/ slot_new s s' V bs bs' ip x k a).
Proof using Type.
  intros [G H Hb Hbm Hip Hdev Hok] Hk Hsp Hf. pose proof (io_addrs _ _ _ Hok) as Hl.
  destruct (lookup_lt_is_Some_2 (di_addrs (i_d x)) k) as [z Hz]; [lia|]. assert (Ez : addr_at (i_d x) k = z) by (unfold addr_at; by rewrite Hz).
  unfold bmap_slot. rewrite (bind_Ok _ _ _ _ _ (get_inode_run s ip x Hip)), Hz. rewrite (bind_Ok _ _ _ z s) by done.
  destruct (Z.eqb_spec z 0) as [->|Hz0]; [|exists z, s, bs; split; [done|by left]].
  destruct (balloc_fresh pid s V bs [] G H Hb Hbm) as (a & s1 & bs1 & E1 & Hr & Hbit & H1 & S1 & Hlen & Hb1 & Hbm1 & Hfree & Hbits & Hlog); try done.
  { apply not_elem_of_nil. }
  { intros b Hb0. by apply elem_of_nil in Hb0. }
  rewrite Hdev, (bind_Ok _ _ _ _ _ E1).
  assert (Hip1 : icache s1 !! ip = Some x) by (by rewrite (sr_icache _ _ S1)).
  unfold upd_di. rewrite (bind_Ok _ _ _ _ _ (upd_inode_run s1 ip _ x Hip1)). eexists a, _, bs1. split; [done|]. right.
  split; try done.
  - by apply rep_icache.
  - cbn. by rewrite (sr_icache _ _ S1).
  - destruct S1 as [_ []]. by split.
Qed.

(** ** bmap *)
Record bmapped (s s' : fsst) (V V' : Z -> block) (bs bs' : list Z) (ip : nat) (x x' : inode) (bn a : Z) : Prop := {
  bp_state : fstate s' V' bs' ip x';
  bp_env : same_env s s';
  bp_icache : icache s' = <[ip := x']> (icache s);
  bp_inode : x' = set_i_d (i_valid x) (set_di_addrs (di_addrs (i_d x')) (i_d x)) x;
  bp_block : fblock V' (i_d x') bn = a;
  bp_nz : a <> 0;
  bp_byte : forall k, 0 <= k < MAXFILE * BSIZE -> fbyte V' (i_d x') k = fbyte V (i_d x) k;
  bp_grow : forall bm, 0 <= bm < MAXFILE -> fblock V (i_d x) bm <> 0 -> fblock V' (i_d x') bm = fblock V (i_d x) bm;
  bp_others : others s V V' (i_d x) (i_d x');
  bp_len : (length bs' <= 5 + length bs)%nat;
  bp_free : (nfree s V <= 2 + nfree s' V')%nat;
  bp_old : fblock V (i_d x) bn <> 0 -> V' = V /\ bs' = bs /\ x' = x;
  bp_ind : addr_at (i_d x) NDIRECT <> 0 -> addr_at (i_d x') NDIRECT = addr_at (i_d x) NDIRECT;
  bp_log : forall b, b ∈ bs' -> b ∈ bs \/ b = bmb s \/ b = a \/ (b <> 0 /\ b = addr_at (i_d x') NDIRECT)
}.

Lemma bmapped_old s s' V bs ip x bn : fstate s V bs ip x -> rep s' V bs [] -> same_rest s s' -> fblock V (i_d x) bn <> 0 ->
  bmapped s s' V V bs bs ip x x bn (fblock V (i_d x) bn).
Proof using Type.
  intros [G H Hb Hbm Hip Hdev Hok] H' S Hn. pose proof (sr_icache _ _ S) as Ei. pose proof (sr_env _ _ S) as Se.
  split; try done.
  - split; [exact (rep_same _ _ _ _ _ H H' Se G)|done|done|by rewrite (bmb_env _ _ Se); eapply bitmap_ok_env|by rewrite Ei|
      by rewrite (sr_dev _ _ Se)|by eapply inode_ok_env].
  - rewrite list_insert_id; done.
  - destruct x as [? ? ? ? ? []]. done.
  - lia.
  - rewrite (nfree_same s s' V V); [lia|apply Se|done].
  - auto.
Qed.

Lemma bmapped_new s s' V V' bs bs' ip x d' bn a : geo s' -> rep s' V' bs' [] -> blocks_ok V' -> bitmap_ok s (V' (bmb s)) ->
  fstate s V bs ip x -> attached s V V' (i_d x) d' bn a -> 0 <= bn < MAXFILE -> same_env s s' ->
  icache s' = <[ip := set_i_d (i_valid x) d' x]> (icache s) -> d' = set_di_addrs (di_addrs d') (i_d x) ->
  (length bs' <= 5 + length bs)%nat -> (nfree s V <= 2 + nfree s' V')%nat ->
  (forall b, b ∈ bs' -> b ∈ bs \/ b = bmb s \/ b = a \/ (b <> 0 /\ b = addr_at d' NDIRECT)) ->
  bmapped s s' V V' bs bs' ip x (set_i_d (i_valid x) d' x) bn a.
Proof using Type.
  intros G' H' Hb' Hbm' [G H Hb Hbm Hip Hdev Hok] Hat Hbn Se Ei Ed Hlen Hfr Hlog. destruct (geo_facts s G) as [G1 G2].
  split; try done; cbn [i_d set_i_d].
  - split; try done; cbn [i_d set_i_d i_dev].
    + by rewrite (bmb_env _ _ Se); eapply bitmap_ok_env.
    + rewrite Ei. apply list_lookup_insert_eq. by eapply lookup_lt_Some.
    + by rewrite (sr_dev _ _ Se).
    + eapply inode_ok_env; [done|]. by eapply attached_ok.
  - by rewrite <- Ed.
  - by rewrite (at_block _ _ _ _ _ _ _ Hat), Z.eqb_refl.
  - destruct (at_fresh _ _ _ _ _ _ _ Hat). lia.
  - intros k Hk. by eapply attached_byte.
  - intros bm Hbm0 Hnz. rewrite (at_block _ _ _ _ _ _ _ Hat) by done. destruct (Z.eqb_spec bm bn) as [->|]; [|done]. by rewrite (at_hole _ _ _ _ _ _ _ Hat) in Hnz.
  - by eapply attached_others.
  - by rewrite (at_hole _ _ _ _ _ _ _ Hat).
  - intros _. apply Hat.
Qed.

Lemma bmap_direct s V bs ip x bn : fstate s V bs ip x -> 0 <= bn < Z.of_nat NDIRECT -> space s bs 5 -> (2 <= nfree s V)%nat ->
  exists a s' V' bs' x', bmap pid ip bn s = Ok (a, s') /\ bmapped s s' V V' bs bs' ip x x' bn a.
Proof using Type.
  intros F Hbn Hsp Hfr. pose proof F as [G H Hb Hbm Hip Hdev Hok]. unfold bmap. destruct (Z.ltb_spec bn (Z.of_nat NDIRECT)); [|lia].
  assert (HM : MAXFILE = 140) by done. assert (HN : NDIRECT = 12%nat) by done.
  destruct (bmap_slot_run s V bs ip x (Z.to_nat bn) F) as (a & s' & bs' & E & Hcase); [lia|apply (space_le s bs 5); [done|lia]|lia|].
  assert (Ef : fblock V (i_d x) bn = addr_at (i_d x) (Z.to_nat bn)) by (unfold fblock; by destruct (Z.ltb_spec bn (Z.of_nat NDIRECT)); [|lia]).
  destruct Hcase as [(Ea & Hnz & -> & ->)|[N1 N2 N3 N4 N5 N6 N7 N8 N9 N10 N11 N12]].
  - exists a, s, V, bs, x. split; [done|]. rewrite <- Ea, <- Ef. apply bmapped_old; [done|done|reflexivity|]. by rewrite Ef, Ea.
  - exists a, s', (alloc_view s V a), bs', (set_i_d (i_valid x) (set_addr (Z.to_nat bn) a (i_d x)) x). split; [done|].
    apply bmapped_new; try done.
    + eapply geo_same; [exact N9|by eapply rep_lwf|done].
    + replace bn with (Z.of_nat (Z.to_nat bn)) at 2 by lia. apply attach_direct; try done. lia.
    + lia.
    + lia.
    + rewrite (nfree_same s s' (alloc_view s V a) (alloc_view s V a)); [lia|apply N9|done].
    + intros b Hin. destruct (N12 b Hin) as [|[|]]; auto.
Qed.

(** The second half of the indirect case: entry [j] of the indirect block. *)
Definition bmap_entry (ip : nat) (addr : Z) (bn : Z) : M fsst Z :=
  x ← get_inode ip;
  bp ← bread_ pid (i_dev x) addr;
  d ← data_of bp;
  let addr := get32 d (Z.to_nat bn) in
  if addr =? 0 then
    a ← balloc pid (i_dev x);
    upd_data bp (fun d => put32 d (Z.to_nat bn) a);; in_log (log_write bp);; brelse_ pid bp;; mret a
  else brelse_ pid bp;; mret addr.

Lemma data_block_home s V a : geo s -> data_block s V a -> home (flg s) a /\ a <> bmb s.
Proof using Type. intros G [Ha _]. destruct (geo_facts s G). split; [apply geo_home; [done|lia]|lia]. Qed.

Lemma fblock_entry V d j : addr_at d NDIRECT <> 0 -> fblock V d (Z.of_nat (NDIRECT + j)) = get32 (V (addr_at d NDIRECT)) j.
Proof using Type.
  intros H. unfold fblock. destruct (Z.ltb_spec (Z.of_nat (NDIRECT + j)) (Z.of_nat NDIRECT)); [lia|]. destruct (Z.eqb_spec (addr_at d NDIRECT) 0); [done|].
  f_equal. lia.
Qed.

(** An entry that is in use, and one that is not. *)
Lemma bmap_entry_old s V bs ip x j : fstate s V bs ip x -> addr_at (i_d x) NDIRECT <> 0 -> (length bs < NBUF)%nat ->
  get32 (V (addr_at (i_d x) NDIRECT)) j <> 0 ->
  exists s', bmap_entry ip (addr_at (i_d x) NDIRECT) (Z.of_nat j) s = Ok (get32 (V (addr_at (i_d x) NDIRECT)) j, s') /\
    rep s' V bs [] /\ same_rest s s'.
Proof using Type.
  intros [G H Hb Hbm Hip Hdev Hok] Hi Hsp Hz. set (ind := addr_at (i_d x) NDIRECT) in *.
  destruct (data_block_home s V ind G (io_ind _ _ _ Hok Hi)) as [Hh Hne].
  destruct (bread_rep pid s V bs [] ind H) as (i & s1 & E1 & H1 & S1);
    [unfold home in Hh; lia|by apply not_elem_of_nil|simpl; lia|].
  destruct (brelse_rep pid s1 V bs [] i ind H1) as (s2 & E2 & H2 & S2). exists s2. split_and!; [|done|by etrans].
  unfold bmap_entry. rewrite (bind_Ok _ _ _ _ _ (get_inode_run s ip x Hip)), Hdev, (bind_Ok _ _ _ _ _ E1).
  rewrite (bind_Ok _ _ _ _ _ (data_rep pid s1 V _ _ i ind H1 ltac:(by left))), Nat2Z.id.
  destruct (Z.eqb_spec (get32 (V ind) j) 0); [done|]. by rewrite (bind_Ok _ _ _ _ _ E2).
Qed.

Lemma bmap_entry_new s V bs ip x j : fstate s V bs ip x -> addr_at (i_d x) NDIRECT <> 0 -> space s bs 3 -> (0 < nfree s V)%nat ->
  (j < Z.to_nat NINDIRECT)%nat -> get32 (V (addr_at (i_d x) NDIRECT)) j = 0 ->
  exists a s' V' bs', bmap_entry ip (addr_at (i_d x) NDIRECT) (Z.of_nat j) s = Ok (a, s') /\
    rep s' V' bs' [] /\ same_rest s s' /\ blocks_ok V' /\ bitmap_ok s (V' (bmb s)) /\
    attached s V V' (i_d x) (i_d x) (Z.of_nat (NDIRECT + j)) a /\ (length bs' <= 3 + length bs)%nat /\ nfree s V = S (nfree s V') /\
    (forall b, b ∈ bs' -> b ∈ bs \/ b = bmb s \/ b = a \/ (b <> 0 /\ b = addr_at (i_d x) NDIRECT)).
Proof using Type.
  intros F Hi Hsp Hfr Hj Hz. pose proof F as [G H Hb Hbm Hip Hdev Hok]. pose proof (io_ind _ _ _ Hok Hi) as Hdb. set (ind := addr_at (i_d x) NDIRECT) in *.
  destruct (data_block_home s V ind G Hdb) as [Hh Hne]. pose proof (rep_lwf _ _ _ _ _ H) as Hl. pose proof (lw_size _ Hl) as Hlz.
  destruct (bread_rep pid s V bs [] ind H) as (i & s1 & E1 & H1 & S1);
    [unfold home in Hh; lia|by apply not_elem_of_nil|unfold space, NBUF, LOGSIZE, MAXOPBLOCKS in *; simpl; lia|].
  pose proof (sr_env _ _ S1) as Se1. pose proof (bmb_env _ _ Se1) as Eb1.
  assert (G1 : geo s1) by (eapply geo_same; [done|by eapply rep_lwf|done]).
  destruct (balloc_fresh pid s1 V bs [(i, ind)] G1 H1 Hb) as (a & s2 & bs2 & E2 & Hr & Hbit & H2 & S2 & Hlen & Hb2 & Hbm2 & Hfree & Hbits & Hlog).
  { rewrite Eb1. by eapply bitmap_ok_env. }
  { cbn. rewrite list_elem_of_singleton. congruence. }
  { cbn. intros b ->%list_elem_of_singleton. rewrite Eb1. apply Hdb. }
  { by eapply space_same. }
  { by rewrite (nfree_same s s1 V V) by (try done; apply Se1). }
  assert (Eav : alloc_view s1 V a = alloc_view s V a) by (unfold alloc_view; by rewrite Eb1).
  rewrite Eb1, (sr_fsb _ _ Se1), ?Eav in *. rewrite (nfree_same s s1 V V), (nfree_same s s1 (alloc_view s V a) (alloc_view s V a)) in Hfree by (try done; apply Se1).
  assert (S12 : same_rest s s2) by by etrans.
  destruct (upd_log_rep pid s2 _ bs2 [(i, ind)] i ind (fun d => put32 d j a) H2) as (s3 & s4 & E3 & E4 & H4 & S4).
  { by left. }
  { unfold home in *. by rewrite (sr_start _ _ S12), (sr_size _ _ S12). }
  { rewrite (sr_size _ _ S12). unfold space in Hsp. lia. }
  { rewrite (sr_ops _ _ S12). apply Hsp. }
  destruct (brelse_rep pid s4 _ _ [] i ind H4) as (s5 & E5 & H5 & S5).
  destruct (ind_apart s V (i_d x) a Hok Hr Hbit Hi) as [A1 A2]. fold ind in A1, A2.
  rewrite (alloc_view_other s V a ind) in H5 by done.
  exists a, s5, (updV (alloc_view s V a) ind (put32 (V ind) j a)), (add_block bs2 ind). split_and!; try done.
  - unfold bmap_entry. rewrite (bind_Ok _ _ _ _ _ (get_inode_run s ip x Hip)), Hdev, (bind_Ok _ _ _ _ _ E1).
    rewrite (bind_Ok _ _ _ _ _ (data_rep pid s1 V _ _ i ind H1 ltac:(by left))), Nat2Z.id, Hz. cbn [Z.eqb].
    rewrite <- (sr_dev _ _ S1), (bind_Ok _ _ _ _ _ E2), (bind_Ok _ _ _ _ _ E3), (bind_Ok _ _ _ _ _ E4), (bind_Ok _ _ _ _ _ E5). done.
  - by etrans; [|etrans].
  - intros b. unfold updV. destruct (Z.eqb_spec b ind); [by rewrite put32_length|apply Hb2].
  - rewrite updV_ne by congruence. split; [apply Hbm2|]. intros b Hb0. apply Hbm2. by rewrite Eb1.
  - apply attach_entry; try done. destruct (geo_facts s G). unfold FSSIZE in *. lia.
  - pose proof (add_block_length bs2 ind). lia.
  - rewrite Hfree. f_equal. apply nfree_same; [done|]. rewrite updV_ne by congruence. done.
  - intros b [Hin| ->]%add_block_elem; [destruct (Hlog b Hin) as [|[|]]; auto|auto].
Qed.

Lemma bmap_split ip bn s a s1 : Z.of_nat NDIRECT <= bn < MAXFILE -> bmap_slot pid ip NDIRECT s = Ok (a, s1) ->
  bmap pid ip bn s = bmap_entry ip a (bn - Z.of_nat NDIRECT) s1.
Proof using Type.
  intros Hbn E. unfold bmap. destruct (Z.ltb_spec bn (Z.of_nat NDIRECT)); [lia|].
  destruct (Z.ltb_spec (bn - Z.of_nat NDIRECT) NINDIRECT); [|unfold MAXFILE in Hbn; lia]. by rewrite (bind_Ok _ _ _ _ _ E).
Qed.

(** With the indirect block in place. *)
Lemma bmap_with_ind s V bs ip x bn : fstate s V bs ip x -> addr_at (i_d x) NDIRECT <> 0 -> Z.of_nat NDIRECT <= bn < MAXFILE ->
  space s bs 3 -> (0 < nfree s V)%nat ->
  exists a s' V' bs' x', bmap_entry ip (addr_at (i_d x) NDIRECT) (bn - Z.of_nat NDIRECT) s = Ok (a, s') /\
    bmapped s s' V V' bs bs' ip x x' bn a /\ (length bs' <= 3 + length bs)%nat /\ (nfree s V <= 1 + nfree s' V')%nat /\
    addr_at (i_d x') NDIRECT = addr_at (i_d x) NDIRECT.
Proof using Type.
  intros F Hi Hbn Hsp Hfr. set (j := Z.to_nat (bn - Z.of_nat NDIRECT)). assert (Ej : bn - Z.of_nat NDIRECT = Z.of_nat j) by lia.
  assert (Eb : bn = Z.of_nat (NDIRECT + j)) by lia. assert (Hj : (j < Z.to_nat NINDIRECT)%nat) by (unfold MAXFILE, NINDIRECT in *; unfold BSIZE in *; lia).
  pose proof (fblock_entry V (i_d x) j Hi) as Ef. rewrite <- Eb in Ef. rewrite Ej.
  destruct (decide (get32 (V (addr_at (i_d x) NDIRECT)) j = 0)) as [Hz|Hz].
  - destruct (bmap_entry_new s V bs ip x j F Hi Hsp Hfr Hj Hz) as (a & s' & V' & bs' & E & H' & S & Hb' & Hbm' & Hat & Hlen & Hfree & Hlog).
    pose proof (sr_env _ _ S) as Se. assert (Ex : set_i_d (i_valid x) (i_d x) x = x) by by destruct x.
    pose proof (fs_ip _ _ _ _ _ _ F) as Hip.
    exists a, s', V', bs', x. rewrite (nfree_same s s' V' V') by (try done; apply Se). split_and!; try done; [|lia].
    rewrite <- Ex at 2. apply bmapped_new; try done.
    + eapply geo_same; [done|by eapply rep_lwf|apply F].
    + by rewrite Eb.
    + lia.
    + rewrite Ex, list_insert_id by done. apply S.
    + destruct (i_d x). done.
    + lia.
    + rewrite (nfree_same s s' V' V') by (try done; apply Se). lia.
  - destruct (bmap_entry_old s V bs ip x j F Hi) as (s' & E & H' & S); [by eapply space_bufs; [apply F|]|done|].
    pose proof (sr_env _ _ S) as Se. exists (fblock V (i_d x) bn), s', V, bs, x. rewrite (nfree_same s s' V V) by (try done; apply Se). split_and!; try done; [by rewrite Ef| |lia|lia].
    apply bmapped_old; try done. by rewrite Ef.
Qed.

(** A fresh indirect block comes first. *)
Lemma bmapped_after_ind s s1 s' V V' bs bs1 bs' ip x x' bn a0 a : fstate s V bs ip x -> slot_new s s1 V bs bs1 ip x NDIRECT a0 ->
  Z.of_nat NDIRECT <= bn < MAXFILE ->
  bmapped s1 s' (alloc_view s V a0) V' bs1 bs' ip (set_i_d (i_valid x) (set_addr NDIRECT a0 (i_d x)) x) x' bn a ->
  (length bs' <= 3 + length bs1)%nat -> (nfree s1 (alloc_view s V a0) <= 1 + nfree s' V')%nat -> addr_at (i_d x') NDIRECT = a0 ->
  bmapped s s' V V' bs bs' ip x x' bn a.
Proof using Type.
  intros [G H Hb Hbm Hip Hdev Hok] [N1 N2 N3 N4 N5 N6 N7 N8 N9 N10 N11 N12] Hbn B Hlen Hfree Ex'.
  destruct (attach_indirect s V (i_d x) a0 G Hok N2 N3 N4 N1) as (Iok & Ifb & Iby & Iot).
  assert (Hold : fblock V (i_d x) bn = 0).
  { unfold fblock. destruct (Z.ltb_spec bn (Z.of_nat NDIRECT)); [lia|]. by rewrite N1. }
  assert (Eind : addr_at (set_addr NDIRECT a0 (i_d x)) NDIRECT = a0).
  { rewrite addr_at_set by (rewrite (io_addrs _ _ _ Hok); lia). by rewrite decide_True. }
  destruct B as [B1 B2 B3 B4 B5 B6 B7 B8 B9 B10 B11 B12 B13 B14]. cbn [i_d set_i_d i_valid] in *. pose proof (bmb_env _ _ N9) as Ebm.
  split; try done.
  - by etrans.
  - rewrite B3, N8. apply list_insert_insert_eq.
  - intros k Hk. rewrite B7 by done. by apply Iby.
  - intros bm Hbm0 Hnz. rewrite <- (Ifb bm Hbm0). apply B8; [done|]. by rewrite (Ifb bm Hbm0).
  - eapply others_trans; [exact Iot|]. intros b. rewrite <- Ebm. apply B9.
  - lia.
  - rewrite (nfree_same s s1 (alloc_view s V a0) (alloc_view s V a0)) in Hfree; [lia|apply N9|done].
  - intros b Hin. rewrite Ebm in B14. destruct (B14 b Hin) as [Hin1|[|[|]]]; auto. destruct (N12 b Hin1) as [|[| ->]]; auto.
    right. right. right. destruct (geo_facts s G). split; [lia|done].
Qed.

Lemma slot_new_state s s1 V bs bs1 ip x a : fstate s V bs ip x -> slot_new s s1 V bs bs1 ip x NDIRECT a ->
  fstate s1 (alloc_view s V a) bs1 ip (set_i_d (i_valid x) (set_addr NDIRECT a (i_d x)) x).
Proof using Type.
  intros [G H Hb Hbm Hip Hdev Hok] [N1 N2 N3 N4 N5 N6 N7 N8 N9 N10 N11 N12].
  destruct (attach_indirect s V (i_d x) a G Hok N2 N3 N4 N1) as (Iok & Ifb & Iby & Iot). split; try done.
  - eapply geo_same; [exact N9|by eapply rep_lwf|done].
  - rewrite (bmb_env _ _ N9). by eapply bitmap_ok_env.
  - rewrite N8. apply list_lookup_insert_eq. by eapply lookup_lt_Some.
  - cbn. by rewrite (sr_dev _ _ N9).
  - by eapply inode_ok_env.
Qed.

Lemma bmap_run s V bs ip x bn : fstate s V bs ip x -> 0 <= bn < MAXFILE -> space s bs 5 -> (2 <= nfree s V)%nat ->
  exists a s' V' bs' x', bmap pid ip bn s = Ok (a, s') /\ bmapped s s' V V' bs bs' ip x x' bn a.
Proof using Type.
  intros F Hbn Hsp Hfr. destruct (decide (bn < Z.of_nat NDIRECT)) as [Hd|Hd]; [apply bmap_direct; try done; lia|].
  destruct (bmap_slot_run s V bs ip x NDIRECT F) as (a0 & s1 & bs1 & E & Hcase); [lia|by apply (space_le s bs 5); [|lia]|lia|].
  rewrite (bmap_split ip bn s a0 s1) by (try done; lia). destruct Hcase as [(Ea & Hnz & -> & ->)|N].
  - destruct (bmap_with_ind s V bs ip x bn F) as (a & s' & V' & bs' & x' & E' & B & _); [congruence|lia|by apply (space_le s bs 5); [|lia]|lia|].
    exists a, s', V', bs', x'. by rewrite <- Ea.
  - set (x1 := set_i_d (i_valid x) (set_addr NDIRECT a0 (i_d x)) x).
    assert (Eind : addr_at (i_d x1) NDIRECT = a0).
    { cbn. rewrite addr_at_set by (rewrite (io_addrs _ _ _ (fs_ok _ _ _ _ _ _ F)); lia). by rewrite decide_True. }
    pose proof (sn_range _ _ _ _ _ _ _ _ _ N) as Hr. pose proof (sn_env _ _ _ _ _ _ _ _ _ N) as Se. destruct (geo_facts s (fs_geo _ _ _ _ _ _ F)) as [G1 G2].
    destruct (bmap_with_ind s1 (alloc_view s V a0) bs1 ip x1 bn) as (a & s' & V' & bs' & x' & E' & B & Hl & Hf & Ex').
    { by eapply slot_new_state. }
    { rewrite Eind. lia. }
    { lia. }
    { pose proof (sn_len _ _ _ _ _ _ _ _ _ N). unfold space in *. rewrite (sr_size _ _ Se), (sr_ops _ _ Se). lia. }
    { rewrite (nfree_same s s1 (alloc_view s V a0) (alloc_view s V a0)) by (try done; apply Se). pose proof (sn_free _ _ _ _ _ _ _ _ _ N). lia. }
    rewrite Eind in E'. exists a, s', V', bs', x'. split; [done|]. eapply bmapped_after_ind; try done; [lia|congruence].
Qed.

(** ** Finding a block that is there *)
Lemma bmap_slot_old s ip x k : icache s !! ip = Some x -> addr_at (i_d x) k <> 0 -> bmap_slot pid ip k s = Ok (addr_at (i_d x) k, s).
Proof using Type.
  intros Hip Hz. unfold addr_at in *. unfold bmap_slot. rewrite (bind_Ok _ _ _ _ _ (get_inode_run s ip x Hip)).
  destruct (di_addrs (i_d x) !! k) as [z|]; [|done]. simpl in *. rewrite (bind_Ok _ _ _ z s) by done. by destruct (Z.eqb_spec z 0).
Qed.

Lemma bmap_old s V bs ip x bn : fstate s V bs ip x -> 0 <= bn < MAXFILE -> fblock V (i_d x) bn <> 0 -> (length bs < NBUF)%nat ->
  exists s', bmap pid ip bn s = Ok (fblock V (i_d x) bn, s') /\ rep s' V bs [] /\ same_rest s s'.
Proof using Type.
  intros F Hbn Hz HL. pose proof (fs_ip _ _ _ _ _ _ F) as Hip. destruct (decide (bn < Z.of_nat NDIRECT)) as [Hd|Hd].
  - exists s. unfold bmap, fblock in *. destruct (Z.ltb_spec bn (Z.of_nat NDIRECT)); [|lia]. rewrite (bmap_slot_old s ip x) by done.
    split_and!; [done|apply F|reflexivity].
  - assert (Hi : addr_at (i_d x) NDIRECT <> 0).
    { intros E. unfold fblock in Hz. destruct (Z.ltb_spec bn (Z.of_nat NDIRECT)); [lia|]. by rewrite E in Hz. }
    set (j := Z.to_nat (bn - Z.of_nat NDIRECT)). assert (Ej : bn - Z.of_nat NDIRECT = Z.of_nat j) by lia.
    assert (Eb : bn = Z.of_nat (NDIRECT + j)) by lia. pose proof (fblock_entry V (i_d x) j Hi) as Ef. rewrite <- Eb in Ef. rewrite Ef in *.
    rewrite (bmap_split ip bn s _ _ ltac:(lia) (bmap_slot_old s ip x NDIRECT Hip Hi)), Ej. by apply bmap_entry_old.
Qed.

Lemma fstate_same s s' V bs ip x : fstate s V bs ip x -> rep s' V bs [] -> same_rest s s' -> fstate s' V bs ip x.
Proof using Type.
  intros [G H Hb Hbm Hip Hdev Hok] H' S. pose proof (sr_env _ _ S) as Se.
  split; [exact (rep_same _ _ _ _ _ H H' Se G)|done|done|by rewrite (bmb_env _ _ Se); eapply bitmap_ok_env|by rewrite (sr_icache _ _ S)|
    by rewrite (sr_dev _ _ Se)|by eapply inode_ok_env].
Qed.
End Bmap.
