(* ===== verification/FsRead.v ===== *)
(** * [readi]: reading the content of a file

    On a file without holes [readi] returns the bytes asked for, cut at the
    end of the file, and changes nothing. *)

From stdpp Require Import prelude strings.
From S2P Require Import Prelude Bio BioInv BioThms Log LogThms LogCrash LogSpec Fs Dir FsRep FsAlloc FsFile FsBmap.

Open Scope Z_scope.

(** The bytes [off, off + n) of a file. *)
Definition fbytes (V : Z -> block) (d : dinode) (off n : Z) : list Z := fbyte V d <$> seqZ off n.

(** Every block below the size is there. *)
Definition no_holes (V : Z -> block) (d : dinode) : Prop :=
  0 <= di_size d <= MAXFILE * BSIZE /\ forall bn, 0 <= bn -> bn * BSIZE < di_size d -> fblock V d bn <> 0.

Lemma seqZ_split m n k : 0 <= k <= n -> seqZ m n = seqZ m k ++ seqZ (m + k) (n - k).
Proof. intros H. rewrite <- seqZ_app by lia. f_equal. lia. Qed.

(** A slice of one block. *)
Lemma slice_bytes V d off m : 0 <= off -> 0 <= m -> off mod BSIZE + m <= BSIZE -> blocks_ok V -> fblock V d (off / BSIZE) <> 0 ->
  slice (V (fblock V d (off / BSIZE))) (Z.to_nat (off mod BSIZE)) (Z.to_nat m) = fbytes V d off m.
Proof.
  intros Ho Hm Hle Hb Hz. pose proof (Z.mod_pos_bound off BSIZE ltac:(done)) as Hr. apply list_eq. intros i. unfold slice, fbytes.
  destruct (decide (Z.of_nat i < m)) as [Hi|Hi].
  - rewrite lookup_take_lt, lookup_drop, list_lookup_fmap by lia. rewrite lookup_seqZ_lt by lia. simpl. unfold fbyte.
    assert (E : (off + Z.of_nat i) / BSIZE = off / BSIZE /\ (off + Z.of_nat i) mod BSIZE = off mod BSIZE + Z.of_nat i).
    { pose proof (Z.div_mod off BSIZE ltac:(done)). split; symmetry.
      - apply Z.div_unique with (off mod BSIZE + Z.of_nat i); lia.
      - apply Z.mod_unique with (off / BSIZE); lia. }
    destruct E as [E1 E2]. rewrite E1, E2. destruct (Z.eqb_spec (fblock V d (off / BSIZE)) 0); [done|]. unfold byte_at.
    replace (Z.to_nat (off mod BSIZE + Z.of_nat i)) with (Z.to_nat (off mod BSIZE) + i)%nat by lia.
    destruct (lookup_lt_is_Some_2 (V (fblock V d (off / BSIZE))) (Z.to_nat (off mod BSIZE) + i)) as [z ->]; [rewrite Hb; lia|done].
  - rewrite lookup_ge_None_2, lookup_ge_None_2; [done|..].
    + rewrite length_fmap, length_seqZ. lia.
    + rewrite length_take. lia.
Qed.

Section Read.
Context (pid : Z) (dv : devsw).

Notation rep := (rep pid).
Notation fstate := (fstate pid).

(** ** The loop of [readi] *)
Lemma readi_step s V bs ip x off : fstate s V bs ip x -> (length bs < NBUF)%nat -> 0 <= off < MAXFILE * BSIZE ->
  fblock V (i_d x) (off / BSIZE) <> 0 ->
  exists bp s1 s2 s3, bmap pid ip (off / BSIZE) s = Ok (fblock V (i_d x) (off / BSIZE), s1) /\
    get_inode ip s1 = Ok (x, s1) /\ bread_ pid (i_dev x) (fblock V (i_d x) (off / BSIZE)) s1 = Ok (bp, s2) /\
    data_of bp s2 = Ok (V (fblock V (i_d x) (off / BSIZE)), s2) /\ brelse_ pid bp s2 = Ok (tt, s3) /\
    fstate s3 V bs ip x /\ same_rest s s3.
Proof using Type.
  intros F HL Ho Hz. assert (Hbn : 0 <= off / BSIZE < MAXFILE).
  { split; [apply Z.div_pos; [lia|cbv; done]|apply Z.div_lt_upper_bound; [cbv; done|lia]]. }
  destruct (bmap_old pid s V bs ip x _ F Hbn Hz HL) as (s1 & E1 & H1 & S1). pose proof (fstate_same pid s s1 V bs ip x F H1 S1) as F1.
  set (a := fblock V (i_d x) (off / BSIZE)) in *. pose proof F1 as [G1 _ Hb Hbm Hip Hdev Hok].
  destruct (io_data _ _ _ Hok _ Hbn Hz) as [Hdb _]. destruct (data_block_home s1 V a G1 Hdb) as [Hh _].
  destruct (bread_rep pid s1 V bs [] a H1) as (bp & s2 & E2 & H2 & S2); [unfold home in Hh; lia|by apply not_elem_of_nil|simpl; lia|].
  destruct (brelse_rep pid s2 V bs [] bp a H2) as (s3 & E3 & H3 & S3).
  assert (S13 : same_rest s1 s3) by by etrans.
  exists bp, s1, s2, s3. split_and!; try done.
  - by apply get_inode_run.
  - by rewrite Hdev.
  - eapply data_rep; [exact H2|by left].
  - by eapply fstate_same.
  - by etrans.
Qed.

Lemma fs_min_spec a b : fs_min a b = Z.min a b.
Proof using Type. unfold fs_min. destruct (Z.ltb_spec a b); lia. Qed.

Lemma readi_loop_run V bs ip x n : blocks_ok V -> (length bs < NBUF)%nat -> forall fuel s off tot,
  fstate s V bs ip x -> 0 <= off -> 0 <= tot <= n -> off + (n - tot) <= MAXFILE * BSIZE ->
  (forall bn, 0 <= bn -> bn * BSIZE < off + (n - tot) -> off / BSIZE <= bn -> fblock V (i_d x) bn <> 0) ->
  (n <= tot \/ (n - tot) + off mod BSIZE <= BSIZE * Z.of_nat fuel) ->
  exists s', readi_loop pid fuel ip off n tot s = Ok (fbytes V (i_d x) off (n - tot), s') /\ fstate s' V bs ip x /\ same_rest s s'.
Proof using Type.
  intros Hb HL. induction fuel as [|fuel IH]; intros s off tot F Ho Ht Hmax Hz Hfuel; cbn [readi_loop]; pose proof (Z.mod_pos_bound off BSIZE ltac:(done)) as Hr.
  { destruct (Z.leb_spec n tot); [|lia]. replace (n - tot) with 0 by lia. exists s. split_and!; [done|done|reflexivity]. }
  destruct (Z.leb_spec n tot). { replace (n - tot) with 0 by lia. exists s. split_and!; [done|done|reflexivity]. }
  pose proof (Z.div_mod off BSIZE ltac:(done)) as Hdm.
  destruct (readi_step s V bs ip x off F HL) as (bp & s1 & s2 & s3 & E1 & E2 & E3 & E4 & E5 & F3 & S3); [lia| |].
  { apply Hz; [apply Z.div_pos; [lia|done]|lia|lia]. }
  rewrite fs_min_spec. set (m := Z.min (n - tot) (BSIZE - off mod BSIZE)). assert (Hm : 0 < m <= n - tot) by lia.
  assert (Hz' : fblock V (i_d x) (off / BSIZE) <> 0) by (apply Hz; [apply Z.div_pos; [lia|done]|lia|lia]).
  destruct (IH s3 (off + m) (tot + m) F3) as (s4 & E6 & F4 & S4).
  - lia.
  - lia.
  - lia.
  - intros bn Hbn0 Hbn1 Hbn2. apply Hz; [done|lia|]. etrans; [|exact Hbn2]. apply Z.div_le_mono; [done|lia].
  - destruct (decide (m = n - tot)) as [Em|Em]; [lia|]. right.
    replace ((off + m) mod BSIZE) with 0; [lia|]. apply Z.mod_unique with (off / BSIZE + 1); lia.
  - exists s4. split_and!; [|done|by etrans].
    rewrite (bind_Ok _ _ _ _ _ E1), (bind_Ok _ _ _ _ _ E2), (bind_Ok _ _ _ _ _ E3), (bind_Ok _ _ _ _ _ E4), (bind_Ok _ _ _ _ _ E5), (bind_Ok _ _ _ _ _ E6).
    mrun. f_equal. f_equal. rewrite slice_bytes by (try done; lia). unfold fbytes. rewrite <- fmap_app. f_equal.
    rewrite (seqZ_split off (n - tot) m) by lia. f_equal. f_equal. lia.
Qed.

(** ** readi *)
Lemma blocks_fuel_enough n off : 0 <= n -> n + off mod BSIZE <= BSIZE * Z.of_nat (blocks_fuel n).
Proof using Type.
  intros Hn. unfold blocks_fuel. pose proof (Z.mod_pos_bound off BSIZE ltac:(done)). pose proof (Z.div_mod n BSIZE ltac:(done)).
  pose proof (Z.mod_pos_bound n BSIZE ltac:(done)). assert (0 <= n / BSIZE) by (apply Z.div_pos; [lia|done]). unfold BSIZE in *. lia.
Qed.

(** The number of bytes a read returns. *)
Definition read_len (d : dinode) (off n : Z) : Z := Z.min n (di_size d - off).

Lemma readi_run s V bs ip x off n : fstate s V bs ip x -> no_holes V (i_d x) -> di_type (i_d x) <> T_DEV ->
  0 <= off <= di_size (i_d x) -> 0 <= n < 2 ^ 31 -> (length bs < NBUF)%nat ->
  exists s', readi pid dv ip off n s = Ok ((read_len (i_d x) off n, fbytes V (i_d x) off (read_len (i_d x) off n)), s') /\
    fstate s' V bs ip x /\ same_rest s s'.
Proof using Type.
  intros F [Hsz Hh] Ht Ho Hn HL. assert (HM : MAXFILE * BSIZE = 71680) by done.
  unfold readi. rewrite (bind_Ok _ _ _ _ _ (get_inode_run s ip x (fs_ip _ _ _ _ _ _ F))).
  destruct (Z.eqb_spec (di_type (i_d x)) T_DEV); [done|].
  assert (Eu : u32 (off + n) = off + n) by (apply u32_small; lia). rewrite Eu.
  destruct (Z.ltb_spec (di_size (i_d x)) off); [lia|]. destruct (Z.ltb_spec (off + n) off); [lia|]. cbn [orb].
  set (n' := if di_size (i_d x) <? off + n then di_size (i_d x) - off else n).
  assert (En : n' = read_len (i_d x) off n) by (unfold n', read_len; destruct (Z.ltb_spec (di_size (i_d x)) (off + n)); lia).
  assert (Hn' : 0 <= n' <= di_size (i_d x) - off) by (rewrite En; unfold read_len; lia).
  destruct (readi_loop_run V bs ip x n' (fs_blocks _ _ _ _ _ _ F) HL (blocks_fuel n') s off 0 F) as (s' & E & F' & S'); try lia.
  - intros bn Hb1 Hb2 _. apply Hh; lia.
  - right. rewrite Z.sub_0_r. apply blocks_fuel_enough. lia.
  - exists s'. rewrite (bind_Ok _ _ _ _ _ E), Z.sub_0_r, En, s32_small; [done|unfold read_len; lia].
Qed.

(** An offset past the end, and one that overflows with the length. *)
Lemma readi_fails s ip x off n : icache s !! ip = Some x -> di_type (i_d x) <> T_DEV -> di_size (i_d x) < off \/ u32 (off + n) < off ->
  readi pid dv ip off n s = Ok ((-1, []), s).
Proof using Type.
  intros Hip Ht Hc. unfold readi. rewrite (bind_Ok _ _ _ _ _ (get_inode_run s ip x Hip)). destruct (Z.eqb_spec (di_type (i_d x)) T_DEV); [done|].
  destruct (Z.ltb_spec (di_size (i_d x)) off); [done|]. destruct (Z.ltb_spec (u32 (off + n)) off); [done|lia].
Qed.
End Read.
