(* ===== verification/FsInode.v ===== *)
(** * Inodes on the disk

    [put_dinode] and [get_dinode] are inverse and keep the other inodes of
    the block apart; [iupdate] makes the disk copy equal to the one in
    memory and [ilock] reads it back. *)

From stdpp Require Import prelude strings.
From S2P Require Import Prelude Bio BioInv BioThms Log LogThms LogCrash LogSpec Fs Dir FsRep FsAlloc FsFile FsBmap.

Open Scope Z_scope.

(** ** Bytes a write leaves alone *)
Lemma put16_length d i z : length (put16 d i z) = length d.
Proof. unfold put16. by rewrite !length_insert. Qed.

Lemma byte_put16 d i z j : j <> i -> j <> S i -> byte_at (put16 d i z) j = byte_at d j.
Proof. intros H1 H2. unfold put16. rewrite !byte_at_insert. repeat case_decide; try done; lia. Qed.

Lemma byte_put32 d k z j : (j < 4 * k \/ 4 * k + 4 <= j)%nat -> byte_at (put32 d k z) j = byte_at d j.
Proof. intros H. unfold put32. rewrite !byte_at_insert. repeat case_decide; try done; lia. Qed.

Lemma put_words_length d k l : length (put_words d k l) = length d.
Proof. revert d k. induction l as [|z l IH]; intros d k; simpl; [done|]. by rewrite IH, put32_length. Qed.

Lemma byte_put_words d k l j : (j < 4 * k \/ 4 * (k + length l) <= j)%nat -> byte_at (put_words d k l) j = byte_at d j.
Proof.
  revert d k. induction l as [|z l IH]; intros d k H; simpl in *; [done|]. rewrite IH by lia. apply byte_put32. lia.
Qed.

Lemma get32_bytes d d' k : (forall j, (4 * k <= j < 4 * k + 4)%nat -> byte_at d j = byte_at d' j) -> get32 d k = get32 d' k.
Proof. intros H. unfold get32. by rewrite !H by lia. Qed.

Lemma get16_bytes d d' i : byte_at d i = byte_at d' i -> byte_at d (S i) = byte_at d' (S i) -> get16 d i = get16 d' i.
Proof. intros H1 H2. unfold get16. by rewrite H1, H2. Qed.

(** ** Reading back *)
Lemma get_put16 d i z : (S i < length d)%nat -> get16 (put16 d i z) i = z mod 2 ^ 16.
Proof.
  intros H. unfold get16, put16. rewrite !byte_at_insert, !length_insert. repeat case_decide; try lia.
  rewrite Z.shiftr_div_pow2 by lia. change (2 ^ 8) with 256. pose proof (Z.rem_mul_r z 256 256 ltac:(lia) ltac:(lia)) as E. change (256 * 256) with (2 ^ 16) in E. lia.
Qed.

Lemma s16_mod z : - 2 ^ 15 <= z < 2 ^ 15 -> s16 (z mod 2 ^ 16) = z.
Proof.
  intros H. unfold s16. rewrite Zplus_mod_idemp_l. rewrite Z.mod_small; lia.
Qed.

Lemma get_put_words d k l i : (4 * (k + length l) <= length d)%nat -> (i < length l)%nat ->
  get32 (put_words d k l) (k + i) = u32 (default 0 (l !! i)).
Proof.
  revert d k i. induction l as [|z l IH]; intros d k i Hd Hi; simpl in *; [lia|]. destruct i as [|i].
  - rewrite Nat.add_0_r. rewrite (get32_bytes _ (put32 d k z)) by (intros; apply byte_put_words; lia). simpl. apply get_put_eq. lia.
  - replace (k + S i)%nat with (S k + i)%nat by lia. apply (IH (put32 d k z)); [rewrite put32_length|]; lia.
Qed.

(** ** One inode of a block *)
Definition short (z : Z) : Prop := - 2 ^ 15 <= z < 2 ^ 15.

Record dinode_ok (x : dinode) : Prop := {
  dk_type : short (di_type x);
  dk_major : short (di_major x);
  dk_minor : short (di_minor x);
  dk_nlink : short (di_nlink x);
  dk_size : 0 <= di_size x < 2 ^ 32;
  dk_len : length (di_addrs x) = S NDIRECT;
  dk_addrs : Forall (fun a => 0 <= a < 2 ^ 32) (di_addrs x)
}.

Lemma put_dinode_length d k x : length (put_dinode d k x) = length d.
Proof. unfold put_dinode. by rewrite put_words_length, put32_length, !put16_length. Qed.

Lemma byte_put_dinode d k x j : length (di_addrs x) = S NDIRECT -> (j < 64 * k \/ 64 * k + 64 <= j)%nat ->
  byte_at (put_dinode d k x) j = byte_at d j.
Proof.
  intros Hl Hj. unfold put_dinode, NDIRECT in *. rewrite byte_put_words by lia. rewrite byte_put32 by lia. by rewrite !byte_put16 by lia.
Qed.

Lemma get_put_dinode d k x : (64 * k + 64 <= length d)%nat -> dinode_ok x -> get_dinode (put_dinode d k x) k = x.
Proof.
  intros Hd [H1 H2 H3 H4 H5 H6 H7]. unfold NDIRECT in *. destruct x as [ty mj mn nl sz ads]. cbn [di_type di_major di_minor di_nlink di_size di_addrs] in *.
  unfold get_dinode, put_dinode. cbn [di_type di_major di_minor di_nlink di_size di_addrs].
  assert (E16 : forall (dd : block) i, (64 * k <= i)%nat -> (i + 2 <= 64 * k + 8)%nat ->
    get16 (put_words (put32 dd (16 * k + 2) sz) (16 * k + 3) ads) i = get16 dd i).
  { intros dd i Hi Hi2. apply get16_bytes; rewrite byte_put_words, byte_put32 by lia; done. }
  assert (Hne : forall dd i j z, (j + 1 < i \/ i + 1 < j)%nat -> get16 (put16 dd i z) j = get16 dd j).
  { intros dd i j z Hij. apply get16_bytes; apply byte_put16; lia. }
  rewrite !E16 by lia. f_equal.
  - rewrite !Hne by lia. rewrite get_put16 by lia. by apply s16_mod.
  - rewrite !Hne by lia. rewrite get_put16 by (rewrite !put16_length; lia). by apply s16_mod.
  - rewrite !Hne by lia. rewrite get_put16 by (rewrite !put16_length; lia). by apply s16_mod.
  - rewrite get_put16 by (rewrite !put16_length; lia). by apply s16_mod.
  - rewrite (get32_bytes _ (put32 (put16 (put16 (put16 (put16 d (64 * k) ty) (64 * k + 2) mj) (64 * k + 4) mn) (64 * k + 6) nl) (16 * k + 2) sz))
      by (intros; apply byte_put_words; lia).
    rewrite get_put_eq by (rewrite !put16_length; lia). by apply u32_small.
  - apply list_eq_same_length with 13%nat; [done|by rewrite length_fmap, length_seq|]. intros i a b Hi Ha Hb.
    rewrite list_lookup_fmap, lookup_seq_lt in Ha by (unfold NDIRECT; lia). apply (inj Some) in Ha as <-. rewrite Nat.add_0_l.
    rewrite get_put_words by (rewrite ?put32_length, ?put16_length; lia). rewrite Hb. simpl. apply u32_small. by eapply Forall_lookup_1 in H7.
Qed.

Lemma get_put_dinode_ne d k j x : length (di_addrs x) = S NDIRECT -> j <> k -> get_dinode (put_dinode d k x) j = get_dinode d j.
Proof.
  intros Hl Hne. unfold get_dinode. assert (E : forall i, (64 * j <= i < 64 * j + 64)%nat -> byte_at (put_dinode d k x) i = byte_at d i).
  { intros i Hi. apply byte_put_dinode; [done|]. lia. }
  f_equal; try (f_equal; apply get16_bytes; apply E; lia).
  - apply get32_bytes. intros i Hi. apply E. lia.
  - apply list_fmap_ext. intros i a Ha. apply lookup_seq in Ha as [-> Hi]. apply get32_bytes. intros b Hb. apply E. unfold NDIRECT in *. lia.
Qed.

(** ** Changing blocks before the bit map *)
Section Meta.
Context (s : fsst) (V V' : Z -> block) (d : dinode).
Hypothesis Hsame : forall b, bmb s <= b -> V' b = V b.
Hypothesis Hok : inode_ok s V d.

Lemma meta_fblock bn : fblock V' d bn = fblock V d bn.
Proof using Hsame Hok.
  unfold fblock. destruct (bn <? Z.of_nat NDIRECT); [done|]. destruct (Z.eqb_spec (addr_at d NDIRECT) 0) as [|E]; [done|].
  destruct (io_ind _ _ _ Hok E) as [H _]. rewrite Hsame by lia. done.
Qed.

Lemma meta_byte k : 0 <= k < MAXFILE * BSIZE -> fbyte V' d k = fbyte V d k.
Proof using Hsame Hok.
  intros Hk. assert (Hbk : 0 <= k / BSIZE < MAXFILE). { split; [apply Z.div_pos; [lia|done]|apply Z.div_lt_upper_bound; [done|lia]]. }
  unfold fbyte. rewrite meta_fblock. destruct (Z.eqb_spec (fblock V d (k / BSIZE)) 0) as [|E]; [done|].
  destruct (io_data _ _ _ Hok _ Hbk E) as [[H _] _]. rewrite Hsame by lia. done.
Qed.

Lemma meta_inode_ok : inode_ok s V' d.
Proof using Hsame Hok.
  assert (Hd : forall a, data_block s V a -> data_block s V' a) by (intros a [H1 H2]; split; [done|]; by rewrite Hsame by lia).
  pose proof Hok as [I1 I2 I3 I4]. split; [done|auto|..].
  - intros bn Hbn. rewrite meta_fblock. intros H. destruct (I3 bn Hbn H). auto.
  - intros bn bm Hbn Hbm. rewrite !meta_fblock. by apply I4.
Qed.
End Meta.

(** ** iupdate *)
Definition inode_block (s : fsst) (inum : Z) : Z := sb_inodestart (fsb s) + inum / IPB.
Definition disk_inode (s : fsst) (V : Z -> block) (inum : Z) : dinode := get_dinode (V (inode_block s inum)) (Z.to_nat (inum mod IPB)).

Lemma inode_block_range s inum : geo s -> 0 <= inum < sb_ninodes (fsb s) -> sb_inodestart (fsb s) <= inode_block s inum < bmb s.
Proof.
  intros G Hi. destruct (geo_facts s G). pose proof (g_bmap s G) as Hb. unfold inode_block, bmb in *.
  assert (0 <= inum / IPB <= sb_ninodes (fsb s) / IPB). { split; [apply Z.div_pos; [lia|done]|apply Z.div_le_mono; [done|lia]]. }
  lia.
Qed.

Lemma IBLOCK_spec s inum : geo s -> 0 <= inum < sb_ninodes (fsb s) -> IBLOCK inum (fsb s) = inode_block s inum.
Proof.
  intros G Hi. pose proof (inode_block_range s inum G Hi) as Hr. destruct (geo_facts s G). unfold IBLOCK, inode_block, FSSIZE in *.
  rewrite u32_small by lia. lia.
Qed.

Lemma inode_slot inum (d : block) : length d = Z.to_nat BSIZE -> (64 * Z.to_nat (inum mod IPB) + 64 <= length d)%nat.
Proof. intros ->. pose proof (Z.mod_pos_bound inum IPB ltac:(done)). change IPB with 8 in *. unfold BSIZE. lia. Qed.

Lemma inode_block_ne s i j : 0 <= i -> 0 <= j -> i <> j -> inode_block s i = inode_block s j -> Z.to_nat (i mod IPB) <> Z.to_nat (j mod IPB).
Proof.
  intros Hi Hj Hne E E'. pose proof (Z.mod_pos_bound i IPB ltac:(done)). pose proof (Z.mod_pos_bound j IPB ltac:(done)).
  pose proof (Z.div_mod i IPB ltac:(done)). pose proof (Z.div_mod j IPB ltac:(done)). unfold inode_block in E. change IPB with 8 in *. lia.
Qed.

(** What [iupdate] does to the blocks: the inode [inum] becomes [d]. *)
Record inode_set (s : fsst) (V V' : Z -> block) (inum : Z) (d : dinode) : Prop := {
  is_this : disk_inode s V' inum = d;
  is_that : forall j, 0 <= j -> j <> inum -> disk_inode s V' j = disk_inode s V j;
  is_rest : forall b, b <> inode_block s inum -> V' b = V b;
  is_len : forall b, length (V' b) = length (V b)
}.

Lemma put_inode_set s V inum d : 0 <= inum -> blocks_ok V -> dinode_ok d ->
  inode_set s V (updV V (inode_block s inum) (put_dinode (V (inode_block s inum)) (Z.to_nat (inum mod IPB)) d)) inum d.
Proof.
  intros Hi Hb Hd. split.
  - unfold disk_inode. rewrite updV_eq. by apply get_put_dinode; [apply inode_slot|].
  - intros j Hj Hne. unfold disk_inode. destruct (decide (inode_block s j = inode_block s inum)) as [E|E].
    + rewrite E, updV_eq. apply get_put_dinode_ne; [by apply Hd|]. by apply (inode_block_ne s).
    + by rewrite updV_ne.
  - intros b Hne. by apply updV_ne.
  - intros b. unfold updV. destruct (Z.eqb_spec b (inode_block s inum)) as [->|]; [|done]. by rewrite put_dinode_length.
Qed.

Section Iupdate.
Context (pid : Z).

Notation rep := (rep pid).
Notation fstate := (fstate pid).

Lemma fstate_inode_set s s' V V' bs bs' ip x inum d : fstate s V bs ip x -> 0 <= inum < sb_ninodes (fsb s) ->
  inode_set s V V' inum d -> rep s' V' bs' [] -> same_rest s s' -> fstate s' V' bs' ip x.
Proof using Type.
  intros [G H Hb Hbm Hip Hdev Hok] Hin IS H' S. pose proof (sr_env _ _ S) as Se. pose proof (inode_block_range s inum G Hin) as Hr.
  assert (Hm : forall b, bmb s <= b -> V' b = V b) by (intros b Hbb; apply (is_rest _ _ _ _ _ IS); lia).
  split; try done.
  - eapply geo_same; [done|by eapply rep_lwf|done].
  - intros b. by rewrite (is_len _ _ _ _ _ IS).
  - rewrite (bmb_env _ _ Se), Hm by lia. by eapply bitmap_ok_env.
  - by rewrite (sr_icache _ _ S).
  - by rewrite (sr_dev _ _ Se).
  - eapply inode_ok_env; [done|]. by apply (meta_inode_ok s V).
Qed.

Lemma iupdate_run s V bs ip x : fstate s V bs ip x -> 0 <= i_inum x < sb_ninodes (fsb s) -> dinode_ok (i_d x) -> space s bs 1 ->
  exists s' V', iupdate pid ip s = Ok (tt, s') /\ fstate s' V' (add_block bs (inode_block s (i_inum x))) ip x /\ same_rest s s' /\
    inode_set s V V' (i_inum x) (i_d x).
Proof using Type.
  intros F Hin Hd Hsp. pose proof F as [G H Hb Hbm Hip Hdev Hok]. pose proof (inode_block_range s _ G Hin) as Hr.
  assert (Hh : home (flg s) (inode_block s (i_inum x))) by (apply geo_home; [done|]; destruct (geo_facts s G); lia).
  destruct (rmw_run pid s V bs [] (inode_block s (i_inum x)) (fun d => put_dinode d (Z.to_nat (i_inum x mod IPB)) (i_d x)) H Hh)
    as (s' & E & H' & S); [by apply not_elem_of_nil|done|].
  pose proof (put_inode_set s V (i_inum x) (i_d x) (proj1 Hin) Hb Hd) as IS.
  eexists s', _. split_and!; [|by eapply fstate_inode_set|done|exact IS].
  unfold iupdate. rewrite (bind_Ok _ _ _ s s) by done. rewrite (bind_Ok _ _ _ _ _ (get_inode_run s ip x Hip)), Hdev, IBLOCK_spec by done. exact E.
Qed.
End Iupdate.
