(* ===== verification/FsWrite.v ===== *)
(** * [writei]: writing the content of a file

    The bytes of the file after [writei], the blocks it adds to the
    transaction, and that no other file changes. *)

From stdpp Require Import prelude strings.
From S2P Require Import Prelude Bio BioInv BioThms Log LogThms LogCrash LogSpec Fs Dir FsRep FsAlloc FsFile FsBmap FsRead FsInode.

Open Scope Z_scope.

(** ** Changing the data of one block of a file *)
Lemma byte_blit d off l i : (off + length l <= length d)%nat ->
  byte_at (blit d off l) i = if decide (off <= i < off + length l)%nat then byte_at l (i - off) else byte_at d i.
Proof.
  intros H. unfold byte_at, blit. case_decide as Hi.
  - rewrite lookup_app_r by (rewrite length_take; lia). rewrite length_take, lookup_app_l by lia. do 2 f_equal. lia.
  - destruct (decide (i < off)%nat) as [Hlt|Hge].
    + rewrite lookup_app_l by (rewrite length_take; lia). by rewrite lookup_take_lt by lia.
    + rewrite lookup_app_r by (rewrite length_take; lia). rewrite length_take, lookup_app_r by lia. rewrite lookup_drop. do 2 f_equal. lia.
Qed.

Lemma blit_length d off l : (off + length l <= length d)%nat -> length (blit d off l) = length d.
Proof. intros H. unfold blit. rewrite !length_app, length_take, length_drop. lia. Qed.

Section SetData.
Context (s : fsst) (V : Z -> block) (d : dinode) (bn : Z) (new : block).
Hypothesis Hok : inode_ok s V d.
Hypothesis Hbn : 0 <= bn < MAXFILE.
Hypothesis Hz : fblock V d bn <> 0.
Hypothesis G : geo s.

Let a := fblock V d bn.
Let V' := updV V a new.

Lemma set_data_facts : a <> bmb s /\ a <> addr_at d NDIRECT.
Proof using Hok Hbn Hz. destruct (io_data _ _ _ Hok bn Hbn Hz) as [[H1 _] H2]. unfold a. split; [lia|done]. Qed.

Lemma set_data_fblock bm : fblock V' d bm = fblock V d bm.
Proof using Hok Hbn Hz.
  destruct set_data_facts as [_ H]. unfold fblock, V'. destruct (bm <? Z.of_nat NDIRECT); [done|]. destruct (Z.eqb_spec (addr_at d NDIRECT) 0); [done|].
  by rewrite updV_ne by congruence.
Qed.

Lemma set_data_bits : V' (bmb s) = V (bmb s).
Proof using Hok Hbn Hz. destruct set_data_facts. unfold V'. apply updV_ne. congruence. Qed.

Lemma set_data_ok : inode_ok s V' d.
Proof using Hok Hbn Hz.
  destruct Hok as [I1 I2 I3 I4]. split; unfold data_block in *; rewrite ?set_data_bits; try done.
  - intros bm Hbm. rewrite set_data_fblock. by apply I3.
  - intros bm bk Hbm Hbk. rewrite !set_data_fblock. by apply I4.
Qed.

Lemma set_data_byte k : 0 <= k < MAXFILE * BSIZE ->
  fbyte V' d k = if k / BSIZE =? bn then byte_at new (Z.to_nat (k mod BSIZE)) else fbyte V d k.
Proof using Hok Hbn Hz.
  intros Hk. assert (Hkb : 0 <= k / BSIZE < MAXFILE). { split; [apply Z.div_pos; [lia|cbv; done]|apply Z.div_lt_upper_bound; [cbv; done|lia]]. }
  unfold fbyte. rewrite set_data_fblock. destruct (Z.eqb_spec (k / BSIZE) bn) as [->|Hne].
  - destruct (Z.eqb_spec (fblock V d bn) 0); [done|]. unfold V'. fold a. by rewrite updV_eq.
  - destruct (Z.eqb_spec (fblock V d (k / BSIZE)) 0); [done|]. unfold V'. rewrite updV_ne; [done|]. intros E. apply Hne. by apply (io_inj _ _ _ Hok).
Qed.

Lemma set_data_others : others s V V' d d.
Proof using Hok Hbn Hz.
  intros b Hb Hne Hbit Ho. rewrite set_data_bits. split_and!; [done|..].
  - unfold V'. apply updV_ne. intros ->. apply Ho. right. unfold a. eauto.
  - intros [H|(bm & Hbm & H)]; apply Ho; [by left|]. rewrite set_data_fblock in H. right. eauto.
Qed.

Lemma set_data_nfree : nfree s V' = nfree s V.
Proof using Hok Hbn Hz. apply nfree_same; [done|]. apply set_data_bits. Qed.
End SetData.

(** Bytes of a file after a write inside one block. *)
Lemma block_write_byte V d off l k : blocks_ok V -> fblock V d (off / BSIZE) <> 0 -> 0 <= off -> 0 <= k ->
  off mod BSIZE + Z.of_nat (length l) <= BSIZE ->
  (if k / BSIZE =? off / BSIZE then byte_at (blit (V (fblock V d (off / BSIZE))) (Z.to_nat (off mod BSIZE)) l) (Z.to_nat (k mod BSIZE)) else fbyte V d k) =
  if decide (off <= k < off + Z.of_nat (length l)) then byte_at l (Z.to_nat (k - off)) else fbyte V d k.
Proof.
  intros Hb Hz Ho Hk Hle. pose proof (Z.mod_pos_bound off BSIZE ltac:(done)) as R1. pose proof (Z.mod_pos_bound k BSIZE ltac:(done)) as R2.
  pose proof (Z.div_mod off BSIZE ltac:(done)) as D1. pose proof (Z.div_mod k BSIZE ltac:(done)) as D2.
  destruct (Z.eqb_spec (k / BSIZE) (off / BSIZE)) as [E|E].
  - rewrite byte_blit by (rewrite Hb; lia). rewrite E in D2. destruct (decide (off <= k < off + Z.of_nat (length l))) as [Hin|Hout].
    + rewrite decide_True by lia. f_equal. lia.
    + rewrite decide_False by lia. unfold fbyte. rewrite E. by destruct (Z.eqb_spec (fblock V d (off / BSIZE)) 0).
  - rewrite decide_False; [done|]. intros Hin. apply E. unfold BSIZE in *. lia.
Qed.

Section Write.
Context (pid : Z) (dv : devsw).

Notation rep := (rep pid).
Notation fstate := (fstate pid).

(** ** What writing the bytes [l] at [off] does *)
Record wrote (s s' : fsst) (V V' : Z -> block) (bs bs' : list Z) (ip : nat) (x x' : inode) (off : Z) (l : list Z) (nl nf : nat) : Prop := {
  wr_state : fstate s' V' bs' ip x';
  wr_env : same_env s s';
  wr_icache : icache s' = <[ip := x']> (icache s);
  wr_inode : x' = set_i_d (i_valid x) (set_di_addrs (di_addrs (i_d x')) (i_d x)) x;
  wr_byte : forall k, 0 <= k < MAXFILE * BSIZE -> fbyte V' (i_d x') k =
    if decide (off <= k < off + Z.of_nat (length l)) then byte_at l (Z.to_nat (k - off)) else fbyte V (i_d x) k;
  wr_grow : forall bm, 0 <= bm < MAXFILE -> fblock V (i_d x) bm <> 0 -> fblock V' (i_d x') bm = fblock V (i_d x) bm;
  wr_there : forall bm, l <> [] -> off / BSIZE <= bm -> bm * BSIZE < off + Z.of_nat (length l) -> fblock V' (i_d x') bm <> 0;
  wr_same : (forall bm, off / BSIZE <= bm -> bm * BSIZE < off + Z.of_nat (length l) -> fblock V (i_d x) bm <> 0) -> x' = x;
  wr_others : others s V V' (i_d x) (i_d x');
  wr_len : (length bs' <= nl + length bs)%nat;
  wr_free : (nfree s V <= nf + nfree s' V')%nat;
  wr_ind : addr_at (i_d x) NDIRECT <> 0 -> addr_at (i_d x') NDIRECT = addr_at (i_d x) NDIRECT;
  wr_log : forall b, b ∈ bs' -> b ∈ bs \/ b = bmb s \/ (b <> 0 /\ b = addr_at (i_d x') NDIRECT) \/
    exists bm, off / BSIZE <= bm /\ bm * BSIZE < off + Z.of_nat (length l) /\ fblock V' (i_d x') bm = b /\ b <> 0
}.

(** One turn of the loop. *)
Lemma writei_step s V bs ip x off l : fstate s V bs ip x -> 0 <= off -> off + Z.of_nat (length l) <= MAXFILE * BSIZE ->
  (0 < length l)%nat -> off mod BSIZE + Z.of_nat (length l) <= BSIZE -> space s bs 6 -> (2 <= nfree s V)%nat ->
  exists a bp s1 s2 s3 s4 s' V' bs' x', bmap pid ip (off / BSIZE) s = Ok (a, s1) /\ get_inode ip s1 = Ok (x', s1) /\
    bread_ pid (i_dev x') a s1 = Ok (bp, s2) /\ upd_data bp (fun d => blit d (Z.to_nat (off mod BSIZE)) l) s2 = Ok (tt, s3) /\
    in_log (log_write bp) s3 = Ok (tt, s4) /\ brelse_ pid bp s4 = Ok (tt, s') /\ wrote s s' V V' bs bs' ip x x' off l 6 2.
Proof using Type.
  intros F Ho Hmax Hl Hle Hsp Hfr. pose proof (Z.mod_pos_bound off BSIZE ltac:(done)) as Hr. pose proof (Z.div_mod off BSIZE ltac:(done)) as Hdm.
  assert (Hbn : 0 <= off / BSIZE < MAXFILE). { split; [apply Z.div_pos; [lia|cbv; done]|apply Z.div_lt_upper_bound; [cbv; done|lia]]. }
  destruct (bmap_run pid s V bs ip x (off / BSIZE) F Hbn) as (a & s1 & V1 & bs1 & x1 & E1 & B); [by apply (space_le s bs 6); [|lia]|done|].
  destruct B as [F1 B2 B3 B4 B5 B6 B7 B8 B9 B10 B11 B12 B13 B14]. pose proof F1 as [G1 H1 Hb1 Hbm1 Hip1 Hdev1 Hok1].
  assert (Hz : fblock V1 (i_d x1) (off / BSIZE) <> 0) by congruence.
  destruct (io_data _ _ _ Hok1 _ Hbn Hz) as [Hdb _]. rewrite B5 in Hdb. destruct (data_block_home s1 V1 a G1 Hdb) as [Hh Hne].
  assert (Hsp1 : space s1 bs1 1). { unfold space in *. rewrite (sr_size _ _ B2), (sr_ops _ _ B2). lia. }
  destruct (bread_rep pid s1 V1 bs1 [] a H1) as (bp & s2 & E2 & H2 & S2);
    [unfold home in Hh; lia|by apply not_elem_of_nil|simpl; pose proof (space_bufs pid s1 V1 bs1 [] 1 H1 Hsp1); lia|].
  destruct (upd_log_rep pid s2 V1 bs1 [(bp, a)] bp a (fun d => blit d (Z.to_nat (off mod BSIZE)) l) H2) as (s3 & s4 & E3 & E4 & H4 & S4).
  { by left. }
  { unfold home in *. by rewrite (sr_start _ _ S2), (sr_size _ _ S2). }
  { rewrite (sr_size _ _ S2). unfold space in Hsp1. lia. }
  { rewrite (sr_ops _ _ S2). apply Hsp1. }
  destruct (brelse_rep pid s4 _ _ [] bp a H4) as (s5 & E5 & H5 & S5). assert (S15 : same_rest s1 s5) by (by etrans; [|etrans]).
  pose proof (sr_env _ _ S15) as Se. set (new := blit (V1 a) (Z.to_nat (off mod BSIZE)) l) in *.
  assert (Hfit : (Z.to_nat (off mod BSIZE) + length l <= length (V1 a))%nat) by (rewrite Hb1; lia).
  exists a, bp, s1, s2, s3, s4, s5, (updV V1 a new), (add_block bs1 a), x1.
  split_and!; try done; [by apply get_inode_run|by rewrite Hdev1|]. rewrite <- B5 in *.
  pose proof (set_data_bits s1 V1 (i_d x1) _ new Hok1 Hbn Hz) as Dbits.
  split; try done.
  - split; try done.
    + eapply geo_same; [done|by eapply rep_lwf|done].
    + intros b. unfold updV. destruct (b =? _); [unfold new; rewrite blit_length; [apply Hb1|by rewrite <- B5]|apply Hb1].
    + rewrite (bmb_env _ _ Se), Dbits. by eapply bitmap_ok_env.
    + by rewrite (sr_icache _ _ S15).
    + by rewrite (sr_dev _ _ Se).
    + eapply inode_ok_env; [done|]. by apply set_data_ok.
  - by etrans.
  - by rewrite (sr_icache _ _ S15).
  - intros k Hk. rewrite (set_data_byte s1) by done. unfold new. rewrite <- B5. rewrite block_write_byte by (try done; lia). by rewrite B7.
  - intros bm Hbm0 Hnz. rewrite (set_data_fblock s1) by done. by rewrite B8.
  - intros bm _ Hb0 Hb2. rewrite (set_data_fblock s1) by done. replace bm with (off / BSIZE); [done|]. unfold BSIZE in *. lia.
  - intros Hall. apply B12, Hall; lia.
  - eapply others_trans; [exact B9|]. intros b. rewrite <- (bmb_env _ _ B2). by apply set_data_others.
  - pose proof (add_block_length bs1 (fblock V1 (i_d x1) (off / BSIZE))). lia.
  - rewrite (nfree_same s1 s5 V1); [lia|apply Se|done].
  - assert (Hthis : forall b, b = fblock V1 (i_d x1) (off / BSIZE) -> exists bm, off / BSIZE <= bm /\ bm * BSIZE < off + Z.of_nat (length l) /\
      fblock (updV V1 (fblock V1 (i_d x1) (off / BSIZE)) new) (i_d x1) bm = b /\ b <> 0).
    { intros b ->. exists (off / BSIZE). rewrite (set_data_fblock s1) by done. split_and!; try done; lia. }
    intros b [Hin| ->]%add_block_elem; [|auto]. destruct (B14 b Hin) as [|[|[|]]]; auto.
Qed.

Lemma wrote_nil s V bs ip x off : fstate s V bs ip x -> 0 <= off -> wrote s s V V bs bs ip x x off [] 0 0.
Proof using Type.
  intros F Ho. split; try done.
  - rewrite list_insert_id; [done|apply F].
  - by destruct x as [? ? ? ? ? []].
  - intros k Hk. rewrite decide_False; [done|]. simpl. lia.
  - auto.
Qed.

Lemma wrote_trans s s1 s2 V V1 V2 bs bs1 bs2 ip x x1 x2 off l1 l2 n1 n2 f1 f2 : 0 <= off ->
  off + Z.of_nat (length l1 + length l2) <= MAXFILE * BSIZE ->
  wrote s s1 V V1 bs bs1 ip x x1 off l1 n1 f1 -> wrote s1 s2 V1 V2 bs1 bs2 ip x1 x2 (off + Z.of_nat (length l1)) l2 n2 f2 ->
  wrote s s2 V V2 bs bs2 ip x x2 off (l1 ++ l2) (n1 + n2) (f1 + f2).
Proof using Type.
  intros Ho Hmax [A1 A2 A3 A4 A5 A6 A7 A11 A8 A9 A10 A12 A13] [B1 B2 B3 B4 B5 B6 B7 B11 B8 B9 B10 B12 B13]. split; try done.
  - by etrans.
  - rewrite B3, A3. apply list_insert_insert_eq.
  - rewrite B4, A4. cbn. by destruct x as [? ? ? ? ? []].
  - intros k Hk. rewrite B5, A5, length_app by done. unfold byte_at. repeat case_decide; try lia.
    all: try (rewrite lookup_app_r by lia; do 2 f_equal; lia).
    all: try (by rewrite lookup_app_l by lia).
    all: done.
  - intros bm Hbm Hz. rewrite B6 by (try done; by rewrite A6). by apply A6.
  - intros bm Hnil H1 H2. rewrite length_app in H2. assert (Hbm : 0 <= bm < MAXFILE).
    { split; [etrans; [|exact H1]; apply Z.div_pos; [lia|done]|]. unfold MAXFILE, BSIZE in *. lia. }
    destruct (decide (l1 = [])) as [->|Hl1].
    + simpl in *. rewrite Z.add_0_r in B7. by apply B7.
    + destruct (decide (bm * BSIZE < off + Z.of_nat (length l1))) as [Hlt|Hge]; [rewrite B6 by (try done; by apply A7); by apply A7|].
      apply B7; [intros ->; simpl in H2; lia| |lia]. apply Z.div_le_upper_bound; [done|]. unfold BSIZE in *. lia.
  - intros Hall. rewrite length_app in Hall. assert (0 <= off / BSIZE) by (apply Z.div_pos; [lia|done]).
    rewrite B11, A11; [done|intros bm H1 H2; apply Hall; lia|].
    intros bm H1 H2. assert (off / BSIZE <= (off + Z.of_nat (length l1)) / BSIZE) by (apply Z.div_le_mono; [done|lia]).
    rewrite A6; [|unfold MAXFILE, BSIZE in *; lia|]; apply Hall; lia.
  - eapply others_trans; [exact A8|]. intros b. rewrite <- (bmb_env _ _ A2). apply B8.
  - lia.
  - lia.
  - intros H. rewrite B12; [by apply A12|by rewrite A12].
  - intros b Hin. rewrite length_app. destruct (B13 b Hin) as [Hin1|[Hb|[Hb|(bm & H1 & H2 & H3 & H4)]]].
    + destruct (A13 b Hin1) as [|[|[[Hz Hb]|(bm & H1 & H2 & H3 & H4)]]]; [auto|auto| |].
      * right. right. left. split; [done|]. rewrite B12; congruence.
      * right. right. right. exists bm. assert (0 <= off / BSIZE) by (apply Z.div_pos; [lia|done]).
        rewrite B6 by (unfold MAXFILE, BSIZE in *; try lia; congruence). split_and!; try done; lia.
    + rewrite (bmb_env _ _ A2) in Hb. auto.
    + auto.
    + right. right. right. exists bm. assert (off / BSIZE <= (off + Z.of_nat (length l1)) / BSIZE) by (apply Z.div_le_mono; [done|lia]). split_and!; try done; lia.
Qed.

Lemma wrote_le s s' V V' bs bs' ip x x' off l a b a' b' : (a <= a')%nat -> (b <= b')%nat ->
  wrote s s' V V' bs bs' ip x x' off l a b -> wrote s s' V V' bs bs' ip x x' off l a' b'.
Proof using Type. intros Ha Hb []. split; try done; lia. Qed.

(** ** The loop of [writei]

    [m] blocks are enough for the bytes that are left. *)
Lemma writei_loop_run ip n : forall m fuel s V bs x src off tot, (m <= fuel)%nat ->
  fstate s V bs ip x -> 0 <= off -> 0 <= tot <= n -> Z.of_nat (length src) = n - tot -> off + (n - tot) <= MAXFILE * BSIZE ->
  (n <= tot \/ (n - tot) + off mod BSIZE <= BSIZE * Z.of_nat m) -> space s bs (6 * m) -> (2 * m <= nfree s V)%nat ->
  exists s' V' bs' x', writei_loop pid fuel ip src off n tot s = Ok (tt, s') /\ wrote s s' V V' bs bs' ip x x' off src (6 * m) (2 * m).
Proof using Type.
  induction m as [|m IH]; intros fuel s V bs x src off tot Hmf F Ho Ht Hsrc Hmax Hfuel Hsp Hfr;
    pose proof (Z.mod_pos_bound off BSIZE ltac:(done)) as Hr; pose proof (Z.div_mod off BSIZE ltac:(done)) as Hdm.
  all: destruct (Z.leb_spec n tot) as [Hle|Hlt];
    [exists s, V, bs, x; split; [destruct fuel; cbn [writei_loop]; destruct (Z.leb_spec n tot); try done; lia|];
     destruct src; [|simpl in *; lia]; eapply wrote_le; [..|by apply wrote_nil]; lia|].
  { lia. }
  destruct fuel as [|fuel]; [lia|]. cbn [writei_loop]. destruct (Z.leb_spec n tot); [lia|].
  rewrite fs_min_spec. set (w := Z.min (n - tot) (BSIZE - off mod BSIZE)). assert (Hm : 0 < w <= n - tot) by lia.
  assert (Hl : Z.of_nat (length (take (Z.to_nat w) src)) = w) by (rewrite length_take; lia).
  destruct (writei_step s V bs ip x off (take (Z.to_nat w) src) F) as (a & bp & s1 & s2 & s3 & s4 & s5 & V1 & bs1 & x1 & E1 & E2 & E3 & E4 & E5 & E6 & W); try lia.
  { by apply (space_le s bs (6 * S m)); [|lia]. }
  rewrite (bind_Ok _ _ _ _ _ E1), (bind_Ok _ _ _ _ _ E2), (bind_Ok _ _ _ _ _ E3).
  rewrite (bind_Ok _ _ _ (take (Z.to_nat w) src) s2); last first.
  { unfold read_src. destruct (Nat.leb_spec (Z.to_nat w) (length src)); [done|lia]. }
  rewrite (bind_Ok _ _ _ _ _ E4), (bind_Ok _ _ _ _ _ E5), (bind_Ok _ _ _ _ _ E6).
  pose proof W as [W1 W2 _ _ _ _ _ _ _ W9 W10 _ _].
  destruct (IH fuel s5 V1 bs1 x1 (drop (Z.to_nat w) src) (off + w) (tot + w)) as (s6 & V2 & bs2 & x2 & E7 & W'); try done; try lia.
  - rewrite length_drop. lia.
  - destruct (decide (w = n - tot)) as [Em|Em]; [lia|]. right.
    replace ((off + w) mod BSIZE) with 0; [lia|]. apply Z.mod_unique with (off / BSIZE + 1); lia.
  - unfold space in *. rewrite (sr_size _ _ W2), (sr_ops _ _ W2). lia.
  - exists s6, V2, bs2, x2. split; [done|]. rewrite <- (take_drop (Z.to_nat w) src).
    eapply wrote_le; [| |eapply wrote_trans; [done| |exact W|rewrite Hl; exact W']]; [lia|lia|]. rewrite length_drop. lia.
Qed.

(** ** A well-formed file

    The file has no holes below its size, and the disk holds the inode that
    is in memory. *)
Record wf_file (s : fsst) (V : Z -> block) (bs : list Z) (ip : nat) (x : inode) : Prop := {
  wf_state : fstate s V bs ip x;
  wf_holes : no_holes V (i_d x);
  wf_inode : dinode_ok (i_d x);
  wf_inum : 0 <= i_inum x < sb_ninodes (fsb s);
  wf_disk : disk_inode s V (i_inum x) = i_d x
}.

(** What [writei] does. *)
Record file_written (s s' : fsst) (V V' : Z -> block) (ip : nat) (x x' : inode) (off : Z) (l : list Z) : Prop := {
  fw_env : same_env s s';
  fw_icache : icache s' = <[ip := x']> (icache s);
  fw_inode : x' = set_i_d (i_valid x) (set_di_size (Z.max (di_size (i_d x)) (off + Z.of_nat (length l))) (set_di_addrs (di_addrs (i_d x')) (i_d x))) x;
  fw_byte : forall k, 0 <= k < MAXFILE * BSIZE -> fbyte V' (i_d x') k =
    if decide (off <= k < off + Z.of_nat (length l)) then byte_at l (Z.to_nat (k - off)) else fbyte V (i_d x) k;
  fw_inodes : forall j, 0 <= j < sb_ninodes (fsb s) -> j <> i_inum x -> disk_inode s V' j = disk_inode s V j;
  fw_others : forall b, 0 < b -> bmb s <> b -> b <> inode_block s (i_inum x) -> bit (V (bmb s)) b = true -> ~ owns V (i_d x) b ->
    bit (V' (bmb s)) b = true /\ V' b = V b /\ ~ owns V' (i_d x') b
}.

Lemma addr_fblock V d k : (k < NDIRECT)%nat -> addr_at d k = fblock V d (Z.of_nat k).
Proof using Type. intros Hk. unfold fblock. destruct (Z.ltb_spec (Z.of_nat k) (Z.of_nat NDIRECT)); [|lia]. by rewrite Nat2Z.id. Qed.

(** Addresses of a consistent inode fit a word. *)
Lemma inode_ok_addrs s V d : geo s -> inode_ok s V d -> Forall (fun a => 0 <= a < 2 ^ 32) (di_addrs d).
Proof using Type.
  intros G [I1 I2 I3 I4]. destruct (geo_facts s G) as [G1 G2]. unfold FSSIZE, data_block in *. apply Forall_lookup. intros k a Hk.
  assert (Ea : addr_at d k = a) by (unfold addr_at; by rewrite Hk). apply lookup_lt_Some in Hk. rewrite I1 in Hk.
  destruct (decide (a = 0)) as [->|Hz]; [lia|]. destruct (decide (k = NDIRECT)) as [->|Hne].
  - destruct I2; [congruence|]. lia.
  - destruct (I3 (Z.of_nat k)) as [[Hr _] _]; [change MAXFILE with 140; change NDIRECT with 12%nat in *; lia|rewrite <- addr_fblock by lia; congruence|].
    rewrite <- addr_fblock in Hr by lia. lia.
Qed.

(** The blocks of inodes are used and in no file. *)
Lemma inode_block_others s V d V' d' j : geo s -> bitmap_ok s (V (bmb s)) -> inode_ok s V d -> others s V V' d d' ->
  0 <= j < sb_ninodes (fsb s) -> V' (inode_block s j) = V (inode_block s j).
Proof using Type.
  intros G Hbm Hok Ho Hj. destruct (geo_facts s G) as [G1 G2]. pose proof (inode_block_range s j G Hj) as Hr.
  apply Ho; [lia|lia|apply Hbm; lia|]. intros [H|(bm & Hbm' & H)].
  - destruct (io_ind _ _ _ Hok) as [H' _]; lia.
  - destruct (io_data _ _ _ Hok bm Hbm') as [[H' _] _]; lia.
Qed.

Lemma wrote_holes s s' V V' bs bs' ip x x' off l nl nf : wrote s s' V V' bs bs' ip x x' off l nl nf -> no_holes V (i_d x) ->
  0 <= off <= di_size (i_d x) -> off + Z.of_nat (length l) <= MAXFILE * BSIZE ->
  forall bn, 0 <= bn -> bn * BSIZE < Z.max (di_size (i_d x)) (off + Z.of_nat (length l)) -> fblock V' (i_d x') bn <> 0.
Proof using Type.
  intros W [Hsz Hh] Ho Hmax bn Hbn Hlt. assert (Hm : bn < MAXFILE) by (unfold BSIZE in *; lia).
  destruct (decide (bn * BSIZE < di_size (i_d x))) as [Hin|Hout]; [rewrite (wr_grow _ _ _ _ _ _ _ _ _ _ _ _ _ W); auto|].
  apply (wr_there _ _ _ _ _ _ _ _ _ _ _ _ _ W); [intros ->; simpl in *; lia| |lia]. apply Z.div_le_upper_bound; [done|]. unfold BSIZE in *. lia.
Qed.

(** Setting the size in memory. *)
Lemma set_size_state s V bs ip x n : fstate s V bs ip x -> let x' := set_i_d (i_valid x) (set_di_size n (i_d x)) x in
  upd_di ip (set_di_size n) s = Ok (tt, set_icache (<[ip := x']> (icache s)) s) /\ fstate (set_icache (<[ip := x']> (icache s)) s) V bs ip x'.
Proof using Type.
  intros [G H Hb Hbm Hip Hdev Hok] x'. split; [unfold upd_di; by rewrite (upd_inode_run s ip _ x Hip)|].
  split; cbn; try done; [by split; apply G|by apply rep_icache|split; apply Hbm| |].
  - rewrite list_lookup_insert_eq; [done|]. by eapply lookup_lt_Some.
  - destruct Hok as [I1 I2 I3 I4]. by split.
Qed.

Definition write_blocks (off n : Z) : nat := Z.to_nat ((off mod BSIZE + n + BSIZE - 1) / BSIZE).

Lemma write_blocks_enough off n : 0 <= n ->
  n + off mod BSIZE <= BSIZE * Z.of_nat (write_blocks off n) /\ (write_blocks off n <= blocks_fuel n)%nat.
Proof using Type.
  intros Hn. pose proof (Z.mod_pos_bound off BSIZE ltac:(done)) as Hr. unfold write_blocks, blocks_fuel.
  pose proof (Z.div_mod (off mod BSIZE + n + BSIZE - 1) BSIZE ltac:(done)). pose proof (Z.mod_pos_bound (off mod BSIZE + n + BSIZE - 1) BSIZE ltac:(done)).
  assert (0 <= (off mod BSIZE + n + BSIZE - 1) / BSIZE) by (apply Z.div_pos; [lia|done]).
  split; [rewrite Z2Nat.id by done; lia|]. apply Z2Nat.inj_le; [done|pose proof (Z.div_pos n BSIZE Hn ltac:(done)); lia|].
  pose proof (Z.div_mod n BSIZE ltac:(done)). pose proof (Z.mod_pos_bound n BSIZE ltac:(done)). unfold BSIZE in *. lia.
Qed.

Lemma dinode_ok_write d n l : dinode_ok d -> 0 <= n < 2 ^ 32 -> length l = S NDIRECT -> Forall (fun a => 0 <= a < 2 ^ 32) l ->
  dinode_ok (set_di_size n (set_di_addrs l d)).
Proof using Type. intros [] Hn Hl Ha. by split. Qed.

(** The blocks a write adds to the transaction: those it writes, the bit map
    and the indirect block. *)
Lemma wrote_count s s' V V' bs bs' ip x x' off l nl nf : wrote s s' V V' bs bs' ip x x' off l nl nf ->
  (length bs' <= length bs + write_blocks off (Z.of_nat (length l)) + 2)%nat.
Proof using Type.
  intros W. set (m := write_blocks off (Z.of_nat (length l))). destruct (fs_rep _ _ _ _ _ _ (wr_state _ _ _ _ _ _ _ _ _ _ _ _ _ W)) as [a R].
  pose proof (li_nd _ _ _ _ (rp_inv _ _ _ _ _ _ R)) as Hnd.
  assert (Hsub : bs' ⊆+ bs ++ [bmb s; addr_at (i_d x') NDIRECT] ++ (fblock V' (i_d x') <$> seqZ (off / BSIZE) (Z.of_nat m))).
  { apply NoDup_submseteq; [done|]. intros b Hb. rewrite !elem_of_app, !elem_of_cons.
    destruct (wr_log _ _ _ _ _ _ _ _ _ _ _ _ _ W b Hb) as [|[|[[_ H]|(bm & H1 & H2 & H3 & H4)]]]; [auto..|].
    right. right. rewrite <- H3. apply list_elem_of_fmap_2, elem_of_seqZ. split; [done|].
    destruct (write_blocks_enough off (Z.of_nat (length l)) ltac:(lia)) as [Hm _]. fold m in Hm.
    pose proof (Z.div_mod off BSIZE ltac:(done)). unfold BSIZE in *. lia. }
  apply submseteq_length in Hsub. rewrite !length_app, length_fmap, length_seqZ in Hsub. simpl in Hsub. lia.
Qed.

(** The end of [writei], when the file has grown. *)
Lemma writei_grown s s1 V V1 bs bs1 ip x x1 off l nl nf : wf_file s V bs ip x -> 0 <= off <= di_size (i_d x) ->
  off + Z.of_nat (length l) <= MAXFILE * BSIZE -> wrote s s1 V V1 bs bs1 ip x x1 off l nl nf -> space s bs (S nl) ->
  di_size (i_d x) < off + Z.of_nat (length l) ->
  exists s' V' bs' x', (upd_di ip (set_di_size (off + Z.of_nat (length l)));; iupdate pid ip) s1 = Ok (tt, s') /\
    wf_file s' V' bs' ip x' /\ file_written s s' V V' ip x x' off l /\ (length bs' <= S (length bs1))%nat /\ (nfree s V <= nf + nfree s' V')%nat.
Proof using Type.
  intros [F Hh Hd Hin Hdk] Ho Hmax W Hsp Hgrow. set (n := off + Z.of_nat (length l)) in *. assert (HM : MAXFILE * BSIZE = 71680) by done.
  pose proof W as [F1 Se _ Ex By _ _ _ Oth Len Fr _ Lg]. destruct (set_size_state s1 V1 bs1 ip x1 n F1) as [E2 F2].
  set (x2 := set_i_d (i_valid x1) (set_di_size n (i_d x1)) x1) in *. set (s2 := set_icache _ s1) in *.
  assert (Si : i_inum x2 = i_inum x) by (unfold x2; by rewrite Ex).
  assert (Ed : i_d x2 = set_di_size n (set_di_addrs (di_addrs (i_d x1)) (i_d x))) by (unfold x2; rewrite Ex; done).
  assert (Se2 : same_env s s2) by (destruct Se; by split).
  assert (Hd2 : dinode_ok (i_d x2)).
  { rewrite Ed. apply dinode_ok_write; [done|lia|apply F1|]. eapply (inode_ok_addrs s1); apply F1. }
  destruct (iupdate_run pid s2 V1 bs1 ip x2 F2) as (s3 & V3 & E3 & F3 & S3 & IS); [rewrite Si, (sr_fsb _ _ Se2); done|done| |].
  { unfold space in *. rewrite (sr_size _ _ Se2), (sr_ops _ _ Se2). lia. }
  assert (Se3 : same_env s s3) by (etrans; [exact Se2|apply S3]).
  assert (Hib : forall j, inode_block s2 j = inode_block s j) by (intros; unfold inode_block; by rewrite (sr_fsb _ _ Se2)).
  assert (Hdi : forall t W j, fsb t = fsb s -> disk_inode t W j = disk_inode s W j) by (intros t ? ? Et; unfold disk_inode, inode_block; by rewrite Et).
  pose proof F as [G _ _ Hbm _ _ Hok]. pose proof IS as [I1 I2 I3 I4]. rewrite Hib, Si in I3. rewrite Hdi, Si in I1 by apply Se2.
  pose proof (inode_block_range s _ G Hin) as Hr.
  assert (Hm : forall b, bmb s2 <= b -> V3 b = V1 b) by (intros b Hb; apply I3; rewrite (bmb_env _ _ Se2) in Hb; lia).
  assert (Hx : forall W k, fblock W (i_d x2) k = fblock W (i_d x1) k) by done.
  assert (Hf3 : forall bn, fblock V3 (i_d x2) bn = fblock V1 (i_d x1) bn) by (intros; rewrite <- Hx; apply (meta_fblock s2); [done|apply F2]).
  exists s3, V3, (add_block bs1 (inode_block s2 (i_inum x2))), x2. split_and!.
  - by rewrite (bind_Ok _ _ _ _ _ E2).
  - split; [done| |done|by rewrite Si, (sr_fsb _ _ Se3)|by rewrite Hdi, Si by apply Se3].
    split; [rewrite Ed; cbn; lia|]. intros bn Hbn Hlt. rewrite Hf3. eapply wrote_holes; [done..|]. rewrite Ed in Hlt. cbn in Hlt. lia.
  - split; [done| | | | |].
    + rewrite (sr_icache _ _ S3). cbn. rewrite (wr_icache _ _ _ _ _ _ _ _ _ _ _ _ _ W). apply list_insert_insert_eq.
    + rewrite Z.max_r by lia. unfold x2. rewrite Ex. by destruct x as [? ? ? ? ? []].
    + intros k Hk. rewrite (meta_byte s2 V1); [by apply By|done|apply F2|done].
    + intros j Hj Hne. rewrite <- (Hdi s2), I2, Hdi by (try apply Se2; lia). unfold disk_inode. by rewrite (inode_block_others s V (i_d x) V1 (i_d x1)).
    + intros b Hb Hne Hnb Hbit Hno. destruct (Oth b Hb Hne Hbit Hno) as (O1 & O2 & O3). rewrite <- (bmb_env _ _ Se2), Hm, (bmb_env _ _ Se2), I3 by lia.
      split_and!; [done|done|]. intros [H|(bm & Hbm' & H)]; apply O3; [by left|]. rewrite Hf3 in H. right. eauto.
  - pose proof (add_block_length bs1 (inode_block s2 (i_inum x2))). lia.
  - rewrite (nfree_same s1 s3 V1); [done| |].
    + by rewrite (sr_fsb _ _ S3).
    + rewrite (bmb_env _ _ Se), <- (bmb_env _ _ Se2). apply Hm. lia.
Qed.

(** The end of [writei], when it has not. *)
Lemma writei_kept s s1 V V1 bs bs1 ip x x1 off l nl nf : wf_file s V bs ip x -> 0 <= off ->
  off + Z.of_nat (length l) <= di_size (i_d x) -> wrote s s1 V V1 bs bs1 ip x x1 off l nl nf ->
  x1 = x /\ wf_file s1 V1 bs1 ip x /\ file_written s s1 V V1 ip x x off l.
Proof using Type.
  intros [F Hh Hd Hin Hdk] Ho Hle W. pose proof Hh as [Hsz Hh']. pose proof F as [G _ _ Hbm _ _ Hok].
  assert (x1 = x) as ->.
  { eapply wr_same; [exact W|]. intros bm H1 H2. apply Hh'; [|lia]. etrans; [|exact H1]. apply Z.div_pos; [done|cbv; done]. }
  split; [done|]. pose proof W as [F1 Se Hc Ex By Gr _ _ Oth Len Fr _ _].
  assert (Hdi : forall t W j, fsb t = fsb s -> disk_inode t W j = disk_inode s W j) by (intros t ? ? Et; unfold disk_inode, inode_block; by rewrite Et).
  assert (Hi : forall j, 0 <= j < sb_ninodes (fsb s) -> disk_inode s V1 j = disk_inode s V j).
  { intros j Hj. unfold disk_inode. by rewrite (inode_block_others s V (i_d x) V1 (i_d x)). }
  split.
  - split; [done| |done|by rewrite (sr_fsb _ _ Se)|rewrite Hdi by apply Se; by rewrite Hi].
    split; [done|]. intros bn Hbn Hlt. rewrite Gr; [auto| |auto]. unfold BSIZE in *. lia.
  - split; try done; [|by auto|intros b Hb Hne _; by apply Oth]. rewrite Z.max_l by lia. by destruct x as [? ? ? ? ? []].
Qed.

(** ** writei *)
Lemma writei_run s V bs ip x off l : wf_file s V bs ip x -> di_type (i_d x) <> T_DEV -> 0 <= off <= di_size (i_d x) ->
  off + Z.of_nat (length l) <= MAXFILE * BSIZE ->
  let m := write_blocks off (Z.of_nat (length l)) in space s bs (S (6 * m)) -> (2 * m <= nfree s V)%nat ->
  exists s' V' bs' x', writei pid dv ip l off (Z.of_nat (length l)) s = Ok (Z.of_nat (length l), s') /\
    wf_file s' V' bs' ip x' /\ file_written s s' V V' ip x x' off l /\ (length bs' <= length bs + m + 3)%nat /\ (nfree s V <= 2 * m + nfree s' V')%nat.
Proof using Type.
  intros WF Ht Ho Hmax m Hsp Hfr. pose proof WF as [F [Hsz Hh] _ _ _]. assert (HM : MAXFILE * BSIZE = 71680) by done.
  set (n := Z.of_nat (length l)) in *. assert (Hn : 0 <= n) by lia. destruct (write_blocks_enough off n Hn) as [Hm1 Hm2]. fold m in Hm1, Hm2.
  destruct (writei_loop_run ip n m (blocks_fuel n) s V bs x l off 0) as (s1 & V1 & bs1 & x1 & E1 & W); try done; try lia.
  { by apply (space_le s bs (S (6 * m))); [|lia]. }
  unfold writei. rewrite (bind_Ok _ _ _ _ _ (get_inode_run s ip x (fs_ip _ _ _ _ _ _ F))).
  destruct (Z.eqb_spec (di_type (i_d x)) T_DEV); [done|]. rewrite u32_small by lia.
  destruct (Z.ltb_spec (di_size (i_d x)) off); [lia|]. destruct (Z.ltb_spec (off + n) off); [lia|]. cbn [orb].
  destruct (Z.ltb_spec (MAXFILE * BSIZE) (off + n)); [lia|]. rewrite (bind_Ok _ _ _ _ _ E1).
  pose proof (wrote_count _ _ _ _ _ _ _ _ _ _ _ _ _ W) as Hcnt. fold n m in Hcnt.
  assert (Hs : s32 n = n) by (unfold s32; rewrite Z.mod_small; lia).
  destruct (Z.ltb_spec (di_size (i_d x)) (off + n)) as [Hg|Hg].
  - destruct (Z.ltb_spec 0 n); [|lia]. cbn [andb].
    destruct (writei_grown s s1 V V1 bs bs1 ip x x1 off l (6 * m) (2 * m)) as (s2 & V2 & bs2 & x2 & E2 & Q); try done. fold n in E2.
    exists s2, V2, bs2, x2. rewrite (bind_Ok _ _ _ _ _ E2), Hs. destruct Q as (Q1 & Q2 & Q3 & Q4). split_and!; try done. lia.
  - rewrite andb_false_r. destruct (writei_kept s s1 V V1 bs bs1 ip x x1 off l (6 * m) (2 * m)) as (-> & WF1 & FW); try done; try lia.
    exists s1, V1, bs1, x. rewrite (bind_Ok _ _ _ tt s1), Hs by done. split_and!; try done; pose proof (wr_free _ _ _ _ _ _ _ _ _ _ _ _ _ W); lia.
Qed.

Lemma writei_fails s ip x l off n : icache s !! ip = Some x -> di_type (i_d x) <> T_DEV ->
  di_size (i_d x) < off \/ u32 (off + n) < off \/ MAXFILE * BSIZE < u32 (off + n) -> writei pid dv ip l off n s = Ok (-1, s).
Proof using Type.
  intros Hip Ht Hc. unfold writei. rewrite (bind_Ok _ _ _ _ _ (get_inode_run s ip x Hip)). destruct (Z.eqb_spec (di_type (i_d x)) T_DEV); [done|].
  destruct (Z.ltb_spec (di_size (i_d x)) off); [done|]. destruct (Z.ltb_spec (u32 (off + n)) off); [done|].
  destruct (Z.ltb_spec (MAXFILE * BSIZE) (u32 (off + n))); [done|lia].
Qed.

(** ** Reading what was written *)
Lemma written_bytes V V' d d' off l : (forall k, 0 <= k < MAXFILE * BSIZE -> fbyte V' d' k =
    if decide (off <= k < off + Z.of_nat (length l)) then byte_at l (Z.to_nat (k - off)) else fbyte V d k) ->
  0 <= off -> off + Z.of_nat (length l) <= MAXFILE * BSIZE -> fbytes V' d' off (Z.of_nat (length l)) = l.
Proof using Type.
  intros H Ho Hmax. apply list_eq_same_length with (length l); [done|unfold fbytes; rewrite length_fmap, length_seqZ; lia|].
  intros i a b Hi Ha Hb. unfold fbytes in Ha. rewrite list_lookup_fmap, lookup_seqZ_lt in Ha by lia. apply (inj Some) in Ha as <-.
  rewrite H by lia. rewrite decide_True by lia. replace (Z.to_nat (off + Z.of_nat i - off)) with i by lia. unfold byte_at. by rewrite Hb.
Qed.
End Write.
