(* ===== verification/FsDir.v ===== *)
(** * Directories: [dirlookup] and [dirlink] against a list of entries

    [dents] is the list of the entries of a directory and [dir_lookup] the
    finite map it stands for. *)

From stdpp Require Import prelude strings list.
From S2P Require Import Prelude CString Bio BioInv BioThms Log LogThms LogCrash LogSpec Fs Dir FsRep FsAlloc FsFile FsBmap FsRead FsInode FsWrite.

Open Scope Z_scope.

(** ** Names *)
Definition no_nul (a : list Z) : Prop := Forall (fun c => c <> 0) a.
(** The 14 bytes that hold a name. *)
Definition field (a : list Z) : list Z := pad0 a DIRSIZ.

Lemma pad0_inj a : forall b n, no_nul a -> no_nul b -> pad0 a n = pad0 b n <-> take n a = take n b.
Proof.
  unfold pad0. induction a as [|x a IH]; intros b n Ha Hb.
  - destruct b as [|y b], n as [|n]; try done. apply Forall_cons in Hb as [Hy _]. simpl. split; intros H; congruence.
  - apply Forall_cons in Ha as [Hx Ha]. destruct n as [|n]; [done|]. destruct b as [|y b]; simpl.
    + split; intros H; congruence.
    + apply Forall_cons in Hb as [Hy Hb]. specialize (IH b n Ha Hb). split; intros [= -> H]; f_equal; by apply IH.
Qed.

Lemma strncmp_field a b r : no_nul a -> no_nul b -> exists v, strncmp (a ++ 0 :: r) (field b) DIRSIZ = Some v /\ (v = 0 <-> field b = field a).
Proof.
  intros Ha Hb. destruct (strncmp_pad a b DIRSIZ r [] Ha Hb) as (v & E & Hv). rewrite app_nil_r in E. exists v. split; [done|].
  rewrite Hv. unfold field. rewrite pad0_inj by done. done.
Qed.

(** ** Entries *)
Definition dent (V : Z -> block) (d : dinode) (i : Z) : dirent := get_dirent (fbytes V d (DESIZE * i) DESIZE).
Definition dents (V : Z -> block) (d : dinode) : list dirent := dent V d <$> seqZ 0 (di_size d / DESIZE).

Definition named (f : list Z) (de : dirent) : Prop := de_inum de <> 0 /\ de_name de = f.
#[global] Instance named_dec f de : Decision (named f de).
Proof. unfold named. apply _. Defined.

(** The inode number a directory gives for a name. *)
Definition dir_lookup (l : list dirent) (f : list Z) : option Z := (fun p => de_inum p.2) <$> list_find (named f) l.

Record dir_ok (V : Z -> block) (d : dinode) : Prop := {
  do_type : di_type d = T_DIR;
  do_size : di_size d mod DESIZE = 0;
  do_names : forall de, de ∈ dents V d -> de_inum de <> 0 -> exists b, no_nul b /\ de_name de = field b
}.

Lemma dir_multiples V d : dir_ok V d -> multiples DESIZE (di_size d) = (fun k => DESIZE * k) <$> seqZ 0 (di_size d / DESIZE).
Proof.
  intros [_ H _]. unfold multiples. do 2 f_equal. pose proof (Z.div_mod (di_size d) DESIZE ltac:(done)) as E. rewrite H in E. unfold DESIZE in *.
  symmetry. apply Z.div_unique with 15; lia.
Qed.

Lemma dents_lookup V d i de : dents V d !! i = Some de -> Z.of_nat i < di_size d / DESIZE /\ de = dent V d (Z.of_nat i).
Proof.
  unfold dents. intros H. rewrite list_lookup_fmap in H. destruct (seqZ 0 (di_size d / DESIZE) !! i) as [k|] eqn:E; [|done].
  apply lookup_seqZ in E as [-> E]. simpl in H. rewrite Z.add_0_l in H. by injection H as <-.
Qed.

Lemma dents_length V d : length (dents V d) = Z.to_nat (di_size d / DESIZE).
Proof. unfold dents. by rewrite length_fmap, length_seqZ. Qed.

Lemma dent_in V d k : 0 <= k < di_size d / DESIZE -> dent V d k ∈ dents V d.
Proof. intros H. apply list_elem_of_fmap_2, elem_of_seqZ. lia. Qed.

(** ** Loops that skip a prefix *)
Lemma for_until_skip {S X R} (I : S -> Prop) (body : X -> M S (option R)) l1 l2 s : I s ->
  (forall x s, x ∈ l1 -> I s -> exists s', body x s = Ok (None, s') /\ I s') ->
  exists s', for_until (l1 ++ l2) body s = for_until l2 body s' /\ I s'.
Proof.
  revert s. induction l1 as [|x l1 IH]; intros s Hs H; [by exists s|]. destruct (H x s) as (s1 & E & H1); [by left|done|].
  destruct (IH s1 H1) as (s2 & E2 & H2); [intros; apply H; [by right|done]|]. exists s2. simpl. by rewrite (bind_Ok _ _ _ _ _ E).
Qed.

Lemma for_until_none {S X R} (I : S -> Prop) (body : X -> M S (option R)) l s : I s ->
  (forall x s, x ∈ l -> I s -> exists s', body x s = Ok (None, s') /\ I s') -> exists s', for_until l body s = Ok (None, s') /\ I s'.
Proof. intros Hs H. destruct (for_until_skip I body l [] s Hs H) as (s' & E & H'). rewrite app_nil_r in E. by exists s'. Qed.

Section Scan.
Context (pid : Z) (dv : devsw).

Notation fstate := (fstate pid).
Notation wf_file := (wf_file pid).

(** Reads keep a file well formed. *)
Lemma wf_same s s' V bs ip x : wf_file s V bs ip x -> fstate s' V bs ip x -> same_rest s s' -> wf_file s' V bs ip x.
Proof using Type.
  intros [F Hh Hd Hi Hk] F' S. split; try done; [by rewrite (sr_fsb _ _ S)|]. unfold disk_inode, inode_block in *. by rewrite (sr_fsb _ _ S).
Qed.

Definition reading (s : fsst) (V : Z -> block) (bs : list Z) (dp : nat) (x : inode) (s' : fsst) : Prop := wf_file s' V bs dp x /\ same_rest s s'.

Lemma reading_refl s V bs dp x : wf_file s V bs dp x -> reading s V bs dp x s.
Proof using Type. by split. Qed.

Lemma dent_bounds d k : 0 <= k < di_size d / DESIZE -> 0 <= DESIZE * k /\ DESIZE * k + DESIZE <= di_size d.
Proof using Type. intros Hk. pose proof (Z.div_mod (di_size d) DESIZE ltac:(done)). pose proof (Z.mod_pos_bound (di_size d) DESIZE ltac:(done)). unfold DESIZE in *. lia. Qed.

Lemma read_dirent_run s0 s V bs dp x k msg : reading s0 V bs dp x s -> di_type (i_d x) = T_DIR -> (length bs < NBUF)%nat ->
  0 <= k < di_size (i_d x) / DESIZE ->
  exists s', read_dirent pid dv dp (DESIZE * k) msg s = Ok (dent V (i_d x) k, s') /\ reading s0 V bs dp x s'.
Proof using Type.
  intros [WF S] Ht HL Hk. destruct (dent_bounds _ _ Hk) as [H1 H2]. pose proof WF as [F Hh _ _ _].
  destruct (readi_run pid dv s V bs dp x (DESIZE * k) DESIZE F Hh) as (s' & E & F' & S'); try done; [by rewrite Ht|unfold DESIZE in *; lia|].
  assert (El : read_len (i_d x) (DESIZE * k) DESIZE = DESIZE) by (unfold read_len, DESIZE in *; lia). rewrite El in E.
  exists s'. unfold read_dirent. rewrite (bind_Ok _ _ _ _ _ E). split; [done|]. split; [by eapply wf_same|by etrans].
Qed.

(** ** iget *)
Definition cached (dev inum : Z) (y : inode) : Prop := 0 < i_ref y /\ i_dev y = dev /\ i_inum y = inum.

Lemma cached_test dev inum y : (0 <? i_ref y) && (i_dev y =? dev) && (i_inum y =? inum) = true <-> cached dev inum y.
Proof using Type. unfold cached. rewrite !andb_true_iff, Z.ltb_lt, !Z.eqb_eq. tauto. Qed.

Lemma iget_scan_spec l dev inum : forall k e,
  match iget_scan l k dev inum e with
  | inl i => exists y, (k <= i)%nat /\ l !! (i - k)%nat = Some y /\ cached dev inum y
  | inr r => (forall i y, l !! i = Some y -> ~ cached dev inum y) /\
      match e with
      | Some _ => r = e
      | None => match r with
        | Some i => exists y, (k <= i)%nat /\ l !! (i - k)%nat = Some y /\ i_ref y = 0
        | None => forall i y, l !! i = Some y -> i_ref y <> 0
        end
      end
  end.
Proof using Type.
  induction l as [|y l IH]; intros k e; cbn [iget_scan]; [destruct e; by split|].
  destruct ((0 <? i_ref y) && (i_dev y =? dev) && (i_inum y =? inum)) eqn:E.
  - apply cached_test in E. exists y. rewrite Nat.sub_diag. by split_and!.
  - assert (Hy : ~ cached dev inum y) by (rewrite <- cached_test, E; done).
    set (e' := match e with None => if i_ref y =? 0 then Some k else None | _ => e end).
    specialize (IH (S k) e'). destruct (iget_scan l (S k) dev inum e') as [i|r].
    + destruct IH as (z & Hi & Hz & Hc). exists z. split_and!; [lia| |done]. by replace (i - k)%nat with (S (i - S k)) by lia.
    + destruct IH as [Hn Hr]. split; [intros [|i] z Hz; [by injection Hz as <-|by eapply Hn]|].
      unfold e' in Hr. destruct e as [e|]; [done|]. destruct (Z.eqb_spec (i_ref y) 0) as [E0|E0].
      * subst r. exists y. rewrite Nat.sub_diag. by split_and!.
      * destruct r as [i|]; [|intros [|i] z Hz; [by injection Hz as <-|by eapply Hr]].
        destruct Hr as (z & Hi & Hz & H0). exists z. split_and!; [lia| |done]. by replace (i - k)%nat with (S (i - S k)) by lia.
Qed.

(** What [iget] does: it counts one more reference to the cached inode, or
    gives a free slot to one that is not cached. *)
Inductive gotten (s s' : fsst) (dev inum : Z) (ip : nat) : Prop :=
| got_cached y : icache s !! ip = Some y -> cached dev inum y ->
    s' = set_icache (<[ip := set_i_ref (s32 (i_ref y + 1)) y]> (icache s)) s -> gotten s s' dev inum ip
| got_free y : icache s !! ip = Some y -> i_ref y = 0 -> (forall i z, icache s !! i = Some z -> ~ cached dev inum z) ->
    s' = set_icache (<[ip := mkIn dev inum 1 (i_lock y) false (i_d y)]> (icache s)) s -> gotten s s' dev inum ip.

Definition slot_for (s : fsst) (dev inum : Z) : Prop := exists i y, icache s !! i = Some y /\ (cached dev inum y \/ i_ref y = 0).

Lemma iget_run s dev inum : slot_for s dev inum -> exists ip s', iget dev inum s = Ok (ip, s') /\ gotten s s' dev inum ip.
Proof using Type.
  intros (i & y & Hi & Hy). unfold iget. rewrite (bind_Ok _ _ _ s s) by done.
  pose proof (iget_scan_spec (icache s) dev inum 0 None) as H. destruct (iget_scan (icache s) 0 dev inum None) as [k|[k|]].
  - destruct H as (z & _ & Hz & Hc). rewrite Nat.sub_0_r in Hz. rewrite (bind_Ok _ _ _ _ _ (upd_inode_run s k _ z Hz)).
    eexists k, _. split; [done|]. by eapply got_cached.
  - destruct H as [Hn (z & _ & Hz & H0)]. rewrite Nat.sub_0_r in Hz. rewrite (bind_Ok _ _ _ _ _ (upd_inode_run s k _ z Hz)).
    eexists k, _. split; [done|]. by eapply got_free.
  - destruct H as [Hn H0]. destruct Hy as [Hy|Hy]; [by destruct (Hn i y)|by destruct (H0 i y)].
Qed.

Lemma iget_full s dev inum : ~ slot_for s dev inum -> iget dev inum s = Panic "iget: no inodes".
Proof using Type.
  intros Hn. unfold iget. rewrite (bind_Ok _ _ _ s s) by done.
  pose proof (iget_scan_spec (icache s) dev inum 0 None) as H. destruct (iget_scan (icache s) 0 dev inum None) as [k|[k|]]; [| |done]; destruct Hn.
  - destruct H as (z & _ & Hz & Hc). exists (k - 0)%nat, z. auto.
  - destruct H as [_ (z & _ & Hz & Hc)]. exists (k - 0)%nat, z. auto.
Qed.

(** ** dirlookup *)
Lemma lookup_body_skip s0 s V bs dp x a r k : reading s0 V bs dp x s -> dir_ok V (i_d x) -> (length bs < NBUF)%nat -> no_nul a ->
  0 <= k < di_size (i_d x) / DESIZE -> ~ named (field a) (dent V (i_d x) k) ->
  exists s', lookup_body pid dv dp (a ++ 0 :: r) (DESIZE * k) s = Ok (None, s') /\ reading s0 V bs dp x s'.
Proof using Type.
  intros R [Ht _ Hn] HL Ha Hk Hne. destruct (read_dirent_run s0 s V bs dp x k "dirlookup read" R Ht HL Hk) as (s1 & E1 & R1).
  exists s1. split; [|done]. unfold lookup_body. rewrite (bind_Ok _ _ _ _ _ E1). destruct (Z.eqb_spec (de_inum (dent V (i_d x) k)) 0) as [|Hz]; [done|].
  destruct (Hn _ (dent_in V _ k Hk) Hz) as (b & Hb & Eb). destruct (strncmp_field a b r Ha Hb) as (v & Ev & Hv).
  unfold namecmp. rewrite Eb, Ev, (bind_Ok _ _ _ v s1) by done. destruct (Z.eqb_spec v 0) as [E0|]; [|done]. destruct Hne. split; [done|]. rewrite Eb. by apply Hv.
Qed.

Lemma lookup_body_hit s0 s V bs dp x a r k : reading s0 V bs dp x s -> dir_ok V (i_d x) -> (length bs < NBUF)%nat -> no_nul a ->
  0 <= k < di_size (i_d x) / DESIZE -> named (field a) (dent V (i_d x) k) -> slot_for s0 (i_dev x) (de_inum (dent V (i_d x) k)) ->
  exists ip s1 s', lookup_body pid dv dp (a ++ 0 :: r) (DESIZE * k) s = Ok (Some (ip, DESIZE * k), s') /\ reading s0 V bs dp x s1 /\
    gotten s1 s' (i_dev x) (de_inum (dent V (i_d x) k)) ip.
Proof using Type.
  intros R [Ht _ _] HL Ha Hk [Hz Eb] Hsl. destruct (read_dirent_run s0 s V bs dp x k "dirlookup read" R Ht HL Hk) as (s1 & E1 & R1).
  pose proof R1 as [WF S]. destruct (strncmp_field a a r Ha Ha) as (v & Ev & Hv).
  destruct (iget_run s1 (i_dev x) (de_inum (dent V (i_d x) k))) as (ip & s' & E & G); [unfold slot_for; by rewrite (sr_icache _ _ S)|].
  exists ip, s1, s'. split; [|done]. unfold lookup_body. rewrite (bind_Ok _ _ _ _ _ E1). destruct (Z.eqb_spec (de_inum (dent V (i_d x) k)) 0) as [|_]; [done|].
  unfold namecmp. rewrite Eb, Ev, (bind_Ok _ _ _ v s1) by done. destruct (Z.eqb_spec v 0) as [E0|Hv0]; [|by destruct Hv0; apply Hv].
  rewrite (bind_Ok _ _ _ _ _ (get_inode_run s1 dp x (fs_ip _ _ _ _ _ _ (wf_state _ _ _ _ _ _ WF)))). by rewrite (bind_Ok _ _ _ _ _ E).
Qed.

Lemma dirlookup_miss s V bs dp x a r : wf_file s V bs dp x -> dir_ok V (i_d x) -> (length bs < NBUF)%nat -> no_nul a ->
  list_find (named (field a)) (dents V (i_d x)) = None ->
  exists s', dirlookup pid dv dp (a ++ 0 :: r) s = Ok (None, s') /\ reading s V bs dp x s'.
Proof using Type.
  intros WF D HL Ha Hf. unfold dirlookup. rewrite (bind_Ok _ _ _ _ _ (get_inode_run s dp x (fs_ip _ _ _ _ _ _ (wf_state _ _ _ _ _ _ WF)))).
  rewrite (do_type _ _ D), Z.eqb_refl. cbn [negb]. rewrite (dir_multiples V) by done. apply list_find_None in Hf. rewrite Forall_forall in Hf.
  apply (for_until_none (reading s V bs dp x)); [by apply reading_refl|]. intros o s1 (k & -> & Hk%elem_of_seqZ)%list_elem_of_fmap_1 R.
  apply lookup_body_skip; [done..|lia|]. apply Hf, dent_in. lia.
Qed.

Lemma dirlookup_hit s V bs dp x a r i de : wf_file s V bs dp x -> dir_ok V (i_d x) -> (length bs < NBUF)%nat -> no_nul a ->
  list_find (named (field a)) (dents V (i_d x)) = Some (i, de) -> slot_for s (i_dev x) (de_inum de) ->
  exists ip s1 s', dirlookup pid dv dp (a ++ 0 :: r) s = Ok (Some (ip, DESIZE * Z.of_nat i), s') /\ reading s V bs dp x s1 /\
    gotten s1 s' (i_dev x) (de_inum de) ip.
Proof using Type.
  intros WF D HL Ha (Hi & Hm & Hb)%list_find_Some Hsl. apply dents_lookup in Hi as [Hi ->].
  unfold dirlookup. rewrite (bind_Ok _ _ _ _ _ (get_inode_run s dp x (fs_ip _ _ _ _ _ _ (wf_state _ _ _ _ _ _ WF)))).
  rewrite (do_type _ _ D), Z.eqb_refl. cbn [negb]. rewrite (dir_multiples V) by done. rewrite (seqZ_split 0 _ (Z.of_nat i)), fmap_app by lia.
  destruct (for_until_skip (reading s V bs dp x) (lookup_body pid dv dp (a ++ 0 :: r)) ((fun k => DESIZE * k) <$> seqZ 0 (Z.of_nat i))
    ((fun k => DESIZE * k) <$> seqZ (0 + Z.of_nat i) (di_size (i_d x) / DESIZE - Z.of_nat i)) s) as (s1 & -> & R1).
  { by apply reading_refl. }
  { intros o s1 (k & -> & Hk%elem_of_seqZ)%list_elem_of_fmap_1 R. apply lookup_body_skip; [done..|lia|].
    apply (Hb (Z.to_nat k)); [|lia]. unfold dents. rewrite list_lookup_fmap, lookup_seqZ_lt by lia. simpl. do 2 f_equal. lia. }
  rewrite seqZ_cons by lia. cbn [fmap list_fmap for_until].
  destruct (lookup_body_hit s s1 V bs dp x a r (0 + Z.of_nat i) R1 D HL Ha) as (ip & s2 & s3 & E & R2 & G); [lia|done|done|].
  exists ip, s2, s3. by rewrite (bind_Ok _ _ _ _ _ E).
Qed.
End Scan.

(** ** Adding an entry to the list *)
Lemma dir_lookup_cons de l f : dir_lookup (de :: l) f = if decide (named f de) then Some (de_inum de) else dir_lookup l f.
Proof.
  unfold dir_lookup. cbn [list_find]. case_decide; [done|]. by destruct (list_find (named f) l) as [[]|].
Qed.

Lemma dir_lookup_app l1 l2 f : dir_lookup (l1 ++ l2) f = match dir_lookup l1 f with Some v => Some v | None => dir_lookup l2 f end.
Proof.
  induction l1 as [|de l1 IH]; [done|]. cbn [app]. rewrite !dir_lookup_cons. case_decide; [done|]. apply IH.
Qed.

Definition replace_at (l : list dirent) (i : nat) (de : dirent) : list dirent := take i l ++ de :: drop (S i) l.

(** The first free entry, or the end. *)
Definition free_slot (l : list dirent) : nat :=
  match list_find (fun de => de_inum de = 0) l with Some (i, _) => i | None => length l end.

Lemma free_slot_le l : (free_slot l <= length l)%nat.
Proof. unfold free_slot. destruct (list_find _ l) as [[i de]|] eqn:E; [|done]. apply list_find_Some in E as (E & _). apply lookup_lt_Some in E. lia. Qed.

Lemma free_slot_free l de : l !! free_slot l = Some de -> de_inum de = 0.
Proof.
  unfold free_slot. destruct (list_find _ l) as [[i de']|] eqn:E.
  - apply list_find_Some in E as (E & H & _). intros. congruence.
  - intros H%lookup_lt_Some. lia.
Qed.

Lemma dir_lookup_link l de f : de_inum de <> 0 -> dir_lookup l (de_name de) = None ->
  dir_lookup (replace_at l (free_slot l) de) f = if decide (f = de_name de) then Some (de_inum de) else dir_lookup l f.
Proof.
  intros Hz Hn. set (i := free_slot l). assert (Hold : forall g, dir_lookup l g = dir_lookup (take i l ++ drop (S i) l) g).
  { intros g. destruct (l !! i) as [o|] eqn:E.
    - rewrite <- (take_drop_middle l i o E) at 1. rewrite !dir_lookup_app, dir_lookup_cons. rewrite (decide_False (P := named g o)); [done|].
      intros [H _]. by apply free_slot_free in E.
    - apply lookup_ge_None in E. rewrite take_ge, drop_ge, app_nil_r by lia. done. }
  rewrite Hold, dir_lookup_app in Hn. unfold replace_at. rewrite Hold, !dir_lookup_app, dir_lookup_cons. destruct (decide (f = de_name de)) as [->|Hf].
  - destruct (dir_lookup (take i l) (de_name de)); [done|]. by destruct (decide (named (de_name de) de)) as [|[]].
  - destruct (decide (named f de)) as [[_ Hd]|]; [by destruct Hf|done].
Qed.

Lemma list_find_lookup l f : list_find (named f) l = None <-> dir_lookup l f = None.
Proof. unfold dir_lookup. by destruct (list_find (named f) l). Qed.

(** ** The bytes of an entry *)
Lemma put_dirent_length de : length (de_name de) = DIRSIZ -> length (put_dirent de) = 16%nat.
Proof. intros H. unfold put_dirent. rewrite length_app, H. done. Qed.

Lemma get_put_dirent de : 0 <= de_inum de < 2 ^ 16 -> length (de_name de) = DIRSIZ -> get_dirent (put_dirent de) = de.
Proof.
  intros Hi Hn. destruct de as [n f]. cbn [de_inum de_name] in *. unfold get_dirent, put_dirent, slice. cbn [de_inum de_name app drop]. rewrite drop_0, take_ge by (by rewrite Hn).
  f_equal. unfold get16, byte_at. cbn. rewrite Z.shiftr_div_pow2 by lia. change (2 ^ 8) with 256.
  rewrite (Z.mod_small (n / 256)); [pose proof (Z.div_mod n 256 ltac:(lia)); lia|]. split; [apply Z.div_pos; lia|apply Z.div_lt_upper_bound; lia].
Qed.

(** The entries after writing one at entry [i]. *)
Lemma dents_written V V' d d' i de : no_holes V d -> di_size d mod DESIZE = 0 -> (i <= length (dents V d))%nat ->
  0 <= de_inum de < 2 ^ 16 -> length (de_name de) = DIRSIZ -> di_size d + DESIZE <= MAXFILE * BSIZE ->
  di_size d' = Z.max (di_size d) (DESIZE * Z.of_nat i + DESIZE) ->
  (forall k, 0 <= k < MAXFILE * BSIZE -> fbyte V' d' k =
    if decide (DESIZE * Z.of_nat i <= k < DESIZE * Z.of_nat i + DESIZE) then byte_at (put_dirent de) (Z.to_nat (k - DESIZE * Z.of_nat i)) else fbyte V d k) ->
  dents V' d' = replace_at (dents V d) i de.
Proof.
  intros [Hsz _] Hmod Hi Hin Hnm Hmax Hs' Hb. rewrite dents_length in Hi. pose proof (Z.div_mod (di_size d) DESIZE ltac:(done)) as Ed. rewrite Hmod in Ed.
  set (n := di_size d / DESIZE) in *. assert (Hn : 0 <= n) by (apply Z.div_pos; [lia|done]).
  assert (En : di_size d' / DESIZE = Z.max n (Z.of_nat i + 1)).
  { rewrite Hs'. symmetry. apply Z.div_unique with 0; unfold DESIZE in *; lia. }
  assert (Hd : forall k, 0 <= k < Z.max n (Z.of_nat i + 1) -> dent V' d' k = if decide (k = Z.of_nat i) then de else dent V d k).
  { intros k Hk. unfold dent. case_decide as Ek.
    - subst k. rewrite <- (get_put_dirent de) by done. f_equal. change DESIZE with (Z.of_nat 16) at 2.
      rewrite <- (put_dirent_length de) by done. eapply written_bytes; [|unfold DESIZE; lia|rewrite put_dirent_length by done; unfold DESIZE in *; lia].
      intros k Hk'. rewrite put_dirent_length by done. by apply (Hb k).
    - f_equal. unfold fbytes. apply list_fmap_ext. intros j c [-> Hj]%lookup_seqZ. rewrite Hb by (unfold DESIZE in *; lia).
      rewrite decide_False by (unfold DESIZE in *; lia). done. }
  apply list_eq. intros j. unfold replace_at. destruct (decide (Z.of_nat j < Z.max n (Z.of_nat i + 1))) as [Hj|Hj].
  - unfold dents at 1. rewrite En, list_lookup_fmap, lookup_seqZ_lt by lia. cbn [fmap option_fmap option_map]. rewrite Z.add_0_l, Hd by lia.
    assert (Hlk : forall j, Z.of_nat j < n -> dents V d !! j = Some (dent V d (Z.of_nat j))).
    { intros j' Hj'. unfold dents. fold n. rewrite list_lookup_fmap, lookup_seqZ_lt by lia. done. }
    destruct (Nat.lt_trichotomy j i) as [H|[->|H]].
    + rewrite lookup_app_l by (rewrite length_take, dents_length; fold n; lia). rewrite lookup_take_lt, Hlk, decide_False by lia. done.
    + rewrite lookup_app_r by (rewrite length_take; lia). rewrite length_take, dents_length. fold n. rewrite Nat.min_l, Nat.sub_diag by lia. by rewrite decide_True.
    + rewrite lookup_app_r by (rewrite length_take; lia). rewrite length_take, dents_length. fold n. rewrite Nat.min_l by lia.
      replace (j - i)%nat with (S (j - S i)) by lia. rewrite <- lookup_tail; cbn [tail]; rewrite lookup_drop. replace (S i + (j - S i))%nat with j by lia. rewrite Hlk, decide_False by lia. done.
  - rewrite !lookup_ge_None_2; [done| |].
    + rewrite length_app, length_take. cbn. rewrite length_drop, dents_length. fold n. lia.
    + rewrite dents_length, En. lia.
Qed.

Section Link.
Context (pid : Z) (dv : devsw).

Notation fstate := (fstate pid).
Notation wf_file := (wf_file pid).
Notation reading := (reading pid).

(** ** dirlink *)
Lemma empty_body_run s0 s V bs dp x k : reading s0 V bs dp x s -> dir_ok V (i_d x) -> (length bs < NBUF)%nat -> 0 <= k < di_size (i_d x) / DESIZE ->
  exists s', empty_body pid dv dp (DESIZE * k) s = Ok (if de_inum (dent V (i_d x) k) =? 0 then Some (DESIZE * k) else None, s') /\ reading s0 V bs dp x s'.
Proof using Type.
  intros R [Ht _ _] HL Hk. destruct (read_dirent_run pid dv s0 s V bs dp x k "dirlink read" R Ht HL Hk) as (s1 & E1 & R1).
  exists s1. unfold empty_body. by rewrite (bind_Ok _ _ _ _ _ E1).
Qed.

(** The offset of the new entry. *)
Lemma empty_scan s V bs dp x : wf_file s V bs dp x -> dir_ok V (i_d x) -> (length bs < NBUF)%nat ->
  exists e s', for_until (multiples DESIZE (di_size (i_d x))) (empty_body pid dv dp) s = Ok (e, s') /\ reading s V bs dp x s' /\
    match e with Some off => off | None => DESIZE * Z.of_nat (length (multiples DESIZE (di_size (i_d x)))) end = DESIZE * Z.of_nat (free_slot (dents V (i_d x))).
Proof using Type.
  intros WF D HL. rewrite (dir_multiples V), length_fmap, length_seqZ, <- (dents_length V) by done. unfold free_slot.
  assert (Hskip : forall k s1, 0 <= k < di_size (i_d x) / DESIZE -> de_inum (dent V (i_d x) k) <> 0 -> reading s V bs dp x s1 ->
    exists s', empty_body pid dv dp (DESIZE * k) s1 = Ok (None, s') /\ reading s V bs dp x s').
  { intros k s1 Hk Hz R. destruct (empty_body_run s s1 V bs dp x k R D HL Hk) as (s' & E & R'). exists s'. destruct (Z.eqb_spec (de_inum (dent V (i_d x) k)) 0); [done|by split]. }
  destruct (list_find _ (dents V (i_d x))) as [[i de]|] eqn:Hf.
  - apply list_find_Some in Hf as (Hi & Hz & Hb). apply dents_lookup in Hi as [Hi ->]. rewrite (seqZ_split 0 _ (Z.of_nat i)), fmap_app by lia.
    destruct (for_until_skip (reading s V bs dp x) (empty_body pid dv dp) ((fun k => DESIZE * k) <$> seqZ 0 (Z.of_nat i))
      ((fun k => DESIZE * k) <$> seqZ (0 + Z.of_nat i) (di_size (i_d x) / DESIZE - Z.of_nat i)) s) as (s1 & -> & R1).
    { by apply reading_refl. }
    { intros o s1 (k & -> & Hk%elem_of_seqZ)%list_elem_of_fmap_1 R. apply Hskip; [lia| |done].
      apply (Hb (Z.to_nat k)); [|lia]. unfold dents. rewrite list_lookup_fmap, lookup_seqZ_lt by lia. simpl. do 2 f_equal. lia. }
    rewrite seqZ_cons by lia. cbn [fmap list_fmap for_until].
    destruct (empty_body_run s s1 V bs dp x (0 + Z.of_nat i) R1 D HL) as (s2 & E & R2); [lia|].
    exists (Some (DESIZE * Z.of_nat i)), s2. rewrite Z.add_0_l in *. rewrite Hz in E. by rewrite (bind_Ok _ _ _ _ _ E).
  - apply list_find_None in Hf. rewrite Forall_forall in Hf.
    destruct (for_until_none (reading s V bs dp x) (empty_body pid dv dp) ((fun k => DESIZE * k) <$> seqZ 0 (di_size (i_d x) / DESIZE)) s) as (s1 & E & R1).
    { by apply reading_refl. }
    { intros o s1 (k & -> & Hk%elem_of_seqZ)%list_elem_of_fmap_1 R. apply Hskip; [lia| |done]. apply Hf, dent_in. lia. }
    by exists None, s1.
Qed.

Lemma file_written_pre s s1 s' V V' ip x x' off l : same_rest s s1 -> file_written s1 s' V V' ip x x' off l -> file_written s s' V V' ip x x' off l.
Proof using Type.
  intros S [F1 F2 F3 F4 F5 F6]. pose proof (bmb_env _ _ S) as Eb. pose proof (sr_fsb _ _ S) as Es. unfold disk_inode, inode_block in *. rewrite Es, Eb in *.
  split; try done; [etrans; [apply S|done]|by rewrite F2, (sr_icache _ _ S)].
Qed.

Lemma dirlink_run s V bs dp x a r inum garbage : wf_file s V bs dp x -> dir_ok V (i_d x) -> no_nul a ->
  dir_lookup (dents V (i_d x)) (field a) = None -> 0 < inum < 2 ^ 16 -> length garbage = DIRSIZ ->
  di_size (i_d x) + DESIZE <= MAXFILE * BSIZE -> space s bs 7 -> (2 <= nfree s V)%nat ->
  let i := free_slot (dents V (i_d x)) in let de := mkDe inum (field a) in
  exists s' V' bs' x', dirlink pid dv garbage dp (a ++ 0 :: r) inum s = Ok (0, s') /\ wf_file s' V' bs' dp x' /\
    file_written s s' V V' dp x x' (DESIZE * Z.of_nat i) (put_dirent de) /\ dir_ok V' (i_d x') /\ (length bs' <= 4 + length bs)%nat /\ dents V' (i_d x') = replace_at (dents V (i_d x)) i de.
Proof using Type.
  intros WF D Ha Hn Hin Hg Hmax Hsp Hfr i de. pose proof WF as [F Hh _ _ _]. pose proof (space_bufs pid s V bs [] 7 (fs_rep _ _ _ _ _ _ F) Hsp) as HL.
  destruct (dirlookup_miss pid dv s V bs dp x a r WF D HL Ha) as (s1 & E1 & WF1 & S1); [by apply list_find_lookup|].
  destruct (empty_scan s1 V bs dp x WF1 D HL) as (e & s2 & E2 & [WF2 S2] & Eo). fold i in Eo.
  assert (Hfl : length (field a) = DIRSIZ) by apply pad0_length. assert (Hlen : Z.of_nat (length (put_dirent de)) = DESIZE) by (by rewrite put_dirent_length).
  pose proof (free_slot_le (dents V (i_d x))) as Hi. fold i in Hi. pose proof Hi as Hi'. rewrite dents_length in Hi'.
  assert (Hoff : 0 <= DESIZE * Z.of_nat i <= di_size (i_d x)).
  { pose proof (Z.div_mod (di_size (i_d x)) DESIZE ltac:(done)). rewrite (do_size _ _ D) in *. destruct Hh as [Hsz _].
    assert (0 <= di_size (i_d x) / DESIZE) by (apply Z.div_pos; [lia|done]). unfold DESIZE in *. lia. }
  assert (Hm : write_blocks (DESIZE * Z.of_nat i) DESIZE = 1%nat).
  { unfold write_blocks. replace ((DESIZE * Z.of_nat i) mod BSIZE) with (DESIZE * (Z.of_nat i mod 32)) by (symmetry; apply (Zmult_mod_distr_l (Z.of_nat i) 32 16)).
    pose proof (Z.mod_pos_bound (Z.of_nat i) 32 ltac:(done)). replace (_ / BSIZE) with 1; [done|]. apply Z.div_unique with (DESIZE * (Z.of_nat i mod 32) + 15); unfold DESIZE, BSIZE in *; lia. }
  assert (S12 : same_rest s s2) by (by etrans).
  destruct (writei_run pid dv s2 V bs dp x (DESIZE * Z.of_nat i) (put_dirent de) WF2) as (s3 & V3 & bs3 & x3 & E3 & WF3 & FW & Hlb & _).
  { by rewrite (do_type _ _ D). }
  { done. }
  { rewrite Hlen. lia. }
  { rewrite Hlen, Hm. unfold space in *. rewrite (sr_size _ _ S12), (sr_ops _ _ S12). lia. }
  { rewrite Hlen, Hm, (nfree_same s s2 V); [done|apply S12|done]. }
  rewrite Hlen in E3. pose proof FW as [_ _ Fi Fb _ _]. rewrite Hlen in Fi, Fb.
  assert (Esz : di_size (i_d x3) = Z.max (di_size (i_d x)) (DESIZE * Z.of_nat i + DESIZE)) by (rewrite Fi; done).
  assert (Ety : di_type (i_d x3) = T_DIR) by (rewrite Fi; apply D).
  assert (Ed : dents V3 (i_d x3) = replace_at (dents V (i_d x)) i de).
  { apply dents_written; try done; [apply D|cbn; lia]. }
  exists s3, V3, bs3, x3. rewrite Hlen, Hm in Hlb. split_and!; [|done|by eapply file_written_pre| |lia|done].
  - unfold dirlink. rewrite (bind_Ok _ _ _ _ _ E1). rewrite (bind_Ok _ _ _ _ _ (get_inode_run s1 dp x (fs_ip _ _ _ _ _ _ (wf_state _ _ _ _ _ _ WF1)))).
    rewrite (bind_Ok _ _ _ _ _ E2), Eo, strncpy_spec by (done || lia). rewrite (bind_Ok _ _ _ (pad0 a DIRSIZ ++ drop DIRSIZ garbage) s2) by done.
    rewrite drop_ge, app_nil_r by lia. rewrite Z.mod_small by lia. by rewrite (bind_Ok _ _ _ _ _ E3).
  - split; [done| |].
    + rewrite Esz. pose proof (do_size _ _ D) as Hz. destruct (Z.max_spec (di_size (i_d x)) (DESIZE * Z.of_nat i + DESIZE)) as [[_ ->]|[_ ->]]; [|done].
      replace (DESIZE * Z.of_nat i + DESIZE) with ((Z.of_nat i + 1) * DESIZE) by lia. apply Z.mod_mul. done.
    + intros de' Hde Hz. rewrite Ed in Hde. apply elem_of_app in Hde as [Hde|[->|Hde]%elem_of_cons]; [|by exists a|].
      * apply (do_names _ _ D); [|done]. apply list_elem_of_lookup in Hde as (j & Hj). rewrite lookup_take_Some in Hj. eapply list_elem_of_lookup_2. apply Hj.
      * apply (do_names _ _ D); [|done]. apply list_elem_of_lookup in Hde as (j & Hj). rewrite lookup_drop in Hj. by eapply list_elem_of_lookup_2.
Qed.
End Link.
