(* ===== verification/FsTxn.v ===== *)
(** * Transactions around file system operations

    [begin_op] and [end_op] at the level of the blocks that the file system
    sees, locking of inodes, and [writei] from a longer buffer. *)

From stdpp Require Import prelude strings list.
From S2P Require Import Prelude CString Bio BioInv BioThms Log LogThms LogCrash LogSpec Fs Dir FsRep FsAlloc FsFile FsBmap FsRead FsInode FsWrite FsDir.

Open Scope Z_scope.

(** What a transaction as a whole leaves alone. *)
Record same_fs (s s' : fsst) : Prop := {
  sf_fsb : fsb s' = fsb s;
  sf_dev : lg_dev (flg s') = lg_dev (flg s);
  sf_start : lg_start (flg s') = lg_start (flg s);
  sf_size : lg_size (flg s') = lg_size (flg s)
}.

#[global] Instance same_fs_po : PreOrder same_fs.
Proof. split; [by intros s; split|]. intros s1 s2 s3 [] []. split; congruence. Qed.

Lemma env_fs s s' : same_env s s' -> same_fs s s'.
Proof. intros []. by split. Qed.

(** No transaction is open. *)
Record idle_log (s : fsst) : Prop := {
  il_ops : lg_outstanding (flg s) = 0;
  il_commit : lg_committing (flg s) = false
}.

Section Txn.
Context (pid : Z).

Notation rep := (rep pid).
Notation wf_file := (wf_file pid).

Lemma rep_unlocked s a V bs : rep_with pid s a V bs [] -> unlocked a.
Proof using Type.
  intros H v b Hv. apply not_true_is_false. intros Hl. by destruct (rp_locked _ _ _ _ _ _ H v b Hv Hl) as [_ ?%elem_of_nil].
Qed.

Lemma begin_rep s V : rep s V [] [] -> idle_log s -> exists s', in_log begin_op s = Ok (true, s') /\ rep s' V [] [] /\ same_fs s s' /\
  icache s' = icache s /\ fout s' = fout s /\ lg_outstanding (flg s') = 1 /\ lg_committing (flg s') = false.
Proof using Type.
  intros [a H] [Ho Hc]. pose proof (li_n _ _ _ _ (rp_inv _ _ _ _ _ _ H)) as Hn. cbn in Hn. unfold flg in *.
  eexists (set_flog (mkLst (lb (flog s)) (set_ops 1 false (lg (flog s)))) s). split.
  - apply in_log_Ok. unfold begin_op. rewrite (bind_Ok _ _ _ (flog s) (flog s)) by done. rewrite Hc, Ho, Hn. by destruct (flog s).
  - split; [|by repeat split]. exists a. destruct H as [H1 H2 H3 H4 H5 H6]. split; cbn; try done.
    apply linv_ops. by destruct (flog s).
Qed.

Lemma apply_writes_length (n : nat) ws f v b : (forall b, length (f v b) = n) -> (forall w, w ∈ ws -> length w.2 = n) -> length (apply_writes ws f v b) = n.
Proof using Type.
  revert f. induction ws as [|[[w c] d] ws IH]; intros f Hf Hw; [apply Hf|]. rewrite apply_cons. apply IH.
  - intros b'. unfold upd2. destruct (_ && _); [|apply Hf]. apply (Hw (w, c, d)). by left.
  - intros w' Hw'. apply Hw. by right.
Qed.

(** After the last [end_op] the disk holds what the transaction saw. *)
Lemma end_rep s V bs : rep s V bs [] -> blocks_ok V -> lg_outstanding (flg s) = 1 -> lg_committing (flg s) = false ->
  exists s' V', in_log (end_op pid) s = Ok (tt, s') /\ rep s' V' [] [] /\ blocks_ok V' /\ (forall b, outside (flg s) b -> V' b = V b) /\
    same_fs s s' /\ icache s' = icache s /\ fout s' = fout s /\ idle_log s'.
Proof using Type.
  intros [a H] Hb Ho Hc. pose proof (rep_unlocked _ _ _ _ H) as Hul. pose proof (rp_inv _ _ _ _ _ _ H) as Hi. unfold flg in *.
  destruct (flog s) as [b l] eqn:El. cbn [lg lb] in *.
  destruct (end_op_run pid b l a bs Hi Hul Ho Hc) as (b' & W & E & Hb' & HL & Hout & Hlen & _).
  set (l2 := set_ops 0 false _) in *. set (a' := a_write W a) in *.
  assert (Hul' : unlocked a') by done. assert (Hv : forall c, a_view a (lg_dev l) c = V c) by (intros; by rewrite <- (rp_view _ _ _ _ _ _ H); unfold flg; rewrite El).
  assert (Hb2 : blocks_ok (a_view a' (lg_dev l))).
  { intros c. unfold a'. cbn [a_write a_view]. assert (Hlv : forall x, length (a_view a (lg_dev l) x) = Z.to_nat BSIZE) by (intros; by rewrite Hv).
    apply apply_writes_length; [done|]. intros w Hw. by apply Hlen. }
  exists (set_flog (mkLst b' l2) s), (a_view a' (lg_dev l)). split; [apply in_log_Ok; by rewrite El|]. split.
  { exists a'. split; cbn; try done.
    - intros v c Hv0 Hl. pose proof (Hul v c Hv0). congruence.
    - intros i c Hin. by apply elem_of_nil in Hin.
    - constructor.
    - intros c Hin. by apply elem_of_nil in Hin. }
  split_and!; try done; [|split; cbn; unfold flg; by rewrite ?El].
  intros c Hx. rewrite <- Hv, <- Hout by done. apply (linv_view pid (mkLst b' l2) a' []); [done|done|by apply not_elem_of_nil].
Qed.

(** ** What a file needs *)
Lemma inode_ok_fs s s' V d : same_fs s s' -> inode_ok s V d -> inode_ok s' V d.
Proof using Type.
  intros S [I1 I2 I3 I4]. split; try done; unfold data_block, bmb in *; rewrite (sf_fsb _ _ S); done.
Qed.

(** The blocks that matter to files agree. *)
Definition same_data (s : fsst) (V V' : Z -> block) : Prop := forall b, sb_inodestart (fsb s) <= b -> V' b = V b.

Section SameData.
Context (s : fsst) (V V' : Z -> block) (d : dinode).
Hypothesis Hsame : same_data s V V'.
Hypothesis G : geo s.
Hypothesis Hok : inode_ok s V d.

Lemma data_meta b : bmb s <= b -> V' b = V b.
Proof using Hsame G. intros H. apply Hsame. destruct (geo_facts s G). lia. Qed.

Lemma data_fblock bn : fblock V' d bn = fblock V d bn.
Proof using Hsame G Hok. apply (meta_fblock s); [apply data_meta|done]. Qed.

Lemma data_byte k : 0 <= k < MAXFILE * BSIZE -> fbyte V' d k = fbyte V d k.
Proof using Hsame G Hok. apply (meta_byte s); [apply data_meta|done]. Qed.
End SameData.

Lemma wf_move s s' V V' bs bs' ip x x' : wf_file s V bs ip x -> rep s' V' bs' [] -> blocks_ok V' -> same_data s V V' -> same_fs s s' ->
  icache s' !! ip = Some x' -> i_d x' = i_d x -> i_dev x' = i_dev x -> i_inum x' = i_inum x -> wf_file s' V' bs' ip x'.
Proof using Type.
  intros [[G R Hb Hbm Hip Hdev Hok] [Hsz Hh] Hd Hin Hdk] R' Hb' Hs S Hip' Ed Ev En. pose proof S as [S1 S2 S3 S4]. destruct (geo_facts s G) as [G1 G2].
  assert (Hm : forall b, bmb s <= b -> V' b = V b) by (intros; by apply (data_meta s V V')). assert (Ebm : bmb s' = bmb s) by (unfold bmb; by rewrite S1).
  split; rewrite ?Ed, ?En; [| |done|by rewrite S1|].
  - split; try done.
    + destruct G. pose proof (rep_lwf _ _ _ _ _ R'). split; rewrite ?S1, ?S3, ?S4; done.
    + rewrite Ebm, Hm by lia. destruct Hbm as [B1 B2]. split; [done|]. by rewrite Ebm.
    + by rewrite Ev, S2.
    + rewrite Ed. eapply inode_ok_fs; [done|]. by apply (meta_inode_ok s V).
  - split; [done|]. intros bn H1 H2. rewrite (data_fblock s V); auto.
  - rewrite <- Hdk. unfold disk_inode, inode_block. rewrite S1. by rewrite Hs by (assert (0 <= i_inum x / IPB) by (apply Z.div_pos; [lia|done]); lia).
Qed.

Lemma nfree_data s s' V V' : geo s -> same_fs s s' -> same_data s V V' -> nfree s' V' = nfree s V.
Proof using Type. intros G S Hs. apply nfree_same; [apply S|]. apply Hs. destruct (geo_facts s G). lia. Qed.

(** ** Locks *)
Lemma ilock_run s ip x : icache s !! ip = Some x -> 1 <= i_ref x -> i_valid x = true -> sl_locked (i_lock x) = false ->
  ilock pid ip s = Ok (tt, set_icache (<[ip := set_i_lock (mkSl true pid) x]> (icache s)) s).
Proof using Type.
  intros Hip Hr Hv Hl. unfold ilock. rewrite (bind_Ok _ _ _ s s) by done. rewrite (bind_Ok _ _ _ _ _ (get_inode_run s ip x Hip)).
  destruct (Z.ltb_spec (i_ref x) 1); [lia|]. unfold lock_inode.
  erewrite bind_Ok; [by rewrite Hv|]. rewrite (bind_Ok _ _ _ _ _ (get_inode_run s ip x Hip)). unfold acquiresleep. rewrite Hl.
  rewrite (bind_Ok _ _ _ (mkSl true pid) s) by done. by apply upd_inode_run.
Qed.

Lemma iunlock_run s ip x : icache s !! ip = Some x -> 1 <= i_ref x -> i_lock x = mkSl true pid ->
  iunlock pid ip s = Ok (tt, set_icache (<[ip := set_i_lock (mkSl false 0) x]> (icache s)) s).
Proof using Type.
  intros Hip Hr Hl. unfold iunlock. rewrite (bind_Ok _ _ _ _ _ (get_inode_run s ip x Hip)). unfold holdingsleep. rewrite Hl. cbn [sl_locked sl_pid].
  rewrite Z.eqb_refl. destruct (Z.ltb_spec (i_ref x) 1); [lia|]. cbn [negb andb orb]. by rewrite (upd_inode_run s ip _ x).
Qed.
End Txn.

(** ** A source buffer that is longer than the write *)
Section Prefix.
Context (pid : Z) (dv : devsw).

Lemma writei_loop_prefix fuel ip n : forall src off tot s, n - tot <= Z.of_nat (length src) ->
  writei_loop pid fuel ip src off n tot s = writei_loop pid fuel ip (take (Z.to_nat (n - tot)) src) off n tot s.
Proof using Type.
  induction fuel as [|fuel IH]; intros src off tot s Hn; cbn [writei_loop]; destruct (Z.leb_spec n tot); try done.
  apply bind_ext. intros a s1. apply bind_ext. intros x s2. apply bind_ext. intros bp s3.
  rewrite fs_min_spec. pose proof (Z.mod_pos_bound off BSIZE ltac:(done)) as Hr. set (w := Z.min (n - tot) (BSIZE - off mod BSIZE)).
  assert (Hw : 0 <= w <= n - tot) by lia. unfold read_src. rewrite length_take, Nat.min_l by lia.
  destruct (Nat.leb_spec (Z.to_nat w) (length src)), (Nat.leb_spec (Z.to_nat w) (Z.to_nat (n - tot))); try lia.
  rewrite take_take, Nat.min_l by lia. apply bind_ext. intros l s4. apply bind_ext. intros u1 s5. apply bind_ext. intros u2 s6. apply bind_ext. intros u3 s7.
  rewrite IH by (rewrite length_drop; lia). f_equal. rewrite take_drop_commute. f_equal. f_equal. lia.
Qed.

Lemma writei_prefix s ip x src off n : icache s !! ip = Some x -> di_type (i_d x) <> T_DEV -> 0 <= n <= Z.of_nat (length src) ->
  writei pid dv ip src off n s = writei pid dv ip (take (Z.to_nat n) src) off n s.
Proof using Type.
  intros Hip Ht Hn. unfold writei. rewrite !(bind_Ok _ _ _ _ _ (get_inode_run s ip x Hip)). destruct (Z.eqb_spec (di_type (i_d x)) T_DEV); [done|].
  destruct (_ || _); [done|]. destruct (_ <? _); [done|]. apply bind_cong; [|done]. rewrite writei_loop_prefix by lia. by rewrite Z.sub_0_r.
Qed.
End Prefix.
