(* ===== verification/Mkfs.v ===== *)
(** * The program that makes the file system image (mkfs.c)

    It runs on the machine that builds the kernel.  The state is the image,
    by block, and the two counters; the files of that machine are an
    argument: [read_file] gives the results of the calls of [read] until
    the end of a file.  Reading past the end of the image, which starts
    empty, and a failed assertion end the program; the counters stay far
    below 2{^32}.  The fields of structures are the numbers that [xint] and
    [xshort] store. *)

From stdpp Require Import prelude strings.
From S2P Require Import Prelude CString Bio Log Fs Dir.

Open Scope Z_scope.

Definition NINODES : Z := 200.
Definition nbitmap : Z := FSSIZE / (BSIZE * 8) + 1.
Definition ninodeblocks : Z := NINODES / IPB + 1.
Definition nlog : Z := LOGSIZE.
Definition nmeta : Z := 2 + nlog + ninodeblocks + nbitmap.
Definition nblocks : Z := FSSIZE - nmeta.

(** The number whose four or two bytes, lowest first, are those of [x]. *)
Definition xint (x : Z) : Z :=
  x mod 256 + 256 * (Z.shiftr x 8 mod 256 + 256 * (Z.shiftr x 16 mod 256 + 256 * (Z.shiftr x 24 mod 256))).
Definition xshort (x : Z) : Z := x mod 256 + 256 * (Z.shiftr x 8 mod 256).

Definition mk_sb : superblock :=
  mkSb (xint FSSIZE) (xint nblocks) (xint NINODES) (xint nlog) (xint 2) (xint (2 + nlog)) (xint (2 + nlog + ninodeblocks)).

Definition sb_bytes (d : block) (sb : superblock) : block :=
  put_words d 0 [sb_size sb; sb_nblocks sb; sb_ninodes sb; sb_nlog sb; sb_logstart sb; sb_inodestart sb; sb_bmapstart sb].

Record mkst : Type := mkMk { m_img : Z -> block; freeinode : Z; freeblock : Z }.

Definition wsect (sec : Z) (d : block) : M mkst unit :=
  modify (fun s => mkMk (fun b => if b =? sec then d else m_img s b) (freeinode s) (freeblock s)).

Definition rsect (sec : Z) : M mkst block :=
  s ← get; if sec <? FSSIZE then mret (m_img s sec) else panic "read".

Definition winode (inum : Z) (ip : dinode) : M mkst unit :=
  let bn := IBLOCK inum mk_sb in
  buf ← rsect bn;
  wsect bn (put_dinode buf (Z.to_nat (inum mod IPB)) ip).

Definition rinode (inum : Z) : M mkst dinode :=
  buf ← rsect (IBLOCK inum mk_sb);
  mret (get_dinode buf (Z.to_nat (inum mod IPB))).

Definition ialloc (type : Z) : M mkst Z :=
  s ← get;
  let inum := freeinode s in
  put (mkMk (m_img s) (freeinode s + 1) (freeblock s));;
  winode inum (mkDi (xshort type) 0 0 (xshort 1) (xint 0) (replicate (S NDIRECT) 0));;
  mret inum.

(** [freeblock++] *)
Definition next_block : M mkst Z :=
  s ← get; put (mkMk (m_img s) (freeinode s) (freeblock s + 1));; mret (freeblock s).

(** The bit map with the first [used] blocks taken. *)
Definition bitmap (used : Z) : block :=
  foldl (fun d i => <[Z.to_nat (i / 8) := Z.lor (byte_at d (Z.to_nat (i / 8))) (Z.shiftl 1 (i mod 8))]> d) zero_block (seqZ 0 used).

Definition balloc (used : Z) : M mkst unit :=
  if negb (used <? BSIZE * 8) then panic "assert" else wsect (sb_bmapstart mk_sb) (bitmap used).

(** The block [fbn] of the file, allocated when there is none. *)
Definition append_block (din : dinode) (fbn : Z) : M mkst (Z * dinode) :=
  let addr k := default 0 (di_addrs din !! k) in
  if fbn <? Z.of_nat NDIRECT then
    let k := Z.to_nat fbn in
    if xint (addr k) =? 0 then x ← next_block; mret (xint x, set_addr k (xint x) din)
    else mret (xint (addr k), din)
  else
    din ← (if xint (addr NDIRECT) =? 0 then x ← next_block; mret (set_addr NDIRECT (xint x) din) else mret din);
    let ind := xint (default 0 (di_addrs din !! NDIRECT)) in
    indirect ← rsect ind;
    let j := Z.to_nat (fbn - Z.of_nat NDIRECT) in
    if get32 indirect j =? 0 then
      x ← next_block;
      wsect ind (put32 indirect j (xint x));;
      mret (xint x, din)
    else mret (xint (get32 indirect j), din).

(** The loop of [iappend] on the bytes that are left; each pass takes some. *)
Fixpoint append_loop (fuel : nat) (din : dinode) (off : Z) (p : list Z) : M mkst (dinode * Z) :=
  if (length p =? 0)%nat then mret (din, off)
  else
    match fuel with
    | O => fault
    | S f =>
        let fbn := off / BSIZE in
        if negb (fbn <? MAXFILE) then panic "assert"
        else
          r ← append_block din fbn;
          let n1 := fs_min (Z.of_nat (length p)) ((fbn + 1) * BSIZE - off) in
          buf ← rsect r.1;
          wsect r.1 (blit buf (Z.to_nat (off - fbn * BSIZE)) (take (Z.to_nat n1) p));;
          append_loop f r.2 (off + n1) (drop (Z.to_nat n1) p)
    end.

Definition iappend (inum : Z) (p : list Z) : M mkst unit :=
  din ← rinode inum;
  r ← append_loop (length p) din (xint (di_size din)) p;
  winode inum (set_di_size (xint r.2) r.1).

(** A directory entry: the name is copied into a zeroed field. *)
Definition append_entry (dir inum : Z) (name : list Z) : M mkst unit :=
  nm ← deref (strncpy (replicate DIRSIZ 0) (name ++ [0]) DIRSIZ);
  iappend dir (put_dirent (mkDe (xshort inum) nm)).

Section Main.
Context (read_file : list Z -> option (list (list Z))).

(** One argument: the file with that name. *)
Definition add_file (rootino : Z) (arg : list Z) : M mkst unit :=
  if bool_decide (47 ∈ arg) then panic "assert"
  else
    match read_file arg with
    | None => panic "open"
    | Some chunks =>
        let name := match arg with 95 :: a => a | _ => arg end in
        inum ← ialloc T_FILE;
        append_entry rootino inum name;;
        for_each chunks (fun c => iappend inum c)
    end.

Definition mkfs (args : list (list Z)) : M mkst unit :=
  put (mkMk (fun _ => zero_block) 1 nmeta);;
  for_each (seqZ 0 FSSIZE) (fun i => wsect i zero_block);;
  wsect 1 (sb_bytes zero_block mk_sb);;
  rootino ← ialloc T_DIR;
  if negb (rootino =? ROOTINO) then panic "assert"
  else
    append_entry rootino rootino [46];;
    append_entry rootino rootino [46; 46];;
    for_each args (add_file rootino);;
    din ← rinode rootino;
    let off := (xint (di_size din) / BSIZE + 1) * BSIZE in
    winode rootino (set_di_size (xint off) din);;
    s ← get;
    balloc (freeblock s).
End Main.
