(* ===== verification/FsThms.v ===== *)
(** * The file system's contracts

    A concrete file system on which the contracts of balloc, writei, readi,
    dirlookup and dirlink apply, and these contracts. *)

From stdpp Require Import prelude strings list.
From S2P Require Import Prelude CString Bio BioInv BioThms Log LogThms LogCrash LogSpec Fs Dir FsRep FsAlloc FsFile FsBmap FsRead FsInode FsWrite FsDir.

Open Scope Z_scope.

(** ** A concrete file system

    The layout that mkfs.c gives a disk of 1000 blocks, with a root directory
    that holds one file, [a], with the text hello. *)
Definition small_inode (type size a : Z) : dinode := mkDi type 0 0 1 size (a :: replicate NDIRECT 0).
Definition root_d : dinode := small_inode T_DIR 32 59.
Definition file_d : dinode := small_inode T_FILE 5 60.

Definition disk1 (dev b : Z) : block :=
  if b =? 1 then super0
  else if b =? 32 then put_dinode (put_dinode zero_block 1 root_d) 2 file_d
  else if b =? 58 then blit zero_block 0 (replicate 7 255 ++ [31])
  else if b =? 59 then blit zero_block 0 (put_dirent (mkDe 1 (field [46])) ++ put_dirent (mkDe 2 (field [97])))
  else if b =? 60 then blit zero_block 0 [104; 101; 108; 108; 111]
  else zero_block.

Definition held_inode (inum : Z) (d : dinode) : inode := mkIn 1 inum 1 (mkSl true 7) true d.
Definition root_i : inode := held_inode 1 root_d.
Definition file_i : inode := held_inode 2 file_d.
Definition icache1 : list inode := [root_i; file_i] ++ replicate 48 free_inode.

Lemma disk1_ok : disk_ok log0 disk1 [].
Proof. split; [split; vm_compute; done|vm_compute; done|]. split; try done; try constructor; vm_compute; done. Qed.

Lemma disk1_length b : length (disk1 1 b) = Z.to_nat BSIZE.
Proof. unfold disk1. repeat (destruct (_ =? _); [vm_compute; reflexivity|]). vm_compute. reflexivity. Qed.

Lemma small_fblock V type size a bn : 0 <= bn -> fblock V (small_inode type size a) bn = if bn =? 0 then a else 0.
Proof.
  intros Hb. unfold fblock, small_inode, addr_at. cbn [di_addrs]. destruct (Z.ltb_spec bn (Z.of_nat NDIRECT)).
  - destruct (Z.eqb_spec bn 0) as [->|]; [done|]. destruct (Z.to_nat bn) as [|k] eqn:E; [lia|]. cbn [lookup list_lookup].
    destruct (replicate NDIRECT 0 !! k) as [z|] eqn:Ez; [|done]. by apply lookup_replicate in Ez as [-> _].
  - destruct (Z.eqb_spec bn 0); [unfold NDIRECT in *; lia|]. done.
Qed.

Lemma small_inode_ok s V type size a : data_block s V a -> a <> 0 -> inode_ok s V (small_inode type size a).
Proof.
  intros Ha Hz. split; [done|done|..].
  - intros bn Hbn. rewrite small_fblock by lia. destruct (Z.eqb_spec bn 0); [|done]. intros _. by split.
  - intros bn bm H1 H2. rewrite !small_fblock by lia. destruct (Z.eqb_spec bn 0), (Z.eqb_spec bm 0); intros; try done; lia.
Qed.

Lemma small_holes V type size a : 0 <= size <= BSIZE -> a <> 0 -> no_holes V (small_inode type size a).
Proof.
  intros Hs Ha. split; [cbn; unfold BSIZE in *; change MAXFILE with 140; lia|]. intros bn H1 H2. rewrite small_fblock by lia. cbn in H2.
  destruct (Z.eqb_spec bn 0); [done|]. unfold BSIZE in *. lia.
Qed.

Definition sb1 : superblock := mkSb 1000 941 200 30 2 32 58.

(** What the running transaction sees. *)
Record example (s : fsst) (V : Z -> block) : Prop := {
  ex_view : forall b, b <> 2 -> V b = disk1 1 b;
  ex_rep : rep 7 s V [] [];
  ex_blocks : blocks_ok V;
  ex_geo : geo s;
  ex_sb : fsb s = sb1;
  ex_icache : icache s = icache1;
  ex_dev : lg_dev (flg s) = 1;
  ex_size : lg_size (flg s) = LOGSIZE;
  ex_space : forall n, (n < 30)%nat -> space s [] n
}.

Lemma example_exists : exists s V, example s V.
Proof.
  destruct (initlog_linv 7 log0 disk1 [] log0_wf disk1_ok) as ([b l] & a & _ & HL & Hul & (Ed & Es & Ez) & (Eo & Ec) & _ & Hdisk & Hview).
  cbn [lg lb] in *. apply (linv_ops 7 b l a [] 1 false) in HL. set (l1 := set_ops 1 false l) in *.
  set (s := mkFsst (mkLst b l1) icache1 sb1 []). exists s, (a_view a 1).
  assert (Hv : forall c, a_view a 1 c = disk b 1 c).
  { intros c. rewrite <- Hview. symmetry. by apply (ab_view _ _ _ (li_abs _ _ _ _ HL)). }
  assert (Hd : forall c, disk b 1 c = if c =? 2 then enc_head zero_block [] else disk1 1 c).
  { intros c. rewrite Hdisk. cbn. unfold upd2. cbn. destruct (c =? 2); done. }
  split.
  - intros c Hc. rewrite Hv, Hd. by destruct (Z.eqb_spec c 2).
  - exists a. split; cbn; try done.
    + by rewrite Ed.
    + intros v c Hv0 Hlk. by rewrite Hul in Hlk.
    + intros i c Hin. by apply elem_of_nil in Hin.
    + constructor.
    + intros c Hin. by apply elem_of_nil in Hin.
  - intros c. rewrite Hv, Hd. destruct (c =? 2); [vm_compute; reflexivity|apply disk1_length].
  - pose proof (li_wf _ _ _ _ HL) as Hl. split; cbn; try done; try lia. cbn in Hl. unfold flg; cbn. rewrite Es, Ez. cbn. lia.
  - done.
  - done.
  - cbn. by rewrite Ed.
  - cbn. by rewrite Ez.
  - intros n Hn. unfold space, flg; cbn. rewrite Ez. cbn. lia.
Qed.

Section Example.
Context (s : fsst) (V : Z -> block).
Hypothesis X : example s V.

Lemma ex_bmb : bmb s = 58.
Proof using X. unfold bmb. by rewrite (ex_sb _ _ X). Qed.

Lemma ex_bit b : bit (V (bmb s)) b = bit (disk1 1 58) b.
Proof using X. rewrite ex_bmb. by rewrite (ex_view _ _ X). Qed.

Lemma ex_bitmap : bitmap_ok s (V (bmb s)).
Proof using X.
  split; [apply (ex_blocks _ _ X)|]. intros b Hb. rewrite ex_bit. rewrite ex_bmb in Hb.
  assert (H : forallb (bit (disk1 1 58)) (seqZ 0 59) = true) by (vm_compute; reflexivity).
  rewrite forallb_forall in H. apply H, list_elem_of_In, elem_of_seqZ. lia.
Qed.

Lemma ex_nfree : nfree s V = 939%nat.
Proof using X. unfold nfree. rewrite (ex_sb _ _ X), ex_bmb, (ex_view _ _ X) by lia. vm_compute. reflexivity. Qed.

Lemma ex_wf ip inum type size a : icache1 !! ip = Some (held_inode inum (small_inode type size a)) -> 58 < a < 1000 -> bit (disk1 1 58) a = true ->
  0 <= size <= BSIZE -> short type -> 0 <= inum < 200 -> get_dinode (disk1 1 (32 + inum / IPB)) (Z.to_nat (inum mod IPB)) = small_inode type size a ->
  wf_file 7 s V [] ip (held_inode inum (small_inode type size a)).
Proof using X.
  intros Hip Ha Hbit Hs Ht Hi Hd. assert (H8 : 0 <= inum / IPB) by (apply Z.div_pos; [lia|done]).
  assert (Hdb : data_block s V a) by (split; [rewrite ex_bmb, (ex_sb _ _ X); done|by rewrite ex_bit]).
  split; [|apply small_holes; lia| |by rewrite (ex_sb _ _ X)|].
  - split; [apply X|apply X|apply X|apply ex_bitmap|by rewrite (ex_icache _ _ X)|by rewrite (ex_dev _ _ X)|apply small_inode_ok; [done|lia]].
  - unfold BSIZE in Hs. split; cbn [i_d held_inode small_inode di_type di_major di_minor di_nlink di_size di_addrs]; unfold short in *; try lia; try done.
    repeat constructor; lia.
  - cbn [i_inum i_d held_inode]. unfold disk_inode, inode_block. rewrite (ex_sb _ _ X). cbn [sb1 sb_inodestart]. rewrite (ex_view _ _ X) by lia. done.
Qed.

Lemma ex_root : wf_file 7 s V [] 0 root_i.
Proof using X. apply ex_wf; [done|lia|vm_compute; done|unfold BSIZE; lia|unfold short, T_DIR; lia|lia|vm_compute; done]. Qed.

Lemma ex_file : wf_file 7 s V [] 1 file_i.
Proof using X. apply ex_wf; [done|lia|vm_compute; done|unfold BSIZE; lia|unfold short, T_FILE; lia|lia|vm_compute; done]. Qed.

Lemma small_byte type size a k : 0 <= k < BSIZE -> a <> 0 -> a <> 2 -> fbyte V (small_inode type size a) k = byte_at (disk1 1 a) (Z.to_nat k).
Proof using X.
  intros Hk H0 H2. unfold fbyte. rewrite small_fblock by (apply Z.div_pos; [lia|done]). rewrite Z.div_small by done. cbn [Z.eqb].
  destruct (Z.eqb_spec a 0); [done|]. rewrite (ex_view _ _ X) by done. by rewrite Z.mod_small.
Qed.

Lemma ex_dents : dents V root_d = [mkDe 1 (field [46]); mkDe 2 (field [97])].
Proof using X.
  transitivity ((fun i => get_dirent ((fun k => byte_at (disk1 1 59) (Z.to_nat k)) <$> seqZ (DESIZE * i) DESIZE)) <$> seqZ 0 2); [|vm_compute; reflexivity].
  unfold dents. apply list_fmap_ext. intros i k [-> Hi]%lookup_seqZ. unfold dent. f_equal. unfold fbytes. apply list_fmap_ext.
  intros j c [-> Hj]%lookup_seqZ. apply small_byte; [|done|done]. unfold DESIZE, BSIZE in *. lia.
Qed.

Lemma ex_dir : dir_ok V root_d.
Proof using X.
  split; [done|done|]. intros de. rewrite ex_dents. intros [->|[->|H]%elem_of_cons]%elem_of_cons _; [| |by apply elem_of_nil in H].
  - exists [46]. split; [by repeat constructor|done].
  - exists [97]. split; [by repeat constructor|done].
Qed.
End Example.

Section FileThms.
Context (pid : Z) (dv : devsw).

(** ** Writing and reading files *)
Lemma readi_wf s V bs ip x off n : wf_file pid s V bs ip x -> di_type (i_d x) <> T_DEV -> (length bs < NBUF)%nat -> 0 <= off -> 0 <= n ->
  off + n <= di_size (i_d x) -> exists s', readi pid dv ip off n s = Ok ((n, fbytes V (i_d x) off n), s').
Proof using Type.
  intros WF Ht HL Ho Hn Hle. pose proof WF as [F Hh _ _ _]. pose proof Hh as [Hsz _]. assert (HM : MAXFILE * BSIZE = 71680) by done.
  destruct (readi_run pid dv s V bs ip x off n F Hh Ht) as (s' & E & _); [lia|lia|done|].
  exists s'. by rewrite E; unfold read_len; rewrite Z.min_l by lia.
Qed.

(** Claim C15. What [writei] has written [readi] reads back, and reading any other
    part of the file gives what it gave before.  [writei] returns the number
    of bytes, so it neither fails nor stops early, when the transaction has
    room and the disk has free blocks for the blocks it touches. *)
Theorem writei_readi_roundtrip s V bs ip x off l : wf_file pid s V bs ip x -> di_type (i_d x) <> T_DEV ->
  0 <= off <= di_size (i_d x) -> off + Z.of_nat (length l) <= MAXFILE * BSIZE ->
  let m := write_blocks off (Z.of_nat (length l)) in space s bs (S (6 * m)) -> (2 * m <= nfree s V)%nat ->
  exists s', writei pid dv ip l off (Z.of_nat (length l)) s = Ok (Z.of_nat (length l), s') /\
    (exists t, readi pid dv ip off (Z.of_nat (length l)) s' = Ok ((Z.of_nat (length l), l), t)) /\
    forall o n, 0 <= o -> 0 <= n -> o + n <= di_size (i_d x) -> o + n <= off \/ off + Z.of_nat (length l) <= o ->
      exists r t t', readi pid dv ip o n s = Ok ((n, r), t) /\ readi pid dv ip o n s' = Ok ((n, r), t').
Proof using Type.
  intros WF Ht Ho Hmax m Hsp Hfr. pose proof WF as [F [Hsz _] _ _ _].
  destruct (writei_run pid dv s V bs ip x off l WF Ht Ho Hmax Hsp Hfr) as (s' & V' & bs' & x' & E & WF' & FW & Hlen & _).
  pose proof (space_bufs pid s V bs [] _ (fs_rep _ _ _ _ _ _ F) Hsp) as HL.
  assert (HL' : (length bs' < NBUF)%nat).
  { eapply rep_bufs. apply WF'. }
  pose proof FW as [_ _ Fi Fb _ _]. assert (Es : di_size (i_d x') = Z.max (di_size (i_d x)) (off + Z.of_nat (length l))) by (rewrite Fi; done).
  assert (Ht' : di_type (i_d x') <> T_DEV) by (rewrite Fi; done).
  exists s'. split; [done|]. split.
  - destruct (readi_wf s' V' bs' ip x' off (Z.of_nat (length l)) WF' Ht' HL') as (t & Er); [lia..|]. exists t. by rewrite Er, (written_bytes V V' (i_d x)) by (done || lia).
  - intros o n H1 H2 H3 Hd. destruct (readi_wf s V bs ip x o n WF Ht HL) as (t & Er); [lia..|].
    destruct (readi_wf s' V' bs' ip x' o n WF' Ht' HL') as (t' & Er'); [lia..|]. exists (fbytes V (i_d x) o n), t, t'. split; [done|]. rewrite Er'.
    do 3 f_equal. unfold fbytes. apply list_fmap_ext. intros j c [-> Hj]%lookup_seqZ. rewrite Fb by lia. by rewrite decide_False by lia.
Qed.

(** ** Two files *)
Definition disjoint_files (V : Z -> block) (d e : dinode) : Prop := forall b, b <> 0 -> owns V d b -> ~ owns V e b.

(** A change of the file [d] to [d'] that leaves alone every block in use
    that is not part of the file. *)
Section Frame.
Context (s : fsst) (V V' : Z -> block) (d d' e : dinode).
Hypothesis Hkeep : forall b, bmb s < b -> bit (V (bmb s)) b = true -> ~ owns V d b -> bit (V' (bmb s)) b = true /\ V' b = V b /\ ~ owns V' d' b.
Hypothesis He : inode_ok s V e.
Hypothesis Hdis : disjoint_files V d e.

Lemma owned_kept b : b <> 0 -> owns V e b -> bit (V' (bmb s)) b = true /\ V' b = V b /\ ~ owns V' d' b.
Proof using Hkeep He Hdis.
  intros Hb Ho. assert (Hd : data_block s V b).
  { destruct Ho as [<-|(bn & Hbn & <-)]; [by apply (io_ind _ _ _ He)|by apply (io_data _ _ _ He)]. }
  destruct Hd as [Hr Hbit]. apply Hkeep; [lia|done|]. intros Hx. by apply (Hdis b Hb Hx).
Qed.

Lemma frame_fblock bn : fblock V' e bn = fblock V e bn.
Proof using Hkeep He Hdis.
  unfold fblock. destruct (bn <? Z.of_nat NDIRECT); [done|]. destruct (Z.eqb_spec (addr_at e NDIRECT) 0) as [|E]; [done|].
  destruct (owned_kept _ E) as (_ & -> & _); [by left|done].
Qed.

Lemma frame_byte k : 0 <= k < MAXFILE * BSIZE -> fbyte V' e k = fbyte V e k.
Proof using Hkeep He Hdis.
  intros Hk. unfold fbyte. rewrite frame_fblock. destruct (Z.eqb_spec (fblock V e (k / BSIZE)) 0) as [|E]; [done|].
  destruct (owned_kept _ E) as (_ & -> & _); [|done]. right. exists (k / BSIZE). split; [|done].
  split; [apply Z.div_pos; [lia|done]|apply Z.div_lt_upper_bound; [done|lia]].
Qed.

Lemma frame_ok : inode_ok s V' e.
Proof using Hkeep He Hdis.
  pose proof He as [I1 I2 I3 I4]. split; [done|..].
  - intros H. destruct (I2 H) as [Hr _]. split; [done|]. apply owned_kept; [done|by left].
  - intros bn Hbn. rewrite frame_fblock. intros H. destruct (I3 bn Hbn H) as [[Hr _] Hne]. split; [|done]. split; [done|]. apply owned_kept; [done|right; eauto].
  - intros bn bm Hbn Hbm. rewrite !frame_fblock. by apply I4.
Qed.

Lemma frame_disjoint : disjoint_files V' d' e.
Proof using Hkeep He Hdis.
  intros b Hb Hx Ho. assert (Ho' : owns V e b).
  { destruct Ho as [Ho|(bn & Hbn & Ho)]; [by left|]. right. exists bn. by rewrite <- frame_fblock. }
  by destruct (owned_kept b Hb Ho') as (_ & _ & []).
Qed.
End Frame.

(** Claim C16. A write keeps the file system well typed: the file written stays
    without holes, with blocks of its own that the bit map marks as used and
    with the same inode in memory and on the disk; every other open file
    stays so too, keeps its content and shares no block with the first. *)
Theorem writei_keeps_files s V bs ip x off l iq y : wf_file pid s V bs ip x -> di_type (i_d x) <> T_DEV ->
  0 <= off <= di_size (i_d x) -> off + Z.of_nat (length l) <= MAXFILE * BSIZE ->
  let m := write_blocks off (Z.of_nat (length l)) in space s bs (S (6 * m)) -> (2 * m <= nfree s V)%nat ->
  wf_file pid s V bs iq y -> iq <> ip -> i_inum y <> i_inum x -> disjoint_files V (i_d x) (i_d y) ->
  exists s' V' bs' x', writei pid dv ip l off (Z.of_nat (length l)) s = Ok (Z.of_nat (length l), s') /\
    wf_file pid s' V' bs' ip x' /\ wf_file pid s' V' bs' iq y /\ disjoint_files V' (i_d x') (i_d y) /\
    forall k, 0 <= k < MAXFILE * BSIZE -> fbyte V' (i_d y) k = fbyte V (i_d y) k.
Proof using Type.
  intros WF Ht Ho Hmax m Hsp Hfr [[G R Hb Hbm Hiq Hdv Hok] [Hsz Hh] Hd Hin Hdk] Hne Hnum Hdis.
  destruct (writei_run pid dv s V bs ip x off l WF Ht Ho Hmax Hsp Hfr) as (s' & V' & bs' & x' & E & WF' & FW & _ & _).
  pose proof (wf_inum _ _ _ _ _ _ WF) as Hxi. pose proof (fw_env _ _ _ _ _ _ _ _ _ FW) as Se.
  assert (Hkp : forall b, bmb s < b -> bit (V (bmb s)) b = true -> ~ owns V (i_d x) b -> bit (V' (bmb s)) b = true /\ V' b = V b /\ ~ owns V' (i_d x') b).
  { intros b Hlt. destruct (geo_facts s G). pose proof (inode_block_range s _ G Hxi). apply (fw_others _ _ _ _ _ _ _ _ _ FW); lia. }
  exists s', V', bs', x'. split; [done|]. split; [done|]. split; [|split].
  - pose proof WF' as [[G' R' Hb' Hbm' _ _ _] _ _ _ _]. split; [|split; [done|]|done|by rewrite (sr_fsb _ _ Se)|].
    + split; try done; [by rewrite (fw_icache _ _ _ _ _ _ _ _ _ FW), list_lookup_insert_ne by done|by rewrite (sr_dev _ _ Se)|].
      eapply inode_ok_env; [exact Se|]. by eapply frame_ok.
    + intros bn H1 H2. erewrite frame_fblock by done. auto.
    + rewrite <- Hdk. etrans; [|by apply (fw_inodes _ _ _ _ _ _ _ _ _ FW)]. unfold disk_inode, inode_block. by rewrite (sr_fsb _ _ Se).
  - by eapply frame_disjoint.
  - intros k Hk. by eapply frame_byte.
Qed.

(** A write that starts past the end of the file, whose end overflows, or
    that goes past the largest file fails with -1 and changes nothing; so
    does a read that starts past the end. *)
Theorem writei_rejects s ip x l off n : icache s !! ip = Some x -> di_type (i_d x) <> T_DEV ->
  (di_size (i_d x) < off \/ u32 (off + n) < off \/ MAXFILE * BSIZE < u32 (off + n) -> writei pid dv ip l off n s = Ok (-1, s)) /\
  (di_size (i_d x) < off \/ u32 (off + n) < off -> readi pid dv ip off n s = Ok ((-1, []), s)).
Proof using Type. intros Hip Ht. split; intros H; [by eapply writei_fails|by eapply readi_fails]. Qed.

(** ** Blocks *)

(** Claim C18. [balloc] returns a block that was free, marks it as used and clears it;
    no other bit and no other block changes.  [bfree] then gives the bit map
    back as it was.  With no free block [balloc] panics. *)
Theorem balloc_bfree_roundtrip s V bs : geo s -> rep pid s V bs [] -> blocks_ok V -> bitmap_ok s (V (bmb s)) -> space s bs 3 ->
  ((exists b, 0 <= b < sb_size (fsb s) /\ bit (V (bmb s)) b = false) -> exists b s1 s2 V1 V2 bs1 bs2,
    balloc pid (lg_dev (flg s)) s = Ok (b, s1) /\ rep pid s1 V1 bs1 [] /\
    bmb s < b < sb_size (fsb s) /\ bit (V (bmb s)) b = false /\ V1 b = zero_block /\
    (forall c, 0 <= c < sb_size (fsb s) -> bit (V1 (bmb s)) c = if c =? b then true else bit (V (bmb s)) c) /\
    (forall c, c <> b -> c <> bmb s -> V1 c = V c) /\
    bfree pid (lg_dev (flg s)) b s1 = Ok (tt, s2) /\ rep pid s2 V2 bs2 [] /\
    (forall c, 0 <= c < sb_size (fsb s) -> bit (V2 (bmb s)) c = bit (V (bmb s)) c) /\
    (forall c, c <> b -> c <> bmb s -> V2 c = V c)) /\
  ((forall b, 0 <= b < sb_size (fsb s) -> bit (V (bmb s)) b = true) -> balloc pid (lg_dev (flg s)) s = Panic "balloc: out of blocks").
Proof using Type.
  intros G H Hb Hbm Hsp. split; [|intros Hall; apply (balloc_full pid s V bs); [done|done|by apply (space_le s bs 3); [|lia]|done]]. intros Hex.
  destruct (balloc_run pid s V bs [] G H Hbm) as (b & s1 & E & Hr & Hbit & H1 & S1);
    [by apply not_elem_of_nil|by intros b Hb0%elem_of_nil|by apply (space_le s bs 3); [|simpl; lia]|done|].
  pose proof (bmb_env _ _ S1) as Eb. pose proof (sr_fsb _ _ S1) as Es. pose proof (geo_facts s G) as [G1 G2].
  assert (Hbits : forall c, 0 <= c < sb_size (fsb s) -> bit (alloc_view s V b (bmb s)) c = if c =? b then true else bit (V (bmb s)) c).
  { intros c Hc. unfold alloc_view. rewrite updV_ne, updV_eq by lia. apply set_bit_spec; [apply (bit_in_map s); [done|apply Hbm|lia]|lia]. }
  assert (Hlen1 : length (alloc_view s V b (bmb s)) = Z.to_nat BSIZE).
  { unfold alloc_view. rewrite updV_ne, updV_eq by lia. unfold set_bit. rewrite length_insert. apply Hb. }
  destruct (bfree_run pid s1 (alloc_view s V b) (add_block (add_block bs (bmb s)) b) [] b) as (s2 & E2 & H2 & S2); [by eapply geo_same; [apply S1|by eapply rep_lwf|]|done|by apply not_elem_of_nil| |by rewrite Es; lia| |].
  { unfold space in *. rewrite (sr_size _ _ S1), (sr_ops _ _ S1). pose proof (add_block_length bs (bmb s)). pose proof (add_block_length (add_block bs (bmb s)) b). simpl. lia. }
  { rewrite Eb, Hbits, Z.eqb_refl by lia. done. }
  rewrite Eb, (sr_dev _ _ S1) in *. eexists b, s1, s2, _, _, _, _. split_and!; try done; try lia; [apply alloc_view_zero|..].
  - intros c Hc Hm. by apply alloc_view_other.
  - intros c Hc. rewrite updV_eq, clear_bit_spec by first [lia|apply (bit_in_map s); [done|done|lia]]. rewrite Hbits by done. destruct (Z.eqb_spec c b) as [->|]; [by rewrite Hbit|done].
  - intros c Hc Hm. rewrite updV_ne by done. by apply alloc_view_other.
Qed.

(** ** Directories *)
Lemma gotten_inum t t' dev inum ip : gotten t t' dev inum ip -> exists y, icache t' !! ip = Some y /\ i_dev y = dev /\ i_inum y = inum.
Proof using Type.
  intros [y Hy (_ & Hd & Hi) ->|y Hy _ _ ->]; cbn; (rewrite list_lookup_insert_eq by (by eapply lookup_lt_Some)); eexists; split_and!; try done.
Qed.

(** What [dirlookup] answers for the name [c] in a state. *)
Definition answers (s : fsst) (dp : nat) (dev : Z) (c : list Z) (o : option Z) : Prop :=
  forall r, match o with
  | None => exists t, dirlookup pid dv dp (c ++ 0 :: r) s = Ok (None, t)
  | Some inum => exists ip off t y, dirlookup pid dv dp (c ++ 0 :: r) s = Ok (Some (ip, off), t) /\
      icache t !! ip = Some y /\ i_dev y = dev /\ i_inum y = inum
  end.

Lemma dirlookup_answers s V bs dp x c : wf_file pid s V bs dp x -> dir_ok V (i_d x) -> (length bs < NBUF)%nat -> no_nul c ->
  (exists i y, icache s !! i = Some y /\ i_ref y = 0) -> answers s dp (i_dev x) c (dir_lookup (dents V (i_d x)) (field c)).
Proof using Type.
  intros WF D HL Hc (j & z & Hj & Hz) r. unfold dir_lookup. destruct (list_find (named (field c)) (dents V (i_d x))) as [[i de]|] eqn:E; cbn [fmap option_fmap option_map snd].
  - destruct (dirlookup_hit pid dv s V bs dp x c r i de WF D HL Hc E) as (ip & s1 & s' & El & _ & Gt); [exists j, z; auto|].
    destruct (gotten_inum _ _ _ _ _ Gt) as (y & Hy & H1 & H2). by exists ip, (DESIZE * Z.of_nat i), s', y.
  - destruct (dirlookup_miss pid dv s V bs dp x c r WF D HL Hc E) as (s' & El & _). by exists s'.
Qed.

(** Claim C17. A directory is a finite map from names to inode numbers: [dirlookup]
    finds the inode of a name, and after [dirlink] of a new name it finds the
    new inode for that name and what it found before for every other name,
    where names that agree in their first 14 bytes are the same.  The
    directory stays well formed. *)
Theorem dirlink_dirlookup s V bs dp x a r inum garbage : wf_file pid s V bs dp x -> dir_ok V (i_d x) -> no_nul a ->
  dir_lookup (dents V (i_d x)) (field a) = None -> 0 < inum < 2 ^ 16 -> length garbage = DIRSIZ ->
  di_size (i_d x) + DESIZE <= MAXFILE * BSIZE -> space s bs 8 -> (2 <= nfree s V)%nat -> i_ref x <> 0 ->
  (exists i y, icache s !! i = Some y /\ i_ref y = 0) ->
  (forall c, no_nul c -> answers s dp (i_dev x) c (dir_lookup (dents V (i_d x)) (field c))) /\
  exists s' V' bs' x', dirlink pid dv garbage dp (a ++ 0 :: r) inum s = Ok (0, s') /\
    wf_file pid s' V' bs' dp x' /\ dir_ok V' (i_d x') /\
    forall c, no_nul c -> answers s' dp (i_dev x) c
      (if decide (take DIRSIZ c = take DIRSIZ a) then Some inum else dir_lookup (dents V (i_d x)) (field c)).
Proof using Type.
  intros WF D Ha Hn Hin Hg Hmax Hsp Hfr Href (j & y & Hj & Hy). pose proof (fs_rep _ _ _ _ _ _ (wf_state _ _ _ _ _ _ WF)) as R.
  pose proof (space_bufs pid s V bs [] _ R Hsp) as HL.
  split; [intros c Hc; apply (dirlookup_answers s V bs dp x c WF D HL Hc); eauto|].
  destruct (dirlink_run pid dv s V bs dp x a r inum garbage WF D Ha Hn Hin Hg Hmax) as (s' & V' & bs' & x' & E & WF' & FW & D' & Hlen & Ed); [by apply (space_le s bs 8); [|lia]|done|].
  exists s', V', bs', x'. split_and!; try done. intros c Hc. pose proof FW as [_ Fc Fi _ _ _].
  replace (i_dev x) with (i_dev x') by (rewrite Fi; done). set (o := if decide _ then _ else _).
  replace o with (dir_lookup (dents V' (i_d x')) (field c)).
  - apply (dirlookup_answers s' V' bs' dp x' c WF' D'); [|done|].
    { eapply rep_bufs. apply WF'. }
    exists j, y. split; [|done]. rewrite Fc. rewrite list_lookup_insert_ne; [done|]. intros ->.
    pose proof (fs_ip _ _ _ _ _ _ (wf_state _ _ _ _ _ _ WF)). congruence.
  - unfold o. rewrite Ed, dir_lookup_link by (cbn; done || lia). cbn [de_name de_inum].
    destruct (decide (field c = field a)) as [Ef|Ef], (decide (take DIRSIZ c = take DIRSIZ a)) as [Et|Et]; try done; by apply pad0_inj in Ef || by apply (pad0_inj c a DIRSIZ Hc Ha) in Et.
Qed.
End FileThms.

(** ** The contracts on the concrete file system *)
Definition no_dev : devsw := mkDevsw (fun _ => None) (fun _ => None).

Lemma writei_readi_roundtrip_witness : exists s s' t, writei 7 no_dev 1 [72; 73] 4 2 s = Ok (2, s') /\ readi 7 no_dev 1 4 2 s' = Ok ((2, [72; 73]), t).
Proof.
  destruct example_exists as (s & V & X).
  destruct (writei_readi_roundtrip 7 no_dev s V [] 1 file_i 4 [72; 73] (ex_file s V X)) as (s' & E & (t & Er) & _).
  - done.
  - split; vm_compute; discriminate.
  - vm_compute. discriminate.
  - apply (ex_space s V X). vm_compute. repeat constructor.
  - rewrite (ex_nfree s V X). vm_compute. repeat constructor.
  - by exists s, s', t.
Defined.

Lemma ex_disjoint V : disjoint_files V file_d root_d.
Proof.
  intros b Hb H1 H2. assert (H : forall a size ty, owns V (small_inode ty size a) b -> b = a).
  { intros a size ty [H|(bn & Hbn & H)]; [cbv in H; lia|]. rewrite small_fblock in H by lia. destruct (bn =? 0); congruence. }
  apply H in H1, H2. congruence.
Qed.

Lemma writei_keeps_files_witness : exists s V s' V' bs' x', writei 7 no_dev 1 [72; 73] 4 2 s = Ok (2, s') /\
  wf_file 7 s' V' bs' 1 x' /\ wf_file 7 s' V' bs' 0 root_i /\ forall k, 0 <= k < MAXFILE * BSIZE -> fbyte V' root_d k = fbyte V root_d k.
Proof.
  destruct example_exists as (s & V & X).
  destruct (writei_keeps_files 7 no_dev s V [] 1 file_i 4 [72; 73] 0 root_i (ex_file s V X)) as (s' & V' & bs' & x' & E & W1 & W2 & _ & Hk).
  - done.
  - split; vm_compute; discriminate.
  - vm_compute. discriminate.
  - apply (ex_space s V X). vm_compute. repeat constructor.
  - rewrite (ex_nfree s V X). vm_compute. repeat constructor.
  - exact (ex_root s V X).
  - done.
  - done.
  - apply ex_disjoint.
  - by exists s, V, s', V', bs', x'.
Defined.

Lemma writei_rejects_witness : exists s, writei 7 no_dev 1 [72; 73] 6 2 s = Ok (-1, s).
Proof.
  destruct example_exists as (s & V & X). exists s.
  destruct (writei_rejects 7 no_dev s 1 file_i [72; 73] 6 2) as [H _]; [by rewrite (ex_icache s V X)|done|]. apply H. left. vm_compute. reflexivity.
Defined.

Lemma balloc_bfree_roundtrip_witness : exists s b s1 s2, balloc 7 1 s = Ok (b, s1) /\ bfree 7 1 b s1 = Ok (tt, s2).
Proof.
  destruct example_exists as (s & V & X).
  destruct (balloc_bfree_roundtrip 7 s V [] (ex_geo s V X) (ex_rep s V X) (ex_blocks s V X) (ex_bitmap s V X) (ex_space s V X 3 ltac:(lia))) as [H _].
  destruct H as (b & s1 & s2 & V1 & V2 & bs1 & bs2 & E1 & _ & _ & _ & _ & _ & _ & E2 & _).
  - exists 100. rewrite (ex_sb s V X), (ex_bit s V X). split; [split; vm_compute; done|]. vm_compute. reflexivity.
  - rewrite (ex_dev s V X) in *. by exists s, b, s1, s2.
Defined.

(** The new name is b, for inode 2. *)
Lemma dirlink_dirlookup_witness : exists s s', dirlink 7 no_dev (replicate DIRSIZ 0) 0 [98; 0] 2 s = Ok (0, s') /\
  answers 7 no_dev s' 0 1 [98] (Some 2) /\ answers 7 no_dev s' 0 1 [97] (Some 2) /\ answers 7 no_dev s' 0 1 [99] None.
Proof.
  destruct example_exists as (s & V & X).
  destruct (dirlink_dirlookup 7 no_dev s V [] 0 root_i [98] [] 2 (replicate DIRSIZ 0) (ex_root s V X) (ex_dir s V X)) as [_ (s' & V' & bs' & x' & E & _ & _ & H)].
  - by repeat constructor.
  - cbn [root_i held_inode i_d]. rewrite (ex_dents s V X). vm_compute. reflexivity.
  - lia.
  - done.
  - vm_compute. discriminate.
  - apply (ex_space s V X). lia.
  - rewrite (ex_nfree s V X). lia.
  - done.
  - exists 2%nat, free_inode. rewrite (ex_icache s V X). by split.
  - exists s, s'. split; [exact E|]. cbn [root_i held_inode i_d] in H. rewrite (ex_dents s V X) in H.
    split_and!; [exact (H [98] ltac:(by repeat constructor))|exact (H [97] ltac:(by repeat constructor))|exact (H [99] ltac:(by repeat constructor))].
Defined.
