(* ===== verification/MkfsThms.v ===== *)
(** * The image that mkfs makes holds the files it was given

    While mkfs runs the bit map is not on the image yet: [mst st V] relates
    the state to the image [V] with the bit map it will get, in which taking
    the next block is what [balloc] of fs.c does.  The files are then
    described by the same predicates as in the kernel. *)

From stdpp Require Import prelude strings list.
From S2P Require Import Prelude CString Bio BioInv BioThms Log LogThms LogCrash LogSpec Fs Dir FsRep FsAlloc FsFile FsBmap FsRead FsInode FsWrite FsDir FsThms Mkfs.

Open Scope Z_scope.

Lemma mk_sb_eq : mk_sb = mkSb 1000 941 200 30 2 32 58.
Proof. reflexivity. Qed.

Lemma xint_small z : 0 <= z < 2 ^ 32 -> xint z = z.
Proof. intros H. unfold xint. rewrite bytes_word. by apply u32_small. Qed.

Lemma xshort_small z : 0 <= z < 2 ^ 16 -> xshort z = z.
Proof. intros H. unfold xshort. rewrite Z.shiftr_div_pow2 by lia. change (2 ^ 8) with 256. pose proof (Z.div_mod z 256 ltac:(lia)). rewrite (Z.mod_small (z / 256)); [lia|]. split; [apply Z.div_pos; lia|apply Z.div_lt_upper_bound; lia]. Qed.

(** ** The bit map *)
Lemma bitmap_succ n : 0 <= n -> bitmap (n + 1) = set_bit (bitmap n) n.
Proof.
  intros Hn. unfold bitmap. rewrite (seqZ_app 0 n 1) by lia. rewrite foldl_app. change (seqZ (0 + n) 1) with (seqZ n 1). reflexivity.
Qed.

Lemma bitmap_spec n : 0 <= n <= 4096 -> length (bitmap n) = Z.to_nat BSIZE /\ forall b, 0 <= b -> bit (bitmap n) b = (b <? n).
Proof.
  intros [H0 Hn]. revert Hn. pattern n. apply natlike_ind; [|intros m Hm IH Hmn|done].
  - intros _. split; [reflexivity|]. intros b Hb. unfold bit. rewrite zero_byte, Z.bits_0. symmetry. apply Z.ltb_ge. lia.
  - replace (Z.succ m) with (m + 1) by lia. rewrite bitmap_succ by done. destruct (IH ltac:(lia)) as [Hl Hb]. split; [unfold set_bit; by rewrite length_insert|].
    intros b Hb0. rewrite set_bit_spec; [|split; [done|]|done].
    + rewrite Hb by done. destruct (Z.eqb_spec b m), (Z.ltb_spec b m), (Z.ltb_spec b (m + 1)); try done; lia.
    + rewrite Hl. change (Z.to_nat BSIZE) with (Z.to_nat 512). apply Z2Nat.inj_lt; [apply Z.div_pos; lia|lia|apply Z.div_lt_upper_bound; lia].
Qed.

(** ** Files on the image *)

(** The blocks of the content of a file, and with the indirect block. *)
Definition nb (c : list Z) : Z := (Z.of_nat (length c) + 511) / 512.
Definition cost (n : Z) : Z := n + (if 12 <? n then 1 else 0).

Section Mk.
(** A state of the kernel with this super block; only its geometry matters. *)
Context (s : fsst).
Hypothesis G : geo s.
Hypothesis Hsb : fsb s = mk_sb.

Lemma mk_bmb : bmb s = 58.
Proof using Hsb. unfold bmb. by rewrite Hsb. Qed.

Lemma mk_size : sb_size (fsb s) = 1000.
Proof using Hsb. by rewrite Hsb. Qed.

(** [V] is the image with the bit map of the blocks taken so far. *)
Record mst (st : mkst) (V : Z -> block) : Prop := {
  ms_fb : 59 <= freeblock st <= 1000;
  ms_len : blocks_ok V;
  ms_img : forall b, b <> 58 -> m_img st b = V b;
  ms_map : V 58 = bitmap (freeblock st);
  ms_zero : forall b, freeblock st <= b -> V b = zero_block
}.

(** The first [n] blocks of the file are there; its bytes are [c], then zeros. *)
Record mfile (V : Z -> block) (d : dinode) (c : list Z) (n : Z) : Prop := {
  mf_ok : inode_ok s V d;
  mf_len : Z.of_nat (length c) <= n * 512;
  mf_max : 0 <= n <= MAXFILE;
  mf_byte : forall k, 0 <= k < MAXFILE * BSIZE -> fbyte V d k = byte_at c (Z.to_nat k);
  mf_alloc : forall bn, 0 <= bn < MAXFILE -> fblock V d bn <> 0 <-> bn < n
}.

(** The indirect block is there exactly when it is needed. *)
Definition mind (d : dinode) (n : Z) : Prop := addr_at d NDIRECT <> 0 <-> 12 < n.

(** The blocks of a file in two views. *)
Lemma owns_ext V V' d b : (forall bn, fblock V' d bn = fblock V d bn) -> owns V' d b <-> owns V d b.
Proof using Type. intros H. unfold owns. by setoid_rewrite H. Qed.

(** A step that works on the file [d] and takes [k] blocks. *)
Record grown (st : mkst) (V : Z -> block) (d : dinode) (st' : mkst) (V' : Z -> block) (d' : dinode) (k : Z) : Prop := {
  gr_st : mst st' V';
  gr_ino : freeinode st' = freeinode st;
  gr_fb : freeblock st' = freeblock st + k;
  gr_low : forall b, b < 58 -> V' b = V b;
  gr_oth : others s V V' d d';
  gr_d : d' = set_di_addrs (di_addrs d') d;
  gr_keep : forall b, b <> 0 -> owns V d b -> owns V' d' b;
  gr_new : forall b, b <> 0 -> freeblock st <= b < freeblock st' -> owns V' d' b
}.

Lemma grown_refl st V d : mst st V -> grown st V d st V d 0.
Proof using Type. intros H. split; try done; [lia|by destruct d|lia]. Qed.

Lemma grown_trans st1 V1 d1 st2 V2 d2 st3 V3 d3 k1 k2 :
  grown st1 V1 d1 st2 V2 d2 k1 -> grown st2 V2 d2 st3 V3 d3 k2 -> grown st1 V1 d1 st3 V3 d3 (k1 + k2).
Proof using Type.
  intros [A1 A2 A3 A4 A5 A6 A7 A8] [B1 B2 B3 B4 B5 B6 B7 B8]. split; [done|congruence|lia| |by eapply others_trans|..].
  - intros b Hb. by rewrite B4, A4.
  - rewrite B6, A6. by destruct d1.
  - intros b Hb Ho. apply B7; [done|]. by apply A7.
  - intros b Hb Hr. destruct (decide (b < freeblock st2)); [apply B7; [done|]; apply A8; [done|lia]|apply B8; [done|lia]].
Qed.

Lemma mst_bit st V b : mst st V -> 0 <= b -> bit (V (bmb s)) b = (b <? freeblock st).
Proof using Hsb. intros H Hb. rewrite mk_bmb, (ms_map _ _ H). apply bitmap_spec; [pose proof (ms_fb _ _ H); lia|done]. Qed.

(** [freeblock++] allocates a block of [V]. *)
Definition bump (st : mkst) : mkst := mkMk (m_img st) (freeinode st) (freeblock st + 1).

Lemma next_block_run st : next_block st = Ok (freeblock st, bump st).
Proof using Type. done. Qed.

Lemma bump_mst st V : mst st V -> freeblock st < 1000 -> mst (bump st) (alloc_view s V (freeblock st)).
Proof using Hsb.
  intros H Hlt. pose proof (ms_fb _ _ H) as Hf. assert (E : forall b, b <> 58 -> alloc_view s V (freeblock st) b = V b).
  { intros b Hb. unfold alloc_view. rewrite mk_bmb. unfold updV. destruct (Z.eqb_spec b (freeblock st)) as [-> |]; [by rewrite (ms_zero _ _ H) by lia|].
    by destruct (Z.eqb_spec b 58). }
  assert (E58 : alloc_view s V (freeblock st) 58 = bitmap (freeblock st + 1)).
  { unfold alloc_view. rewrite mk_bmb, updV_ne, updV_eq, (ms_map _ _ H) by lia. symmetry. apply bitmap_succ. lia. }
  split; cbn [freeblock m_img bump]; [lia|..|done|].
  - intros b. destruct (decide (b = 58)) as [-> |Hb]; [rewrite E58; apply bitmap_spec; lia|rewrite E by done; apply H].
  - intros b Hb. rewrite E by done. by apply H.
  - intros b Hb. rewrite E by lia. apply H. lia.
Qed.

(** The block [freeblock] is free in the view and can be attached. *)
Lemma bump_fresh st V : mst st V -> freeblock st < 1000 ->
  (bmb s < freeblock st < sb_size (fsb s) /\ bit (V (bmb s)) (freeblock st) = false) /\
  forall b, 0 <= b -> bit (alloc_view s V (freeblock st) (bmb s)) b = if b =? freeblock st then true else bit (V (bmb s)) b.
Proof using Hsb.
  intros H Hlt. pose proof (ms_fb _ _ H) as Hf. rewrite mk_size. split; [split; [rewrite mk_bmb; lia|rewrite (mst_bit st) by (done || lia); apply Z.ltb_irrefl]|].
  intros b Hb. rewrite (mst_bit (bump st)) by (done || by apply bump_mst). rewrite (mst_bit st) by done. cbn [freeblock bump].
  destruct (Z.eqb_spec b (freeblock st)), (Z.ltb_spec b (freeblock st)), (Z.ltb_spec b (freeblock st + 1)); try done; lia.
Qed.

Lemma bump_low st V b : mst st V -> b < 58 -> alloc_view s V (freeblock st) b = V b.
Proof using Hsb. intros H Hb. pose proof (ms_fb _ _ H). apply alloc_view_other; [lia|]. rewrite mk_bmb. lia. Qed.

(** ** Reading and writing blocks *)
Lemma rsect_run st V b : mst st V -> b <> 58 -> b < 1000 -> rsect b st = Ok (V b, st).
Proof using Type. intros H Hb Hlt. unfold rsect. mrun. change FSSIZE with 1000. rewrite (proj2 (Z.ltb_lt _ _)) by done. by rewrite (ms_img _ _ H). Qed.

Lemma wsect_run st V b d : mst st V -> b <> 58 -> b < freeblock st -> length d = Z.to_nat BSIZE ->
  exists st', wsect b d st = Ok (tt, st') /\ mst st' (updV V b d) /\ freeinode st' = freeinode st /\ freeblock st' = freeblock st.
Proof using Type.
  intros H Hb Hlt Hd. eexists. split; [reflexivity|]. split; [|done]. split; cbn [freeblock m_img].
  - apply H.
  - intros c. unfold updV. destruct (c =? b); [done|apply H].
  - intros c Hc. unfold updV. destruct (c =? b); [done|by apply H].
  - rewrite updV_ne by done. apply H.
  - intros c Hc. rewrite updV_ne by lia. by apply H.
Qed.

(** ** Adding the next block of a file *)
Lemma mfile_attached V V' d d' c n a : mfile V d c n -> n < MAXFILE -> attached s V V' d d' n a -> mfile V' d' c (n + 1).
Proof using G.
  intros [H1 H2 H3 H4 H5] Hn A. destruct (geo_facts s G) as [G1 G2]. pose proof (at_fresh _ _ _ _ _ _ _ A) as [Ha _].
  split; [by eapply attached_ok|lia|lia|..].
  - intros k Hk. rewrite <- H4 by done. by eapply attached_byte.
  - intros bn Hbn. rewrite (at_block _ _ _ _ _ _ _ A) by done. destruct (Z.eqb_spec bn n) as [-> |]; [lia|]. rewrite H5 by done. lia.
Qed.

Lemma data_addr V a : data_block s V a -> 58 < a < 1000 /\ xint a = a.
Proof using Hsb. intros [H _]. rewrite mk_bmb, mk_size in H. split; [done|]. apply xint_small. lia. Qed.

Lemma fb_addr st V : mst st V -> freeblock st < 1000 -> xint (freeblock st) = freeblock st.
Proof using Type. intros H Hlt. pose proof (ms_fb _ _ H). apply xint_small. lia. Qed.

Lemma fblock_direct V d bn : bn < 12 -> fblock V d bn = addr_at d (Z.to_nat bn).
Proof using Type. intros H. unfold fblock. change (Z.of_nat NDIRECT) with 12. by rewrite (proj2 (Z.ltb_lt _ _)). Qed.

Lemma fblock_indirect V d bn : 12 <= bn -> addr_at d NDIRECT <> 0 -> fblock V d bn = get32 (V (addr_at d NDIRECT)) (Z.to_nat (bn - 12)).
Proof using Type.
  intros H Hi. unfold fblock. change (Z.of_nat NDIRECT) with 12. rewrite (proj2 (Z.ltb_ge _ _)) by done. by rewrite (proj2 (Z.eqb_neq _ _)).
Qed.

Lemma fblock_none V d bn : 12 <= bn -> addr_at d NDIRECT = 0 -> fblock V d bn = 0.
Proof using Type. intros H Hi. unfold fblock. change (Z.of_nat NDIRECT) with 12. rewrite (proj2 (Z.ltb_ge _ _)) by done. by rewrite Hi. Qed.

(** What attaching the block [freeblock] in the view [V'] gives. *)
Lemma attach_grown st V d d' c n st' V' : mst st V -> mfile V d c n -> n < MAXFILE -> mst st' V' -> attached s V V' d d' n (freeblock st) ->
  freeinode st' = freeinode st -> freeblock st' = freeblock st + 1 -> (forall b, b < 58 -> V' b = V b) -> d' = set_di_addrs (di_addrs d') d ->
  grown st V d st' V' d' 1 /\ mfile V' d' c (n + 1) /\ fblock V' d' n = freeblock st.
Proof using G.
  intros H F Hn H' A E1 E2 El Ed. pose proof (mf_max _ _ _ _ F) as Hm.
  assert (Eb : fblock V' d' n = freeblock st) by (rewrite (at_block _ _ _ _ _ _ _ A) by lia; by rewrite Z.eqb_refl).
  split; [|split; [by eapply mfile_attached|done]]. split; try done; [by eapply attached_others|..].
  - intros b Hb [Ho|(bm & Hbm & Ho)]; [left; by rewrite (at_ind _ _ _ _ _ _ _ A)|right; exists bm; split; [done|]].
    rewrite (at_block _ _ _ _ _ _ _ A) by done. destruct (Z.eqb_spec bm n) as [-> |]; [|done]. rewrite (at_hole _ _ _ _ _ _ _ A) in Ho. congruence.
  - intros b _ Hr. right. exists n. split; [lia|]. rewrite Eb. lia.
Qed.

Lemma direct_run st V d c n : mst st V -> mfile V d c n -> n < 12 -> freeblock st < 1000 ->
  exists V', let d' := set_addr (Z.to_nat n) (freeblock st) d in
    append_block d n st = Ok ((freeblock st, d'), bump st) /\ grown st V d (bump st) V' d' 1 /\ mfile V' d' c (n + 1) /\ fblock V' d' n = freeblock st /\
    addr_at d' NDIRECT = addr_at d NDIRECT.
Proof using G Hsb.
  intros H F Hn Hlt. pose proof (mf_max _ _ _ _ F) as Hm. destruct (bump_fresh st V H Hlt) as [[Hr Hb] Hbits].
  assert (Hk : (Z.to_nat n < NDIRECT)%nat) by (unfold NDIRECT; lia). assert (Hz : fblock V d n = 0) by (apply (dec_stable); intros Hz; apply (mf_alloc _ _ _ _ F) in Hz; [lia|change MAXFILE with 140; lia]).
  rewrite fblock_direct in Hz by done. pose proof (attach_direct s V d (freeblock st) G (mf_ok _ _ _ _ F) Hr Hb Hbits _ Hk Hz) as A. rewrite Z2Nat.id in A by lia.
  exists (alloc_view s V (freeblock st)). cbv zeta. split.
  - unfold append_block. change (Z.of_nat NDIRECT) with 12. rewrite (proj2 (Z.ltb_lt _ _)) by done. fold (addr_at d (Z.to_nat n)). rewrite Hz. cbn [Z.eqb].
    change (xint 0 =? 0) with true. cbn iota. mrun. rewrite next_block_run. by rewrite (fb_addr st V) by done.
  - destruct (attach_grown st V d _ c n (bump st) _ H F ltac:(change MAXFILE with 140; lia) (bump_mst st V H Hlt) A) as (X1 & X2 & X3); try done.
    { intros b Hb0. by eapply bump_low. }
    split_and!; try done. apply (at_ind _ _ _ _ _ _ _ A).
Qed.

(** The indirect block of a file that needs its block 12 or a later one. *)
Definition get_indirect (d : dinode) : M mkst dinode :=
  if xint (addr_at d NDIRECT) =? 0 then x ← next_block; mret (set_addr NDIRECT (xint x) d) else mret d.

Lemma indirect_run st V d c n : mst st V -> mfile V d c n -> mind d n -> 12 <= n -> freeblock st + (if 12 <? n then 0 else 1) <= 1000 ->
  exists d' st' V', get_indirect d st = Ok (d', st') /\ grown st V d st' V' d' (if 12 <? n then 0 else 1) /\ mfile V' d' c n /\ addr_at d' NDIRECT <> 0.
Proof using G Hsb.
  intros H F I Hn Hlt. unfold get_indirect. destruct (Z.ltb_spec 12 n) as [Hgt|Hle].
  - apply I in Hgt as Hi. destruct (data_addr _ _ (io_ind _ _ _ (mf_ok _ _ _ _ F) Hi)) as [_ ->]. rewrite (proj2 (Z.eqb_neq _ _)) by done.
    exists d, st, V. split_and!; try done. by apply grown_refl.
  - assert (Hz : addr_at d NDIRECT = 0) by (apply dec_stable; intros Hz; apply I in Hz; lia). rewrite Hz. change (xint 0 =? 0) with true. cbn iota.
    destruct (bump_fresh st V H ltac:(lia)) as [[Hr Hb] Hbits]. pose proof (ms_fb _ _ H) as Hf.
    destruct (attach_indirect s V d (freeblock st) G (mf_ok _ _ _ _ F) Hr Hb Hbits Hz) as (A1 & A2 & A3 & A4).
    exists (set_addr NDIRECT (freeblock st) d), (bump st), (alloc_view s V (freeblock st)). split_and!.
    + mrun. rewrite next_block_run. by rewrite (fb_addr st V) by (done || lia).
    + assert (Ei : addr_at (set_addr NDIRECT (freeblock st) d) NDIRECT = freeblock st) by (rewrite addr_at_set by (rewrite (io_addrs _ _ _ (mf_ok _ _ _ _ F)); lia); by rewrite decide_True).
      split; try done; [apply bump_mst; [done|lia]|intros b Hb0; by eapply bump_low|..].
      * intros b Hb0 [Ho|(bm & Hbm & Ho)]; [congruence|]. right. exists bm. split; [done|]. by rewrite A2.
      * intros b _ Hr0. left. rewrite Ei. cbn in Hr0. lia.
    + destruct F as [F1 F2 F3 F4 F5]. split; try done; intros k Hk; [rewrite A3 by done; auto|rewrite A2 by done; auto].
    + rewrite addr_at_set by (rewrite (io_addrs _ _ _ (mf_ok _ _ _ _ F)); lia). rewrite decide_True by done. lia.
Qed.

(** A block that the indirect block is to name. *)
Lemma entry_run st V d c n : mst st V -> mfile V d c n -> addr_at d NDIRECT <> 0 -> 12 <= n < MAXFILE -> freeblock st < 1000 ->
  let ind := addr_at d NDIRECT in let j := Z.to_nat (n - 12) in
  exists st' V', (x ← next_block; wsect ind (put32 (V ind) j (xint x));; mret (xint x, d)) st = Ok ((freeblock st, d), st') /\
    grown st V d st' V' d 1 /\ mfile V' d c (n + 1) /\ fblock V' d n = freeblock st /\ get32 (V ind) j = 0.
Proof using G Hsb.
  intros H F Hi Hn Hlt ind j. change MAXFILE with 140 in Hn. destruct (bump_fresh st V H Hlt) as [[Hr Hb] Hbits]. pose proof (ms_fb _ _ H) as Hf.
  assert (Hz : get32 (V ind) j = 0).
  { apply dec_stable. intros Hz. unfold ind, j in Hz. rewrite <- fblock_indirect in Hz by (done || lia). apply (mf_alloc _ _ _ _ F) in Hz; [lia|change MAXFILE with 140; lia]. }
  pose proof (io_ind _ _ _ (mf_ok _ _ _ _ F) Hi) as Hd. destruct (data_addr _ _ Hd) as [Hir _]. destruct Hd as [_ Hd].
  rewrite (mst_bit st) in Hd by (done || lia). apply Z.ltb_lt in Hd.
  assert (Hj : (j < Z.to_nat NINDIRECT)%nat) by (unfold j; change (Z.to_nat NINDIRECT) with 128%nat; lia).
  pose proof (attach_entry s V d (freeblock st) G (mf_ok _ _ _ _ F) Hr Hb Hbits j Hj Hi Hz (ms_len _ _ H) ltac:(rewrite mk_size; lia)) as A.
  replace (Z.of_nat (NDIRECT + j)) with n in A by (unfold j, NDIRECT; lia).
  destruct (wsect_run (bump st) _ ind (put32 (V ind) j (freeblock st)) (bump_mst st V H Hlt)) as (st' & E & H' & E1 & E2);
    [unfold ind; lia|unfold ind; cbn; lia|rewrite put32_length; apply H|].
  exists st', (updV (alloc_view s V (freeblock st)) ind (put32 (V ind) j (freeblock st))). split.
  - rewrite (bind_Ok _ _ _ _ _ (next_block_run st)), (fb_addr st V) by done. by rewrite (bind_Ok _ _ _ _ _ E).
  - destruct (attach_grown st V d d c n st' _ H F ltac:(change MAXFILE with 140; lia) H' A) as (X1 & X2 & X3); try done.
    { intros b Hb0. rewrite updV_ne by (unfold ind; lia). by eapply bump_low. }
    by destruct d.
Qed.

(** [append_block] where there is no block yet, and where there is one. *)
Lemma append_new st V d c n : mst st V -> mfile V d c n -> mind d n -> n < MAXFILE -> freeblock st + (cost (n + 1) - cost n) <= 1000 ->
  exists a d' st' V', append_block d n st = Ok ((a, d'), st') /\ grown st V d st' V' d' (cost (n + 1) - cost n) /\ mfile V' d' c (n + 1) /\
    mind d' (n + 1) /\ fblock V' d' n = a.
Proof using G Hsb.
  intros H F I Hn Hlt. destruct (Z.ltb_spec n 12) as [Hd|Hd].
  - assert (Ec : cost (n + 1) - cost n = 1). { unfold cost. destruct (Z.ltb_spec 12 (n + 1)), (Z.ltb_spec 12 n); lia. }
    rewrite Ec in *. destruct (direct_run st V d c n H F Hd ltac:(lia)) as (V' & E1 & E2 & E3 & E4 & E5).
    do 4 eexists. split; [exact E1|]. split_and!; try done. unfold mind in *. rewrite E5, I. lia.
  - assert (Ec : cost (n + 1) - cost n = (if 12 <? n then 0 else 1) + 1). { unfold cost. destruct (Z.ltb_spec 12 (n + 1)), (Z.ltb_spec 12 n); lia. }
    rewrite Ec in *. destruct (indirect_run st V d c n H F I Hd ltac:(lia)) as (d1 & st1 & V1 & E1 & G1 & F1 & I1).
    pose proof (gr_fb _ _ _ _ _ _ _ G1) as Ef. destruct (entry_run st1 V1 d1 c n (gr_st _ _ _ _ _ _ _ G1) F1 I1 ltac:(lia) ltac:(destruct (12 <? n); lia)) as (st2 & V2 & E2 & G2 & F2 & X & Hz).
    destruct (data_addr _ _ (io_ind _ _ _ (mf_ok _ _ _ _ F1) I1)) as [Hir Hix].
    exists (freeblock st1), d1, st2, V2. split_and!; try done; [|by eapply grown_trans|unfold mind; split; [lia|done]].
    unfold append_block. change (Z.of_nat NDIRECT) with 12. rewrite (proj2 (Z.ltb_ge _ _)) by done. fold (addr_at d NDIRECT). fold (get_indirect d).
    rewrite (bind_Ok _ _ _ _ _ E1). cbv zeta. fold (addr_at d1 NDIRECT). rewrite Hix, (bind_Ok _ _ _ _ _ (rsect_run st1 V1 (addr_at d1 NDIRECT) (gr_st _ _ _ _ _ _ _ G1) ltac:(lia) ltac:(lia))).
    by rewrite Hz.
Qed.

Lemma append_old st V d c n bn : mst st V -> mfile V d c n -> mind d n -> 0 <= bn < n -> append_block d bn st = Ok ((fblock V d bn, d), st).
Proof using Hsb.
  intros H F I Hbn. pose proof (mf_max _ _ _ _ F) as Hm. assert (Hz : fblock V d bn <> 0) by (apply (mf_alloc _ _ _ _ F); lia).
  destruct (io_data _ _ _ (mf_ok _ _ _ _ F) bn ltac:(lia) Hz) as [Hd _]. destruct (data_addr _ _ Hd) as [Hr Hx].
  unfold append_block. change (Z.of_nat NDIRECT) with 12. destruct (Z.ltb_spec bn 12) as [Hlt|Hge].
  - rewrite fblock_direct in * by done. fold (addr_at d (Z.to_nat bn)). rewrite Hx. by rewrite (proj2 (Z.eqb_neq _ _)).
  - assert (Hi : addr_at d NDIRECT <> 0) by (apply I; lia). destruct (data_addr _ _ (io_ind _ _ _ (mf_ok _ _ _ _ F) Hi)) as [Hir Hix].
    fold (addr_at d NDIRECT). rewrite Hix, (proj2 (Z.eqb_neq _ _)) by done. rewrite (bind_Ok _ _ _ d st) by done. cbv zeta. fold (addr_at d NDIRECT).
    rewrite Hix, (bind_Ok _ _ _ _ _ (rsect_run st V (addr_at d NDIRECT) H ltac:(lia) ltac:(lia))). rewrite fblock_indirect in * by done. rewrite Hx. by rewrite (proj2 (Z.eqb_neq _ _)).
Qed.

(** ** The loop of [iappend] *)
Lemma write_run st V d c n l : mst st V -> mfile V d c n -> let bn := Z.of_nat (length c) / BSIZE in bn < n ->
  Z.of_nat (length c) mod BSIZE + Z.of_nat (length l) <= BSIZE ->
  exists st' V', wsect (fblock V d bn) (blit (V (fblock V d bn)) (Z.to_nat (Z.of_nat (length c) - bn * BSIZE)) l) st = Ok (tt, st') /\
    grown st V d st' V' d 0 /\ mfile V' d (c ++ l) n.
Proof using G Hsb.
  intros H F bn Hbn Hle. set (off := Z.of_nat (length c)) in *. pose proof (mf_max _ _ _ _ F) as Hm. change MAXFILE with 140 in Hm.
  pose proof (Z.div_mod off BSIZE ltac:(done)) as Hdm. pose proof (Z.mod_pos_bound off BSIZE ltac:(done)) as Hr. fold bn in Hdm.
  replace (off - bn * BSIZE) with (off mod BSIZE) by lia. assert (Hb0 : 0 <= bn) by (apply Z.div_pos; [lia|done]).
  assert (Hbm : 0 <= bn < MAXFILE) by (change MAXFILE with 140; lia). assert (Hz : fblock V d bn <> 0) by (by apply (mf_alloc _ _ _ _ F)).
  pose proof (mf_ok _ _ _ _ F) as Hok. destruct (io_data _ _ _ Hok bn Hbm Hz) as [Hd _]. destruct (data_addr _ _ Hd) as [Ha _]. destruct Hd as [_ Hd].
  rewrite (mst_bit st) in Hd by (done || lia). apply Z.ltb_lt in Hd. set (new := blit (V (fblock V d bn)) (Z.to_nat (off mod BSIZE)) l).
  destruct (wsect_run st V (fblock V d bn) new H ltac:(lia) Hd) as (st' & E & H' & E1 & E2).
  { unfold new. rewrite blit_length; [apply H|]. rewrite (ms_len _ _ H). lia. }
  exists st', (updV V (fblock V d bn) new). split; [exact E|]. split.
  - split; try done; [lia|intros b Hb; apply updV_ne; lia|by apply set_data_others|by destruct d|intros b _ Ho; apply (owns_ext V (updV V (fblock V d bn) new)); [intros; by apply (set_data_fblock s)|done]|lia].
  - split; [by apply set_data_ok|rewrite length_app; unfold BSIZE in *; lia|done|..].
    + intros k Hk. rewrite (set_data_byte s) by done. unfold new, bn. rewrite block_write_byte by (try done; lia || apply H). unfold byte_at.
      destruct (decide (off <= k < off + Z.of_nat (length l))) as [Hin|Hout].
      * rewrite lookup_app_r by lia. do 2 f_equal. lia.
      * rewrite (mf_byte _ _ _ _ F) by done. unfold byte_at. destruct (decide (k < off)); [by rewrite lookup_app_l by lia|].
        rewrite !lookup_ge_None_2; [done|rewrite length_app; lia|lia].
    + intros bm Hbm'. rewrite (set_data_fblock s) by done. by apply F.
Qed.

(** One pass of the loop leaves a file that takes the blocks it needs. *)
Lemma append_turn st V d c l : mst st V -> mfile V d c (nb c) -> mind d (nb c) -> (0 < length l)%nat ->
  Z.of_nat (length c) mod BSIZE + Z.of_nat (length l) <= BSIZE -> Z.of_nat (length c) / BSIZE < MAXFILE ->
  freeblock st + (cost (nb (c ++ l)) - cost (nb c)) <= 1000 -> let bn := Z.of_nat (length c) / BSIZE in
  exists a d' st1 V1 st' V', append_block d bn st = Ok ((a, d'), st1) /\ mst st1 V1 /\ rsect a st1 = Ok (V1 a, st1) /\
    wsect a (blit (V1 a) (Z.to_nat (Z.of_nat (length c) - bn * BSIZE)) l) st1 = Ok (tt, st') /\
    grown st V d st' V' d' (cost (nb (c ++ l)) - cost (nb c)) /\ mfile V' d' (c ++ l) (nb (c ++ l)) /\ mind d' (nb (c ++ l)).
Proof using G Hsb.
  intros H F I Hl Hle Hmax Hfr bn. pose proof (Z.div_mod (Z.of_nat (length c)) BSIZE ltac:(done)) as Hdm. fold bn in Hdm.
  pose proof (Z.mod_pos_bound (Z.of_nat (length c)) BSIZE ltac:(done)) as Hr. fold bn in Hmax.
  assert (Hn : nb (c ++ l) = bn + 1) by (unfold nb; rewrite length_app; unfold BSIZE in *; symmetry; apply Z.div_unique with (Z.of_nat (length c) mod 512 + Z.of_nat (length l) - 1); lia).
  assert (Hc : nb c = bn \/ nb c = bn + 1).
  { unfold nb. set (m := Z.of_nat (length c) mod BSIZE) in *. unfold BSIZE in Hdm, Hr. destruct (decide (m = 0)); [left; symmetry; apply Z.div_unique with 511; lia|right; symmetry; apply Z.div_unique with (m - 1); lia]. }
  assert (Hstep : exists a d' st1 V1, append_block d bn st = Ok ((a, d'), st1) /\ grown st V d st1 V1 d' (cost (bn + 1) - cost (nb c)) /\ mfile V1 d' c (bn + 1) /\
    mind d' (bn + 1) /\ fblock V1 d' bn = a).
  { rewrite Hn in Hfr. destruct Hc as [Hc|Hc]; rewrite Hc in *; [by apply append_new|]. exists (fblock V d bn), d, st, V. split_and!; try done.
    - apply (append_old st V d c (bn + 1)); try done. unfold BSIZE in *. lia.
    - replace (cost (bn + 1) - cost (bn + 1)) with 0 by lia. by apply grown_refl. }
  destruct Hstep as (a & d' & st1 & V1 & E1 & G1 & F1 & I1 & Ea). pose proof (gr_st _ _ _ _ _ _ _ G1) as H1.
  destruct (write_run st1 V1 d' c (bn + 1) l H1 F1 ltac:(fold bn; lia) Hle) as (st' & V' & E2 & G2 & F2). fold bn in E2. rewrite Ea in E2.
  assert (Ha : 58 < a < 1000). { subst a. assert (Hbm : 0 <= bn < MAXFILE) by (unfold BSIZE in *; lia). apply (data_addr V1), (io_data _ _ _ (mf_ok _ _ _ _ F1) bn Hbm), (mf_alloc _ _ _ _ F1); [done|lia]. }
  exists a, d', st1, V1, st', V'. rewrite Hn. split_and!; try done; [by apply rsect_run; [|lia..]|].
  replace (cost (bn + 1) - cost (nb c)) with (cost (bn + 1) - cost (nb c) + 0) by lia. by eapply grown_trans.
Qed.

Lemma cost_mono n m : n <= m -> cost n <= cost m.
Proof using Type. unfold cost. destruct (Z.ltb_spec 12 n), (Z.ltb_spec 12 m); lia. Qed.

Lemma nb_mono c l : nb c <= nb (c ++ l).
Proof using Type. unfold nb. rewrite length_app. apply Z.div_le_mono; lia. Qed.

Lemma append_loop_run fuel : forall p st V d c, mst st V -> mfile V d c (nb c) -> mind d (nb c) -> (length p <= fuel)%nat ->
  Z.of_nat (length (c ++ p)) <= MAXFILE * BSIZE -> freeblock st + (cost (nb (c ++ p)) - cost (nb c)) <= 1000 ->
  exists d' st' V', append_loop fuel d (Z.of_nat (length c)) p st = Ok ((d', Z.of_nat (length (c ++ p))), st') /\
    grown st V d st' V' d' (cost (nb (c ++ p)) - cost (nb c)) /\ mfile V' d' (c ++ p) (nb (c ++ p)) /\ mind d' (nb (c ++ p)).
Proof using G Hsb.
  induction fuel as [|fuel IH]; intros p st V d c H F I Hf Hmax Hfr; (destruct (decide (p = [])) as [-> |Hp]; [exists d, st, V; cbn; rewrite app_nil_r in *; split_and!; try done;
    replace (cost (nb c) - cost (nb c)) with 0 by lia; by apply grown_refl|]); (assert (Hl : (0 < length p)%nat) by (destruct p; [done|simpl; lia])); [lia|].
  pose proof (Z.div_mod (Z.of_nat (length c)) BSIZE ltac:(done)) as Hdm. pose proof (Z.mod_pos_bound (Z.of_nat (length c)) BSIZE ltac:(done)) as Hr.
  set (bn := Z.of_nat (length c) / BSIZE) in *. rewrite length_app in Hmax. change MAXFILE with 140 in Hmax.
  set (n1 := fs_min (Z.of_nat (length p)) ((bn + 1) * BSIZE - Z.of_nat (length c))).
  assert (Hn1 : 0 < n1 <= Z.of_nat (length p) /\ Z.of_nat (length c) mod BSIZE + n1 <= BSIZE) by (unfold n1, fs_min; destruct (Z.ltb_spec (Z.of_nat (length p)) ((bn + 1) * BSIZE - Z.of_nat (length c))); unfold BSIZE in *; lia).
  set (l := take (Z.to_nat n1) p). set (r := drop (Z.to_nat n1) p). assert (Ep : p = l ++ r) by (symmetry; apply take_drop).
  assert (Ell : Z.of_nat (length l) = n1) by (unfold l; rewrite length_take; lia). assert (Hlp : (length p = length l + length r)%nat) by (rewrite Ep at 1; apply length_app).
  assert (Ecp : c ++ p = (c ++ l) ++ r) by (by rewrite Ep, app_assoc). rewrite Ecp in *.
  pose proof (cost_mono _ _ (nb_mono (c ++ l) r)) as Hm2.
  destruct (append_turn st V d c l H F I) as (a & d1 & st1 & V1 & st2 & V2 & E1 & H1 & E2 & E3 & G2 & F2 & I2); [lia|lia|fold bn; change MAXFILE with 140; unfold BSIZE in *; lia|lia|].
  fold bn in E1, E3. destruct (IH r st2 V2 d1 (c ++ l) (gr_st _ _ _ _ _ _ _ G2) F2 I2) as (d' & st' & V' & E4 & G4 & F4 & I4); [lia|rewrite !length_app; change MAXFILE with 140; lia|rewrite (gr_fb _ _ _ _ _ _ _ G2); lia|].
  exists d', st', V'. split_and!; [|replace (cost (nb ((c ++ l) ++ r)) - cost (nb c)) with (cost (nb (c ++ l)) - cost (nb c) + (cost (nb ((c ++ l) ++ r)) - cost (nb (c ++ l)))) by lia; by eapply grown_trans|done|done].
  cbn [append_loop]. rewrite (proj2 (Nat.eqb_neq _ _)) by lia. fold bn. rewrite (proj2 (Z.ltb_lt bn _)) by (change MAXFILE with 140; unfold BSIZE in *; lia). cbn [negb].
  rewrite (bind_Ok _ _ _ _ _ E1). cbv zeta. cbn [fst snd]. fold n1. rewrite (bind_Ok _ _ _ _ _ E2). fold l. rewrite (bind_Ok _ _ _ _ _ E3). fold r.
  replace (Z.of_nat (length c) + n1) with (Z.of_nat (length (c ++ l))) by (rewrite length_app; lia). exact E4.
Qed.

(** ** Inodes *)
Lemma mk_IBLOCK inum : 0 <= inum < 200 -> IBLOCK inum mk_sb = inode_block s inum /\ 32 <= inode_block s inum < 58.
Proof using G Hsb.
  intros Hi. assert (Hi' : 0 <= inum < sb_ninodes (fsb s)) by (rewrite Hsb; done). rewrite <- Hsb, IBLOCK_spec by done. split; [done|].
  pose proof (inode_block_range s inum G Hi') as Hr. rewrite mk_bmb, Hsb in Hr. exact Hr.
Qed.

Lemma rinode_run st V inum : mst st V -> 0 <= inum < 200 -> rinode inum st = Ok (disk_inode s V inum, st).
Proof using G Hsb.
  intros H Hi. destruct (mk_IBLOCK inum Hi) as [E Hr]. unfold rinode. rewrite E. by rewrite (bind_Ok _ _ _ _ _ (rsect_run st V (inode_block s inum) H ltac:(lia) ltac:(lia))).
Qed.

Lemma winode_run st V inum d : mst st V -> 0 <= inum < 200 -> dinode_ok d ->
  exists st' V', winode inum d st = Ok (tt, st') /\ mst st' V' /\ inode_set s V V' inum d /\ freeinode st' = freeinode st /\ freeblock st' = freeblock st.
Proof using G Hsb.
  intros H Hi Hd. destruct (mk_IBLOCK inum Hi) as [E Hr]. pose proof (ms_fb _ _ H).
  destruct (wsect_run st V (inode_block s inum) (put_dinode (V (inode_block s inum)) (Z.to_nat (inum mod IPB)) d) H) as (st' & Ew & H' & E1 & E2);
    [lia|lia|rewrite put_dinode_length; apply H|].
  exists st', (updV V (inode_block s inum) (put_dinode (V (inode_block s inum)) (Z.to_nat (inum mod IPB)) d)). split.
  - unfold winode. rewrite E. by rewrite (bind_Ok _ _ _ _ _ (rsect_run st V (inode_block s inum) H ltac:(lia) ltac:(lia))).
  - split_and!; try done. apply put_inode_set; [lia|apply H|done].
Qed.

Lemma mfile_ext V V' d c n : (forall b, 58 <= b -> V' b = V b) -> mfile V d c n -> mfile V' d c n.
Proof using Hsb.
  intros Hs [H1 H2 H3 H4 H5]. assert (Hs' : forall b, bmb s <= b -> V' b = V b) by (rewrite mk_bmb; done).
  split; try done; [by eapply meta_inode_ok|intros k Hk; rewrite <- H4 by done; by eapply meta_byte|].
  intros bn Hbn. rewrite <- H5 by done. by erewrite meta_fblock.
Qed.

Lemma mfile_size V d c n z : mfile V d c n -> mfile V (set_di_size z d) c n.
Proof using Type. intros [[I1 I2 I3 I4] H2 H3 H4 H5]. split; try done. Qed.

(** Addresses of a file fit in the inode. *)
Lemma addrs_small V d : inode_ok s V d -> Forall (fun a => 0 <= a < 2 ^ 32) (di_addrs d).
Proof using Hsb.
  intros Hok. apply Forall_lookup_2. intros i a Hi. pose proof (lookup_lt_Some _ _ _ Hi) as Hlt. rewrite (io_addrs _ _ _ Hok) in Hlt.
  assert (Ea : addr_at d i = a) by (unfold addr_at; by rewrite Hi). destruct (decide (a = 0)) as [-> |Hz]; [lia|].
  assert (Hd : data_block s V a); [|destruct (data_addr _ _ Hd); lia]. unfold NDIRECT in Hlt. subst a. destruct (decide (i = 12)%nat) as [-> |Hne]; [by apply (io_ind _ _ _ Hok)|].
  replace i with (Z.to_nat (Z.of_nat i)) in * by lia. rewrite <- (fblock_direct V) in * by lia. apply (io_data _ _ _ Hok); [change MAXFILE with 140; lia|done].
Qed.

(** ** The whole image *)

(** The inode [inum] is a file of type [t] with content [c]. *)
Record hasfile (V : Z -> block) (inum : Z) (t : Z) (c : list Z) : Prop := {
  hf_file : mfile V (disk_inode s V inum) c (nb c);
  hf_ind : mind (disk_inode s V inum) (nb c);
  hf_fields : exists a, disk_inode s V inum = mkDi t 0 0 1 (Z.of_nat (length c)) a
}.

Fixpoint total (fs : list (Z * list Z)) : Z := match fs with [] => 0 | f :: fs => cost (nb f.2) + total fs end.

Definition dinum (i : nat) : Z := Z.of_nat i + 1.

(** The files [fs] have the inodes 1, 2, ... *)
Record minv (st : mkst) (V : Z -> block) (fs : list (Z * list Z)) : Prop := {
  mi_st : mst st V;
  mi_ino : freeinode st = dinum (length fs);
  mi_len : (length fs < 200)%nat;
  mi_fb : freeblock st = 59 + total fs;
  mi_types : Forall (fun f => short f.1) fs;
  mi_files : forall i t c, fs !! i = Some (t, c) -> hasfile V (dinum i) t c;
  mi_disj : forall i j, (i < length fs)%nat -> (j < length fs)%nat -> i <> j -> disjoint_files V (disk_inode s V (dinum i)) (disk_inode s V (dinum j));
  mi_free : forall i, (length fs <= i)%nat -> dinum i < 200 -> di_type (disk_inode s V (dinum i)) = 0;
  mi_low : forall b, b < 32 -> V b = if b =? 1 then sb_bytes zero_block mk_sb else zero_block;
  mi_own : forall b, 59 <= b < freeblock st -> exists i, (i < length fs)%nat /\ owns V (disk_inode s V (dinum i)) b
}.

Lemma total_insert fs i t c c' : fs !! i = Some (t, c) -> total (<[i := (t, c')]> fs) = total fs - cost (nb c) + cost (nb c').
Proof using Type.
  revert i. induction fs as [|f fs IH]; intros [|i] H; simpl in H; [done|done|injection H as ->; simpl; lia|].
  specialize (IH i H). simpl. lia.
Qed.

Lemma total_app fs gs : total (fs ++ gs) = total fs + total gs.
Proof using Type. induction fs as [|f fs IH]; [done|]. simpl. lia. Qed.

Lemma inode_set_high V V' inum d : 0 <= inum < 200 -> inode_set s V V' inum d -> forall b, 58 <= b -> V' b = V b.
Proof using G Hsb. intros Hi IS b Hb. destruct (mk_IBLOCK inum Hi) as [_ Hr]. apply IS. lia. Qed.

Lemma disjoint_ext V V' d e : inode_ok s V d -> inode_ok s V e -> (forall b, 58 <= b -> V' b = V b) -> disjoint_files V d e -> disjoint_files V' d e.
Proof using Hsb.
  intros Hd He Hs D b Hb. assert (Hs' : forall b, bmb s <= b -> V' b = V b) by (rewrite mk_bmb; done).
  rewrite !(owns_ext V V'); [by apply D|intros; by eapply meta_fblock..].
Qed.

(** What a step on one file leaves of another. *)
Lemma grown_frame st V d st' V' d' k e c n : grown st V d st' V' d' k -> mfile V e c n -> disjoint_files V d e ->
  mfile V' e c n /\ disjoint_files V' d' e /\ forall bn, fblock V' e bn = fblock V e bn.
Proof using Hsb.
  intros Gr F D. assert (Hk : forall b, bmb s < b -> bit (V (bmb s)) b = true -> ~ owns V d b -> bit (V' (bmb s)) b = true /\ V' b = V b /\ ~ owns V' d' b).
  { intros b Hb. rewrite mk_bmb in Hb. apply (gr_oth _ _ _ _ _ _ _ Gr); rewrite ?mk_bmb; lia. }
  destruct F as [F1 F2 F3 F4 F5]. split; [|split; [by eapply frame_disjoint|intros; by eapply frame_fblock]].
  split; try done; [by eapply frame_ok|intros x Hx; erewrite frame_byte by done; auto|intros bn Hbn; erewrite frame_fblock by done; auto].
Qed.

Lemma disjoint_sym V d e : disjoint_files V d e -> disjoint_files V e d.
Proof using Type. intros D b Hb H1 H2. by apply (D b). Qed.

Lemma dinum_inj i j : i <> j -> dinum i <> dinum j.
Proof using Type. unfold dinum. lia. Qed.

Lemma grown_inode st V d st' V' d' k inum : grown st V d st' V' d' k -> 0 <= inum < 200 -> disk_inode s V' inum = disk_inode s V inum.
Proof using G Hsb. intros Gr Hi. destruct (mk_IBLOCK inum Hi) as [_ Hr]. unfold disk_inode. by rewrite (gr_low _ _ _ _ _ _ _ Gr) by lia. Qed.

Lemma minv_lookup st V fs i : minv st V fs -> (i < length fs)%nat -> 0 <= dinum i < 200 /\ exists t c, fs !! i = Some (t, c) /\ hasfile V (dinum i) t c.
Proof using Type.
  intros Hm Hi. pose proof (mi_len _ _ _ Hm). split; [unfold dinum; lia|]. destruct (lookup_lt_is_Some_2 fs i Hi) as [[t c] E]. exists t, c. split; [done|]. by apply (mi_files _ _ _ Hm).
Qed.

Section Update.
Context (st : mkst) (V : Z -> block) (fs : list (Z * list Z)) (i : nat) (t : Z) (c c' : list Z).
Context (st1 : mkst) (V1 : Z -> block) (d1 : dinode) (st2 : mkst) (V2 : Z -> block).
Hypothesis Hm : minv st V fs.
Hypothesis Hi : fs !! i = Some (t, c).
Hypothesis Gr : grown st V (disk_inode s V (dinum i)) st1 V1 d1 (cost (nb c') - cost (nb c)).
Hypothesis F1 : mfile V1 d1 c' (nb c').
Hypothesis I1 : mind d1 (nb c').
Hypothesis H2 : mst st2 V2.
Hypothesis IS : inode_set s V1 V2 (dinum i) (set_di_size (Z.of_nat (length c')) d1).
Hypothesis E2 : freeinode st2 = freeinode st1 /\ freeblock st2 = freeblock st1.

Lemma upd_range : 0 <= dinum i < 200.
Proof using Hm Hi. apply (minv_lookup st V fs i Hm). by eapply lookup_lt_Some. Qed.

Lemma upd_high b : 58 <= b -> V2 b = V1 b.
Proof using G Hsb Hm Hi IS. by apply (inode_set_high V1 V2 _ _ upd_range IS). Qed.

Lemma upd_other j : (j < length fs)%nat -> j <> i -> exists t0 c0, fs !! j = Some (t0, c0) /\
  disk_inode s V2 (dinum j) = disk_inode s V (dinum j) /\ hasfile V2 (dinum j) t0 c0 /\ disjoint_files V1 d1 (disk_inode s V (dinum j)) /\
  inode_ok s V1 (disk_inode s V (dinum j)) /\ forall bn, fblock V1 (disk_inode s V (dinum j)) bn = fblock V (disk_inode s V (dinum j)) bn.
Proof using G Hsb Hm Hi Gr IS.
  intros Hj Hne. destruct (minv_lookup st V fs j Hm Hj) as [Hr (t0 & c0 & Ej & HF)]. exists t0, c0. split; [done|].
  assert (Ed : disk_inode s V2 (dinum j) = disk_inode s V (dinum j)). { rewrite (is_that _ _ _ _ _ IS) by (lia || by apply dinum_inj). by eapply grown_inode. }
  destruct (grown_frame _ _ _ _ _ _ _ _ _ _ Gr (hf_file _ _ _ _ HF)) as (X1 & X2 & X3).
  { apply (mi_disj _ _ _ Hm); [by eapply lookup_lt_Some|done|done]. }
  split; [done|]. split; [|split; [done|split; [apply X1|done]]]. destruct HF as [HF1 HF2 HF3]. split; rewrite Ed; try done. eapply mfile_ext; [apply upd_high|done].
Qed.

Lemma upd_this : hasfile V2 (dinum i) t c'.
Proof using G Hsb Hm Hi Gr F1 I1 IS.
  split; rewrite (is_this _ _ _ _ _ IS).
  - apply mfile_size. eapply mfile_ext; [apply upd_high|done].
  - done.
  - destruct (hf_fields _ _ _ _ (mi_files _ _ _ Hm i t c Hi)) as [a Ea]. exists (di_addrs d1). rewrite (gr_d _ _ _ _ _ _ _ Gr), Ea. done.
Qed.

Lemma upd_disj j k : (j < length fs)%nat -> (k < length fs)%nat -> j <> k -> disjoint_files V2 (disk_inode s V2 (dinum j)) (disk_inode s V2 (dinum k)).
Proof using G Hsb Hm Hi Gr F1 IS.
  intros Hj Hk Hne. assert (Hself : forall l, (l < length fs)%nat -> l <> i -> disjoint_files V2 (disk_inode s V2 (dinum i)) (disk_inode s V2 (dinum l))).
  { intros l Hl Hli. destruct (upd_other l Hl Hli) as (t0 & c0 & _ & -> & _ & D & Ok & _). rewrite (is_this _ _ _ _ _ IS).
    eapply disjoint_ext; [apply (mf_ok _ _ _ _ (mfile_size _ _ _ _ _ F1))|exact Ok|apply upd_high|exact D]. }
  destruct (decide (j = i)) as [-> |Hji]; [by apply Hself|]. destruct (decide (k = i)) as [-> |Hki]; [by apply disjoint_sym, Hself|].
  destruct (upd_other j Hj Hji) as (? & ? & _ & -> & _ & _ & Okj & Bj), (upd_other k Hk Hki) as (? & ? & _ & -> & _ & _ & Okk & Bk).
  eapply disjoint_ext; [exact Okj|exact Okk|apply upd_high|]. intros b Hb. rewrite (owns_ext V V1), (owns_ext V V1) by done. by apply (mi_disj _ _ _ Hm).
Qed.

Lemma upd_own b : 59 <= b < freeblock st2 -> exists j, (j < length fs)%nat /\ owns V2 (disk_inode s V2 (dinum j)) b.
Proof using G Hsb Hm Hi Gr F1 IS E2.
  intros Hb. destruct E2 as [_ Ef]. pose proof (lookup_lt_Some _ _ _ Hi) as Hlt.
  assert (Hs : forall b, bmb s <= b -> V2 b = V1 b) by (intros e He; rewrite mk_bmb in He; by apply upd_high).
  assert (Hmine : owns V1 d1 b -> exists j, (j < length fs)%nat /\ owns V2 (disk_inode s V2 (dinum j)) b).
  { intros Ho. exists i. split; [done|]. rewrite (is_this _ _ _ _ _ IS). change (owns V2 d1 b). rewrite (owns_ext V1); [done|]. intros bn. eapply meta_fblock; [exact Hs|apply F1]. }
  destruct (decide (b < freeblock st)) as [Hold|Hnew]; [|apply Hmine, (gr_new _ _ _ _ _ _ _ Gr); lia].
  destruct (mi_own _ _ _ Hm b ltac:(lia)) as (j & Hj & Ho). destruct (decide (j = i)) as [-> |Hne]; [apply Hmine, (gr_keep _ _ _ _ _ _ _ Gr); [lia|done]|].
  exists j. split; [done|]. destruct (upd_other j Hj Hne) as (t0 & c0 & _ & -> & _ & _ & Ok & Bj). rewrite (owns_ext V1), (owns_ext V); [done|done|]. intros bn. eapply meta_fblock; [exact Hs|exact Ok].
Qed.

Lemma minv_update : minv st2 V2 (<[i := (t, c')]> fs).
Proof using G Hsb Hm Hi Gr F1 I1 H2 IS E2.
  pose proof (lookup_lt_Some _ _ _ Hi) as Hlt. destruct E2 as [Ei Ef]. split; rewrite ?length_insert.
  - done.
  - rewrite Ei, (gr_ino _ _ _ _ _ _ _ Gr). apply Hm.
  - apply Hm.
  - rewrite Ef, (gr_fb _ _ _ _ _ _ _ Gr), (mi_fb _ _ _ Hm), (total_insert fs i t c c' Hi). lia.
  - apply Forall_insert; [apply Hm|]. pose proof (Forall_lookup_1 _ _ _ _ (mi_types _ _ _ Hm) Hi) as Ht. exact Ht.
  - intros j t0 c0 Hj. destruct (decide (j = i)) as [-> |Hne].
    + rewrite list_lookup_insert_eq in Hj by done. injection Hj as <- <-. apply upd_this.
    + rewrite list_lookup_insert_ne in Hj by done. destruct (upd_other j (lookup_lt_Some _ _ _ Hj) Hne) as (t1 & c1 & Ej & _ & HF & _). rewrite Hj in Ej. by injection Ej as -> ->.
  - apply upd_disj.
  - intros j Hj Hlt'. rewrite (is_that _ _ _ _ _ IS) by (unfold dinum in *; lia). erewrite grown_inode; [by apply Hm|exact Gr|unfold dinum in *; lia].
  - intros b Hb. destruct (mk_IBLOCK _ upd_range) as [_ Hr]. rewrite (is_rest _ _ _ _ _ IS) by lia. rewrite (gr_low _ _ _ _ _ _ _ Gr) by lia. by apply Hm.
  - intros b Hb. by apply upd_own.
Qed.
End Update.

Lemma hasfile_dinode_ok V inum t c : hasfile V inum t c -> short t -> Z.of_nat (length c) < 2 ^ 32 -> dinode_ok (disk_inode s V inum).
Proof using Hsb.
  intros [H1 _ [a Ea]] Ht Hl. pose proof (addrs_small V _ (mf_ok _ _ _ _ H1)) as Ha. pose proof (io_addrs _ _ _ (mf_ok _ _ _ _ H1)) as Hn. rewrite Ea in *.
  split; cbn in *; try done; unfold short; lia.
Qed.

(** [iappend] appends to the file. *)
Lemma iappend_run st V fs i t c p : minv st V fs -> fs !! i = Some (t, c) -> Z.of_nat (length (c ++ p)) <= MAXFILE * BSIZE ->
  total (<[i := (t, c ++ p)]> fs) <= 941 -> exists st' V', iappend (dinum i) p st = Ok (tt, st') /\ minv st' V' (<[i := (t, c ++ p)]> fs).
Proof using G Hsb.
  intros Hm Hi Hmax Htot. pose proof (mi_files _ _ _ Hm i t c Hi) as HF. pose proof (upd_range st V fs i t c Hm Hi) as Hr. pose proof (mi_st _ _ _ Hm) as H.
  rewrite (total_insert fs i t c (c ++ p) Hi) in Htot. destruct (hf_fields _ _ _ _ HF) as [a Ea]. assert (HM : MAXFILE * BSIZE = 71680) by done.
  destruct (append_loop_run (length p) p st V (disk_inode s V (dinum i)) c H (hf_file _ _ _ _ HF) (hf_ind _ _ _ _ HF)) as (d1 & st1 & V1 & E1 & Gr & F1 & I1);
    [done|done|rewrite (mi_fb _ _ _ Hm); lia|].
  assert (Hd : dinode_ok (set_di_size (Z.of_nat (length (c ++ p))) d1)).
  { pose proof (addrs_small V1 d1 (mf_ok _ _ _ _ F1)) as Ha. pose proof (io_addrs _ _ _ (mf_ok _ _ _ _ F1)) as Hn. pose proof (Forall_lookup_1 _ _ _ _ (mi_types _ _ _ Hm) Hi) as Ht.
    rewrite (gr_d _ _ _ _ _ _ _ Gr), Ea in *. split; cbn in *; try done; unfold short; lia. }
  destruct (winode_run st1 V1 (dinum i) _ (gr_st _ _ _ _ _ _ _ Gr) Hr Hd) as (st2 & V2 & Ew & H2 & IS & E2). exists st2, V2. split; [|by eapply minv_update].
  unfold iappend. rewrite (bind_Ok _ _ _ _ _ (rinode_run st V (dinum i) H Hr)). rewrite Ea at 2. cbn [di_size]. rewrite xint_small by (rewrite length_app in *; lia).
  rewrite (bind_Ok _ _ _ _ _ E1). cbn [fst snd]. rewrite xint_small by lia. exact Ew.
Qed.

(** A fresh inode has no blocks. *)
Definition fresh (t : Z) : dinode := mkDi t 0 0 1 0 (replicate (S NDIRECT) 0).

Lemma fresh_addr t k : addr_at (fresh t) k = 0.
Proof using Type. unfold addr_at, fresh. cbn [di_addrs]. destruct (replicate (S NDIRECT) 0 !! k) as [z|] eqn:E; [|done]. by apply lookup_replicate in E as [-> _]. Qed.

Lemma fresh_block V t bn : fblock V (fresh t) bn = 0.
Proof using Type. unfold fblock. rewrite !fresh_addr. by destruct (bn <? _). Qed.

Lemma fresh_file V t : mfile V (fresh t) [] 0.
Proof using Type.
  split; [split|simpl; lia|change MAXFILE with 140; lia|..].
  - done.
  - by rewrite fresh_addr.
  - intros bn _. by rewrite fresh_block.
  - intros bn bm _ _. by rewrite fresh_block.
  - intros k _. unfold fbyte, byte_at. by rewrite fresh_block.
  - intros bn Hbn. rewrite fresh_block. split; [done|lia].
Qed.

Lemma fresh_disjoint V t e : disjoint_files V (fresh t) e.
Proof using Type. intros b Hb [H|(bn & _ & H)]; [rewrite fresh_addr in H|rewrite fresh_block in H]; congruence. Qed.

Lemma snoc_lookup {A} (l : list A) x i y : (l ++ [x]) !! i = Some y -> (l !! i = Some y /\ (i < length l)%nat) \/ (i = length l /\ y = x).
Proof using Type.
  intros H. destruct (decide (i < length l)%nat) as [Hlt|Hge]; [left; by rewrite lookup_app_l in H|right].
  rewrite lookup_app_r in H by lia. destruct (i - length l)%nat as [|k] eqn:E; [|done]. injection H as <-. split; [lia|done].
Qed.

Section Ialloc.
Context (st : mkst) (V : Z -> block) (fs : list (Z * list Z)) (t : Z) (st' : mkst) (V' : Z -> block).
Hypothesis Hm : minv st V fs.
Hypothesis Hlen : (length fs < 199)%nat.
Hypothesis IS : inode_set s V V' (dinum (length fs)) (fresh t).

Lemma new_range : 0 <= dinum (length fs) < 200.
Proof using Hlen. unfold dinum. lia. Qed.

Lemma new_old j : (j < length fs)%nat -> disk_inode s V' (dinum j) = disk_inode s V (dinum j).
Proof using Hlen IS. intros Hj. apply (is_that _ _ _ _ _ IS); [unfold dinum; lia|apply dinum_inj; lia]. Qed.

Lemma new_files i t0 c0 : (fs ++ [(t, [])]) !! i = Some (t0, c0) -> hasfile V' (dinum i) t0 c0.
Proof using G Hsb Hm Hlen IS.
  intros [[Hi Hlt]|[-> [= -> ->]]]%snoc_lookup.
  - destruct (mi_files _ _ _ Hm i t0 c0 Hi) as [HF1 HF2 HF3]. split; rewrite (new_old i Hlt); try done. eapply mfile_ext; [|done]. by apply (inode_set_high V V' _ _ new_range IS).
  - split; rewrite (is_this _ _ _ _ _ IS); [apply fresh_file|unfold mind; rewrite fresh_addr; done|]. by eexists.
Qed.

Lemma new_disj i j : (i <= length fs)%nat -> (j <= length fs)%nat -> i <> j -> disjoint_files V' (disk_inode s V' (dinum i)) (disk_inode s V' (dinum j)).
Proof using G Hsb Hm Hlen IS.
  intros Hi Hj Hne. destruct (decide (i = length fs)) as [-> |Hi']; [rewrite (is_this _ _ _ _ _ IS); apply fresh_disjoint|].
  destruct (decide (j = length fs)) as [-> |Hj']; [rewrite (is_this _ _ _ _ _ IS); apply disjoint_sym, fresh_disjoint|].
  assert (Hii : (i < length fs)%nat) by lia. assert (Hjj : (j < length fs)%nat) by lia.
  destruct (minv_lookup st V fs i Hm Hii) as [_ (? & ? & _ & Fi)], (minv_lookup st V fs j Hm Hjj) as [_ (? & ? & _ & Fj)]. rewrite !new_old by done.
  eapply disjoint_ext; [apply Fi|apply Fj|by apply (inode_set_high V V' _ _ new_range IS)|by apply (mi_disj _ _ _ Hm)].
Qed.

Lemma minv_new : short t -> mst st' V' -> freeinode st' = freeinode st + 1 -> freeblock st' = freeblock st -> minv st' V' (fs ++ [(t, [])]).
Proof using G Hsb Hm Hlen IS.
  intros Ht H' Ei Ef. assert (El : length (fs ++ [(t, [] : list Z)]) = S (length fs)) by (rewrite length_app; simpl; lia). split.
  - done.
  - rewrite Ei, (mi_ino _ _ _ Hm), El. unfold dinum. lia.
  - lia.
  - rewrite Ef, (mi_fb _ _ _ Hm), total_app. change (total [(t, [])]) with 0. lia.
  - apply Forall_app. split; [apply Hm|constructor; [done|constructor]].
  - apply new_files.
  - intros i j Hi Hj. apply new_disj; lia.
  - intros i Hi Hlt. rewrite (is_that _ _ _ _ _ IS) by (unfold dinum in *; lia). apply (mi_free _ _ _ Hm); [lia|done].
  - intros b Hb. destruct (mk_IBLOCK _ new_range) as [_ Hr]. rewrite (is_rest _ _ _ _ _ IS) by lia. by apply Hm.
  - intros b Hb. rewrite Ef in Hb. destruct (mi_own _ _ _ Hm b Hb) as (j & Hj & Ho). exists j. split; [lia|]. rewrite new_old by done.
    destruct (minv_lookup st V fs j Hm Hj) as [_ (? & ? & _ & Fj)]. rewrite (owns_ext V); [done|]. intros bn. eapply meta_fblock; [|apply Fj].
    intros c Hc. rewrite mk_bmb in Hc. by apply (inode_set_high V V' _ _ new_range IS).
Qed.
End Ialloc.

Lemma ialloc_run st V fs t : minv st V fs -> (length fs < 199)%nat -> 0 <= t < 2 ^ 15 ->
  exists st' V', Mkfs.ialloc t st = Ok (dinum (length fs), st') /\ minv st' V' (fs ++ [(t, [])]).
Proof using G Hsb.
  intros Hm Hlen Ht. set (st1 := mkMk (m_img st) (freeinode st + 1) (freeblock st)).
  assert (H1 : mst st1 V) by (destruct (mi_st _ _ _ Hm); by split). assert (Hr : 0 <= dinum (length fs) < 200) by (unfold dinum; lia).
  assert (Hd : dinode_ok (fresh t)) by (split; cbn; try done; unfold short; try lia; by repeat constructor).
  destruct (winode_run st1 V _ (fresh t) H1 Hr Hd) as (st' & V' & Ew & H' & IS & Ei & Ef). exists st', V'. split.
  - unfold Mkfs.ialloc. mrun. fold st1. rewrite (mi_ino _ _ _ Hm), xshort_small by lia. change (xshort 1) with 1. change (xint 0) with 0.
    fold (fresh t). by rewrite Ew.
  - eapply minv_new; try done; unfold short; lia.
Qed.

(** ** The files of the arguments *)

(** The entries of the root directory, and all files of the image, when the
    files [fl], each with its name, have been added. *)
Definition root_dents (fl : list (list Z * list Z)) : list dirent :=
  [mkDe 1 (field [46]); mkDe 1 (field [46; 46])] ++ imap (fun i f => mkDe (dinum (S i)) (field f.1)) fl.
Definition root_bytes (fl : list (list Z * list Z)) : list Z := concat (put_dirent <$> root_dents fl).
Definition image (fl : list (list Z * list Z)) : list (Z * list Z) := (T_DIR, root_bytes fl) :: ((fun f => (T_FILE, f.2)) <$> fl).

Lemma root_dents_snoc fl f : root_dents (fl ++ [f]) = root_dents fl ++ [mkDe (dinum (S (length fl))) (field f.1)].
Proof using Type. unfold root_dents. rewrite imap_app, app_assoc. cbn [imap]. unfold compose. by rewrite Nat.add_0_r. Qed.

Lemma root_bytes_snoc fl f : root_bytes (fl ++ [f]) = root_bytes fl ++ put_dirent (mkDe (dinum (S (length fl))) (field f.1)).
Proof using Type. unfold root_bytes. rewrite root_dents_snoc, fmap_app, concat_app. cbn [fmap list_fmap concat]. by rewrite app_nil_r. Qed.

Lemma concat_length16 (l : list (list Z)) : Forall (fun e => length e = 16%nat) l -> length (concat l) = (16 * length l)%nat.
Proof using Type. induction 1 as [|e l He Hl IH]; [done|]. cbn [concat]. rewrite length_app, IH, He. simpl. lia. Qed.

Lemma root_dents_names fl de : de ∈ root_dents fl -> length (de_name de) = DIRSIZ.
Proof using Type.
  unfold root_dents. rewrite elem_of_app, elem_of_lookup_imap. intros [[-> |[-> |?%elem_of_nil]%elem_of_cons]%elem_of_cons|(i & f & -> & _)]; try done; apply pad0_length.
Qed.

Lemma root_bytes_length fl : length (root_bytes fl) = (16 * (2 + length fl))%nat.
Proof using Type.
  unfold root_bytes. rewrite concat_length16; [unfold root_dents; rewrite length_fmap, length_app, length_imap; done|].
  apply Forall_fmap, Forall_forall. intros de Hde. cbn. by apply put_dirent_length, (root_dents_names fl).
Qed.

Lemma append_entry_run st V c fs inum name : minv st V ((T_DIR, c) :: fs) -> 0 <= inum < 2 ^ 15 -> no_nul name ->
  let e := put_dirent (mkDe inum (field name)) in Z.of_nat (length (c ++ e)) <= MAXFILE * BSIZE -> total ((T_DIR, c ++ e) :: fs) <= 941 ->
  exists st' V', append_entry 1 inum name st = Ok (tt, st') /\ minv st' V' ((T_DIR, c ++ e) :: fs).
Proof using G Hsb.
  intros Hm Hi Hn e Hmax Htot. destruct (iappend_run st V _ 0 T_DIR c e Hm eq_refl Hmax Htot) as (st' & V' & E & Hm'). exists st', V'. split; [|done].
  unfold append_entry. rewrite (strncpy_spec name [] (replicate DIRSIZ 0) DIRSIZ Hn) by (rewrite length_replicate; lia).
  rewrite drop_ge, app_nil_r by (rewrite length_replicate; lia). rewrite (bind_Ok _ _ _ (pad0 name DIRSIZ) st) by done. rewrite xshort_small by lia. exact E.
Qed.

Lemma chunks_run chunks : forall st V fs i t c, minv st V fs -> fs !! i = Some (t, c) -> Z.of_nat (length (c ++ concat chunks)) <= MAXFILE * BSIZE ->
  total (<[i := (t, c ++ concat chunks)]> fs) <= 941 ->
  exists st' V', for_each chunks (fun p => iappend (dinum i) p) st = Ok (tt, st') /\ minv st' V' (<[i := (t, c ++ concat chunks)]> fs).
Proof using G Hsb.
  induction chunks as [|p chunks IH]; intros st V fs i t c Hm Hi Hmax Htot.
  - exists st, V. split; [done|]. cbn [concat]. rewrite app_nil_r. by rewrite list_insert_id.
  - cbn [concat] in *. rewrite app_assoc in *. rewrite (total_insert fs i t c _ Hi) in Htot. pose proof (cost_mono _ _ (nb_mono (c ++ p) (concat chunks))).
    rewrite length_app in Hmax. destruct (iappend_run st V fs i t c p Hm Hi) as (st1 & V1 & E1 & Hm1); [lia|rewrite (total_insert fs i t c _ Hi); lia|].
    pose proof (lookup_lt_Some _ _ _ Hi) as Hlt.
    destruct (IH st1 V1 _ i t (c ++ p) Hm1) as (st' & V' & E & Hm'); [by apply list_lookup_insert_eq|rewrite length_app; lia| |].
    + rewrite list_insert_insert_eq, (total_insert fs i t c _ Hi). lia.
    + exists st', V'. rewrite list_insert_insert_eq in Hm'. split; [|done]. cbn [for_each]. by rewrite (bind_Ok _ _ _ _ _ E1).
Qed.

Lemma cost_nonneg c : 0 <= cost (nb c).
Proof using Type. unfold cost, nb. pose proof (Z.div_pos (Z.of_nat (length c) + 511) 512). destruct (12 <? _); lia. Qed.

Definition strip (arg : list Z) : list Z := match arg with 95 :: a => a | _ => arg end.

Lemma strip_no_nul arg : no_nul arg -> no_nul (strip arg).
Proof using Type. intros H. unfold strip. repeat case_match; subst; try exact H. by apply Forall_cons in H as [_ H]. Qed.

Lemma nb_le c c' : (length c <= length c')%nat -> nb c <= nb c'.
Proof using Type. intros H. unfold nb. apply Z.div_le_mono; lia. Qed.

Lemma image_total fl gl : total (image fl) <= total (image (fl ++ gl)).
Proof using Type.
  unfold image. rewrite fmap_app. cbn [total snd]. rewrite total_app. pose proof (cost_mono _ _ (nb_le (root_bytes fl) (root_bytes (fl ++ gl)) ltac:(rewrite !root_bytes_length, length_app; lia))).
  assert (Ht : forall l, 0 <= total l) by (induction l as [|f l IH]; [done|]; cbn [total]; pose proof (cost_nonneg f.2); lia). pose proof (Ht ((fun f : list Z * list Z => (T_FILE, f.2)) <$> gl)). lia.
Qed.

Section Args.
Context (read_file : list Z -> option (list (list Z))).

Lemma add_file_run st V fl arg chunks : minv st V (image fl) -> 47 ∉ arg -> no_nul arg -> read_file arg = Some chunks -> (length fl < 198)%nat ->
  Z.of_nat (length (concat chunks)) <= MAXFILE * BSIZE -> let fl' := fl ++ [(strip arg, concat chunks)] in total (image fl') <= 941 ->
  exists st' V', add_file read_file 1 arg st = Ok (tt, st') /\ minv st' V' (image fl').
Proof using G Hsb.
  intros Hm Hsl Hn Hrd Hlen Hmax fl' Htot. assert (Hil : length (image fl) = S (length fl)) by (unfold image; simpl; by rewrite length_fmap).
  set (e := put_dirent (mkDe (dinum (S (length fl))) (field (strip arg)))). set (old := (fun f : list Z * list Z => (T_FILE, f.2)) <$> fl).
  assert (Ei : image fl' = (T_DIR, root_bytes fl ++ e) :: old ++ [(T_FILE, concat chunks)]) by (unfold image, fl'; rewrite root_bytes_snoc, fmap_app; done).
  assert (He : length e = 16%nat) by apply put_dirent_length, pad0_length.
  pose proof (cost_nonneg (concat chunks)) as Hc. rewrite Ei in *. cbn [total snd] in Htot. rewrite total_app in Htot. cbn [total snd] in Htot.
  destruct (ialloc_run st V (image fl) T_FILE Hm) as (st1 & V1 & E1 & Hm1); [lia|done|]. rewrite Hil in E1.
  change (image fl ++ [(T_FILE, [])]) with ((T_DIR, root_bytes fl) :: (old ++ [(T_FILE, [])])) in Hm1.
  destruct (append_entry_run st1 V1 _ _ (dinum (S (length fl))) (strip arg) Hm1) as (st2 & V2 & E2 & Hm2);
    [unfold dinum; lia|by apply strip_no_nul|fold e; rewrite length_app, root_bytes_length, He; change (MAXFILE * BSIZE) with 71680; lia
    |cbn [total snd]; rewrite total_app; fold e; change (total [(T_FILE, [])]) with 0; lia|].
  fold e in Hm2. assert (Hl : length old = length fl) by apply length_fmap.
  assert (Hins : forall c, <[S (length fl) := (T_FILE, c)]> ((T_DIR, root_bytes fl ++ e) :: old ++ [(T_FILE, [])]) = (T_DIR, root_bytes fl ++ e) :: old ++ [(T_FILE, c)]).
  { intros c. transitivity ((T_DIR, root_bytes fl ++ e) :: <[length fl := (T_FILE, c)]> (old ++ [(T_FILE, [])])); [done|]. f_equal. rewrite insert_app_r_alt by lia. by rewrite Hl, Nat.sub_diag. }
  destruct (chunks_run chunks st2 V2 _ (S (length fl)) T_FILE [] Hm2) as (st' & V' & E3 & Hm').
  { transitivity ((old ++ [(T_FILE, [])]) !! length fl); [done|]. rewrite lookup_app_r by lia. by rewrite Hl, Nat.sub_diag. }
  { done. }
  { rewrite Hins. cbn [total snd]. rewrite total_app. cbn [total snd app]. lia. }
  exists st', V'. split; [|by rewrite Hins in Hm'].
  unfold add_file. rewrite bool_decide_eq_false_2 by done. rewrite Hrd. cbv zeta. fold (strip arg). rewrite (bind_Ok _ _ _ _ _ E1), (bind_Ok _ _ _ _ _ E2). exact E3.
Qed.

Definition file_of (arg : list Z) : list Z * list Z := (strip arg, concat (default [] (read_file arg))).

(** The arguments name files that can be read and that fit in the image. *)
Record fits (args : list (list Z)) : Prop := {
  ft_args : Forall (fun arg => 47 ∉ arg /\ no_nul arg /\ is_Some (read_file arg) /\ Z.of_nat (length (file_of arg).2) <= MAXFILE * BSIZE) args;
  ft_len : (length args <= 198)%nat;
  ft_total : total (image (file_of <$> args)) <= 941
}.

Lemma add_files_run args : forall st V fl, minv st V (image fl) ->
  Forall (fun arg => 47 ∉ arg /\ no_nul arg /\ is_Some (read_file arg) /\ Z.of_nat (length (file_of arg).2) <= MAXFILE * BSIZE) args ->
  (length fl + length args <= 198)%nat -> total (image (fl ++ (file_of <$> args))) <= 941 ->
  exists st' V', for_each args (add_file read_file 1) st = Ok (tt, st') /\ minv st' V' (image (fl ++ (file_of <$> args))).
Proof using G Hsb.
  induction args as [|arg args IH]; intros st V fl Hm Ha Hlen Htot; [exists st, V; cbn; by rewrite app_nil_r|].
  apply Forall_cons in Ha as [(H1 & H2 & [chunks H3] & H4) Ha]. cbn [fmap list_fmap length] in *. rewrite cons_middle, app_assoc in *.
  pose proof (image_total (fl ++ [file_of arg]) (file_of <$> args)). unfold file_of in H4 at 1. rewrite H3 in H4. cbn [default snd] in H4.
  assert (Ef : file_of arg = (strip arg, concat chunks)) by (unfold file_of; by rewrite H3).
  destruct (add_file_run st V fl arg chunks Hm H1 H2 H3 ltac:(lia) H4) as (st1 & V1 & E1 & Hm1); [rewrite <- Ef; lia|]. rewrite <- Ef in Hm1.
  destruct (IH st1 V1 _ Hm1 Ha) as (st' & V' & E & Hm'); [rewrite length_app; simpl; lia|done|]. exists st', V'. split; [|done]. cbn [for_each]. by rewrite (bind_Ok _ _ _ _ _ E1).
Qed.

(** ** The whole program *)
Lemma zero_run l : forall st, (forall b, m_img st b = zero_block) ->
  exists st', for_each l (fun i => wsect i zero_block) st = Ok (tt, st') /\ (forall b, m_img st' b = zero_block) /\ freeinode st' = freeinode st /\ freeblock st' = freeblock st.
Proof using Type.
  induction l as [|i l IH]; intros st Hz; [by exists st|]. cbn [for_each].
  destruct (IH (mkMk (fun b => if b =? i then zero_block else m_img st b) (freeinode st) (freeblock st))) as (st' & E & H); [intros b; cbn; by destruct (b =? i)|].
  exists st'. split; [exact E|done].
Qed.

Lemma zero_inode k : di_type (get_dinode zero_block k) = 0.
Proof using Type. cbn [get_dinode di_type]. unfold get16. by rewrite !zero_byte. Qed.

Lemma sb_bytes_length d sb : length (sb_bytes d sb) = length d.
Proof using Type. unfold sb_bytes. apply put_words_length. Qed.

(** The image with nothing but the super block. *)
Lemma minv_start st : (forall b, m_img st b = zero_block) -> freeinode st = 1 -> freeblock st = 59 ->
  exists st' V', wsect 1 (sb_bytes zero_block mk_sb) st = Ok (tt, st') /\ minv st' V' [].
Proof using G Hsb.
  intros Hz Hi Hf. set (V := updV (fun _ => zero_block) 58 (bitmap 59)). assert (H : mst st V).
  { unfold V. split; [lia|..].
    - intros b. unfold updV. destruct (b =? 58); [by apply bitmap_spec|done].
    - intros b Hb. by rewrite updV_ne.
    - by rewrite updV_eq, Hf.
    - intros b Hb. by rewrite updV_ne by lia. }
  destruct (wsect_run st V 1 (sb_bytes zero_block mk_sb) H) as (st' & E & H' & E1 & E2); [done|lia|by rewrite sb_bytes_length|].
  exists st', (updV V 1 (sb_bytes zero_block mk_sb)). split; [exact E|]. split; try done.
  - by rewrite E1, Hi.
  - simpl. lia.
  - by rewrite E2, Hf.
  - intros i j Hi0. simpl in Hi0. lia.
  - intros i _ Hlt. destruct (mk_IBLOCK (dinum i) ltac:(unfold dinum in *; lia)) as [_ Hr]. unfold disk_inode. rewrite updV_ne by lia. unfold V. rewrite updV_ne by lia. apply zero_inode.
  - intros b Hb. unfold updV, V, updV. destruct (b =? 1); [done|]. by rewrite (proj2 (Z.eqb_neq _ _)) by lia.
  - intros b Hb. lia.
Qed.

(** The root directory with its first two entries. *)
Lemma root_run st V : minv st V [] ->
  exists st1 st2 st3 V3, Mkfs.ialloc T_DIR st = Ok (1, st1) /\ append_entry 1 1 [46] st1 = Ok (tt, st2) /\ append_entry 1 1 [46; 46] st2 = Ok (tt, st3) /\ minv st3 V3 (image []).
Proof using G Hsb.
  intros Hm. destruct (ialloc_run st V [] T_DIR Hm) as (st1 & V1 & E1 & Hm1); [simpl; lia|done|]. cbn [app] in Hm1.
  destruct (append_entry_run st1 V1 [] [] 1 [46] Hm1) as (st2 & V2 & E2 & Hm2); [lia|by repeat constructor|vm_compute; done|vm_compute; done|].
  destruct (append_entry_run st2 V2 _ [] 1 [46; 46] Hm2) as (st3 & V3 & E3 & Hm3); [lia|by repeat constructor|vm_compute; done|vm_compute; done|].
  by exists st1, st2, st3, V3.
Qed.

(** The size of the root directory after the last adjustment. *)
Definition root_size (fl : list (list Z * list Z)) : Z := (Z.of_nat (length (root_bytes fl)) / BSIZE + 1) * BSIZE.

(** A finished image that holds the files [fl]. *)
Record made (V : Z -> block) (fl : list (list Z * list Z)) : Prop := {
  md_len : blocks_ok V;
  md_low : forall b, b < 32 -> V b = if b =? 1 then sb_bytes zero_block mk_sb else zero_block;
  md_bits : forall b, 0 <= b -> bit (V 58) b = (b <? 59 + total (image fl));
  md_file : forall i f, fl !! i = Some f -> hasfile V (dinum (S i)) T_FILE f.2;
  md_root : mfile V (disk_inode s V 1) (root_bytes fl) (nb (root_bytes fl));
  md_root_fields : exists a, disk_inode s V 1 = mkDi T_DIR 0 0 1 (root_size fl) a;
  md_disj : forall i j, (i <= length fl)%nat -> (j <= length fl)%nat -> i <> j -> disjoint_files V (disk_inode s V (dinum i)) (disk_inode s V (dinum j));
  md_free : forall i, (length fl < i)%nat -> dinum i < 200 -> di_type (disk_inode s V (dinum i)) = 0;
  md_own : forall b, 59 <= b < 59 + total (image fl) -> exists i, (i <= length fl)%nat /\ owns V (disk_inode s V (dinum i)) b
}.

Section Finish.
Context (st : mkst) (V : Z -> block) (fl : list (list Z * list Z)) (V' : Z -> block).
Hypothesis Hm : minv st V (image fl).
Hypothesis IS : inode_set s V V' 1 (set_di_size (root_size fl) (disk_inode s V 1)).
Hypothesis Hlen : blocks_ok V'.

Lemma image_length : length (image fl) = S (length fl).
Proof using Type. unfold image. simpl. by rewrite length_fmap. Qed.

Lemma fin_high b : 58 <= b -> V' b = V b.
Proof using G Hsb IS. apply (inode_set_high V V' 1 _ ltac:(lia) IS). Qed.

Lemma fin_other i : i <> 0%nat -> disk_inode s V' (dinum i) = disk_inode s V (dinum i).
Proof using IS. intros Hi. apply (is_that _ _ _ _ _ IS); unfold dinum; lia. Qed.

Lemma fin_disj i j : (i <= length fl)%nat -> (j <= length fl)%nat -> i <> j -> disjoint_files V' (disk_inode s V' (dinum i)) (disk_inode s V' (dinum j)).
Proof using G Hsb Hm IS.
  intros Hi Hj Hne. destruct (minv_lookup st V _ i Hm ltac:(rewrite image_length; lia)) as [_ (? & ? & _ & Fi)], (minv_lookup st V _ j Hm ltac:(rewrite image_length; lia)) as [_ (? & ? & _ & Fj)].
  assert (D : disjoint_files V' (disk_inode s V (dinum i)) (disk_inode s V (dinum j))).
  { eapply disjoint_ext; [apply Fi|apply Fj|apply fin_high|]. apply (mi_disj _ _ _ Hm); [rewrite image_length; lia..|done]. }
  destruct (decide (i = 0)%nat) as [-> |Hi0], (decide (j = 0)%nat) as [-> |Hj0]; [done|..]; rewrite ?(fin_other i), ?(fin_other j) by done; [..|exact D];
    change (dinum 0) with 1 in *; rewrite (is_this _ _ _ _ _ IS); exact D.
Qed.

Lemma fin_own b : 59 <= b < freeblock st -> exists i, (i <= length fl)%nat /\ owns V' (disk_inode s V' (dinum i)) b.
Proof using G Hsb Hm IS.
  intros Hb. destruct (mi_own _ _ _ Hm b Hb) as (i & Hi & Ho). rewrite image_length in Hi. exists i. split; [lia|].
  destruct (minv_lookup st V _ i Hm ltac:(rewrite image_length; lia)) as [_ (? & ? & _ & Fi)].
  assert (Ho' : owns V' (disk_inode s V (dinum i)) b). { rewrite (owns_ext V); [done|]. intros bn. eapply meta_fblock; [|apply Fi]. intros c Hc. rewrite mk_bmb in Hc. by apply fin_high. }
  destruct (decide (i = 0)%nat) as [-> |Hi0]; [|by rewrite fin_other]. change (dinum 0) with 1 in *. rewrite (is_this _ _ _ _ _ IS). exact Ho'.
Qed.

Lemma made_finish : made V' fl.
Proof using G Hsb Hm IS Hlen.
  destruct (mi_files _ _ _ Hm 0%nat T_DIR (root_bytes fl) eq_refl) as [R1 R2 [a R3]]. change (dinum 0) with 1 in *. split.
  - done.
  - intros b Hb. destruct (mk_IBLOCK 1 ltac:(lia)) as [_ Hr]. rewrite (is_rest _ _ _ _ _ IS) by lia. by apply Hm.
  - intros b Hb. rewrite fin_high by lia. rewrite <- mk_bmb, (mst_bit st) by (try done; apply Hm). by rewrite (mi_fb _ _ _ Hm).
  - intros i f Hf. assert (Hi : image fl !! S i = Some (T_FILE, f.2)) by (transitivity (((fun f : list Z * list Z => (T_FILE, f.2)) <$> fl) !! i); [done|]; by rewrite list_lookup_fmap, Hf).
    destruct (mi_files _ _ _ Hm (S i) _ _ Hi) as [F1 F2 F3]. split; rewrite fin_other by done; try done. eapply mfile_ext; [apply fin_high|done].
  - rewrite (is_this _ _ _ _ _ IS). apply mfile_size. eapply mfile_ext; [apply fin_high|done].
  - exists a. by rewrite (is_this _ _ _ _ _ IS), R3.
  - apply fin_disj.
  - intros i Hi Hlt. rewrite fin_other by lia. apply (mi_free _ _ _ Hm); [rewrite image_length; lia|done].
  - rewrite <- (mi_fb _ _ _ Hm). apply fin_own.
Qed.
End Finish.

Lemma mkfs_run args st0 : fits args ->
  exists st V, mkfs read_file args st0 = Ok (tt, st) /\ (forall b, m_img st b = V b) /\ made V (file_of <$> args).
Proof using G Hsb.
  intros [Ha Hl Ht]. destruct (zero_run (seqZ 0 FSSIZE) (mkMk (fun _ => zero_block) 1 nmeta)) as (sa & Ea & Za & Ia & Fa); [done|].
  destruct (minv_start sa Za Ia Fa) as (sb & Vb & Eb & Hb). destruct (root_run sb Vb Hb) as (s1 & s2 & s3 & V3 & E1 & E2 & E3 & H3).
  destruct (add_files_run args s3 V3 [] H3 Ha) as (s4 & V4 & E4 & H4); [simpl; lia|done|]. cbn [app] in H4. set (fl := file_of <$> args) in *.
  pose proof (mi_st _ _ _ H4) as M4. destruct (hf_fields _ _ _ _ (mi_files _ _ _ H4 0%nat T_DIR (root_bytes fl) eq_refl)) as [a Ed]. change (dinum 0) with 1 in Ed.
  assert (Hrl : Z.of_nat (length (root_bytes fl)) <= 3200) by (rewrite root_bytes_length; unfold fl; rewrite length_fmap; lia).
  assert (Hrs : 0 <= root_size fl < 2 ^ 32) by (unfold root_size, BSIZE; pose proof (Z.div_le_upper_bound (Z.of_nat (length (root_bytes fl))) 512 7 ltac:(lia) ltac:(lia)); pose proof (Z.div_pos (Z.of_nat (length (root_bytes fl))) 512); lia).
  destruct (winode_run s4 V4 1 (set_di_size (root_size fl) (disk_inode s V4 1)) M4 ltac:(lia)) as (s5 & V5 & E5 & M5 & IS & I5 & F5).
  { pose proof (hasfile_dinode_ok V4 1 T_DIR (root_bytes fl) (mi_files _ _ _ H4 0%nat T_DIR _ eq_refl) ltac:(unfold short, T_DIR; lia) ltac:(lia)) as [D1 D2 D3 D4 D5 D6 D7]. split; try done. }
  pose proof (ms_fb _ _ M5) as Hfb. exists (mkMk (fun b => if b =? 58 then bitmap (freeblock s5) else m_img s5 b) (freeinode s5) (freeblock s5)), V5. split_and!.
  - unfold mkfs. rewrite (bind_Ok _ _ _ tt (mkMk (fun _ => zero_block) 1 nmeta)) by done. rewrite (bind_Ok _ _ _ _ _ Ea), (bind_Ok _ _ _ _ _ Eb), (bind_Ok _ _ _ _ _ E1).
    change (negb (1 =? ROOTINO)) with false. cbv iota. rewrite (bind_Ok _ _ _ _ _ E2), (bind_Ok _ _ _ _ _ E3), (bind_Ok _ _ _ _ _ E4).
    rewrite (bind_Ok _ _ _ _ _ (rinode_run s4 V4 1 M4 ltac:(lia))). cbv zeta. rewrite Ed at 1. cbn [di_size]. rewrite (xint_small (Z.of_nat _)) by lia. fold (root_size fl).
    rewrite xint_small by done. rewrite (bind_Ok _ _ _ _ _ E5). rewrite (bind_Ok _ _ _ s5 s5) by done. unfold Mkfs.balloc. change (BSIZE * 8) with 4096.
    by rewrite (proj2 (Z.ltb_lt _ _)) by lia.
  - intros b. cbn. destruct (Z.eqb_spec b 58) as [-> |Hne]; [symmetry; apply M5|by apply M5].
  - by eapply made_finish; [exact H4|exact IS|apply M5].
Qed.
End Args.
End Mk.
