(* ===== verification/FileThms.v ===== *)
(** * Writing through an open file: [filewrite] in transactions

    A write of any length is cut into transactions that fit in the log;
    what it writes [fileread] reads back. *)

From stdpp Require Import prelude strings list.
From S2P Require Import Prelude CString Kalloc Vm Pipe Bio BioInv BioThms Log LogThms LogCrash LogSpec Fs Dir File FsRep FsAlloc FsFile FsBmap FsRead FsInode FsWrite FsDir FsTxn FsThms.

Open Scope Z_scope.

Definition set_k_fs (s : fsst) (k : kfs) : kfs := mkKfs (k_mem k) s (k_ft k) (k_pipes k) (k_pid k) (k_woken k).

Lemma on_fs_Ok {A} (m : Z -> M fsst A) k a s : m (k_pid k) (k_fs k) = Ok (a, s) -> on_fs m k = Ok (a, set_k_fs s k).
Proof. intros H. unfold on_fs. by rewrite H. Qed.

Lemma get_file_Ok k f y : k_ft k !! f = Some y -> get_file f k = Ok (y, k).
Proof. intros H. unfold get_file. mrun. by rewrite H. Qed.

Lemma upd_file_Ok k f g y : k_ft k !! f = Some y -> upd_file f g k = Ok (tt, set_k_ft (<[f := g y]> (k_ft k)) k).
Proof. intros H. unfold upd_file. by rewrite (bind_Ok _ _ _ _ _ (get_file_Ok k f y H)). Qed.

(** ** An open file between system calls *)
Record open_file (k : kfs) (V : Z -> block) (f : nat) (y : file) (x : inode) : Prop := {
  of_file : k_ft k !! f = Some y;
  of_type : f_type y = FD_INODE;
  of_wf : wf_file (k_pid k) (k_fs k) V [] (f_ip y) x;
  of_dev : di_type (i_d x) <> T_DEV;
  of_ref : 1 <= i_ref x;
  of_valid : i_valid x = true;
  of_lock : sl_locked (i_lock x) = false;
  of_idle : idle_log (k_fs k);
  of_log : lg_size (flg (k_fs k)) = LOGSIZE
}.

(** The effect of writing [l] at [off]. *)
Record overwritten (V V' : Z -> block) (x x' : inode) (off : Z) (l : list Z) : Prop := {
  ow_byte : forall k, 0 <= k < MAXFILE * BSIZE -> fbyte V' (i_d x') k =
    if decide (off <= k < off + Z.of_nat (length l)) then byte_at l (Z.to_nat (k - off)) else fbyte V (i_d x) k;
  ow_size : di_size (i_d x') = Z.max (di_size (i_d x)) (off + Z.of_nat (length l))
}.

Lemma overwritten_app V V1 V2 x x1 x2 off l1 l2 : 0 <= off -> overwritten V V1 x x1 off l1 ->
  overwritten V1 V2 x1 x2 (off + Z.of_nat (length l1)) l2 -> overwritten V V2 x x2 off (l1 ++ l2).
Proof.
  intros Ho [A1 A2] [B1 B2]. split; [|rewrite B2, A2, length_app; lia].
  intros k Hk. rewrite B1, A1, length_app by done. unfold byte_at. repeat case_decide; try lia.
  all: try (rewrite lookup_app_r by lia; do 2 f_equal; lia).
  all: try (by rewrite lookup_app_l by lia).
  all: done.
Qed.

Lemma chunk_blocks off n : 0 <= n <= WMAX -> (write_blocks off n <= 4)%nat.
Proof.
  intros Hn. change WMAX with 1536 in Hn. unfold write_blocks. pose proof (Z.mod_pos_bound off BSIZE ltac:(done)).
  apply Nat2Z.inj_le. rewrite Z2Nat.id by (apply Z.div_pos; [lia|done]). change (Z.of_nat 4) with 4. apply Z.lt_succ_r. apply Z.div_lt_upper_bound; [done|]. unfold BSIZE in *. lia.
Qed.

Section Chunk.
Context (dv : devsw).

(** ** One turn of the loop *)

(** The inode part: lock, write, unlock inside a transaction. *)
Lemma locked_write pid s V ip x src n off : wf_file pid s V [] ip x -> di_type (i_d x) <> T_DEV -> 1 <= i_ref x -> i_valid x = true ->
  sl_locked (i_lock x) = false -> lg_outstanding (flg s) = 1 -> lg_size (flg s) = LOGSIZE -> 0 <= n <= WMAX -> n <= Z.of_nat (length src) ->
  0 <= off <= di_size (i_d x) -> off + n <= MAXFILE * BSIZE -> (8 <= nfree s V)%nat ->
  exists s1 s2 s3 V' bs' x', ilock pid ip s = Ok (tt, s1) /\ writei pid dv ip src off n s1 = Ok (n, s2) /\ iunlock pid ip s2 = Ok (tt, s3) /\
    wf_file pid s3 V' bs' ip x' /\ same_env s s3 /\ overwritten V V' x x' off (take (Z.to_nat n) src) /\ (nfree s V <= 8 + nfree s3 V')%nat /\
    di_type (i_d x') = di_type (i_d x) /\ i_ref x' = i_ref x /\ i_valid x' = true /\ sl_locked (i_lock x') = false.
Proof using Type.
  intros WF Ht Hr Hv Hl Ho Hz Hn Hsrc Hoff Hmax Hfr. pose proof (fs_ip _ _ _ _ _ _ (wf_state _ _ _ _ _ _ WF)) as Hip.
  set (x1 := set_i_lock (mkSl true pid) x). set (s1 := set_icache (<[ip := x1]> (icache s)) s). set (l := take (Z.to_nat n) src).
  assert (Hll : Z.of_nat (length l) = n) by (unfold l; rewrite length_take; lia). pose proof (chunk_blocks off n Hn) as Hm.
  assert (Hip1 : icache s1 !! ip = Some x1) by (apply list_lookup_insert_eq; by eapply lookup_lt_Some).
  assert (WF1 : wf_file pid s1 V [] ip x1).
  { eapply wf_move; [exact WF|apply rep_icache, WF|apply WF|done|done|done|done|done|done]. }
  destruct (writei_run pid dv s1 V [] ip x1 off l WF1) as (s2 & V2 & bs2 & x2 & E2 & WF2 & FW & _ & Hf2); try done; rewrite ?Hll in *; try done.
  { unfold space. change (flg s1) with (flg s). rewrite Hz, Ho. unfold LOGSIZE, MAXOPBLOCKS. simpl length. lia. }
  { rewrite (nfree_same s s1 V); [lia|done|done]. }
  pose proof FW as [Fe Fc Fi Fb _ _]. pose proof (fs_ip _ _ _ _ _ _ (wf_state _ _ _ _ _ _ WF2)) as Hip2.
  assert (Hr2 : i_ref x2 = i_ref x) by (rewrite Fi; done).
  exists s1, s2, (set_icache (<[ip := set_i_lock (mkSl false 0) x2]> (icache s2)) s2), V2, bs2, (set_i_lock (mkSl false 0) x2). split_and!.
  - by apply ilock_run.
  - by rewrite (writei_prefix pid dv s1 ip x1) by (done || lia).
  - apply iunlock_run; [done|lia|by rewrite Fi].
  - eapply wf_move; [exact WF2|apply rep_icache, WF2|apply WF2|done|done| |done|done|done]. cbn. apply list_lookup_insert_eq. by eapply lookup_lt_Some.
  - destruct Fe. by split.
  - split; [exact Fb|]. cbn. rewrite Fi. cbn. by rewrite Hll.
  - rewrite (nfree_same s s1 V) in Hf2 by done. etrans; [exact Hf2|]. rewrite (nfree_same s2 (set_icache _ s2) V2) by done. lia.
  - cbn. rewrite Fi. done.
  - done.
  - cbn. rewrite Fi. done.
  - done.
Qed.

Lemma outside_data s b : geo s -> sb_inodestart (fsb s) <= b -> outside (flg s) b.
Proof using Type. intros G Hb. unfold outside. pose proof (g_inode s G). lia. Qed.

Lemma write_chunk_run k V f y x src n : open_file k V f y x -> 0 < n <= WMAX -> n <= Z.of_nat (length src) ->
  0 <= f_off y <= di_size (i_d x) -> f_off y + n <= MAXFILE * BSIZE -> (8 <= nfree (k_fs k) V)%nat ->
  exists k' V' x', write_chunk dv f src n k = Ok (n, k') /\ open_file k' V' f (set_f_off (f_off y + n) y) x' /\
    overwritten V V' x x' (f_off y) (take (Z.to_nat n) src) /\ (nfree (k_fs k) V <= 8 + nfree (k_fs k') V')%nat /\
    k_ft k' = <[f := set_f_off (f_off y + n) y]> (k_ft k) /\ k_pid k' = k_pid k.
Proof using Type.
  intros [Hf Hty WF Ht Hr Hv Hl Hid Hz] Hn Hsrc Hoff Hmax Hfr. set (pid := k_pid k) in *. assert (HM : MAXFILE * BSIZE = 71680) by done.
  assert (Hn32 : u32 n = n) by (apply u32_small; change WMAX with 1536 in Hn; lia).
  destruct (begin_rep pid (k_fs k) V (fs_rep _ _ _ _ _ _ (wf_state _ _ _ _ _ _ WF)) Hid) as (s1 & E1 & R1 & S1 & C1 & _ & O1 & M1).
  assert (G0 : geo (k_fs k)) by apply WF.
  assert (WF1 : wf_file pid s1 V [] (f_ip y) x).
  { eapply wf_move; [exact WF|done|apply WF|done|done| |done|done|done]. rewrite C1. apply WF. }
  destruct (locked_write pid s1 V (f_ip y) x src n (f_off y) WF1) as (s2 & s3 & s4 & V4 & bs4 & x4 & E2 & E3 & E4 & WF4 & Se & OW & Hf4 & T4 & R4 & Va4 & L4); try done; [by rewrite (sf_size _ _ S1)|lia| |].
  { by rewrite (nfree_data (k_fs k) s1 V V). }
  assert (G4 : geo s4) by apply WF4.
  destruct (end_rep pid s4 V4 bs4 (fs_rep _ _ _ _ _ _ (wf_state _ _ _ _ _ _ WF4)) (fs_blocks _ _ _ _ _ _ (wf_state _ _ _ _ _ _ WF4))) as (s5 & V5 & E5 & R5 & B5 & V45 & S5 & C5 & _ & I5).
  { by rewrite (sr_ops _ _ Se). }
  { by rewrite (sr_commit _ _ Se). }
  assert (Hd : same_data s4 V4 V5) by (intros b Hb; by apply V45, outside_data).
  assert (WF5 : wf_file pid s5 V5 [] (f_ip y) x4) by (eapply wf_move; [exact WF4|done|done|done|done|rewrite C5; apply WF4|done|done|done]).
  set (y' := set_f_off (f_off y + n) y).
  eexists _, V5, x4. split; [|].
  - unfold write_chunk, begin_op_. rewrite (bind_Ok _ _ _ tt (set_k_fs s1 k)) by (by rewrite (bind_Ok _ _ _ _ _ (on_fs_Ok (fun _ => in_log begin_op) k true s1 E1))).
    rewrite (bind_Ok _ _ _ y (set_k_fs s1 k)) by (by apply get_file_Ok).
    rewrite (bind_Ok _ _ _ _ _ (on_fs_Ok (fun pid => ilock pid (f_ip y)) (set_k_fs s1 k) tt s2 E2)), Hn32.
    rewrite (bind_Ok _ _ _ _ _ (on_fs_Ok (fun pid => writei pid dv (f_ip y) src (f_off y) n) (set_k_fs s2 (set_k_fs s1 k)) n s3 E3)).
    destruct (Z.ltb_spec 0 n); [|lia]. rewrite (u32_small (f_off y + n)) by lia. fold y'.
    rewrite (bind_Ok _ _ _ _ _ (upd_file_Ok (set_k_fs s3 (set_k_fs s2 (set_k_fs s1 k))) f (set_f_off (f_off y + n)) y Hf)).
    match goal with |- (_ ≫= _) ?t = _ => set (k3 := t) end.
    rewrite (bind_Ok _ _ _ _ _ (on_fs_Ok (fun pid => iunlock pid (f_ip y)) k3 tt s4 E4)). unfold end_op_.
    erewrite bind_Ok; [reflexivity|]. rewrite (bind_Ok _ _ _ _ _ (on_fs_Ok (fun pid => in_log (end_op pid)) (set_k_fs s4 k3) tt s5 E5)). reflexivity.
  - cbn. split_and!; try done.
    + split; cbn; try done; [|by rewrite T4|by rewrite R4|by rewrite (sf_size _ _ S5), (sr_size _ _ Se), (sf_size _ _ S1)].
      apply list_lookup_insert_eq. by eapply lookup_lt_Some.
    + destruct OW as [O1' O2']. split; [|done]. intros i Hi. rewrite <- O1' by done. apply (data_byte s4 V4 V5); [done|done|apply WF4|done].
    + rewrite (nfree_data s4 s5 V4 V5) by done. by rewrite (nfree_data (k_fs k) s1 V V) in Hf4 by done.
Qed.

(** ** The loop *)
Lemma filewrite_loop_run n src f : forall fuel k V y x i, open_file k V f y x -> 0 <= i <= n -> n <= Z.of_nat (length src) ->
  0 <= f_off y <= di_size (i_d x) -> f_off y + (n - i) <= MAXFILE * BSIZE -> n - i <= WMAX * Z.of_nat fuel ->
  (8 * fuel <= nfree (k_fs k) V)%nat ->
  exists k' V' x', filewrite_loop dv fuel f src n i k = Ok (n, k') /\ open_file k' V' f (set_f_off (f_off y + (n - i)) y) x' /\
    overwritten V V' x x' (f_off y) (slice src (Z.to_nat i) (Z.to_nat (n - i))) /\
    k_ft k' = <[f := set_f_off (f_off y + (n - i)) y]> (k_ft k) /\ k_pid k' = k_pid k.
Proof using Type.
  assert (Hnil : forall V x off src i, 0 <= off <= di_size (i_d x) -> overwritten V V x x off (slice src i 0)).
  { intros V x off src' i Ho. unfold slice. rewrite take_0. split; simpl; [|lia]. intros k Hk. by rewrite decide_False by lia. }
  assert (Hsame : forall y, set_f_off (f_off y + 0) y = y) by (intros []; cbn; by rewrite Z.add_0_r).
  induction fuel as [|fuel IH]; intros k V y x i OF Hi Hsrc Hoff Hmax Hfuel Hfr; cbn [filewrite_loop]; destruct (Z.leb_spec n i); try lia.
  1,2: exists k, V, x; replace (n - i) with 0 by lia; replace i with n by lia; rewrite Hsame; split_and!; try done; [by apply Hnil|rewrite list_insert_id; [done|apply OF]].
  set (n1 := if WMAX <? n - i then WMAX else n - i). assert (Hn1 : 0 < n1 <= n - i /\ n1 <= WMAX) by (unfold n1; destruct (Z.ltb_spec WMAX (n - i)); change WMAX with 1536 in *; lia).
  assert (Hn1' : n1 = WMAX \/ n1 = n - i) by (unfold n1; destruct (Z.ltb_spec WMAX (n - i)); auto).
  pose proof (eq_refl : WMAX = 1536) as HW.
  destruct (write_chunk_run k V f y x (drop (Z.to_nat i) src) n1 OF) as (k1 & V1 & x1 & E1 & OF1 & OW1 & Hf1 & K1 & P1); [lia|rewrite length_drop; lia|lia|lia|lia|].
  rewrite (bind_Ok _ _ _ _ _ E1). destruct (Z.ltb_spec n1 0); [lia|]. rewrite Z.eqb_refl. cbn [negb].
  assert (Hlen : Z.of_nat (length (take (Z.to_nat n1) (drop (Z.to_nat i) src))) = n1) by (rewrite length_take, length_drop; lia).
  pose proof (ow_size _ _ _ _ _ _ OW1) as Hs1. rewrite Hlen in Hs1.
  destruct (IH k1 V1 (set_f_off (f_off y + n1) y) x1 (i + n1) OF1) as (k2 & V2 & x2 & E2 & OF2 & OW2 & K2 & P2); cbn [f_off set_f_off]; rewrite ?HW in *; try lia.
  exists k2, V2, x2. cbn [f_off set_f_off] in *. replace (f_off y + n1 + (n - (i + n1))) with (f_off y + (n - i)) in * by lia. split_and!; [done|by destruct y| | |congruence].
  - rewrite <- (take_drop (Z.to_nat n1) (slice src (Z.to_nat i) (Z.to_nat (n - i)))).
    assert (Ea : take (Z.to_nat n1) (slice src (Z.to_nat i) (Z.to_nat (n - i))) = take (Z.to_nat n1) (drop (Z.to_nat i) src)) by (unfold slice; rewrite take_take; f_equal; lia).
    assert (Eb : drop (Z.to_nat n1) (slice src (Z.to_nat i) (Z.to_nat (n - i))) = slice src (Z.to_nat (i + n1)) (Z.to_nat (n - (i + n1)))).
    { unfold slice. rewrite skipn_firstn_comm, drop_drop. f_equal; [lia|]. f_equal. lia. }
    rewrite Ea, Eb. eapply overwritten_app; [lia|exact OW1|by rewrite Hlen].
  - rewrite K2, K1. rewrite list_insert_insert_eq. by destruct y.
Qed.

(** ** fileread *)
Lemma fileread_run k V f y x n killed : open_file k V f y x -> f_readable y = true -> 0 <= n < 2 ^ 31 -> 0 <= f_off y <= di_size (i_d x) ->
  exists k', fileread dv killed f n k =
    Ok ((Return (read_len (i_d x) (f_off y) n), fbytes V (i_d x) (f_off y) (read_len (i_d x) (f_off y) n)), k').
Proof using Type.
  intros [Hf Hty WF Ht Hr Hv Hl Hid Hz] Hrd Hn Hoff. set (pid := k_pid k) in *. pose proof (fs_ip _ _ _ _ _ _ (wf_state _ _ _ _ _ _ WF)) as Hip.
  set (x1 := set_i_lock (mkSl true pid) x). set (s1 := set_icache (<[f_ip y := x1]> (icache (k_fs k))) (k_fs k)).
  assert (Hip1 : icache s1 !! f_ip y = Some x1) by (apply list_lookup_insert_eq; by eapply lookup_lt_Some).
  assert (WF1 : wf_file pid s1 V [] (f_ip y) x1).
  { eapply wf_move; [exact WF|apply rep_icache, WF|apply WF|done|done|done|done|done|done]. }
  pose proof WF1 as [F1 H1 _ _ _].
  destruct (readi_run pid dv s1 V [] (f_ip y) x1 (f_off y) n F1 H1) as (s2 & E2 & F2 & S2); try done; [simpl; unfold NBUF; lia|].
  assert (E3 : iunlock pid (f_ip y) s2 = Ok (tt, set_icache (<[f_ip y := set_i_lock (mkSl false 0) x1]> (icache s2)) s2)).
  { apply iunlock_run; [by rewrite (sr_icache _ _ S2)|done|done]. }
  unfold fileread. rewrite (bind_Ok _ _ _ _ _ (get_file_Ok k f y Hf)), Hrd, Hty. cbn [negb].
  rewrite (bind_Ok _ _ _ _ _ (on_fs_Ok (fun pid => ilock pid (f_ip y)) k tt s1 (ilock_run pid (k_fs k) (f_ip y) x Hip Hr Hv Hl))).
  rewrite (u32_small n) by lia. rewrite (bind_Ok _ _ _ _ _ (on_fs_Ok (fun pid => readi pid dv (f_ip y) (f_off y) n) (set_k_fs s1 k) _ s2 E2)). cbn [fst snd].
  assert (Hu : exists k3, (if 0 <? read_len (i_d x1) (f_off y) n then upd_file f (set_f_off (u32 (f_off y + read_len (i_d x1) (f_off y) n))) else mret tt) (set_k_fs s2 (set_k_fs s1 k)) = Ok (tt, k3) /\
    k_fs k3 = s2 /\ k_pid k3 = pid).
  { destruct (0 <? _); eexists; split; [by apply (upd_file_Ok _ f _ y)|done|done|done]. }
  destruct Hu as (k3 & Eu & Ef & Ep). rewrite (bind_Ok _ _ _ _ _ Eu). rewrite <- Ef, <- Ep in E3. rewrite (bind_Ok _ _ _ _ _ (on_fs_Ok (fun pid => iunlock pid (f_ip y)) k3 tt _ E3)).
  eexists. reflexivity.
Qed.

Lemma idle_disk pid s V b : rep pid s V [] [] -> disk (lb (flog s)) (lg_dev (flg s)) b = V b.
Proof using Type.
  intros [a H]. pose proof (rp_inv _ _ _ _ _ _ H) as Hi. rewrite <- (rp_view _ _ _ _ _ _ H), (ab_disk _ _ _ (li_abs _ _ _ _ Hi)).
  symmetry. apply (linv_view pid (flog s) a []); [done|by eapply rep_unlocked|apply not_elem_of_nil].
Qed.

(** Claim C14. [filewrite] writes the whole buffer, however many transactions that
    takes: it returns [n], moves the offset by [n], leaves the file well
    formed and no transaction open, and every block of the file is on the disk.
    [fileread] through another descriptor of the same file then returns the
    bytes written. *)
Theorem filewrite_fileread k V f y x src n killed g z : open_file k V f y x -> f_writable y = true -> 0 <= n <= Z.of_nat (length src) ->
  0 <= f_off y <= di_size (i_d x) -> f_off y + n <= MAXFILE * BSIZE -> (8 * Z.to_nat (n / WMAX + 1) <= nfree (k_fs k) V)%nat ->
  g <> f -> k_ft k !! g = Some z -> f_type z = FD_INODE -> f_ip z = f_ip y -> f_readable z = true -> f_off z = f_off y ->
  exists k' V' x' k'', filewrite dv killed f src n k = Ok ((Return n, O), k') /\
    open_file k' V' f (set_f_off (f_off y + n) y) x' /\
    (forall b, disk (lb (flog (k_fs k'))) (lg_dev (flg (k_fs k'))) b = V' b) /\
    (forall i, 0 <= i < MAXFILE * BSIZE -> ~ (f_off y <= i < f_off y + n) -> fbyte V' (i_d x') i = fbyte V (i_d x) i) /\
    fileread dv killed g n k' = Ok ((Return n, take (Z.to_nat n) src), k'').
Proof using Type.
  intros OF Hw Hn Hoff Hmax Hfr Hgf Hg Gt Gi Gr Go. assert (HM : MAXFILE * BSIZE = 71680) by done. pose proof (eq_refl : WMAX = 1536) as HW.
  destruct (filewrite_loop_run n src f (Z.to_nat (n / WMAX + 1)) k V y x 0 OF) as (k1 & V1 & x1 & E1 & OF1 & OW & K1 & P1); try lia.
  { assert (0 <= n / WMAX) by (apply Z.div_pos; [lia|done]). pose proof (Z.div_mod n WMAX ltac:(done)). pose proof (Z.mod_pos_bound n WMAX ltac:(done)). rewrite HW in *. lia. }
  rewrite Z.sub_0_r in *. set (l := take (Z.to_nat n) src). assert (El : slice src (Z.to_nat 0) (Z.to_nat n) = l) by (unfold slice, l; by rewrite drop_0). rewrite El in OW.
  assert (Hl : Z.of_nat (length l) = n) by (unfold l; rewrite length_take; lia). pose proof OW as [Ob Os]. rewrite Hl in *.
  assert (OG : open_file k1 V1 g z x1).
  { destruct OF1. split; try done; [by rewrite K1, list_lookup_insert_ne|by rewrite Gi]. }
  destruct (fileread_run k1 V1 g z x1 n killed OG Gr) as (k2 & E2); [lia|rewrite Go; lia|].
  assert (Er : read_len (i_d x1) (f_off z) n = n) by (unfold read_len; rewrite Go; lia).
  exists k1, V1, x1, k2. split_and!.
  - unfold filewrite. rewrite (bind_Ok _ _ _ _ _ (get_file_Ok k f y (of_file _ _ _ _ _ OF))), Hw, (of_type _ _ _ _ _ OF). cbn [negb].
    rewrite (bind_Ok _ _ _ _ _ E1). by rewrite Z.eqb_refl.
  - done.
  - intros b. eapply idle_disk. apply OF1.
  - intros i Hi Hout. rewrite Ob by done. by rewrite decide_False.
  - rewrite Er, Go in E2. rewrite E2. rewrite <- Hl at 2. rewrite (written_bytes V V1 (i_d x)); [done| |lia|rewrite Hl; lia]. by rewrite Hl.
Qed.
End Chunk.



(** ** The concrete file system, with the file open twice *)
Definition closed_i : inode := mkIn 1 2 1 initsleeplock true file_d.
Definition open_f : file := mkFile FD_INODE 1 true true 0 1 4.
Definition open_k (s : fsst) : kfs :=
  mkKfs (mkKmem (fun _ => 0) 0 false []) (mkFsst (mkLst (lb (flog s)) (set_ops 0 false (flg s))) (<[1%nat := closed_i]> (icache s)) (fsb s) [])
    [open_f; open_f] [] 7 [].

Lemma open_example s V : example s V -> open_file (open_k s) V 0 open_f closed_i /\ nfree (k_fs (open_k s)) V = 939%nat.
Proof.
  intros X. assert (R : rep 7 (k_fs (open_k s)) V [] []).
  { destruct (ex_rep s V X) as [a []]. exists a. split; cbn; try done. unfold flg. apply linv_ops. by destruct (flog s). }
  split; [split; try done; [|apply X]|].
  - eapply (wf_move 7 s); [exact (ex_file s V X)|exact R|apply X|done|done| |done|done|done]. cbn. by rewrite (ex_icache s V X).
  - rewrite <- (ex_nfree s V X). by apply nfree_same.
Qed.

Lemma filewrite_fileread_witness : exists s k' k'', filewrite no_dev false 0 [72; 73] 2 (open_k s) = Ok ((Return 2, O), k') /\
  fileread no_dev false 1 2 k' = Ok ((Return 2, [72; 73]), k'').
Proof.
  destruct example_exists as (s & V & X). destruct (open_example s V X) as [OF Hf].
  destruct (filewrite_fileread no_dev (open_k s) V 0 open_f closed_i [72; 73] 2 false 1 open_f OF) as (k' & V' & x' & k'' & E1 & _ & _ & _ & E2).
  - done.
  - simpl. lia.
  - split; vm_compute; discriminate.
  - vm_compute. discriminate.
  - rewrite Hf. vm_compute. repeat constructor.
  - done.
  - done.
  - done.
  - done.
  - done.
  - done.
  - by exists s, k', k''.
Defined.
