(* ===== verification/PathThms.v ===== *)
(** * Path names: [skipelem] against a list of components

    [render] prints a list of components as a path, with any number of
    slashes; [skipelem] takes it apart again. *)

From stdpp Require Import prelude strings list.
From S2P Require Import Prelude Bio Log Fs Dir.

Open Scope Z_scope.

(** A component as the caller of [skipelem] sees it: the bytes of the
    buffer up to a NUL, 14 at most. *)
Fixpoint cname (n : nat) (b : list Z) : list Z :=
  match n, b with
  | S n', c :: b' => if c =? 0 then [] else c :: cname n' b'
  | _, _ => []
  end.

(** The components that a loop over [skipelem] meets, as in [namex]. *)
Fixpoint elems (fuel : nat) (path name : list Z) : option (list (list Z)) :=
  match skipelem path name with
  | None => None
  | Some None => Some []
  | Some (Some (path', name')) =>
      match fuel with
      | O => None
      | S fuel' => cons (cname DIRSIZ name') <$> elems fuel' path' name'
      end
  end.

(** A path: each component after its slashes, more slashes, and a NUL. *)
Fixpoint render (ns : list (nat * list Z)) (t : nat) : list Z :=
  match ns with
  | [] => replicate t SLASH ++ [0]
  | (k, e) :: ns' => replicate k SLASH ++ e ++ render ns' t
  end.

Definition plain (c : Z) : Prop := c <> 0 /\ c <> SLASH.
(** A component is not empty, has no NUL and no slash. *)
Definition component (e : list Z) : Prop := e <> [] /\ Forall plain e.

(** Components after the first are separated. *)
Definition separated (ns : list (nat * list Z)) : Prop := Forall (fun p => (0 < p.1)%nat) (tail ns) /\ Forall (fun p => component p.2) ns.

Lemma skip_slashes_spec k p : (exists c p', p = c :: p' /\ c <> SLASH) -> skip_slashes (replicate k SLASH ++ p) = Some p.
Proof.
  intros (c & p' & -> & Hc). induction k as [|k IH]; [|done]. simpl. by destruct (Z.eqb_spec c SLASH).
Qed.

Lemma take_elem_spec e p : Forall plain e -> (exists c p', p = c :: p' /\ (c = SLASH \/ c = 0)) -> take_elem (e ++ p) = Some (e, p).
Proof.
  intros He (c & p' & -> & Hc). induction e as [|x e IH]; simpl.
  - destruct (Z.eqb_spec c SLASH), (Z.eqb_spec c 0); try done; lia.
  - apply Forall_cons in He as [[H1 H2] He]. destruct (Z.eqb_spec x SLASH); [done|]. destruct (Z.eqb_spec x 0); [done|]. simpl. by rewrite IH.
Qed.

Lemma cname_put n e r : Forall plain e -> cname n (e ++ 0 :: r) = take n e.
Proof.
  revert n. induction e as [|x e IH]; intros n He; destruct n; simpl; try done.
  apply Forall_cons in He as [[H _] He]. destruct (Z.eqb_spec x 0); [done|]. by rewrite IH.
Qed.

Lemma cname_full n e r : Forall plain e -> (n <= length e)%nat -> cname n (take n e ++ r) = take n e.
Proof.
  revert n. induction e as [|x e IH]; intros n He Hn; destruct n; simpl in *; try done; [lia|].
  apply Forall_cons in He as [[H _] He]. destruct (Z.eqb_spec x 0); [done|]. by rewrite IH by (done || lia).
Qed.

Lemma cname_put_name name e : Forall plain e -> cname DIRSIZ (put_name name e) = take DIRSIZ e.
Proof.
  intros He. unfold put_name. destruct (Nat.leb_spec DIRSIZ (length e)); [by apply cname_full|by apply cname_put].
Qed.

(** The rest of a path starts with a slash or the NUL. *)
Lemma render_head ns t : Forall (fun p => (0 < p.1)%nat) ns -> exists c p', render ns t = c :: p' /\ (c = SLASH \/ c = 0).
Proof.
  intros H. destruct ns as [|[k e] ns]; simpl.
  - destruct t; simpl; eauto.
  - apply Forall_cons in H as [Hk _]. simpl in Hk. destruct k; [lia|]. simpl. eauto.
Qed.

(** Leading slashes removed. *)
Definition bare (ns : list (nat * list Z)) : list (nat * list Z) := match ns with (_, e) :: ns' => (0%nat, e) :: ns' | [] => [] end.

Lemma bare_head ns : Forall (fun p => component p.2) ns -> exists c p', render (bare ns) 0 = c :: p' /\ c <> SLASH.
Proof.
  intros H. destruct ns as [|[k e] ns]; simpl; [by exists 0, []|]. apply Forall_cons in H as [[Hne He] _]. simpl in *. destruct e as [|x e]; [done|].
  apply Forall_cons in He as [[_ Hx] _]. simpl. eauto.
Qed.

Definition trail (ns : list (nat * list Z)) (t : nat) : nat := match ns with [] => 0%nat | _ => t end.

Lemma skip_render ns t : Forall (fun p => component p.2) ns -> skip_slashes (render ns t) = Some (render (bare ns) (trail ns t)).
Proof.
  intros H. destruct ns as [|[k e] ns]; simpl; [apply skip_slashes_spec; by exists 0, []|].
  apply skip_slashes_spec. apply Forall_cons in H as [[Hne He] _]. simpl in *. destruct e as [|x e]; [done|].
  apply Forall_cons in He as [[_ Hx] _]. simpl. eauto.
Qed.

Lemma skipelem_nil t name : skipelem (render [] t) name = Some None.
Proof. unfold skipelem. by rewrite skip_render. Qed.

Lemma skipelem_cons k e ns t name : component e -> separated ((k, e) :: ns) ->
  skipelem (render ((k, e) :: ns) t) name = Some (Some (render (bare ns) (trail ns t), put_name name e)).
Proof.
  intros [Hne He] [Hs Hc]. unfold skipelem. rewrite skip_render by done. simpl in Hs. apply Forall_cons in Hc as [_ Hc]. cbn [mbind option_bind bare trail render replicate app].
  destruct e as [|x e]; [done|]. pose proof He as [[Hx0 Hx] _]%Forall_cons. cbn [app]. destruct (Z.eqb_spec x 0); [done|].
  change (x :: e ++ render ns t) with ((x :: e) ++ render ns t). rewrite take_elem_spec by (done || by apply render_head). cbn [mbind option_bind]. by rewrite skip_render.
Qed.

Lemma render_length ns t : (length ns <= length (render ns t))%nat \/ ~ Forall (fun p => component p.2) ns.
Proof.
  induction ns as [|[k e] ns [IH|IH]]; simpl; [lia| |right; by intros [_ ?]%Forall_cons].
  destruct (decide (e = [])) as [->|Hne]; [right; by intros [[[] _] _]%Forall_cons|]. left. rewrite !length_app. destruct e; [done|]. simpl. lia.
Qed.

Lemma bare_separated k e ns : separated ((k, e) :: ns) -> separated (bare ns) /\ length (bare ns) = length ns /\ (bare ns).*2 = ns.*2.
Proof.
  intros [Hs Hc]. simpl in Hs. apply Forall_cons in Hc as [_ Hc]. destruct ns as [|[k' e'] ns]; [done|]. simpl in *.
  apply Forall_cons in Hs as [_ Hs]. apply Forall_cons in Hc as [? Hc]. split_and!; [|done|done]. split; [done|]. by apply Forall_cons.
Qed.

Lemma elems_run fuel : forall ns t name, separated ns -> (length ns <= fuel)%nat -> elems fuel (render ns t) name = Some (take DIRSIZ <$> ns.*2).
Proof.
  induction fuel as [|fuel IH]; intros [|[k e] ns] t name H Hf; cbn [elems length] in *; try (by rewrite skipelem_nil); [lia|].
  pose proof H as [_ [[Hne He] _]%Forall_cons]. cbn [snd] in Hne, He. rewrite skipelem_cons by done. rewrite cname_put_name by done.
  destruct (bare_separated k e ns H) as (Hb & Hl & E2). rewrite IH by (done || lia). by rewrite E2.
Qed.

(** Claim C38. Splitting a path gives its components back: a loop over [skipelem]
    meets exactly the components of the path, each cut to 14 bytes, whatever
    the number of slashes before, between and after them, and it ends within
    as many turns as the path has bytes. *)
Theorem path_roundtrip ns t name : separated ns -> elems (length (render ns t)) (render ns t) name = Some (take DIRSIZ <$> ns.*2).
Proof. intros H. apply elems_run; [done|]. destruct (render_length ns t) as [Hl|Hn]; [done|]. by destruct Hn, H. Qed.

(** [//ab/c/] *)
Lemma path_roundtrip_witness : elems 8 [47; 47; 97; 98; 47; 99; 47; 0] [] = Some [[97; 98]; [99]].
Proof.
  apply (path_roundtrip [(2%nat, [97; 98]); (1%nat, [99])] 1 []). split; repeat constructor; simpl; try lia; try done.
Defined.
