(* ===== verification/MkfsBoot.v ===== *)
(** * From mkfs to the running kernel

    The kernel that starts on the image of mkfs ([iinit], then [initlog], as
    [forkret] of the first process does) finds every file by its path and
    reads the bytes that mkfs was given. *)

From stdpp Require Import prelude strings list.
From S2P Require Import Prelude CString Console Bio BioInv BioThms Log LogThms LogCrash LogSpec Fs Dir FsRep FsAlloc FsFile FsBmap FsRead FsInode FsWrite FsDir FsTxn Mkfs FsThms MkfsThms PathThms.

Open Scope Z_scope.

(** ** The image does not depend on the kernel's state *)
Section Transport.
Context (s s' : fsst) (V V' : Z -> block).
Hypothesis Hsb : fsb s = mk_sb.
Hypothesis Hsb' : fsb s' = mk_sb.
Hypothesis HV : forall b, V' b = V b.

Lemma move_ok d : inode_ok s V d -> inode_ok s' V d.
Proof using Hsb Hsb'.
  intros [I1 I2 I3 I4]. unfold data_block in *. rewrite (mk_bmb s) in * by done. rewrite (mk_size s) in * by done.
  split; unfold data_block; rewrite ?(mk_bmb s'), ?(mk_size s') by done; done.
Qed.

Lemma move_file d c n : mfile s V d c n -> mfile s' V' d c n.
Proof using Hsb Hsb' HV. intros [H1 H2 H3 H4 H5]. apply (mfile_ext s' Hsb' V V'); [done|]. split; try done. by apply move_ok. Qed.

Lemma move_inode i : disk_inode s' V' i = disk_inode s V i.
Proof using Hsb Hsb' HV. unfold disk_inode, inode_block. by rewrite HV, Hsb, Hsb'. Qed.

Lemma move_hasfile i t c : hasfile s V i t c -> hasfile s' V' i t c.
Proof using Hsb Hsb' HV. intros [H1 H2 H3]. split; rewrite move_inode; try done. by apply move_file. Qed.
End Transport.

(** ** Starting the kernel *)
Definition kernel0 (img : Z -> block) (sb0 : superblock) : fsst := mkFsst (boot (fun _ => img)) (replicate NINODE free_inode) sb0 [].

Lemma boot_run pid img sb0 : (forall b, b < 32 -> img b = if b =? 1 then sb_bytes zero_block mk_sb else zero_block) ->
  exists s V, (iinit pid ROOTDEV;; in_log (initlog pid ROOTDEV)) (kernel0 img sb0) = Ok (tt, s) /\ geo s /\ fsb s = mk_sb /\
    icache s = replicate NINODE free_inode /\ lg_dev (flg s) = 1 /\ rep pid s V [] [] /\ forall b, V b = img b.
Proof.
  intros Hlow. set (d := fun _ : Z => img). assert (E1 : img 1 = sb_bytes zero_block mk_sb) by (by rewrite Hlow). assert (E2 : img 2 = zero_block) by (by rewrite Hlow).
  destruct (read_release pid (binit d) _ [] 1 1 (binit_abs pid d)) as (i & b1 & x & b2 & Er & Hx & Ex & El & Hb2); try done; [unfold NBUF; simpl; lia|].
  assert (Hd : disk_ok log0 d []). { split; cbn [lg_dev lg_start lg_size log0]; unfold d; rewrite ?E1, ?E2; [by vm_compute|done|]. split; try done; try constructor; vm_compute; done. }
  destruct (initlog_linv_from pid b2 log0 d [] Hb2 log0_wf Hd) as ([b l] & a & E & HL & Hul & (Ed & Es & Ez) & _ & _ & Hdisk & Hview). cbn [lg lb] in *.
  assert (Hv : forall c, a_view a 1 c = img c).
  { intros c. rewrite <- (ab_view _ _ _ (li_abs _ _ _ _ HL)) by done. rewrite Hview, Hdisk. cbn. unfold upd2. cbn. destruct (Z.eqb_spec c 2) as [-> |]; [|done].
    unfold d. rewrite E2. by vm_compute. }
  set (out := cfmt "sb: size 1000 nblocks 941 ninodes 200 nlog 30 logstart 2 inodestart 32 bmap start 58\n").
  assert (Ei : iinit pid ROOTDEV (kernel0 img sb0) = Ok (tt, mkFsst (mkLst b2 (lg (boot d))) (replicate NINODE free_inode) mk_sb out)).
  { unfold iinit. rewrite (bind_Ok _ _ _ tt (kernel0 img sb0)) by reflexivity. rewrite (bind_Ok _ _ _ mk_sb (mkFsst (mkLst b2 (lg (boot d))) (replicate NINODE free_inode) sb0 [])).
    - rewrite (bind_Ok _ _ _ tt (mkFsst (mkLst b2 (lg (boot d))) (replicate NINODE free_inode) mk_sb [])) by done.
      match goal with |- context [cprintf ?f ?l] => replace (cprintf f l) with (Some out) by (vm_compute; reflexivity) end. done.
    - unfold in_bio. rewrite (in_log_Ok _ _ mk_sb (mkLst b2 (lg (boot d)))); [done|]. apply lift_Ok. unfold readsb.
      rewrite (bind_Ok _ _ _ _ _ Er), (bind_Ok _ _ _ _ _ (get_buf_run _ _ _ Hx)), (bind_Ok _ _ _ _ _ El), Ex. cbn [a_view]. unfold d. rewrite E1. by vm_compute. }
  set (s := mkFsst (mkLst b l) (replicate NINODE free_inode) mk_sb out). exists s, (a_view a 1).
  change (lg_dev log0) with ROOTDEV in E. split; [rewrite (bind_Ok _ _ _ _ _ Ei); rewrite (in_log_Ok (initlog pid ROOTDEV) _ tt (mkLst b l)); [reflexivity|exact E]|]. split_and!; [|done|done|cbn; by rewrite Ed| |exact Hv].
  - pose proof (li_wf _ _ _ _ HL) as Hl. unfold s. rewrite mk_sb_eq. split; cbn; try done; try lia. unfold flg; cbn. rewrite Es, Ez. cbn. lia.
  - exists a. split; cbn; try done.
    + by rewrite Ed.
    + intros v c Hv0 Hlk. by rewrite Hul in Hlk.
    + intros i0 c Hin. by apply elem_of_nil in Hin.
    + constructor.
    + intros c Hin. by apply elem_of_nil in Hin.
Qed.

(** ** The root directory as the kernel reads it *)
Lemma concat16_lookup (l : list (list Z)) : forall k e j, Forall (fun e => length e = 16%nat) l -> l !! k = Some e -> (j < 16)%nat -> concat l !! (16 * k + j)%nat = e !! j.
Proof.
  induction l as [|e0 l IH]; intros [|k] e j Hl He Hj; [done|done|..]; apply Forall_cons in Hl as [H0 Hl].
  - injection He as ->. cbn [concat]. by rewrite lookup_app_l by lia.
  - cbn [concat]. rewrite lookup_app_r by lia. rewrite <- (IH k e j Hl He Hj). f_equal. lia.
Qed.

Lemma byte_lookup (l : list Z) i : (i < length l)%nat -> l !! i = Some (byte_at l i).
Proof. intros H. destruct (lookup_lt_is_Some_2 l i H) as [z E]. unfold byte_at. by rewrite E. Qed.

Definition free_dent : dirent := mkDe 0 (replicate DIRSIZ 0).
Definition root_names (fl : list (list Z * list Z)) : list (list Z) := [46] :: [46; 46] :: fl.*1.

Lemma root_dents_name fl : de_name <$> root_dents fl = field <$> root_names fl.
Proof.
  unfold root_dents, root_names. rewrite fmap_app. cbn [fmap list_fmap app]. do 2 f_equal. rewrite fmap_imap. unfold compose. cbn [de_name].
  apply list_eq. intros i. rewrite list_lookup_imap, !list_lookup_fmap. by destruct (fl !! i).
Qed.

Lemma root_dents_lookup fl i f : fl !! i = Some f -> root_dents fl !! S (S i) = Some (mkDe (dinum (S i)) (field f.1)).
Proof. intros H. transitivity (imap (fun i f => mkDe (dinum (S i)) (field f.1)) fl !! i); [done|]. by rewrite list_lookup_imap, H. Qed.

Lemma root_dents_length fl : length (root_dents fl) = (2 + length fl)%nat.
Proof. unfold root_dents. by rewrite length_app, length_imap. Qed.

Lemma root_dents_inum fl de : (length fl <= 198)%nat -> de ∈ root_dents fl -> 0 < de_inum de < 2 ^ 16.
Proof.
  intros Hl. unfold root_dents. rewrite elem_of_app, elem_of_lookup_imap. intros [[-> |[-> |?%elem_of_nil]%elem_of_cons]%elem_of_cons|(i & f & -> & Hi)]; try done.
  apply lookup_lt_Some in Hi. cbn. unfold dinum. lia.
Qed.

Section Root.
Context (s : fsst) (V : Z -> block) (fl : list (list Z * list Z)).
Hypothesis Hroot : mfile s V (disk_inode s V 1) (root_bytes fl) (nb (root_bytes fl)).
Hypothesis Hsize : exists a, disk_inode s V 1 = mkDi T_DIR 0 0 1 (root_size fl) a.
Hypothesis Hlen : (length fl <= 198)%nat.

Notation d := (disk_inode s V 1).

Lemma root_dent_bytes k : 0 <= k < 4480 -> fbytes V d (DESIZE * k) DESIZE =
  match root_dents fl !! Z.to_nat k with Some de => put_dirent de | None => replicate 16 0 end.
Proof using Hroot Hlen.
  intros Hk. unfold fbytes, DESIZE. assert (HM : MAXFILE * BSIZE = 71680) by done.
  assert (Hall : Forall (fun e => length e = 16%nat) (put_dirent <$> root_dents fl)) by (apply Forall_fmap, Forall_forall; intros de Hde; by apply put_dirent_length, (root_dents_names fl)).
  destruct (root_dents fl !! Z.to_nat k) as [de|] eqn:E.
  - assert (Hp : (put_dirent <$> root_dents fl) !! Z.to_nat k = Some (put_dirent de)) by (by rewrite list_lookup_fmap, E).
    assert (Hle : length (put_dirent de) = 16%nat) by (eapply Forall_lookup_1 in Hall; [exact Hall|exact Hp]).
    apply list_eq_same_length with 16%nat; [by rewrite Hle|by rewrite length_fmap, length_seqZ|]. intros j x y Hj Hx Hy. rewrite list_lookup_fmap, lookup_seqZ_lt in Hx by lia. injection Hx as <-.
    rewrite (mf_byte _ _ _ _ _ Hroot) by lia. unfold byte_at, root_bytes. replace (Z.to_nat (16 * k + Z.of_nat j)) with (16 * Z.to_nat k + j)%nat by lia.
    rewrite (concat16_lookup _ _ _ _ Hall Hp Hj). by rewrite Hy.
  - apply lookup_ge_None_1 in E. apply list_eq_same_length with 16%nat; [done|by rewrite length_fmap, length_seqZ|]. intros j x y Hj Hx Hy. rewrite list_lookup_fmap, lookup_seqZ_lt in Hx by lia. injection Hx as <-.
    apply lookup_replicate in Hy as [-> _]. rewrite (mf_byte _ _ _ _ _ Hroot) by lia. unfold byte_at. rewrite lookup_ge_None_2; [done|]. rewrite root_bytes_length. rewrite root_dents_length in E. lia.
Qed.

Lemma root_size_spec : root_size fl mod 16 = 0 /\ 16 * (2 + Z.of_nat (length fl)) <= root_size fl <= 3584.
Proof using Hlen.
  unfold root_size, BSIZE. rewrite root_bytes_length. set (n := Z.of_nat _). pose proof (Z.div_mod n 512 ltac:(lia)). pose proof (Z.mod_pos_bound n 512 ltac:(lia)).
  assert (n / 512 <= 6) by (apply Z.lt_succ_r, Z.div_lt_upper_bound; lia). pose proof (Z.div_pos n 512). split; [|lia].
  replace ((n / 512 + 1) * 512) with ((n / 512 + 1) * 32 * 16) by lia. apply Z.mod_mul. lia.
Qed.

Lemma root_dents_disk : dents V d = root_dents fl ++ replicate (Z.to_nat (root_size fl / 16) - (2 + length fl))%nat free_dent.
Proof using Hroot Hsize Hlen.
  destruct Hsize as [a Ea]. destruct root_size_spec as [Hm Hr]. pose proof (Z.div_mod (root_size fl) 16 ltac:(lia)) as Hdm. rewrite Hm in Hdm.
  unfold dents. rewrite Ea at 2. cbn [di_size]. change DESIZE with 16. set (n := root_size fl / 16) in *.
  apply list_eq_same_length with (Z.to_nat n); [by rewrite length_app, length_replicate, root_dents_length; lia|by rewrite length_fmap, length_seqZ|].
  intros k x y Hk Hx Hy. rewrite list_lookup_fmap, lookup_seqZ_lt in Hx by lia. injection Hx as <-. unfold dent. rewrite root_dent_bytes by lia.
  replace (Z.to_nat (0 + Z.of_nat k)) with k by lia. destruct (root_dents fl !! k) as [de|] eqn:E.
  - rewrite (lookup_app_l_Some _ _ _ _ E) in Hy. injection Hy as <-. apply list_elem_of_lookup_2 in E. pose proof (root_dents_inum fl de Hlen E). apply get_put_dirent; [lia|by apply (root_dents_names fl)].
  - apply lookup_ge_None_1 in E. rewrite lookup_app_r in Hy by done. by apply lookup_replicate in Hy as [-> _].
Qed.

(** Each name, if no earlier entry has it, is found. *)
Lemma root_find i f : NoDup (field <$> root_names fl) -> fl !! i = Some f ->
  list_find (named (field f.1)) (dents V d) = Some (S (S i), mkDe (dinum (S i)) (field f.1)).
Proof using Hroot Hsize Hlen.
  intros Hnd Hf. pose proof (root_dents_lookup fl i f Hf) as Hde. rewrite root_dents_disk. apply list_find_Some. split_and!.
  - by apply lookup_app_l_Some.
  - split; cbn; [unfold dinum; lia|done].
  - intros j de Hj Hlt [_ Hn]. pose proof (lookup_lt_Some _ _ _ Hde) as Hl. rewrite lookup_app_l in Hj by lia.
    rewrite <- root_dents_name in Hnd. eapply NoDup_lookup in Hnd; [|rewrite list_lookup_fmap, Hj; cbn; by rewrite Hn|rewrite list_lookup_fmap, Hde; done]. lia.
Qed.

Lemma root_dir_ok : Forall (fun f => no_nul f.1) fl -> dir_ok V d.
Proof using Hroot Hsize Hlen.
  intros Hnn. destruct Hsize as [a Ea]. split; [by rewrite Ea|rewrite Ea; apply root_size_spec|]. intros de. rewrite root_dents_disk, elem_of_app, elem_of_replicate.
  intros [H|[-> _]] Hz; [|done]. unfold root_dents in H. apply elem_of_app in H as [[-> |[-> |H%elem_of_nil]%elem_of_cons]%elem_of_cons|H]; [..|done|].
  - exists [46]. split; [by repeat constructor|done].
  - exists [46; 46]. split; [by repeat constructor|done].
  - apply elem_of_lookup_imap in H as (i & f & -> & Hi). exists f.1. split; [|done]. exact (Forall_lookup_1 _ _ _ _ Hnn Hi).
Qed.
End Root.

(** ** Opening a file *)
Section Open.
Context (pid : Z) (dv : devsw).

(** [ilock] of an inode that is not in memory reads it from the disk. *)
Lemma ilock_load s V ip x : geo s -> rep pid s V [] [] -> icache s !! ip = Some x -> 1 <= i_ref x -> i_valid x = false -> sl_locked (i_lock x) = false ->
  i_dev x = lg_dev (flg s) -> 0 <= i_inum x < sb_ninodes (fsb s) -> di_type (disk_inode s V (i_inum x)) <> 0 ->
  exists s', ilock pid ip s = Ok (tt, s') /\ rep pid s' V [] [] /\ same_env s s' /\
    icache s' = <[ip := mkIn (i_dev x) (i_inum x) (i_ref x) (mkSl true pid) true (disk_inode s V (i_inum x))]> (icache s).
Proof using Type.
  intros G R Hip Hr Hv Hl Hd Hi Ht. pose proof (lookup_lt_Some _ _ _ Hip) as Hlt. pose proof (inode_block_range s _ G Hi) as Hb. destruct (geo_facts s G) as [G1 G2].
  set (x1 := set_i_lock (mkSl true pid) x). set (s1 := set_icache (<[ip := x1]> (icache s)) s). assert (R1 : rep pid s1 V [] []) by by apply rep_icache.
  destruct (bread_rep pid s1 V [] [] (inode_block s (i_inum x)) R1) as (bp & s2 & E2 & R2 & S2); [pose proof (g_size s G); lia|by apply not_elem_of_nil|unfold NBUF; simpl; lia|].
  set (di := disk_inode s V (i_inum x)). set (s3 := set_icache (<[ip := set_i_d false di x1]> (icache s2)) s2). pose proof (sr_icache _ _ S2) as Ec. cbn in Ec.
  assert (H2 : icache s2 !! ip = Some x1) by (rewrite Ec; by apply list_lookup_insert_eq).
  destruct (brelse_rep pid s3 V [] [] bp (inode_block s (i_inum x))) as (s4 & E4 & R4 & S4); [by apply rep_icache|]. pose proof (sr_icache _ _ S4) as Ec4. cbn in Ec4.
  assert (H4 : icache s4 !! ip = Some (set_i_d false di x1)) by (rewrite Ec4; apply list_lookup_insert_eq; rewrite Ec, length_insert; done).
  exists (set_icache (<[ip := set_i_d true di (set_i_d false di x1)]> (icache s4)) s4). split_and!.
  - unfold ilock. rewrite (bind_Ok _ _ _ s s) by done. rewrite (bind_Ok _ _ _ _ _ (get_inode_run s ip x Hip)). rewrite (proj2 (Z.ltb_ge _ _)) by done.
    assert (E1 : lock_inode pid ip s = Ok (tt, s1)).
    { unfold lock_inode. rewrite (bind_Ok _ _ _ _ _ (get_inode_run s ip x Hip)). unfold acquiresleep. rewrite Hl. rewrite (bind_Ok _ _ _ (mkSl true pid) s) by done. by apply upd_inode_run. }
    rewrite (bind_Ok _ _ _ _ _ E1), Hv, Hd, IBLOCK_spec by done. rewrite (bind_Ok _ _ _ _ _ E2). rewrite (bind_Ok _ _ _ _ _ (data_rep pid s2 V [] _ bp _ R2 ltac:(by left))). cbv zeta.
    fold di. rewrite (bind_Ok _ _ _ _ _ (upd_inode_run s2 ip _ x1 H2)). fold s3. rewrite (bind_Ok _ _ _ _ _ E4). rewrite (bind_Ok _ _ _ _ _ (upd_inode_run s4 ip _ _ H4)).
    by rewrite (proj2 (Z.eqb_neq _ _)).
  - by apply rep_icache.
  - transitivity s1; [by split|]. transitivity s2; [exact (sr_env _ _ S2)|]. transitivity s3; [by split|]. transitivity s4; [exact (sr_env _ _ S4)|by split].
  - cbn. rewrite Ec4, Ec. by rewrite !list_insert_insert_eq.
Qed.

(** [iunlockput] of an inode that is linked and that no one else uses. *)
Lemma iunlockput_run s ip x : icache s !! ip = Some x -> i_ref x = 1 -> i_lock x = mkSl true pid -> di_nlink (i_d x) <> 0 ->
  iunlockput pid ip s = Ok (tt, set_icache (<[ip := set_i_ref 0 (set_i_lock (mkSl false 0) x)]> (icache s)) s).
Proof using Type.
  intros Hip Hr Hl Hn. pose proof (lookup_lt_Some _ _ _ Hip) as Hlt. unfold iunlockput. rewrite (bind_Ok _ _ _ _ _ (iunlock_run pid s ip x Hip ltac:(lia) Hl)).
  set (x1 := set_i_lock (mkSl false 0) x). set (s1 := set_icache (<[ip := x1]> (icache s)) s). assert (H1 : icache s1 !! ip = Some x1) by by apply list_lookup_insert_eq.
  set (x2 := set_i_lock (mkSl true pid) x1). set (s2 := set_icache (<[ip := x2]> (icache s1)) s1). assert (H2 : icache s2 !! ip = Some x2) by (apply list_lookup_insert_eq; by eapply lookup_lt_Some).
  unfold iput. rewrite (bind_Ok _ _ _ tt s2). 2: { unfold lock_inode. rewrite (bind_Ok _ _ _ _ _ (get_inode_run s1 ip x1 H1)). rewrite (bind_Ok _ _ _ (mkSl true pid) s1) by done. by apply upd_inode_run. }
  rewrite (bind_Ok _ _ _ _ _ (get_inode_run s2 ip x2 H2)). cbn [x2 x1 set_i_lock i_valid i_d i_ref]. rewrite (proj2 (Z.eqb_neq _ _)), andb_false_r by done. cbn [andb].
  rewrite (bind_Ok _ _ _ tt s2) by done. rewrite (bind_Ok _ _ _ _ _ (upd_inode_run s2 ip _ x2 H2)).
  rewrite (upd_inode_run _ ip _ (set_i_lock (releasesleep (i_lock x2)) x2)) by (cbn; apply list_lookup_insert_eq; by rewrite !length_insert).
  cbn. rewrite Hr, !list_insert_insert_eq. done.
Qed.

(** A state of the kernel on the image. *)
Record on_image (s : fsst) (V : Z -> block) (fl : list (list Z * list Z)) : Prop := {
  oi_geo : geo s;
  oi_sb : fsb s = mk_sb;
  oi_rep : rep pid s V [] [];
  oi_dev : lg_dev (flg s) = 1;
  oi_made : made s V fl
}.

Lemma made_move s s' V V' fl : fsb s = mk_sb -> fsb s' = mk_sb -> (forall b, V' b = V b) -> made s V fl -> made s' V' fl.
Proof using Type.
  intros E E' HV [M1 M2 M3 M4 M5 M6 M7 M8 M9]. assert (Ei : forall i, disk_inode s' V' i = disk_inode s V i) by (intros; by apply move_inode). split.
  - intros b. rewrite HV. apply M1.
  - intros b Hb. rewrite HV. by apply M2.
  - intros b Hb. rewrite HV. by apply M3.
  - intros i f Hf. apply (move_hasfile s s' V V'); auto.
  - rewrite Ei. by apply (move_file s s' V V').
  - by rewrite Ei.
  - intros i j Hi Hj Hne. rewrite !Ei. intros b Hb. rewrite (owns_ext V V'), (owns_ext V V'); [by apply M7|intros bn; unfold fblock; by rewrite HV..].
  - intros i Hi Hlt. rewrite Ei. by apply M8.
  - intros b Hb. destruct (M9 b Hb) as (i & Hi & Ho). exists i. split; [done|]. rewrite Ei, (owns_ext V); [done|]. intros bn. unfold fblock. by rewrite HV.
Qed.

Lemma on_image_step s s' V fl : on_image s V fl -> same_env s s' -> rep pid s' V [] [] -> on_image s' V fl.
Proof using Type.
  intros [G Hs R D M] S R'. split; [eapply geo_same; [exact S|by eapply rep_lwf|done]|by rewrite (sr_fsb _ _ S)|done|by rewrite (sr_dev _ _ S)|].
  eapply (made_move s); try done. by rewrite (sr_fsb _ _ S).
Qed.

Lemma image_bitmap s V fl : on_image s V fl -> bitmap_ok s (V (bmb s)).
Proof using Type.
  intros [G Hs R D M]. split; [apply M|]. intros b Hb. rewrite (mk_bmb s Hs) in *. rewrite (md_bits _ _ _ M) by lia. apply Z.ltb_lt.
  pose proof (image_total [] fl) as H. cbn [app] in H. change (total (image [])) with 1 in H. lia.
Qed.

(** A locked inode that holds one of the files. *)
Lemma image_wf s V fl ip x c : on_image s V fl -> icache s !! ip = Some x -> i_dev x = 1 -> 0 <= i_inum x < 200 -> i_d x = disk_inode s V (i_inum x) ->
  mfile s V (i_d x) c (nb c) -> short (di_type (i_d x)) -> short (di_major (i_d x)) -> short (di_minor (i_d x)) -> short (di_nlink (i_d x)) ->
  0 <= di_size (i_d x) <= nb c * 512 -> wf_file pid s V [] ip x.
Proof using Type.
  intros OI Hip Hd Hi Ed F T1 T2 T3 T4 Hsz. pose proof OI as [G Hs R D M]. pose proof (mf_max _ _ _ _ _ F) as Hmx. change MAXFILE with 140 in Hmx.
  split; [|split|split|by rewrite Hs|done].
  - split; try done; [apply M|by eapply image_bitmap|congruence|apply F].
  - change (MAXFILE * BSIZE) with 71680. lia.
  - intros bn H1 H2. unfold BSIZE in H2. apply (mf_alloc _ _ _ _ _ F); [change MAXFILE with 140; lia|lia].
  - done.
  - done.
  - done.
  - done.
  - lia.
  - apply (io_addrs _ _ _ (mf_ok _ _ _ _ _ F)).
  - by apply (addrs_small s Hs V), F.
Qed.

(** The last adjustment of the directory's size leaves no hole. *)
Lemma root_fits fl : Z.of_nat (2 + length fl) mod 32 <> 0 -> root_size fl = nb (root_bytes fl) * 512.
Proof using Type.
  intros H. unfold root_size, nb, BSIZE. rewrite root_bytes_length. set (n := Z.of_nat (2 + length fl)) in *. replace (Z.of_nat (16 * (2 + length fl))) with (16 * n) by lia.
  pose proof (Z.div_mod n 32 ltac:(lia)). pose proof (Z.mod_pos_bound n 32 ltac:(lia)).
  rewrite <- (Z.div_unique (16 * n) 512 (n / 32) (16 * (n mod 32))) by lia. rewrite <- (Z.div_unique (16 * n + 511) 512 (n / 32 + 1) (16 * (n mod 32) - 1)) by lia. done.
Qed.

Lemma root_full fl : Z.of_nat (2 + length fl) mod 32 = 0 -> root_size fl = (nb (root_bytes fl) + 1) * 512.
Proof using Type.
  intros H. unfold root_size, nb, BSIZE. rewrite root_bytes_length. set (n := Z.of_nat (2 + length fl)) in *. replace (Z.of_nat (16 * (2 + length fl))) with (16 * n) by lia.
  pose proof (Z.div_mod n 32 ltac:(lia)). rewrite <- (Z.div_unique (16 * n) 512 (n / 32) 0) by lia. by rewrite <- (Z.div_unique (16 * n + 511) 512 (n / 32) 511) by lia.
Qed.

Lemma root_wf s V fl ip x : on_image s V fl -> (length fl <= 198)%nat -> Z.of_nat (2 + length fl) mod 32 <> 0 -> icache s !! ip = Some x -> i_dev x = 1 -> i_inum x = 1 ->
  i_d x = disk_inode s V 1 -> wf_file pid s V [] ip x.
Proof using Type.
  intros OI Hl H32 Hip Hd Hi Ed. pose proof (oi_made _ _ _ OI) as M. destruct (md_root_fields _ _ _ M) as [a Ea]. destruct (root_size_spec fl Hl) as [_ Hr].
  eapply (image_wf s V fl ip x (root_bytes fl)); try done; rewrite ?Hi, ?Ed; try done; try apply M; rewrite Ea; cbn [di_type di_major di_minor di_nlink di_size]; unfold short, T_DIR; try lia.
  rewrite <- (root_fits fl H32). lia.
Qed.

Lemma nb_covers c : Z.of_nat (length c) <= nb c * 512.
Proof using Type. unfold nb. pose proof (Z.div_mod (Z.of_nat (length c) + 511) 512 ltac:(lia)). pose proof (Z.mod_pos_bound (Z.of_nat (length c) + 511) 512 ltac:(lia)). lia. Qed.

Lemma file_wf s V fl i f ip x : on_image s V fl -> (length fl <= 198)%nat -> fl !! i = Some f -> icache s !! ip = Some x -> i_dev x = 1 -> i_inum x = dinum (S i) ->
  i_d x = disk_inode s V (dinum (S i)) -> wf_file pid s V [] ip x.
Proof using Type.
  intros OI Hl Hf Hip Hd Hi Ed. destruct (md_file _ _ _ (oi_made _ _ _ OI) i f Hf) as [F1 F2 [a Ea]]. apply lookup_lt_Some in Hf. pose proof (nb_covers f.2).
  eapply (image_wf s V fl ip x f.2); try done; rewrite ?Hi, ?Ed; try done; [unfold dinum; lia|..]; rewrite Ea; cbn [di_type di_major di_minor di_nlink di_size]; unfold short, T_FILE; lia.
Qed.

Lemma file_bytes s V fl i f : on_image s V fl -> fl !! i = Some f -> Z.of_nat (length f.2) <= 71680 ->
  fbytes V (disk_inode s V (dinum (S i))) 0 (Z.of_nat (length f.2)) = f.2.
Proof using Type.
  intros OI Hf Hl. destruct (md_file _ _ _ (oi_made _ _ _ OI) i f Hf) as [F1 _ _]. unfold fbytes.
  apply list_eq_same_length with (length f.2); [done|rewrite length_fmap, length_seqZ; lia|]. intros k x y Hk Hx Hy.
  rewrite list_lookup_fmap, lookup_seqZ_lt in Hx by lia. injection Hx as <-. rewrite (mf_byte _ _ _ _ _ F1) by (change (MAXFILE * BSIZE) with 71680; lia).
  unfold byte_at. replace (Z.to_nat (0 + Z.of_nat k)) with k by lia. by rewrite Hy.
Qed.

(** [namei] from the root: the inode of the root is read, looked up and put back. *)
Lemma root_open s V fl : on_image s V fl -> icache s = replicate NINODE free_inode ->
  exists k s1 s2, iget ROOTDEV ROOTINO s = Ok (k, s1) /\ ilock pid k s1 = Ok (tt, s2) /\ on_image s2 V fl /\ (k < NINODE)%nat /\
    icache s2 = <[k := mkIn 1 1 1 (mkSl true pid) true (disk_inode s2 V 1)]> (replicate NINODE free_inode).
Proof using Type.
  intros OI Ic. destruct (iget_run s ROOTDEV ROOTINO) as (k & s1 & E1 & Gt).
  { exists 0%nat, free_inode. rewrite Ic. split; [done|by right]. }
  assert (Hall : forall j y, icache s !! j = Some y -> y = free_inode /\ (j < NINODE)%nat) by (rewrite Ic; intros j y Hj; by apply lookup_replicate in Hj).
  destruct Gt as [y Hy (Hr & _) _|y Hy _ _ ->]; destruct (Hall k y Hy) as [-> Hk]; [done|].
  set (x := mkIn ROOTDEV ROOTINO 1 (i_lock free_inode) false (i_d free_inode)) in *. set (s1 := set_icache (<[k := x]> (icache s)) s) in *.
  assert (OI1 : on_image s1 V fl) by (eapply on_image_step; [exact OI|by split|by apply rep_icache, OI]).
  destruct (md_root_fields _ _ _ (oi_made _ _ _ OI1)) as [a Ea].
  destruct (ilock_load s1 V k x (oi_geo _ _ _ OI1) (oi_rep _ _ _ OI1)) as (s2 & E2 & R2 & S2 & Ic2); try done.
  { cbn. apply list_lookup_insert_eq. by eapply lookup_lt_Some. }
  { by rewrite (oi_dev _ _ _ OI1). }
  { by rewrite (oi_sb _ _ _ OI1). }
  { cbn [x i_inum]. change ROOTINO with 1. by rewrite Ea. }
  assert (OI2 : on_image s2 V fl) by (by eapply on_image_step). exists k, s1, s2. split_and!; try done.
  rewrite Ic2. cbn [s1 icache set_icache x i_dev i_inum i_ref]. rewrite list_insert_insert_eq, Ic. do 2 f_equal.
  apply (move_inode s2 s1 V V); [apply OI2|apply OI1|done].
Qed.

Lemma namei_run s V fl i f cwd garbage : on_image s V fl -> icache s = replicate NINODE free_inode -> (length fl <= 198)%nat -> Z.of_nat (2 + length fl) mod 32 <> 0 ->
  NoDup (field <$> root_names fl) -> Forall (fun f => no_nul f.1) fl -> fl !! i = Some f -> component f.1 -> (length f.1 < DIRSIZ)%nat ->
  exists ip s' x, namei pid dv cwd garbage (render [(1%nat, f.1)] 0) s = Ok (Some ip, s') /\ on_image s' V fl /\ icache s' !! ip = Some x /\
    i_dev x = 1 /\ i_inum x = dinum (S i) /\ i_ref x = 1 /\ sl_locked (i_lock x) = false /\ i_valid x = false.
Proof using Type.
  intros OI Ic Hl H32 Hnd Hnn Hf Hc Hlen. destruct (root_open s V fl OI Ic) as (k & s1 & s2 & E1 & E2 & OI2 & Hk & Ic2). set (x := mkIn 1 1 1 (mkSl true pid) true (disk_inode s2 V 1)) in *.
  pose proof (oi_made _ _ _ OI2) as M2. assert (Hx : icache s2 !! k = Some x) by (rewrite Ic2; by apply list_lookup_insert_eq; rewrite length_replicate).
  assert (WF : wf_file pid s2 V [] k x) by (by apply (root_wf s2 V fl)). destruct (md_root_fields _ _ _ M2) as [a Ea].
  destruct (dirlookup_hit pid dv s2 V [] k x f.1 (drop (S (length f.1)) garbage) _ _ WF (root_dir_ok s2 V fl (md_root _ _ _ M2) (md_root_fields _ _ _ M2) Hl Hnn)
    ltac:(unfold NBUF; simpl; lia) (proj1 (Forall_lookup _ _) Hnn i f Hf) (root_find s2 V fl (md_root _ _ _ M2) (md_root_fields _ _ _ M2) Hl i f Hnd Hf)) as (ip & s3 & s4 & E4 & [WF3 S3] & Gt).
  { set (j := if decide (k = 0)%nat then 1%nat else 0%nat). exists j, free_inode. split; [|by right]. rewrite Ic2, list_lookup_insert_ne by (unfold j; case_decide; lia). apply lookup_replicate. split; [done|]. unfold j, NINODE. case_decide; lia. }
  pose proof (sr_icache _ _ S3) as Ic3. cbn [x i_dev de_inum] in Gt.
  assert (Hall : forall j y, icache s3 !! j = Some y -> (j = k /\ y = x) \/ (j <> k /\ y = free_inode)).
  { intros j y. rewrite Ic3, Ic2. destruct (decide (j = k)) as [-> |Hne]; [rewrite list_lookup_insert_eq by (by rewrite length_replicate); intros [= <-]; by left|].
    rewrite list_lookup_insert_ne by done. intros [-> _]%lookup_replicate. by right. }
  destruct Gt as [y Hy (Hr & _ & Hin) _|y Hy H0 _ ->]; (destruct (Hall ip y Hy) as [[-> ->]|[Hne ->]]); [unfold dinum in Hin; cbn in Hin; lia|done|done|].
  set (y := mkIn 1 (dinum (S i)) 1 (i_lock free_inode) false (i_d free_inode)) in *. set (s4 := set_icache (<[ip := y]> (icache s3)) s3) in *.
  assert (OI4 : on_image s4 V fl). { eapply on_image_step; [exact OI2|etrans; [exact (sr_env _ _ S3)|by split]|]. apply rep_icache, (fs_rep _ _ _ _ _ _ (wf_state _ _ _ _ _ _ WF3)). }
  assert (H4 : icache s4 !! k = Some x) by (cbn; rewrite list_lookup_insert_ne by done; by rewrite Ic3).
  pose proof (iunlockput_run s4 k x H4 eq_refl eq_refl ltac:(cbn [x i_d]; by rewrite Ea)) as E5. set (s5 := set_icache (<[k := _]> (icache s4)) s4) in E5.
  exists ip, s5, y. split; [|split_and!; try done].
  - unfold namei, namex. rewrite (bind_Ok _ _ _ (Some (ip, put_name garbage f.1)) s5); [done|]. change (head (render [(1%nat, f.1)] 0)) with (Some 47).
    rewrite (bind_Ok _ _ _ 47 s) by done. change (47 =? SLASH) with true. cbv iota. rewrite (bind_Ok _ _ _ _ _ E1). change (length (render [(1%nat, f.1)] 0)) with (S (length (f.1 ++ [0]))). cbn [namex_loop].
    assert (Hsep : separated [(1%nat, f.1)]) by (split; [constructor|constructor; [exact Hc|constructor]]). rewrite skipelem_cons by done. rewrite (bind_Ok _ _ _ (Some (render [] 0, put_name garbage f.1)) s1) by done.
    rewrite (bind_Ok _ _ _ _ _ E2), (bind_Ok _ _ _ _ _ (get_inode_run s2 k x Hx)). cbn [x i_d]. rewrite Ea. cbn [di_type]. change (negb (T_DIR =? T_DIR)) with false. cbv iota. cbn [andb].
    replace (put_name garbage f.1) with (f.1 ++ 0 :: drop (S (length f.1)) garbage) by (unfold put_name; by rewrite (proj2 (Nat.leb_gt _ _))).
    rewrite (bind_Ok _ _ _ _ _ E4). rewrite (bind_Ok _ _ _ _ _ E5). destruct (length (f.1 ++ [0])); cbn [namex_loop]; rewrite skipelem_nil; done.
  - eapply on_image_step; [exact OI4|by split|by apply rep_icache, OI4].
  - cbn. rewrite list_lookup_insert_ne by done. apply list_lookup_insert_eq. by eapply lookup_lt_Some.
Qed.
End Open.

(** ** What mkfs guarantees *)

(** The inode of the image that the program writes with [winode]. *)
Definition img_inode (V : Z -> block) (inum : Z) : dinode := get_dinode (V (IBLOCK inum mk_sb)) (Z.to_nat (inum mod IPB)).

(** A kernel state for the geometry. *)
Lemma some_kernel : exists s, geo s /\ fsb s = mk_sb.
Proof. destruct example_exists as (s & V & X). exists s. split; [apply X|]. rewrite (ex_sb _ _ X). reflexivity. Qed.

Lemma mkfs_made rf args st0 : fits rf args -> exists s st, geo s /\ fsb s = mk_sb /\ mkfs rf args st0 = Ok (tt, st) /\ made s (m_img st) (file_of rf <$> args).
Proof.
  intros Hf. destruct some_kernel as (s & G & Hsb). destruct (mkfs_run s G Hsb rf args st0 Hf) as (st & V & E & HV & M). exists s, st. split; [exact G|]. split; [exact Hsb|]. split; [exact E|].
  by apply (made_move s s V).
Qed.

Lemma img_inode_eq s V inum : geo s -> fsb s = mk_sb -> 0 <= inum < 200 -> img_inode V inum = disk_inode s V inum.
Proof. intros G Hsb Hi. unfold img_inode, disk_inode. by destruct (mk_IBLOCK s G Hsb inum Hi) as [-> _]. Qed.

(** The blocks of the files are data blocks in use. *)
Lemma made_owned s V fl i b : fsb s = mk_sb -> made s V fl -> (i <= length fl)%nat -> b <> 0 -> owns V (disk_inode s V (dinum i)) b -> data_block s V b.
Proof.
  intros Hsb M Hi Hb Ho. assert (Hok : inode_ok s V (disk_inode s V (dinum i))).
  { destruct i as [|i]; [apply (md_root _ _ _ M)|]. destruct (lookup_lt_is_Some_2 fl i ltac:(lia)) as [f Hf]. apply (md_file _ _ _ M i f Hf). }
  destruct Ho as [<-|(bn & Hbn & <-)]; [by apply (io_ind _ _ _ Hok)|by apply (io_data _ _ _ Hok)].
Qed.

(** Claim C19. The image is consistent: with arguments that fit, mkfs ends
    without a failed assertion; a block is marked as used exactly when it is
    before the data blocks or belongs to a file, no block belongs to two
    files, and the inodes that were not given to a file are free. *)
Theorem mkfs_consistent rf args st0 : fits rf args -> let n := 1 + Z.of_nat (length args) in
  exists st, mkfs rf args st0 = Ok (tt, st) /\
    (forall b, 0 <= b < FSSIZE -> bit (m_img st (sb_bmapstart mk_sb)) b = true <-> b < nmeta \/ exists inum, 1 <= inum <= n /\ owns (m_img st) (img_inode (m_img st) inum) b) /\
    (forall i j, 1 <= i <= n -> 1 <= j <= n -> i <> j -> disjoint_files (m_img st) (img_inode (m_img st) i) (img_inode (m_img st) j)) /\
    (forall i, n < i < NINODES -> di_type (img_inode (m_img st) i) = 0).
Proof.
  intros Hf n. pose proof (ft_len _ _ Hf) as Hl. destruct (mkfs_made rf args st0 Hf) as (s & st & G & Hsb & E & M). set (V := m_img st) in *. set (fl := file_of rf <$> args) in *.
  assert (Hfl : length fl = length args) by apply length_fmap. assert (Hd : forall i, 1 <= i < 200 -> exists k, i = dinum k /\ (k = Z.to_nat (i - 1))%nat /\ img_inode V i = disk_inode s V (dinum k)).
  { intros i Hi. exists (Z.to_nat (i - 1)). assert (i = dinum (Z.to_nat (i - 1))) as <- by (unfold dinum; lia). split; [done|]. split; [done|]. apply img_inode_eq; [done|done|lia]. }
  exists st. split; [exact E|]. fold V. change (sb_bmapstart mk_sb) with 58. change nmeta with 59. change NINODES with 200. split_and!.
  - intros b Hb. pose proof (md_bits _ _ _ M b ltac:(lia)) as Hbit. rewrite Hbit, Z.ltb_lt. split.
    + intros Hlt. destruct (decide (b < 59)); [by left|right]. destruct (md_own _ _ _ M b ltac:(lia)) as (i & Hi & Ho). exists (dinum i). split; [unfold dinum; lia|].
      rewrite (img_inode_eq s); [exact Ho|done|done|unfold dinum; lia].
    + intros [Hlt|(inum & Hi & Ho)]; [pose proof (image_total [] fl) as H; change (total (image [])) with 1 in H; cbn [app] in H; lia|].
      destruct (Hd inum ltac:(lia)) as (k & -> & Ek & Er). rewrite Er in Ho. destruct (decide (b = 0)); [pose proof (image_total [] fl) as H; change (total (image [])) with 1 in H; cbn [app] in H; lia|].
      destruct (made_owned s V fl k b Hsb M ltac:(lia) ltac:(done) Ho) as [_ Hbt]. rewrite (mk_bmb s Hsb), Hbit in Hbt. by apply Z.ltb_lt.
  - intros i j Hi Hj Hne. destruct (Hd i ltac:(lia)) as (k & -> & Ek & ->), (Hd j ltac:(lia)) as (l & -> & El & ->). apply (md_disj _ _ _ M); [lia|lia|congruence].
  - intros i Hi. destruct (Hd i ltac:(lia)) as (k & -> & Ek & ->). apply (md_free _ _ _ M); [lia|lia].
Qed.

(** The last adjustment of the size of the root directory adds a block that
    is not there when the entries fill their blocks. *)
Theorem mkfs_root_hole rf args st0 : fits rf args -> Z.of_nat (2 + length args) mod 32 = 0 ->
  exists st bn, mkfs rf args st0 = Ok (tt, st) /\ let d := img_inode (m_img st) 1 in 0 <= bn /\ bn * BSIZE < di_size d /\ fblock (m_img st) d bn = 0.
Proof.
  intros Hf H32. pose proof (ft_len _ _ Hf) as Hl. destruct (mkfs_made rf args st0 Hf) as (s & st & G & Hsb & E & M). set (fl := file_of rf <$> args) in *.
  assert (Hfl : length fl = length args) by apply length_fmap. exists st, (nb (root_bytes fl)). split; [exact E|]. cbv zeta. rewrite (img_inode_eq s _ 1 G Hsb ltac:(lia)).
  destruct (md_root_fields _ _ _ M) as [a Ea]. pose proof (md_root _ _ _ M) as F. rewrite Ea. cbn [di_size]. rewrite <- Ea. pose proof (nb_covers (root_bytes fl)) as Hc.
  rewrite <- Hfl in H32, Hl. pose proof (root_full fl H32) as Hr. destruct (root_size_spec fl Hl) as [_ Hs]. assert (Hb : 0 <= nb (root_bytes fl) < MAXFILE) by (change MAXFILE with 140; lia).
  split; [lia|]. split; [unfold BSIZE; lia|]. apply dec_stable. intros Hz. apply (mf_alloc _ _ _ _ _ F) in Hz; [lia|done].
Qed.

Lemma strip_plain arg : 47 ∉ arg -> no_nul arg -> Forall plain (strip arg).
Proof.
  intros Hs Hn. assert (H : Forall plain arg). { apply Forall_forall. intros c Hc. split; [by eapply Forall_forall in Hn|]. intros ->. done. }
  unfold strip. repeat case_match; subst; try exact H. by apply Forall_cons in H as [_ H].
Qed.

(** Claim C13. What goes into mkfs comes out of the kernel: a kernel that
    starts on the image finds each of the files under its name in the root
    directory, and reading it gives the bytes of the file that mkfs was
    given, all of them, with no panic on the way.  The names must differ in
    their first 14 bytes, and the directory must not end at the end of a
    block, where mkfs leaves a hole. *)
Theorem mkfs_kernel_reads pid dv rf args i arg cwd garbage st0 sb0 : fits rf args -> NoDup (field <$> root_names (file_of rf <$> args)) ->
  Z.of_nat (2 + length args) mod 32 <> 0 -> args !! i = Some arg -> let name := (file_of rf arg).1 in let content := (file_of rf arg).2 in
  name <> [] -> (length name < DIRSIZ)%nat ->
  exists st s1 ip s2 s3 s4, mkfs rf args st0 = Ok (tt, st) /\ (iinit pid ROOTDEV;; in_log (initlog pid ROOTDEV)) (kernel0 (m_img st) sb0) = Ok (tt, s1) /\
    namei pid dv cwd garbage (SLASH :: name ++ [0]) s1 = Ok (Some ip, s2) /\ ilock pid ip s2 = Ok (tt, s3) /\
    readi pid dv ip 0 (Z.of_nat (length content)) s3 = Ok ((Z.of_nat (length content), content), s4).
Proof.
  intros Hf Hnd H32 Ha name content Hne Hlen. pose proof (ft_len _ _ Hf) as Hl. destruct (mkfs_made rf args st0 Hf) as (s & st & G & Hsb & E & M). set (fl := file_of rf <$> args) in *.
  destruct (boot_run pid (m_img st) sb0 (md_low _ _ _ M)) as (s1 & V & E1 & G1 & Hsb1 & Ic & Hd1 & R1 & HV).
  assert (OI : on_image pid s1 V fl) by (split; [exact G1|exact Hsb1|exact R1|exact Hd1|exact (made_move s s1 (m_img st) V fl Hsb Hsb1 HV M)]).
  assert (Hfl : length fl = length args) by apply length_fmap. rewrite <- Hfl in *. assert (Hi : fl !! i = Some (file_of rf arg)) by (unfold fl; by rewrite list_lookup_fmap, Ha).
  pose proof (Forall_lookup_1 _ _ _ _ (ft_args _ _ Hf) Ha) as (A1 & A2 & _ & A4).
  assert (Hnn : Forall (fun f => no_nul f.1) fl). { apply Forall_fmap, (Forall_impl _ _ _ (ft_args _ _ Hf)). intros x (_ & Hx & _). by apply strip_no_nul. }
  destruct (namei_run pid dv s1 V fl i _ cwd garbage OI Ic Hl H32 Hnd Hnn Hi) as (ip & s2 & x & E2 & OI2 & Hx & X1 & X2 & X3 & X4 & X5); [split; [done|by apply strip_plain]|done|].
  destruct (md_file _ _ _ (oi_made _ _ _ _ OI2) i _ Hi) as [F1 F2 [a Ea]]. pose proof (lookup_lt_Some _ _ _ Hi) as Hlt.
  destruct (ilock_load pid s2 V ip x (oi_geo _ _ _ _ OI2) (oi_rep _ _ _ _ OI2) Hx) as (s3 & E3 & R3 & S3 & Ic3); [lia|done|done|by rewrite (oi_dev _ _ _ _ OI2)|rewrite (oi_sb _ _ _ _ OI2); change (sb_ninodes mk_sb) with 200; unfold dinum in X2; lia|by rewrite X2, Ea|].
  pose proof (on_image_step _ _ _ _ _ OI2 S3 R3) as OI3. rewrite X1, X2, X3, <- (move_inode s2 s3 V V (oi_sb _ _ _ _ OI2) (oi_sb _ _ _ _ OI3)) in Ic3 by done.
  set (x3 := mkIn 1 (dinum (S i)) 1 (mkSl true pid) true (disk_inode s3 V (dinum (S i)))) in *. assert (Hx3 : icache s3 !! ip = Some x3) by (rewrite Ic3; apply list_lookup_insert_eq; by eapply lookup_lt_Some).
  assert (WF : wf_file pid s3 V [] ip x3) by (by apply (file_wf pid s3 V fl i (file_of rf arg))). destruct (md_file _ _ _ (oi_made _ _ _ _ OI3) i _ Hi) as [_ _ [a3 Ea3]].
  destruct (readi_wf pid dv s3 V [] ip x3 0 (Z.of_nat (length content)) WF) as (s4 & E4); [cbn [x3 i_d]; by rewrite Ea3|unfold NBUF; simpl; lia|lia|lia|cbn [x3 i_d]; rewrite Ea3; cbn [di_size]; unfold content; lia|].
  exists st, s1, ip, s2, s3, s4. split; [exact E|]. split; [exact E1|]. split; [exact E2|]. split; [exact E3|]. rewrite E4. do 3 f_equal. exact (file_bytes pid s3 V fl i (file_of rf arg) OI3 Hi A4).
Qed.

(** ** A concrete image: [_a] with the text hello, which [read] returns in
    two pieces. *)
Definition read1 (arg : list Z) : option (list (list Z)) :=
  if decide (arg = [95; 97]) then Some [[104; 101]; [108; 108; 111]] else None.

Lemma fits1 : fits read1 [[95; 97]].
Proof.
  split; [|simpl; lia|vm_compute; done]. constructor; [|constructor]. split_and!; [|by repeat constructor|by eexists|vm_compute; done].
  intros [H|[H|H%elem_of_nil]%elem_of_cons]%elem_of_cons; done.
Qed.

Lemma mkfs_consistent_witness : fits read1 [[95; 97]] /\ exists st, mkfs read1 [[95; 97]] (mkMk (fun _ => []) 0 0) = Ok (tt, st) /\
  forall i, 2 < i < NINODES -> di_type (img_inode (m_img st) i) = 0.
Proof.
  split; [exact fits1|]. destruct (mkfs_consistent read1 [[95; 97]] (mkMk (fun _ => []) 0 0) fits1) as (st & E & _ & _ & H). exists st. split; [exact E|exact H].
Defined.

Lemma mkfs_kernel_reads_witness : exists st s1 ip s2 s3 s4, mkfs read1 [[95; 97]] (mkMk (fun _ => []) 0 0) = Ok (tt, st) /\
  (iinit 7 ROOTDEV;; in_log (initlog 7 ROOTDEV)) (kernel0 (m_img st) sb1) = Ok (tt, s1) /\ namei 7 no_dev 0 [] [47; 97; 0] s1 = Ok (Some ip, s2) /\
  ilock 7 ip s2 = Ok (tt, s3) /\ readi 7 no_dev ip 0 5 s3 = Ok ((5, [104; 101; 108; 108; 111]), s4).
Proof.
  assert (Hnd : NoDup (field <$> root_names (file_of read1 <$> [[95; 97]]))) by (apply (bool_decide_unpack _); vm_compute; exact I).
  exact (mkfs_kernel_reads 7 no_dev read1 [[95; 97]] 0 [95; 97] 0 [] (mkMk (fun _ => []) 0 0) sb1 fits1 Hnd ltac:(done) eq_refl ltac:(done) ltac:(vm_compute; lia)).
Defined.
