(* ===== verification/Proc.v ===== *)
(** * Processes and threads: proc.c

    One definition per function of proc.c.  A critical section of
    [ptable.lock] is one run of the monad; the calls into the memory, file
    and inode layers go through [KernelSvc], which also reports the sleep
    channels those layers wake.  A function that sleeps is modelled from its
    entry, or from the return of [sleep], to the next [sleep] or [return]. *)

From stdpp Require Import prelude strings.
From S2P Require Import Prelude CString Console Spinlock ProcData Queue Kalloc.

Open Scope Z_scope.

(** ** Build configuration and constants *)

(** [make SCHEDULER=...] defines exactly one of the three macros. *)
Inductive policy : Type := RR | FCFS | MLFQ.

Record config : Type := {
  pol : policy;
  forkret_pc : Z;        (** the addresses of [forkret] and [trapret] *)
  trapret_pc : Z;
  initcode : list Z;     (** [_binary_initcode_start] *)
  kpgdir : Z             (** the scheduler's page table (vm.c) *)
}.

Definition mlfq (cfg : config) : bool := match pol cfg with MLFQ => true | _ => false end.

Definition NOFILE : nat := 16.
Definition KSTACKSIZE : Z := 4096.
Definition TF_SIZE : Z := 76.
Definition CTX_SIZE : Z := 20.
Definition DPL_USER : Z := 3.
Definition SEG_UCODE : Z := 3.
Definition SEG_UDATA : Z := 4.
Definition FL_IF : Z := 512.

(** ** The layers below

    [K] is the state of the memory allocator, page tables, file table, inode
    cache and log.  Operations that call [wakeup] return the channels. *)
Class KernelSvc (K : Type) : Type := {
  svc_kalloc : M K Z;
  svc_kfree : Z -> M K unit;
  svc_setupkvm : M K Z;
  svc_inituvm : Z -> list Z -> M K unit;
  svc_allocuvm : Z -> Z -> Z -> M K Z;
  svc_deallocuvm : Z -> Z -> Z -> M K Z;
  svc_copyuvm : Z -> Z -> M K Z;
  svc_freevm : Z -> M K unit;
  svc_store_user : Z -> Z -> Z -> M K unit;   (** page directory, address, word *)
  svc_filedup : nat -> M K nat;
  svc_fileclose : nat -> M K (list chan);
  svc_idup : nat -> M K nat;
  svc_iput : nat -> M K (list chan);
  svc_begin_op : M K unit;
  svc_end_op : M K (list chan);
  svc_namei : list Z -> M K (option nat)
}.

(** The kernel: the state [ptable.lock] protects, the layers below, the CPUs
    and the spin locks. *)
Record kst (K : Type) : Type := mkKst { pt : ptab; kk : K; lks : lockst }.
Arguments mkKst {K} _ _ _.
Arguments pt {K} _.
Arguments kk {K} _.
Arguments lks {K} _.

Section Proc.
(** [c] is the CPU that executes the code, [cfg] the build. *)
Context {K : Type} {KS : KernelSvc K} (cfg : config) (c : nat).

Definition on_pt {A} (m : M ptab A) : M (kst K) A := fun s =>
  match m (pt s) with
  | Ok (a, p') => Ok (a, mkKst p' (kk s) (lks s))
  | Panic e => Panic e
  | Fault => Fault
  end.

Definition on_k {A} (m : M K A) : M (kst K) A := fun s =>
  match m (kk s) with
  | Ok (a, k') => Ok (a, mkKst (pt s) k' (lks s))
  | Panic e => Panic e
  | Fault => Fault
  end.

Definition on_l {A} (m : M lockst A) : M (kst K) A := fun s =>
  match m (lks s) with
  | Ok (a, l') => Ok (a, mkKst (pt s) (kk s) l')
  | Panic e => Panic e
  | Fault => Fault
  end.

Definition proc_at (i : nat) : M (kst K) proc := on_pt (get_proc i).
Definition set_proc (i : nat) (f : proc -> proc) : M (kst K) unit := on_pt (upd_proc i f).
Definition when (b : bool) (m : M (kst K) unit) : M (kst K) unit := if b then m else mret tt.

Definition lock (lk : lockid) : M (kst K) unit := on_l (acquire c lk).
Definition unlock (lk : lockid) : M (kst K) unit := on_l (release c lk).

(** [acquire(&ptable.lock); body; release(&ptable.lock);] *)
Definition locked_section {A} (body : M (kst K) A) : M (kst K) A :=
  lock LkPtable;; r ← body; unlock LkPtable;; mret r.

Definition cprintf_k (fmt : string) (args : list carg) : M (kst K) unit :=
  out ← deref (cprintf (cfmt fmt) args);
  on_pt (modify (fun p => set_cons_out (cons_out p ++ out) p)).

(** ** Time accounting *)
Definition tick_one (p : proc) : proc :=
  let p := if decide (p_state p = RUNNING) then set_p_rtime (s32 (p_rtime p + 1)) p else p in
  if decide (p_state p = SLEEPING) then set_p_iotime (s32 (p_iotime p + 1)) p else p.

Definition ticking : M (kst K) unit :=
  for_each (seq 0 NPROC) (fun i => set_proc i tick_one).

Definition change_q_flag (p : nat) : M (kst K) unit :=
  locked_section (set_proc p (set_p_change_q 1)).

Definition incr_curr_ticks (p : nat) : M (kst K) unit :=
  locked_section (
    set_proc p (fun x => set_p_curr_ticks (s32 (p_curr_ticks x + 1)) x);;
    x ← proc_at p;
    n ← deref (nthZ (p_qticks x) (p_queue x));
    l ← deref (updZ (p_qticks x) (p_queue x) (s32 (n + 1)));
    set_proc p (set_p_qticks l)).

(** ** switchuvm, switchkvm (vm.c)

    The task state descriptor is the same for every process, apart from
    the kernel stack. *)
Definition switchuvm (p : nat) : M (kst K) unit :=
  x ← proc_at p;
  if p_kstack x =? 0 then panic "switchuvm: no kstack"
  else if p_pgdir x =? 0 then panic "switchuvm: no pgdir"
  else
    on_l (
      pushcli c;;
      m ← mycpu c;
      set_cpu m (set_c_esp0 (u32 (p_kstack x + KSTACKSIZE)));;
      set_cpu c (set_c_cr3 (V2P (p_pgdir x)));;
      popcli c).

Definition switchkvm : M (kst K) unit := on_l (set_cpu c (set_c_cr3 (V2P (kpgdir cfg)))).

(** ** allocproc *)
Definition find_state (st : procstate) (ps : list proc) : option nat :=
  fst <$> list_find (fun p => p_state p = st) ps.

(** The part of [allocproc] under [ptable.lock]. *)
Definition alloc_slot : M (kst K) (option nat) :=
  locked_section (
    s ← get;
    match find_state UNUSED (procs (pt s)) with
    | None => mret None
    | Some p =>
        set_proc p (set_p_state EMBRYO);;
        set_proc p (set_p_pid (nextpid (pt s)));;
        on_pt (modify (fun t => set_nextpid (s32 (nextpid t + 1)) t));;
        set_proc p (set_p_tgid (nexttgid (pt s)));;
        on_pt (modify (fun t => set_nexttgid (s32 (nexttgid t + 1)) t));;
        mret (Some p)
    end).

(** The rest, on the private slot [p]; [false] when there is no stack. *)
Definition init_slot (p : nat) : M (kst K) bool :=
  k ← on_k svc_kalloc;
  set_proc p (set_p_kstack k);;
  if k =? 0 then set_proc p (set_p_state UNUSED);; mret false
  else
    let sp := u32 (k + KSTACKSIZE - TF_SIZE) in
    set_proc p (set_p_tfp sp);;
    set_proc p (set_p_retpc (trapret_pc cfg));;
    set_proc p (set_p_ctxp (u32 (sp - 4 - CTX_SIZE)));;
    set_proc p (set_p_ctx (mkCtx 0 0 0 0 (forkret_pc cfg)));;
    t ← on_pt (gets ticks);
    set_proc p (fun x => set_p_priority 50 (set_p_num_run 0 (set_p_waitshh (-1282128)
      (set_p_iotime 0 (set_p_rtime 0 (set_p_etime 0 (set_p_ctime (s32 t) x)))))));;
    when (mlfq cfg) (set_proc p (fun x =>
      set_p_qticks (replicate 5 0) (set_p_enter 0 (set_p_queue 0 (set_p_curr_ticks 0 x)))));;
    mret true.

Definition allocproc : M (kst K) (option nat) :=
  o ← alloc_slot;
  match o with
  | None => mret None
  | Some p => b ← init_slot p; mret (if (b : bool) then Some p else None)
  end.

(** [safestrcpy(p->name, s, 16)] *)
Definition set_name (p : nat) (src : list Z) : M (kst K) unit :=
  x ← proc_at p;
  n ← deref (safestrcpy (p_name x) src 16);
  set_proc p (set_p_name n).

(** [p->state = RUNNABLE], and in an MLFQ build [add_proc_to_q(p, 0)]. *)
Definition publish (p : nat) : M (kst K) unit :=
  locked_section (
    set_proc p (set_p_state RUNNABLE);;
    when (mlfq cfg) (on_pt (add_proc_to_q p 0);; mret tt)).

Definition userinit : M (kst K) unit :=
  np ← allocproc;
  p ← deref np;
  on_pt (modify (set_initproc (Some p)));;
  d ← on_k svc_setupkvm;
  set_proc p (set_p_pgdir d);;
  if d =? 0 then panic "userinit: out of memory?"
  else
    on_k (svc_inituvm d (initcode cfg));;
    set_proc p (set_p_sz PGSIZE);;
    let ds := Z.lor (Z.shiftl SEG_UDATA 3) DPL_USER in
    set_proc p (set_p_tf (set_tf_eip 0 (set_tf_esp PGSIZE (set_tf_eflags FL_IF (set_tf_ss ds
      (set_tf_es ds (set_tf_ds ds (set_tf_cs (Z.lor (Z.shiftl SEG_UCODE 3) DPL_USER) zero_tf))))))));;
    set_name p (codes "initcode" ++ [0]);;
    r ← on_k (svc_namei (codes "/" ++ [0]));
    set_proc p (set_p_cwd r);;
    publish p.

(** ** growproc *)

(** The allocation, and [curproc->sz = sz]; [None] when there is no memory. *)
Definition grow_mem (cur : nat) (n : Z) : M (kst K) (option Z) :=
  cp ← proc_at cur;
  let sz := p_sz cp in
  sz' ← (if 0 <? n then on_k (svc_allocuvm (p_pgdir cp) sz (u32 (sz + n)))
         else if n <? 0 then on_k (svc_deallocuvm (p_pgdir cp) sz (u32 (sz + n)))
         else mret sz);
  if negb (n =? 0) && (sz' =? 0) then mret None
  else set_proc cur (set_p_sz sz');; mret (Some sz').

(** The new size for every slot with the same page table. *)
Definition grow_threads (cur : nat) (sz : Z) : M (kst K) unit :=
  locked_section (
    cp ← proc_at cur;
    for_each (seq 0 NPROC) (fun i =>
      x ← proc_at i;
      if negb (p_pgdir x =? p_pgdir cp) then mret tt
      else set_proc i (set_p_sz sz);; switchuvm i)).

Definition growproc (cur : nat) (n : Z) : M (kst K) Z :=
  o ← grow_mem cur n;
  match o with
  | None => mret (-1)
  | Some sz => grow_threads cur sz;; switchuvm cur;; mret 0
  end.

(** ** fork and clone *)

(** [for(i = 0; i < NOFILE; i++) if(curproc->ofile\[i\]) np->ofile\[i\] =
    filedup(curproc->ofile\[i\]); np->cwd = idup(curproc->cwd);] *)
Definition dup_files (cur np : nat) : M (kst K) unit :=
  for_each (seq 0 NOFILE) (fun i =>
    cp ← proc_at cur;
    o ← deref (p_ofile cp !! i);
    match o with
    | None => mret tt
    | Some f =>
        f' ← on_k (svc_filedup f);
        set_proc np (fun x => set_p_ofile (<[i := Some f']> (p_ofile x)) x)
    end);;
  cp ← proc_at cur;
  d ← deref (p_cwd cp);
  d' ← on_k (svc_idup d);
  set_proc np (set_p_cwd (Some d')).

(** [fork] on the new slot, up to the last critical section. *)
Definition fork_body (cur np : nat) : M (kst K) bool :=
  cp ← proc_at cur;
  d ← on_k (svc_copyuvm (p_pgdir cp) (p_sz cp));
  set_proc np (set_p_pgdir d);;
  if d =? 0 then
    x ← proc_at np;
    on_k (svc_kfree (p_kstack x));;
    set_proc np (set_p_kstack 0);;
    set_proc np (set_p_state UNUSED);;
    mret false
  else
    set_proc np (set_p_sz (p_sz cp));;
    set_proc np (set_p_parent (Some cur));;
    set_proc np (set_p_tf (p_tf cp));;
    set_proc np (fun x => set_p_tf (set_tf_eax 0 (p_tf x)) x);;
    dup_files cur np;;
    set_name np (p_name cp);;
    mret true.

Definition fork (cur : nat) : M (kst K) Z :=
  o ← allocproc;
  match o with
  | None => mret (-1)
  | Some np =>
      b ← fork_body cur np;
      if negb b then mret (-1)
      else x ← proc_at np; publish np;; mret (p_pid x)
  end.

Definition printinfo (np : nat) : M (kst K) Z :=
  p ← proc_at np;
  cprintf_k "PID : %d\n" [CInt (p_tgid p)];;
  cprintf_k "TID : %d\n" [CInt (p_pid p)];;
  cprintf_k "Page Directory Address: %p\n" [CInt (p_pgdir p)];;
  cprintf_k "Stack Pointer Value: %p\n" [CInt (tf_esp (p_tf p))];;
  cprintf_k "Start Function Address: %p\n" [CInt (p_function p)];;
  cprintf_k "Memory Size: %d bytes\n\n" [CInt (p_sz p)];;
  mret 0.

(** [clone] on the new slot, up to the last critical section. *)
Definition clone_body (cur np : nat) (function arg stack : Z) : M (kst K) unit :=
  cp ← proc_at cur;
  set_proc np (set_p_sz (p_sz cp));;
  set_proc np (set_p_pgdir (p_pgdir cp));;
  set_proc np (set_p_parent (Some cur));;
  set_proc np (set_p_tf (p_tf cp));;
  set_proc np (set_p_tgid (p_tgid cp));;
  set_proc np (set_p_function function);;
  on_k (svc_store_user (p_pgdir cp) (u32 (stack + PGSIZE - 4)) (u32 arg));;
  on_k (svc_store_user (p_pgdir cp) (u32 (stack + PGSIZE - 8)) 4294967295);;
  set_proc np (fun x => set_p_tf (set_tf_esp (u32 (stack + PGSIZE - 8)) (p_tf x)) x);;
  set_proc np (fun x => set_p_tf (set_tf_ebp (tf_esp (p_tf x)) (p_tf x)) x);;
  set_proc np (fun x => set_p_tf (set_tf_eip (u32 function) (p_tf x)) x);;
  set_proc np (set_p_tstack stack);;
  set_proc np (fun x => set_p_tf (set_tf_eax 0 (p_tf x)) x);;
  dup_files cur np;;
  set_name np (p_name cp).

Definition clone (cur : nat) (function arg stack : Z) : M (kst K) Z :=
  o ← allocproc;
  match o with
  | None => mret (-1)
  | Some np =>
      clone_body cur np function arg stack;;
      x ← proc_at np;
      publish np;;
      printinfo np;;
      mret (p_pid x)
  end.

(** ** wakeup and kill *)

(** [p->state = RUNNABLE], and in an MLFQ build [p->curr_ticks = 0;
    add_proc_to_q(p, p->queue)]. *)
Definition wake_proc (i : nat) : M (kst K) unit :=
  set_proc i (set_p_state RUNNABLE);;
  when (mlfq cfg) (
    set_proc i (set_p_curr_ticks 0);;
    x ← proc_at i;
    on_pt (add_proc_to_q i (p_queue x));;
    mret tt).

Definition wakeup1 (ch : chan) : M (kst K) unit :=
  for_each (seq 0 NPROC) (fun i =>
    x ← proc_at i;
    if decide (p_state x = SLEEPING /\ p_chan x = ch) then wake_proc i else mret tt).

Definition wakeup (ch : chan) : M (kst K) unit := locked_section (wakeup1 ch).

(** The wakeups a lower layer performed. *)
Definition wake_all (l : list chan) : M (kst K) unit := for_each l wakeup.

Definition kill (pid : Z) : M (kst K) Z :=
  locked_section (
    r ← for_until (seq 0 NPROC) (fun i =>
      x ← proc_at i;
      if p_pid x =? pid then
        set_proc i (set_p_killed 1);;
        (if decide (p_state x = SLEEPING) then wake_proc i else mret tt);;
        mret (Some 0)
      else mret None);
    mret (match r with Some v => v | None => -1 end)).

(** ** Giving up the CPU

    [sched] up to [swtch]: the result is the local variable [intena], which
    [sched_return] restores when the process is switched to again. *)
Definition sched (cur : nat) : M (kst K) bool :=
  h ← on_l (holding c LkPtable);
  if negb h then panic "sched ptable.lock"
  else
    m ← on_l (mycpu c);
    y ← on_l (cpu_at m);
    if negb (c_ncli y =? 1) then panic "sched locks"
    else
      p ← proc_at cur;
      if decide (p_state p = RUNNING) then panic "sched running"
      else
        i ← on_l (readeflags_if c);
        if (i : bool) then panic "sched interruptible"
        else mret (c_intena y).

Definition sched_return (intena : bool) : M (kst K) unit :=
  m ← on_l (mycpu c); on_l (set_cpu m (set_c_intena intena)).

Definition yield (cur : nat) : M (kst K) bool :=
  lock LkPtable;; set_proc cur (set_p_state RUNNABLE);; sched cur.

Definition yield_return (intena : bool) : M (kst K) unit :=
  sched_return intena;; unlock LkPtable.

(** [forkret]'s first statement; its first call also runs [iinit] and
    [initlog] (fs.c, log.c). *)
Definition forkret : M (kst K) unit := unlock LkPtable.

Definition sleep (cur : nat) (ch : chan) (lk : lockid) : M (kst K) bool :=
  (if decide (lk = LkPtable) then mret tt else lock LkPtable;; unlock lk);;
  set_proc cur (set_p_chan ch);;
  set_proc cur (set_p_state SLEEPING);;
  sched cur.

(** [sleep] from the return of [sched], up to [acquire(lk)]. *)
Definition sleep_return (cur : nat) (intena : bool) (lk : lockid) : M (kst K) unit :=
  sched_return intena;;
  set_proc cur (set_p_chan ChanNull);;
  if decide (lk = LkPtable) then mret tt else unlock LkPtable.

(** ** exit

    The three parts run at different times: closing files and the current
    directory outside [ptable.lock], and the last one inside it. *)
Definition close_file (cur fd : nat) : M (kst K) (option (list chan)) :=
  cp ← proc_at cur;
  o ← deref (p_ofile cp !! fd);
  match o with
  | None => mret None
  | Some f => w ← on_k (svc_fileclose f); mret (Some w)
  end.

Definition clear_file (cur fd : nat) : M (kst K) unit :=
  set_proc cur (fun x => set_p_ofile (<[fd := None]> (p_ofile x)) x).

Definition exit_check (cur : nat) : M (kst K) unit :=
  s ← get;
  if decide (initproc (pt s) = Some cur) then panic "init exiting" else mret tt.

Definition exit_files (cur : nat) : M (kst K) unit :=
  exit_check cur;;
  for_each (seq 0 NOFILE) (fun fd =>
    o ← close_file cur fd;
    match o with
    | None => mret tt
    | Some w => wake_all w;; clear_file cur fd
    end).

Definition put_cwd (cur : nat) : M (kst K) (list chan) :=
  cp ← proc_at cur; d ← deref (p_cwd cp); on_k (svc_iput d).

Definition exit_cwd (cur : nat) : M (kst K) unit :=
  on_k svc_begin_op;;
  w1 ← put_cwd cur;
  wake_all w1;;
  w2 ← on_k svc_end_op;
  wake_all w2;;
  set_proc cur (set_p_cwd None).

(** [&ptable.proc\[i\]] as a channel; a null parent is address 0. *)
Definition chan_of (o : option nat) : chan :=
  match o with Some i => ChanProc i | None => ChanNull end.

Definition exit_zombie (cur : nat) : M (kst K) bool :=
  lock LkPtable;;
  cp ← proc_at cur;
  wakeup1 (chan_of (p_parent cp));;
  for_each (seq 0 NPROC) (fun i =>
    x ← proc_at i;
    if decide (p_parent x = Some cur) then
      ip ← on_pt (gets initproc);
      set_proc i (set_p_parent ip);;
      if decide (p_state x = ZOMBIE) then wakeup1 (chan_of ip) else mret tt
    else mret tt);;
  set_proc cur (set_p_state ZOMBIE);;
  t ← on_pt (gets ticks);
  set_proc cur (set_p_etime (s32 t));;
  set_proc cur (fun x => set_p_waitshh (s32 (p_etime x - p_ctime x)) x);;
  x ← proc_at cur;
  cprintf_k "[Terminate] --> Total Time for pid [%d] is [%d]\n"
    [CInt (p_pid x); CInt (s32 (p_etime x - p_ctime x))];;
  sched cur.

Definition exit (cur : nat) : M (kst K) bool :=
  exit_files cur;; exit_cwd cur;; exit_zombie cur.

(** ** wait, waitx, join *)
Inductive wait_end : Type :=
| WaitDone (pid : Z)
| WaitError
| WaitSleep.

(** In an MLFQ build: [remove_proc_from_q(p, p->queue); p->queue = -1]. *)
Definition leave_queue (i : nat) : M (kst K) unit :=
  when (mlfq cfg) (
    x ← proc_at i;
    on_pt (remove_proc_from_q i (p_queue x));;
    set_proc i (set_p_queue (-1))).

(** [p->parent = 0; p->name\[0\] = 0; p->killed = 0; p->state = UNUSED] *)
Definition clear_slot (x : proc) : proc :=
  set_p_state UNUSED (set_p_killed 0 (set_p_name (<[0%nat := 0]> (p_name x)) (set_p_parent None x))).

Definition wait_reap (i : nat) : M (kst K) Z :=
  x ← proc_at i;
  on_k (svc_kfree (p_kstack x));;
  set_proc i (set_p_kstack 0);;
  on_k (svc_freevm (p_pgdir x));;
  leave_queue i;;
  set_proc i (fun y => clear_slot (set_p_tgid 0 (set_p_pid 0 y)));;
  mret (p_pid x).

(** The test of [wait]'s scan: [p->parent == curproc || p->pgdir ==
    curproc->pgdir]. *)
Definition wait_kid (cur : nat) (cp x : proc) : bool :=
  bool_decide (p_parent x = Some cur) || (p_pgdir x =? p_pgdir cp).

(** One pass of the [for(;;)] loop shared by the three calls, with
    [ptable.lock] held: [kid] selects the candidates, [reap] disposes of the
    first ZOMBIE among them.  The lock is released unless the caller is to
    sleep. *)
Definition wait_pass (cur : nat) (kid : proc -> proc -> bool) (reap : nat -> M (kst K) Z)
    : M (kst K) wait_end :=
  cp ← proc_at cur;
  s ← get;
  r ← for_until (seq 0 NPROC) (fun i =>
    x ← proc_at i;
    if negb (kid cp x) then mret None
    else if decide (p_state x = ZOMBIE) then v ← reap i; mret (Some v)
    else mret None);
  match r with
  | Some pid => unlock LkPtable;; mret (WaitDone pid)
  | None =>
      if negb (existsb (kid cp) (procs (pt s))) || negb (p_killed cp =? 0)
      then unlock LkPtable;; mret WaitError
      else mret WaitSleep
  end.

(** [waitx] selects by parent only, stores the two times through the
    caller's page table and leaves [tgid]. *)
Definition waitx_reap (cur : nat) (wtime rtime : Z) (i : nat) : M (kst K) Z :=
  cp ← proc_at cur;
  x ← proc_at i;
  on_k (svc_store_user (p_pgdir cp) rtime (u32 (p_rtime x)));;
  on_k (svc_store_user (p_pgdir cp) wtime (u32 (p_etime x - p_ctime x - p_rtime x - p_iotime x)));;
  on_k (svc_kfree (p_kstack x));;
  set_proc i (set_p_kstack 0);;
  on_k (svc_freevm (p_pgdir x));;
  leave_queue i;;
  set_proc i (fun y => clear_slot (set_p_pid 0 y));;
  mret (p_pid x).

Definition waitx_kid (cur : nat) (cp x : proc) : bool := bool_decide (p_parent x = Some cur).

(** [join] stores the thread's stack through the caller's page table and
    leaves the address space, the level and [tgid] of the slot. *)
Definition join_reap (cur : nat) (stackp : Z) (i : nat) : M (kst K) Z :=
  cp ← proc_at cur;
  x ← proc_at i;
  on_k (svc_kfree (p_kstack x));;
  set_proc i (set_p_kstack 0);;
  on_k (svc_store_user (p_pgdir cp) stackp (p_tstack x));;
  set_proc i (set_p_tstack 0);;
  set_proc i (fun y => clear_slot (set_p_pid 0 y));;
  mret (p_pid x).

Definition join_kid (cur : nat) (tid : Z) (cp x : proc) : bool :=
  bool_decide (p_parent x = Some cur) && (p_pgdir x =? p_pgdir cp) && (p_pid x =? tid).

(** The calls that wait for a child, by their arguments. *)
Inductive wait_call : Type :=
| CallWait
| CallWaitx (wtime rtime : Z)
| CallJoin (tid stackp : Z).

Definition call_pass (cur : nat) (w : wait_call) : M (kst K) wait_end :=
  match w with
  | CallWait => wait_pass cur (wait_kid cur) wait_reap
  | CallWaitx wtime rtime => wait_pass cur (waitx_kid cur) (waitx_reap cur wtime rtime)
  | CallJoin tid stackp => wait_pass cur (join_kid cur tid) (join_reap cur stackp)
  end.

(** The pass followed by [sleep(curproc, &ptable.lock)] up to [swtch];
    [inr] is the saved [intena]. *)
Definition wait_loop (cur : nat) (w : wait_call) : M (kst K) (wait_end + bool) :=
  e ← call_pass cur w;
  match e with
  | WaitSleep => i ← sleep cur (ChanProc cur) LkPtable; mret (inr i)
  | _ => mret (inl e)
  end.

Definition wait (cur : nat) : M (kst K) (wait_end + bool) :=
  lock LkPtable;; wait_loop cur CallWait.
Definition waitx (cur : nat) (wtime rtime : Z) : M (kst K) (wait_end + bool) :=
  lock LkPtable;; wait_loop cur (CallWaitx wtime rtime).
Definition join (cur : nat) (tid stackp : Z) : M (kst K) (wait_end + bool) :=
  lock LkPtable;; wait_loop cur (CallJoin tid stackp).

(** The next pass, when [sleep] returns. *)
Definition wait_resume (cur : nat) (intena : bool) (w : wait_call) : M (kst K) (wait_end + bool) :=
  sleep_return cur intena LkPtable;; wait_loop cur w.
End Proc.
