(* ===== verification/Kernel.v ===== *)
(** * The kernel put together; system call arguments (syscall.c)

    [kernel_svc] gives the process table the memory and file layers it
    needs.  User memory is reached through the page table of the calling
    process. *)

From stdpp Require Import prelude strings.
From S2P Require Import Prelude CString Console Spinlock ProcData Kalloc Vm Pipe Bio Log Fs Dir File Proc.

Open Scope Z_scope.

Definition set_k_pid (p : Z) (s : kfs) : kfs := mkKfs (k_mem s) (k_fs s) (k_ft s) (k_pipes s) p (k_woken s).
Definition take_woken : M kfs (list chan) :=
  s ← get; put (mkKfs (k_mem s) (k_fs s) (k_ft s) (k_pipes s) (k_pid s) []);; mret (k_woken s).

(** The symbols [end] and [data] of the linker, and the devices. *)
Record machine : Type := mkMachine { m_end : Z; m_data : Z; m_dev : devsw }.

(** [userinit] looks up the absolute path ["/"] only. *)
Definition kernel_svc (mc : machine) : KernelSvc kfs := {|
  svc_kalloc := on_mem kalloc;
  svc_kfree := fun p => on_mem (kfree (m_end mc) p);
  svc_setupkvm := on_mem (setupkvm (m_end mc) (m_data mc));
  svc_inituvm := fun d l => on_mem (inituvm d l);
  svc_allocuvm := fun d o n => on_mem (allocuvm (m_end mc) d o n);
  svc_deallocuvm := fun d o n => on_mem (deallocuvm (m_end mc) d o n);
  svc_copyuvm := fun d sz => on_mem (copyuvm (m_end mc) (m_data mc) d sz);
  svc_freevm := fun d => on_mem (freevm (m_end mc) d);
  svc_store_user := fun d a w => on_mem (store_user d a w);
  svc_filedup := filedup;
  svc_fileclose := fun f => fileclose (m_end mc) f;; take_woken;
  svc_idup := fun ip => on_fs (fun _ => idup ip);
  svc_iput := fun ip => on_fs (fun pid => iput pid ip);; take_woken;
  svc_begin_op := begin_op_;
  svc_end_op := end_op_;; take_woken;
  svc_namei := fun path => on_fs (fun pid => namei pid (m_dev mc) 0 (replicate DIRSIZ 0) path)
|}.

(** ** User memory *)

(** A load by the kernel: the page has to be present. *)
Definition hw_read (m : mem) (pgdir va : Z) : option Z :=
  let e := load32 m (pgdir + 4 * PDX va) in
  if presentb e then
    let p := load32 m (P2V (PTE_ADDR e) + 4 * PTX va) in
    if presentb p then Some (m (P2V (PTE_ADDR p) + va mod PGSIZE)) else None
  else None.

Definition load_user8 (pgdir va : Z) : M kmem Z := m ← gets pmem; deref (hw_read m pgdir va).

Definition load_user (pgdir va : Z) : M kmem Z :=
  b0 ← load_user8 pgdir va; b1 ← load_user8 pgdir (u32 (va + 1));
  b2 ← load_user8 pgdir (u32 (va + 2)); b3 ← load_user8 pgdir (u32 (va + 3));
  mret (b0 + 256 * (b1 + 256 * (b2 + 256 * b3))).

Fixpoint load_bytes (pgdir va : Z) (n : nat) : M kmem (list Z) :=
  match n with
  | O => mret []
  | S n' => b ← load_user8 pgdir va; l ← load_bytes pgdir (u32 (va + 1)) n'; mret (b :: l)
  end.

Fixpoint store_bytes_user (pgdir va : Z) (l : list Z) : M kmem unit :=
  match l with
  | [] => mret tt
  | b :: l' => store_user8 pgdir va b;; store_bytes_user pgdir (u32 (va + 1)) l'
  end.

Section Args.
Context (cfg : config) (c : nat).

Notation KM := (M (kst kfs)).

(** A call into the lower layers for process [cur], with its wakeups. *)
Definition call {A} (cur : nat) (m : M kfs A) : KM A :=
  x ← proc_at cur;
  on_k (modify (set_k_pid (p_pid x)));;
  a ← on_k m;
  cs ← on_k take_woken;
  wake_all cfg c cs;;
  mret a.

(** The caller's memory. *)
Definition in_user {A} (cur : nat) (f : Z -> M kmem A) : KM A :=
  x ← proc_at cur; on_k (on_mem (f (p_pgdir x))).

(** ** Arguments: [None] stands for a negative result *)
Definition fetchint (cur : nat) (addr : Z) : KM (option Z) :=
  p ← proc_at cur;
  if (p_sz p <=? addr) || (p_sz p <? u32 (addr + 4)) then mret None
  else w ← in_user cur (fun d => load_user d addr); mret (Some (s32 w)).

(** The loop of [fetchstr] from [s] to [ep]: the bytes up to the NUL. *)
Fixpoint fetchstr_loop (n : nat) (pgdir s : Z) : M kmem (option (list Z)) :=
  match n with
  | O => mret None
  | S n' =>
      b ← load_user8 pgdir s;
      if b =? 0 then mret (Some [])
      else r ← fetchstr_loop n' pgdir (s + 1); mret (cons b <$> r)
  end.

(** The string found, without its NUL: the result is its length. *)
Definition fetchstr (cur : nat) (addr : Z) : KM (option (list Z)) :=
  p ← proc_at cur;
  if p_sz p <=? addr then mret None
  else in_user cur (fun d => fetchstr_loop (Z.to_nat (p_sz p - addr)) d addr).

Definition argint (cur : nat) (n : Z) : KM (option Z) :=
  p ← proc_at cur; fetchint cur (u32 (tf_esp (p_tf p) + 4 + 4 * n)).

(** The pointer, as an unsigned address. *)
Definition argptr (cur : nat) (n size : Z) : KM (option Z) :=
  o ← argint cur n;
  match o with
  | None => mret None
  | Some i =>
      p ← proc_at cur;
      if (size <? 0) || (p_sz p <=? u32 i) || (p_sz p <? u32 (u32 i + size)) then mret None
      else mret (Some (u32 i))
  end.

(** With the NUL, as the kernel reads it from there. *)
Definition argstr (cur : nat) (n : Z) : KM (option (list Z)) :=
  o ← argint cur n;
  match o with
  | None => mret None
  | Some addr => r ← fetchstr cur (u32 addr); mret ((fun s => s ++ [0]) <$> r)
  end.
End Args.
