(* ===== verification/Sysfile.v ===== *)
(** * File system calls (sysfile.c)

    [cur] is the calling process.  A call that ends asleep in a pipe reports
    the channel. *)

From stdpp Require Import prelude strings.
From S2P Require Import Prelude CString Console Spinlock ProcData Kalloc Vm Pipe Bio Log Fs Dir File Proc Kernel.

Open Scope Z_scope.

Definition O_RDONLY : Z := 0.
Definition O_WRONLY : Z := 1.
Definition O_RDWR : Z := 2.
Definition O_CREATE : Z := 512.
Definition MAXARG : nat := 32.

(** ["."] and [".."] *)
Definition DOT : list Z := [46; 0].
Definition DOTDOT : list Z := [46; 46; 0].

(** How a system call ends: it returns, or the process sleeps in it, or the
    process has exited ([intena] as [sched] saved it). *)
Inductive sys_end : Type :=
| SysRet (r : Z)
| SysSleep (ch : chan)
| SysGone (intena : bool).

Section Sysfile.
(** [garbage] is what the uninitialised array [name] holds. *)
Context (cfg : config) (c : nat) (mc : machine) (garbage : list Z).

Notation KM := (M (kst kfs)).

(** A file system call by [cur]. *)
Definition fs {A} (cur : nat) (m : Z -> M fsst A) : KM A := call cfg c cur (on_fs m).

Definition begin (cur : nat) : KM unit := call cfg c cur begin_op_.
Definition finish (cur : nat) : KM unit := call cfg c cur end_op_.
(** [end_op(); return -1;] *)
Definition fail_op (cur : nat) : KM Z := finish cur;; mret (-1).

Definition inode_at (ip : nat) : KM inode := on_k (on_fs (fun _ => get_inode ip)).

Definition namei_ (cur : nat) (path : list Z) : KM (option nat) :=
  p ← proc_at cur; d ← deref (p_cwd p);
  fs cur (fun pid => namei pid (m_dev mc) d garbage path).
Definition nameiparent_ (cur : nat) (path : list Z) : KM (option (nat * list Z)) :=
  p ← proc_at cur; d ← deref (p_cwd p);
  fs cur (fun pid => nameiparent pid (m_dev mc) d path garbage).

(** ** Descriptors *)

(** The descriptor and the file. *)
Definition argfd (cur : nat) (n : Z) : KM (option (nat * nat)) :=
  o ← argint cur n;
  match o with
  | None => mret None
  | Some fd =>
      if (fd <? 0) || (Z.of_nat NOFILE <=? fd) then mret None
      else
        p ← proc_at cur;
        f ← deref (p_ofile p !! Z.to_nat fd);
        mret ((fun f => (Z.to_nat fd, f)) <$> f)
  end.

Fixpoint free_fd (l : list (option nat)) (fd : nat) : option nat :=
  match l with
  | [] => None
  | None :: _ => Some fd
  | Some _ :: l' => free_fd l' (S fd)
  end.

Definition set_fd (cur fd : nat) (f : option nat) : KM unit :=
  set_proc cur (fun x => set_p_ofile (<[fd := f]> (p_ofile x)) x).

Definition fdalloc (cur f : nat) : KM (option nat) :=
  p ← proc_at cur;
  match free_fd (take NOFILE (p_ofile p)) 0 with
  | Some fd => set_fd cur fd (Some f);; mret (Some fd)
  | None => mret None
  end.

Definition sys_dup (cur : nat) : KM Z :=
  o ← argfd cur 0;
  match o with
  | None => mret (-1)
  | Some (_, f) =>
      r ← fdalloc cur f;
      match r with
      | None => mret (-1)
      | Some fd => call cfg c cur (filedup f);; mret (Z.of_nat fd)
      end
  end.

(** The arguments of [read] and [write]: file, buffer, length. *)
Definition rw_args (cur : nat) : KM (option (nat * Z * Z)) :=
  o ← argfd cur 0;
  match o with
  | None => mret None
  | Some (_, f) =>
      on ← argint cur 2;
      match on with
      | None => mret None
      | Some n => op ← argptr cur 1 n; mret ((fun p => (f, p, n)) <$> op)
      end
  end.

Definition io_result (e : io_end) : sys_end :=
  match e with Return r => SysRet r | Sleep ch => SysSleep ch end.

Definition is_killed (cur : nat) : KM bool := p ← proc_at cur; mret (negb (p_killed p =? 0)).

Definition sys_read (cur : nat) : KM sys_end :=
  a ← rw_args cur;
  match a with
  | None => mret (SysRet (-1))
  | Some (f, p, n) =>
      k ← is_killed cur;
      r ← call cfg c cur (fileread (m_dev mc) k f n);
      in_user cur (fun d => store_bytes_user d p r.2);;
      mret (io_result r.1)
  end.

Definition sys_write (cur : nat) : KM sys_end :=
  a ← rw_args cur;
  match a with
  | None => mret (SysRet (-1))
  | Some (f, p, n) =>
      k ← is_killed cur;
      src ← in_user cur (fun d => load_bytes d p (Z.to_nat n));
      r ← call cfg c cur (filewrite (m_dev mc) k f src n);
      mret (io_result r.1)
  end.

Definition sys_close (cur : nat) : KM Z :=
  o ← argfd cur 0;
  match o with
  | None => mret (-1)
  | Some (fd, f) => set_fd cur fd None;; call cfg c cur (fileclose (m_end mc) f);; mret 0
  end.

(** [struct stat] in memory: type, padding, dev, ino, nlink, padding, size. *)
Definition word_bytes (w : Z) : list Z := [w mod 256; Z.shiftr w 8 mod 256; Z.shiftr w 16 mod 256; Z.shiftr w 24 mod 256].
Definition half_bytes (w : Z) : list Z := [w mod 256; Z.shiftr w 8 mod 256].
Definition STATSIZE : Z := 20.

Definition store_stat (d p : Z) (st : stat) : M kmem unit :=
  store_bytes_user d p (half_bytes (st_type st));;
  store_bytes_user d (u32 (p + 4)) (word_bytes (st_dev st) ++ word_bytes (st_ino st) ++ half_bytes (st_nlink st));;
  store_bytes_user d (u32 (p + 16)) (word_bytes (st_size st)).

Definition sys_fstat (cur : nat) : KM Z :=
  o ← argfd cur 0;
  match o with
  | None => mret (-1)
  | Some (_, f) =>
      op ← argptr cur 1 STATSIZE;
      match op with
      | None => mret (-1)
      | Some p =>
          r ← call cfg c cur (filestat f);
          match r with
          | Some st => in_user cur (fun d => store_stat d p st);; mret 0
          | None => mret (-1)
          end
      end
  end.

(** ** Links *)

(** [bad:] of [sys_link] *)
Definition link_undo (cur ip : nat) : KM Z :=
  fs cur (fun pid => ilock pid ip);;
  fs cur (fun pid => upd_di ip (fun d => set_di_nlink (s16 (di_nlink d - 1)) d));;
  fs cur (fun pid => iupdate pid ip);;
  fs cur (fun pid => iunlockput pid ip);;
  fail_op cur.

Definition dirlink_ (cur dp : nat) (name : list Z) (inum : Z) : KM Z :=
  fs cur (fun pid => dirlink pid (m_dev mc) garbage dp name inum).

(** [sys_link] on an inode found for [old], up to its new link count. *)
Definition link_count (cur ip : nat) : KM bool :=
  fs cur (fun pid => ilock pid ip);;
  x ← inode_at ip;
  if di_type (i_d x) =? T_DIR then fs cur (fun pid => iunlockput pid ip);; mret false
  else
    fs cur (fun pid => upd_di ip (fun d => set_di_nlink (s16 (di_nlink d + 1)) d));;
    fs cur (fun pid => iupdate pid ip);;
    fs cur (fun pid => iunlock pid ip);;
    mret true.

Definition sys_link (cur : nat) : KM Z :=
  oold ← argstr cur 0;
  onew ← (match oold with None => mret None | Some _ => argstr cur 1 end);
  match oold, onew with
  | Some old, Some new =>
      begin cur;;
      oip ← namei_ cur old;
      match oip with
      | None => fail_op cur
      | Some ip =>
          ok ← link_count cur ip;
          if negb ok then fail_op cur
          else
            odp ← nameiparent_ cur new;
            match odp with
            | None => link_undo cur ip
            | Some (dp, name) =>
                fs cur (fun pid => ilock pid dp);;
                x ← inode_at ip;
                y ← inode_at dp;
                r ← (if negb (i_dev y =? i_dev x) then mret (-1) else dirlink_ cur dp name (i_inum x));
                fs cur (fun pid => iunlockput pid dp);;
                if r <? 0 then link_undo cur ip
                else fs cur (fun pid => iput pid ip);; finish cur;; mret 0
            end
      end
  | _, _ => mret (-1)
  end.

Definition isdirempty (cur dp : nat) : KM bool :=
  x ← inode_at dp;
  r ← fs cur (fun pid => for_until (drop 2 (multiples DESIZE (di_size (i_d x)))) (fun off =>
    de ← read_dirent pid (m_dev mc) dp off "isdirempty: readi";
    mret (if de_inum de =? 0 then None else Some tt)));
  mret (match r with None => true | Some _ => false end).

(** [bad:] of [sys_unlink] *)
Definition unlink_bad (cur dp : nat) : KM Z := fs cur (fun pid => iunlockput pid dp);; fail_op cur.

(** The entry at [off] of [dp], which names [ip]; both are locked. *)
Definition unlink_entry (cur dp ip : nat) (off : Z) : KM Z :=
  w ← fs cur (fun pid => writei pid (m_dev mc) dp (replicate (Z.to_nat DESIZE) 0) off DESIZE);
  if negb (w =? DESIZE) then panic "unlink: writei"
  else
    x ← inode_at ip;
    (if di_type (i_d x) =? T_DIR then
       fs cur (fun pid => upd_di dp (fun d => set_di_nlink (s16 (di_nlink d - 1)) d));;
       fs cur (fun pid => iupdate pid dp)
     else mret tt);;
    fs cur (fun pid => iunlockput pid dp);;
    fs cur (fun pid => upd_di ip (fun d => set_di_nlink (s16 (di_nlink d - 1)) d));;
    fs cur (fun pid => iupdate pid ip);;
    fs cur (fun pid => iunlockput pid ip);;
    finish cur;; mret 0.

Definition sys_unlink (cur : nat) : KM Z :=
  opath ← argstr cur 0;
  match opath with
  | None => mret (-1)
  | Some path =>
      begin cur;;
      odp ← nameiparent_ cur path;
      match odp with
      | None => fail_op cur
      | Some (dp, name) =>
          fs cur (fun pid => ilock pid dp);;
          c1 ← fs cur (fun _ => namecmp name DOT);
          c2 ← (if c1 =? 0 then mret 0 else fs cur (fun _ => namecmp name DOTDOT));
          if c2 =? 0 then unlink_bad cur dp
          else
            r ← fs cur (fun pid => dirlookup pid (m_dev mc) dp name);
            match r with
            | None => unlink_bad cur dp
            | Some (ip, off) =>
                fs cur (fun pid => ilock pid ip);;
                x ← inode_at ip;
                if di_nlink (i_d x) <? 1 then panic "unlink: nlink < 1"
                else
                  e ← (if di_type (i_d x) =? T_DIR then isdirempty cur ip else mret true);
                  if negb e then fs cur (fun pid => iunlockput pid ip);; unlink_bad cur dp
                  else unlink_entry cur dp ip off
            end
      end
  end.

(** ** Creating files *)

(** The new inode [ip] of [create], in directory [dp]; both are locked. *)
Definition create_entry (cur dp ip : nat) (name : list Z) (type major minor : Z) : KM unit :=
  fs cur (fun pid => upd_di ip (fun d => set_di_nlink 1 (set_di_dev major minor d)));;
  fs cur (fun pid => iupdate pid ip);;
  x ← inode_at ip;
  y ← inode_at dp;
  (if type =? T_DIR then
     fs cur (fun pid => upd_di dp (fun d => set_di_nlink (s16 (di_nlink d + 1)) d));;
     fs cur (fun pid => iupdate pid dp);;
     r ← dirlink_ cur ip DOT (i_inum x);
     r' ← (if r <? 0 then mret r else dirlink_ cur ip DOTDOT (i_inum y));
     if r' <? 0 then panic "create dots" else mret tt
   else mret tt);;
  r ← dirlink_ cur dp name (i_inum x);
  if r <? 0 then panic "create: dirlink" else fs cur (fun pid => iunlockput pid dp).

Definition create (cur : nat) (path : list Z) (type major minor : Z) : KM (option nat) :=
  odp ← nameiparent_ cur path;
  match odp with
  | None => mret None
  | Some (dp, name) =>
      fs cur (fun pid => ilock pid dp);;
      r ← fs cur (fun pid => dirlookup pid (m_dev mc) dp name);
      match r with
      | Some (ip, _) =>
          fs cur (fun pid => iunlockput pid dp);;
          fs cur (fun pid => ilock pid ip);;
          x ← inode_at ip;
          if (type =? T_FILE) && (di_type (i_d x) =? T_FILE) then mret (Some ip)
          else fs cur (fun pid => iunlockput pid ip);; mret None
      | None =>
          y ← inode_at dp;
          ip ← fs cur (fun pid => ialloc pid (i_dev y) type);
          fs cur (fun pid => ilock pid ip);;
          create_entry cur dp ip name type major minor;;
          mret (Some ip)
      end
  end.

(** The inode [sys_open] works on, locked; [None] after [end_op]. *)
Definition open_inode (cur : nat) (path : list Z) (omode : Z) : KM (option nat) :=
  if negb (Z.land omode O_CREATE =? 0) then
    o ← create cur path T_FILE 0 0;
    match o with Some ip => mret (Some ip) | None => finish cur;; mret None end
  else
    o ← namei_ cur path;
    match o with
    | None => finish cur;; mret None
    | Some ip =>
        fs cur (fun pid => ilock pid ip);;
        x ← inode_at ip;
        if (di_type (i_d x) =? T_DIR) && negb (omode =? O_RDONLY) then
          fs cur (fun pid => iunlockput pid ip);; finish cur;; mret None
        else mret (Some ip)
    end.

Definition sys_open (cur : nat) : KM Z :=
  opath ← argstr cur 0;
  omode ← (match opath with None => mret None | Some _ => argint cur 1 end);
  match opath, omode with
  | Some path, Some omode =>
      begin cur;;
      oip ← open_inode cur path omode;
      match oip with
      | None => mret (-1)
      | Some ip =>
          ofl ← call cfg c cur filealloc;
          ofd ← (match ofl with Some f => fdalloc cur f | None => mret None end);
          match ofl, ofd with
          | Some f, Some fd =>
              fs cur (fun pid => iunlock pid ip);;
              finish cur;;
              on_k (upd_file f (fun x => mkFile FD_INODE (f_ref x) (Z.land omode O_WRONLY =? 0)
                (negb (Z.land omode O_WRONLY =? 0) || negb (Z.land omode O_RDWR =? 0)) (f_pipe x) ip 0));;
              mret (Z.of_nat fd)
          | _, _ =>
              call cfg c cur (close_opt (m_end mc) ofl);;
              fs cur (fun pid => iunlockput pid ip);;
              fail_op cur
          end
      end
  | _, _ => mret (-1)
  end.

Definition sys_mkdir (cur : nat) : KM Z :=
  begin cur;;
  opath ← argstr cur 0;
  oip ← (match opath with Some path => create cur path T_DIR 0 0 | None => mret None end);
  match oip with
  | Some ip => fs cur (fun pid => iunlockput pid ip);; finish cur;; mret 0
  | None => fail_op cur
  end.

Definition sys_mknod (cur : nat) : KM Z :=
  begin cur;;
  opath ← argstr cur 0;
  omj ← (match opath with Some _ => argint cur 1 | None => mret None end);
  omn ← (match omj with Some _ => argint cur 2 | None => mret None end);
  oip ← (match opath, omj, omn with
         | Some path, Some mj, Some mn => create cur path T_DEV (s16 mj) (s16 mn)
         | _, _, _ => mret None
         end);
  match oip with
  | Some ip => fs cur (fun pid => iunlockput pid ip);; finish cur;; mret 0
  | None => fail_op cur
  end.

Definition sys_chdir (cur : nat) : KM Z :=
  begin cur;;
  opath ← argstr cur 0;
  oip ← (match opath with Some path => namei_ cur path | None => mret None end);
  match oip with
  | None => fail_op cur
  | Some ip =>
      fs cur (fun pid => ilock pid ip);;
      x ← inode_at ip;
      if negb (di_type (i_d x) =? T_DIR) then fs cur (fun pid => iunlockput pid ip);; fail_op cur
      else
        fs cur (fun pid => iunlock pid ip);;
        p ← proc_at cur;
        d ← deref (p_cwd p);
        fs cur (fun pid => iput pid d);;
        finish cur;;
        set_proc cur (set_p_cwd (Some ip));;
        mret 0
  end.

(** ** Pipes *)
Definition sys_pipe (cur : nat) : KM Z :=
  op ← argptr cur 0 8;
  match op with
  | None => mret (-1)
  | Some fd =>
      r ← call cfg c cur (pipealloc (m_end mc));
      match r with
      | None => mret (-1)
      | Some (rf, wf) =>
          o0 ← fdalloc cur rf;
          o1 ← (match o0 with Some _ => fdalloc cur wf | None => mret None end);
          match o0, o1 with
          | Some fd0, Some fd1 =>
              in_user cur (fun d => store_user d fd (Z.of_nat fd0));;
              in_user cur (fun d => store_user d (u32 (fd + 4)) (Z.of_nat fd1));;
              mret 0
          | _, _ =>
              (match o0 with Some fd0 => set_fd cur fd0 None | None => mret tt end);;
              call cfg c cur (fileclose (m_end mc) rf);;
              call cfg c cur (fileclose (m_end mc) wf);;
              mret (-1)
          end
      end
  end.
End Sysfile.
