(* ===== verification/ArgThms.v ===== *)
(** * System call arguments stay inside the caller's memory

    What [argint], [argptr] and [argstr] accept, for a process whose pages
    below its size are mapped. *)

From stdpp Require Import prelude strings.
From S2P Require Import Prelude CString Console Spinlock ProcData Queue Mlfq Kalloc Vm Pipe Bio Log Fs Dir File Proc Kernel Sysfile.

Open Scope Z_scope.

(** Every address below the size of a process can be read. *)
Definition mapped (m : mem) (pgdir sz : Z) : Prop := forall va, 0 <= va < sz -> is_Some (hw_read m pgdir va).

Section Loads.
Context (m : kmem) (pgdir sz : Z).
Hypothesis Hm : mapped (pmem m) pgdir sz.
Hypothesis Hsz : sz <= KERNBASE.

Lemma load_user8_ok va : 0 <= va < sz -> exists b, load_user8 pgdir va m = Ok (b, m).
Proof using Hm. intros H. destruct (Hm va H) as [b E]. exists b. unfold load_user8. mrun. by rewrite E. Qed.

Lemma load_bytes_cons va n b l : 0 <= va < KERNBASE -> load_user8 pgdir va m = Ok (b, m) -> load_bytes pgdir (va + 1) n m = Ok (l, m) ->
  load_bytes pgdir va (S n) m = Ok (b :: l, m).
Proof using Type.
  intros H Eb El. unfold KERNBASE in H. cbn [load_bytes]. rewrite (bind_Ok _ _ _ _ _ Eb), (u32_small (va + 1)) by lia. by rewrite (bind_Ok _ _ _ _ _ El).
Qed.

Lemma load_bytes_ok n : forall va, 0 <= va -> va + Z.of_nat n <= sz -> exists l, load_bytes pgdir va n m = Ok (l, m) /\ length l = n.
Proof using Hm Hsz.
  induction n as [|n IH]; intros va H0 H1; [by exists []|]. destruct (load_user8_ok va) as [b Eb]; [lia|].
  destruct (IH (va + 1)) as (l & El & Hl); [lia|lia|]. exists (b :: l). split; [apply load_bytes_cons; [lia|done..]|]. simpl. by rewrite Hl.
Qed.

Lemma load_user_ok va : 0 <= va -> va + 4 <= sz -> exists w, load_user pgdir va m = Ok (w, m).
Proof using Hm Hsz.
  intros H0 H1. unfold KERNBASE in *. destruct (load_user8_ok va) as [b0 E0]; [lia|]. destruct (load_user8_ok (va + 1)) as [b1 E1]; [lia|].
  destruct (load_user8_ok (va + 2)) as [b2 E2]; [lia|]. destruct (load_user8_ok (va + 3)) as [b3 E3]; [lia|]. eexists.
  unfold load_user. rewrite !u32_small by lia. by rewrite (bind_Ok _ _ _ _ _ E0), (bind_Ok _ _ _ _ _ E1), (bind_Ok _ _ _ _ _ E2), (bind_Ok _ _ _ _ _ E3).
Qed.

(** The string found ends at the first NUL and starts below the size. *)
Lemma fetchstr_loop_ok n : forall va, 0 <= va -> va + Z.of_nat n <= sz -> exists o, fetchstr_loop n pgdir va m = Ok (o, m) /\
  match o with
  | Some l => (length l < n)%nat /\ Forall (fun c => c <> 0) l /\ load_bytes pgdir va (S (length l)) m = Ok (l ++ [0], m)
  | None => exists l, load_bytes pgdir va n m = Ok (l, m) /\ Forall (fun c => c <> 0) l
  end.
Proof using Hm Hsz.
  induction n as [|n IH]; intros va H0 H1; cbn [fetchstr_loop]; [by exists None; split; [|exists []]|].
  destruct (load_user8_ok va) as [b Eb]; [lia|]. destruct (Z.eqb_spec b 0) as [->|Hb].
  - exists (Some []). rewrite (bind_Ok _ _ _ _ _ Eb). cbn [Z.eqb]. split; [done|]. split_and!; [simpl; lia|done|]. by apply load_bytes_cons; [lia|..].
  - destruct (IH (va + 1)) as (o & Eo & Ho); [lia|lia|]. exists (cons b <$> o). rewrite (bind_Ok _ _ _ _ _ Eb). destruct (Z.eqb_spec b 0); [done|].
    rewrite (bind_Ok _ _ _ _ _ Eo). split; [done|]. destruct o as [l|]; cbn [fmap option_fmap option_map].
    + destruct Ho as (Hl & Hz & El). split_and!; [simpl; lia|by constructor|]. by apply load_bytes_cons; [lia|..].
    + destruct Ho as (l & El & Hz). exists (b :: l). split; [by apply load_bytes_cons; [lia|..]|by constructor].
Qed.
End Loads.

Lemma kst_eta (s : kst kfs) : mkKst (pt s) (kk s) (lks s) = s.
Proof. by destruct s. Qed.
Lemma kfs_eta (k : kfs) : mkKfs (k_mem k) (k_fs k) (k_ft k) (k_pipes k) (k_pid k) (k_woken k) = k.
Proof. by destruct k. Qed.

Section Args.
Context (s : kst kfs) (cur : nat) (x : proc).
Hypothesis Hx : procs (pt s) !! cur = Some x.
Hypothesis Hsz : 0 <= p_sz x <= KERNBASE.
Hypothesis Hm : mapped (pmem (k_mem (kk s))) (p_pgdir x) (p_sz x).

Lemma proc_at_ok : proc_at cur s = Ok (x, s).
Proof using Hx. unfold proc_at, on_pt, get_proc. mrun. rewrite Hx. mrun. by rewrite kst_eta. Qed.

Lemma in_user_ok {A} (f : Z -> M kmem A) a : f (p_pgdir x) (k_mem (kk s)) = Ok (a, k_mem (kk s)) -> in_user cur f s = Ok (a, s).
Proof using Hx.
  intros E. unfold in_user. rewrite (bind_Ok _ _ _ _ _ proc_at_ok). unfold on_k, on_mem. rewrite E. by rewrite kfs_eta, kst_eta.
Qed.

Lemma fetchint_ok addr : 0 <= addr < 2 ^ 32 -> exists o, fetchint cur addr s = Ok (o, s) /\ (is_Some o <-> addr + 4 <= p_sz x).
Proof using Hx Hsz Hm.
  intros Ha. unfold fetchint. rewrite (bind_Ok _ _ _ _ _ proc_at_ok). destruct (Z.leb_spec (p_sz x) addr); cbn [orb].
  - exists None. split; [done|]. split; [by intros []|lia].
  - rewrite u32_small by (unfold KERNBASE in *; lia). destruct (Z.ltb_spec (p_sz x) (addr + 4)).
    + exists None. split; [done|]. split; [by intros []|lia].
    + destruct (load_user_ok (k_mem (kk s)) _ _ Hm (proj2 Hsz) addr) as (w & E); [lia|lia|]. exists (Some (s32 w)).
      rewrite (bind_Ok _ _ _ _ _ (in_user_ok _ _ E)). split; [done|]. split; [intros _; lia|done].
Qed.

Lemma argint_ok n : exists o, argint cur n s = Ok (o, s).
Proof using Hx Hsz Hm.
  unfold argint. rewrite (bind_Ok _ _ _ _ _ proc_at_ok). destruct (fetchint_ok (u32 (tf_esp (p_tf x) + 4 + 4 * n))) as (o & E & _); [apply u32_range|]. by exists o.
Qed.

Lemma argptr_ok n size : size < 2 ^ 31 -> exists o, argptr cur n size s = Ok (o, s) /\
  forall p, o = Some p -> 0 <= size /\ 0 <= p /\ p + size <= p_sz x /\ exists l, in_user cur (fun d => load_bytes d p (Z.to_nat size)) s = Ok (l, s) /\ Z.of_nat (length l) = size.
Proof using Hx Hsz Hm.
  intros Hs. unfold argptr. destruct (argint_ok n) as ([i|] & E); rewrite (bind_Ok _ _ _ _ _ E); [|by exists None].
  rewrite (bind_Ok _ _ _ _ _ proc_at_ok). pose proof (u32_range i) as Hi.
  destruct (Z.ltb_spec size 0); [by exists None|]. destruct (Z.leb_spec (p_sz x) (u32 i)); [by exists None|]. cbn [orb].
  rewrite (u32_small (u32 i + size)) by (unfold KERNBASE in *; lia). destruct (Z.ltb_spec (p_sz x) (u32 i + size)); [by exists None|].
  exists (Some (u32 i)). split; [done|]. intros p [= <-]. split_and!; try lia.
  destruct (load_bytes_ok (k_mem (kk s)) _ _ Hm (proj2 Hsz) (Z.to_nat size) (u32 i)) as (l & El & Hl); [lia|lia|].
  exists l. split; [by apply in_user_ok|lia].
Qed.

Lemma argstr_ok n : exists o, argstr cur n s = Ok (o, s) /\
  forall str, o = Some str -> exists p l, str = l ++ [0] /\ Forall (fun c => c <> 0) l /\ 0 <= p /\ p + Z.of_nat (length str) <= p_sz x /\
    in_user cur (fun d => load_bytes d p (length str)) s = Ok (str, s).
Proof using Hx Hsz Hm.
  unfold argstr. destruct (argint_ok n) as ([i|] & E); rewrite (bind_Ok _ _ _ _ _ E); [|by exists None]. pose proof (u32_range i) as Hi.
  unfold fetchstr. destruct (p_sz x <=? u32 i) eqn:El.
  - exists None. rewrite (bind_Ok _ _ _ None s); [done|]. rewrite (bind_Ok _ _ _ _ _ proc_at_ok). by rewrite El.
  - apply Z.leb_gt in El as Hlt. destruct (fetchstr_loop_ok (k_mem (kk s)) _ _ Hm (proj2 Hsz) (Z.to_nat (p_sz x - u32 i)) (u32 i)) as (o & Eo & Ho); [lia|lia|].
    exists ((fun l => l ++ [0]) <$> o). rewrite (bind_Ok _ _ _ o s); last first.
    { rewrite (bind_Ok _ _ _ _ _ proc_at_ok), El. by apply in_user_ok. }
    split; [done|]. intros str Hs. destruct o as [l|]; [|done]. injection Hs as <-. destruct Ho as (Hl & Hz & Hb).
    exists (u32 i), l. rewrite length_app, Nat.add_1_r. split_and!; try done; [lia|lia|]. by apply in_user_ok.
Qed.
End Args.

(** Claim C24. The checks on system call arguments make the kernel's reads and writes
    of user memory safe: for a process whose memory is mapped, [argint],
    [argptr] and [argstr] never fault and change nothing.  A buffer that
    [argptr] accepts lies inside the process, also where the sum of address
    and length is close to the end of the address space, and all its bytes
    can be read; a string that [argstr] accepts ends with its first NUL inside
    the process. *)
Theorem user_arguments_safe (s : kst kfs) cur x n size : procs (pt s) !! cur = Some x -> 0 <= p_sz x <= KERNBASE ->
  mapped (pmem (k_mem (kk s))) (p_pgdir x) (p_sz x) -> size < 2 ^ 31 ->
  (exists o, argint cur n s = Ok (o, s)) /\
  (exists o, argptr cur n size s = Ok (o, s) /\ forall p, o = Some p -> 0 <= size /\ 0 <= p /\ p + size <= p_sz x /\
    exists l, in_user cur (fun d => load_bytes d p (Z.to_nat size)) s = Ok (l, s) /\ Z.of_nat (length l) = size) /\
  (exists o, argstr cur n s = Ok (o, s) /\ forall str, o = Some str -> exists p l, str = l ++ [0] /\ Forall (fun c => c <> 0) l /\
    0 <= p /\ p + Z.of_nat (length str) <= p_sz x /\ in_user cur (fun d => load_bytes d p (length str)) s = Ok (str, s)).
Proof.
  intros Hx Hsz Hm Hs. split_and!; [by eapply argint_ok|by eapply argptr_ok|by eapply argstr_ok].
Qed.

(** ** A process of one page

    All page table entries point to the page at [KERNBASE + 16842752]; the
    first argument on the stack is 16. *)
Definition arg_mem (a : Z) : Z :=
  let o := a - (KERNBASE + 16842752) in if o =? 4 then 16 else if (4 <? o) && (o <? 8) then 0 else 1.
Definition arg_proc : proc := set_p_sz PGSIZE zero_proc.
Definition arg_state : kst kfs :=
  mkKst (mkPtab [arg_proc] [] [] None 1 1 0 [])
    (mkKfs (mkKmem arg_mem 0 false []) (mkFsst (mkLst (binit (fun _ _ => zero_block)) (mkLog 0 0 0 false 0 0 [])) [] (mkSb 0 0 0 0 0 0 0) []) [] [] 0 [])
    (mkLs [] (fun _ => mkLock 0 None)).

Lemma arg_mapped : mapped arg_mem 0 PGSIZE.
Proof.
  intros va Hva. unfold PGSIZE in Hva. unfold hw_read, PDX, PTX. rewrite !Z.shiftr_div_pow2, !Z.div_small by lia.
  assert (E1 : load32 arg_mem (0 + 4 * Z.land 0 1023) = 16843009) by (vm_compute; reflexivity).
  assert (E2 : load32 arg_mem (P2V (PTE_ADDR 16843009) + 4 * Z.land 0 1023) = 16843009) by (vm_compute; reflexivity).
  assert (E3 : presentb 16843009 = true) by (vm_compute; reflexivity).
  rewrite E1, E3, E2, E3. by eexists.
Qed.

Lemma user_arguments_safe_witness : argptr 0 0 8 arg_state = Ok (Some 16, arg_state) /\
  exists l, in_user 0 (fun d => load_bytes d 16 8) arg_state = Ok (l, arg_state) /\ length l = 8%nat.
Proof.
  assert (E : (match argptr 0 0 8 arg_state with Ok (o, _) => bool_decide (o = Some 16) | _ => false end) = true) by (vm_compute; reflexivity).
  destruct (user_arguments_safe arg_state 0 arg_proc 0 8 eq_refl ltac:(vm_compute; split; discriminate) arg_mapped ltac:(lia)) as (_ & (o & Eo & Ho) & _).
  rewrite Eo in E. apply bool_decide_eq_true_1 in E as ->. split; [exact Eo|]. destruct (Ho 16 eq_refl) as (_ & _ & _ & l & El & Hl). exists l. split; [exact El|lia].
Defined.
