(* ===== verification/Exec.v ===== *)
(** * exec: loading a program (exec.c, [loaduvm] of vm.c, [sys_exec] of
    sysfile.c)

    [argv] is the list of the argument strings, each with its NUL. *)

From stdpp Require Import prelude strings.
From S2P Require Import Prelude CString Console Spinlock ProcData Kalloc Vm Pipe Bio Log Fs Dir File Proc Kernel Sysfile.

Open Scope Z_scope.

Definition ELF_MAGIC : Z := 0x464C457F.
Definition ELF_PROG_LOAD : Z := 1.

(** ** ELF headers (elf.h) *)
Record elfhdr : Type := mkElf { e_magic : Z; e_entry : Z; e_phoff : Z; e_phnum : Z }.
Record proghdr : Type := mkPh { ph_type : Z; ph_off : Z; ph_vaddr : Z; ph_filesz : Z; ph_memsz : Z }.
Definition ELFSIZE : Z := 52.
Definition PHSIZE : Z := 32.

Definition get_elf (l : list Z) : elfhdr := mkElf (get32 l 0) (get32 l 6) (get32 l 7) (get16 l 44).
Definition get_ph (l : list Z) : proghdr := mkPh (get32 l 0) (get32 l 1) (get32 l 2) (get32 l 4) (get32 l 5).

Section Exec.
Context (cfg : config) (c : nat) (mc : machine) (garbage : list Z).

Notation KM := (M (kst kfs)).
Notation fs := (fs cfg c).

(** ** loaduvm: [false] is a negative result *)
Fixpoint load_pages (n : nat) (pgdir addr : Z) (ip : nat) (offset sz i : Z) : M kfs bool :=
  if i <? sz then
    match n with
    | O => fault
    | S n' =>
        pte ← on_mem (walkpgdir pgdir (u32 (addr + i)) false);
        if pte =? 0 then panic "loaduvm: address should exist"
        else
          e ← on_mem (word_at pte);
          let k := if sz - i <? PGSIZE then sz - i else PGSIZE in
          r ← on_fs (fun pid => readi pid (m_dev mc) ip (u32 (offset + i)) k);
          on_mem (put_bytes (P2V (PTE_ADDR e)) r.2);;
          if negb (r.1 =? k) then mret false
          else load_pages n' pgdir addr ip offset sz (u32 (i + PGSIZE))
    end
  else mret true.

Definition loaduvm (pgdir addr : Z) (ip : nat) (offset sz : Z) : M kfs bool :=
  if negb (addr mod PGSIZE =? 0) then panic "loaduvm: addr must be page aligned"
  else load_pages (Z.to_nat (sz / PGSIZE + 1)) pgdir addr ip offset sz 0.

(** ** exec *)

(** [readi] of a whole structure. *)
Definition read_struct (cur ip : nat) (off n : Z) : KM (option (list Z)) :=
  r ← fs cur (fun pid => readi pid (m_dev mc) ip (u32 off) n);
  mret (if r.1 =? n then Some r.2 else None).

(** The loop over the program headers; [None] is [goto bad]. *)
Fixpoint load_segs (n : nat) (cur ip : nat) (pgdir off sz : Z) : KM (option Z) :=
  match n with
  | O => mret (Some sz)
  | S n' =>
      o ← read_struct cur ip off PHSIZE;
      match get_ph <$> o with
      | None => mret None
      | Some ph =>
          if negb (ph_type ph =? ELF_PROG_LOAD) then load_segs n' cur ip pgdir (s32 (off + PHSIZE)) sz
          else if ph_memsz ph <? ph_filesz ph then mret None
          else if u32 (ph_vaddr ph + ph_memsz ph) <? ph_vaddr ph then mret None
          else
            sz' ← on_k (on_mem (allocuvm (m_end mc) pgdir sz (u32 (ph_vaddr ph + ph_memsz ph))));
            if sz' =? 0 then mret None
            else if negb (ph_vaddr ph mod PGSIZE =? 0) then mret None
            else
              b ← call cfg c cur (loaduvm pgdir (ph_vaddr ph) ip (ph_off ph) (ph_filesz ph));
              if (b : bool) then load_segs n' cur ip pgdir (s32 (off + PHSIZE)) sz' else mret None
      end
  end.

(** The loop that pushes the arguments: the stack pointer and the
    addresses of the strings. *)
Fixpoint push_args (argv : list (list Z)) (argc : nat) (pgdir sp : Z) : M kmem (option (Z * list Z)) :=
  match argv with
  | [] => mret (Some (sp, []))
  | s :: argv' =>
      if (MAXARG <=? argc)%nat then mret None
      else
        let sp := Z.land (u32 (sp - Z.of_nat (length s))) (Z.lnot 3) in
        r ← copyout pgdir sp s;
        if r <? 0 then mret None
        else
          o ← push_args argv' (S argc) pgdir sp;
          mret ((fun '(sp', l) => (sp', sp :: l)) <$> o)
  end.

(** From [sz = PGROUNDUP(sz)] on: the stack, with the final [sz] and [sp]. *)
Definition build_stack (pgdir sz : Z) (argv : list (list Z)) : M kmem (option (Z * Z)) :=
  let sz := PGROUNDUP sz in
  sz ← allocuvm (m_end mc) pgdir sz (u32 (sz + 2 * PGSIZE));
  if sz =? 0 then mret None
  else
    clearpteu pgdir (u32 (sz - 2 * PGSIZE));;
    o ← push_args argv 0 pgdir sz;
    match o with
    | None => mret None
    | Some (sp, ps) =>
        let argc := Z.of_nat (length ps) in
        let ustack := [4294967295; argc; u32 (sp - (argc + 1) * 4)] ++ ps ++ [0] in
        let sp' := u32 (sp - (3 + argc + 1) * 4) in
        r ← copyout pgdir sp' (concat (word_bytes <$> ustack));
        mret (if r <? 0 then None else Some (sz, sp'))
    end.

(** What follows the last slash of the path. *)
Fixpoint last_elem (s last : list Z) : list Z :=
  match s with
  | [] => last
  | ch :: s' => if ch =? 0 then last else last_elem s' (if ch =? SLASH then s' else last)
  end.

(** [bad:] before and after the inode is released. *)
Definition bad_dir (pgdir : Z) : KM unit := if pgdir =? 0 then mret tt else on_k (on_mem (freevm (m_end mc) pgdir)).
Definition bad_ip (cur ip : nat) (pgdir : Z) : KM Z :=
  bad_dir pgdir;; fs cur (fun pid => iunlockput pid ip);; finish cfg c cur;; mret (-1).

(** The new image replaces the old one. *)
Definition commit_image (cur : nat) (path : list Z) (pgdir sz entry sp : Z) : KM Z :=
  set_name cur (last_elem path path);;
  p ← proc_at cur;
  set_proc cur (set_p_pgdir pgdir);;
  set_proc cur (set_p_sz sz);;
  set_proc cur (fun x => set_p_tf (set_tf_esp sp (set_tf_eip entry (p_tf x))) x);;
  switchuvm c cur;;
  on_k (on_mem (freevm (m_end mc) (p_pgdir p)));;
  mret 0.

Definition exec_image (cur ip : nat) (path : list Z) (argv : list (list Z)) : KM Z :=
  oe ← read_struct cur ip 0 ELFSIZE;
  match get_elf <$> oe with
  | None => bad_ip cur ip 0
  | Some elf =>
      if negb (e_magic elf =? ELF_MAGIC) then bad_ip cur ip 0
      else
        pgdir ← on_k (on_mem (setupkvm (m_end mc) (m_data mc)));
        if pgdir =? 0 then bad_ip cur ip 0
        else
          osz ← load_segs (Z.to_nat (e_phnum elf)) cur ip pgdir (s32 (e_phoff elf)) 0;
          match osz with
          | None => bad_ip cur ip pgdir
          | Some sz =>
              fs cur (fun pid => iunlockput pid ip);;
              finish cfg c cur;;
              o ← on_k (on_mem (build_stack pgdir sz argv));
              match o with
              | None => bad_dir pgdir;; mret (-1)
              | Some (sz, sp) => commit_image cur path pgdir sz (e_entry elf) sp
              end
          end
  end.

Definition exec (cur : nat) (path : list Z) (argv : list (list Z)) : KM Z :=
  begin cfg c cur;;
  oip ← namei_ cfg c mc garbage cur path;
  match oip with
  | None => finish cfg c cur;; cprintf_k "exec: fail\n" [];; mret (-1)
  | Some ip => fs cur (fun pid => ilock pid ip);; exec_image cur ip path argv
  end.

(** ** sys_exec: the argument vector, from entry [i] on *)
Fixpoint fetch_argv (n : nat) (cur : nat) (uargv : Z) (i : Z) : KM (option (list (list Z))) :=
  match n with
  | O => mret None
  | S n' =>
      o ← fetchint cur (u32 (uargv + 4 * i));
      match o with
      | None => mret None
      | Some uarg =>
          if uarg =? 0 then mret (Some [])
          else
            os ← fetchstr cur (u32 uarg);
            match os with
            | None => mret None
            | Some s => r ← fetch_argv n' cur uargv (i + 1); mret (cons (s ++ [0]) <$> r)
            end
      end
  end.

Definition sys_exec (cur : nat) : KM Z :=
  opath ← argstr cur 0;
  ouargv ← (match opath with Some _ => argint cur 1 | None => mret None end);
  match opath, ouargv with
  | Some path, Some uargv =>
      oargv ← fetch_argv MAXARG cur (u32 uargv) 0;
      match oargv with
      | None => mret (-1)
      | Some argv => exec cur path argv
      end
  | _, _ => mret (-1)
  end.
End Exec.
