(* ===== verification/Sched.v ===== *)
(** * The three schedulers (proc.c) and the timer interrupt (trap.c)

    One pass of [scheduler] up to [swtch], the code after [swtch] returns,
    and the policy part of [trap].  Reports printed from the process table
    ([getps], [procdump], [sys_threadinfo]) are here too. *)

From stdpp Require Import prelude strings.
From S2P Require Import Prelude CString Console Spinlock ProcData Queue Mlfq Kalloc Proc.

Open Scope Z_scope.

Section Sched.
Context {K : Type} {KS : KernelSvc K} (cfg : config) (c : nat).

(** [c->proc = v] *)
Definition set_curproc (v : option nat) : M (kst K) unit :=
  on_l (set_cpu c (set_c_proc v)).

Definition count_run (p : nat) : M (kst K) unit :=
  set_proc p (fun x => set_p_num_run (s32 (p_num_run x + 1)) x).

(** ** RR: the first RUNNABLE slot from [from] on *)
Definition rr_next (from : nat) (ps : list proc) : option nat :=
  (fun r : nat * proc => (from + r.1)%nat) <$> list_find (fun x => p_state x = RUNNABLE) (drop from ps).

(** RR and FCFS switch to [p]. *)
Definition dispatch (p : nat) : M (kst K) unit :=
  set_curproc (Some p);;
  switchuvm c p;;
  count_run p;;
  set_proc p (set_p_state RUNNING).

(** The [for] loop of the RR scheduler from slot [from] up to the next
    [swtch], or to its end. *)
Definition rr_scan (from : nat) : M (kst K) (option nat) :=
  s ← get;
  match rr_next from (procs (pt s)) with
  | None => mret None
  | Some p => dispatch p;; mret (Some p)
  end.

(** ** FCFS: the RUNNABLE process with the least [ctime] *)
Definition fcfs_step (ps : list proc) (best : option nat) (i : nat) : option nat :=
  match ps !! i with
  | None => best
  | Some x =>
      if decide (p_state x <> RUNNABLE) then best
      else match best with
           | None => Some i
           | Some b =>
               match ps !! b with
               | Some y => if p_ctime x <? p_ctime y then Some i else best
               | None => best
               end
           end
  end.

Definition fcfs_pick (ps : list proc) : option nat := foldl (fcfs_step ps) None (seq 0 (length ps)).

Definition fcfs_scan : M (kst K) (option nat) :=
  s ← get;
  match fcfs_pick (procs (pt s)) with
  | None => mret None
  | Some p =>
      x ← proc_at p;
      if decide (p_state x = RUNNABLE) then dispatch p;; mret (Some p) else mret None
  end.

(** ** MLFQ *)

(** [for(int j = ...; j <= q_tail\[i\]; j++)] of the aging pass, on the
    process table alone; the fuel is the number of rounds left. *)
Fixpoint age_loop (fuel : nat) (i j : Z) : M ptab unit :=
  match fuel with
  | O => fault
  | S f =>
      t ← tail_of i;
      if t <? j then mret tt
      else
        cell ← queue_cell i j;
        p ← deref cell;
        x ← get_proc p;
        s ← get;
        (if 30 <? s32 (ticks s - p_enter x)
         then remove_proc_from_q p i;; add_proc_to_q p (i - 1);; mret tt
         else mret tt);;
        age_loop f i (j + 1)
  end.

(** A queue has at most [NPROC] entries and never grows in its own loop. *)
Definition aging : M ptab unit := for_each [1; 2; 3; 4] (fun i => age_loop (S NPROC) i 0).

(** The head of the first queue that is not empty, removed. *)
Definition mlfq_pick : M ptab (option nat) :=
  for_until [0; 1; 2; 3; 4] (fun i =>
    t ← tail_of i;
    if 0 <=? t then
      cell ← queue_cell i 0;
      p ← deref cell;
      remove_proc_from_q p i;;
      mret (Some p)
    else mret None).

Definition mlfq_scan : M (kst K) (option nat) :=
  on_pt aging;;
  o ← on_pt mlfq_pick;
  match o with
  | None => mret None
  | Some p =>
      x ← proc_at p;
      if decide (p_state x = RUNNABLE) then
        count_run p;;
        set_curproc (Some p);;
        switchuvm c p;;
        set_proc p (set_p_state RUNNING);;
        mret (Some p)
      else mret None
  end.

(** After [swtch]: demote the process if its time slice is used up, and
    queue it again if it is still RUNNABLE. *)
Definition requeue (p : nat) : M ptab unit :=
  x ← get_proc p;
  if decide (p_state x = RUNNABLE) then
    (if p_change_q x =? 1 then
       upd_proc p (set_p_change_q 0);;
       upd_proc p (set_p_curr_ticks 0);;
       (if negb (p_queue x =? 4) then upd_proc p (fun y => set_p_queue (p_queue y + 1) y) else mret tt)
     else upd_proc p (set_p_curr_ticks 0));;
    y ← get_proc p;
    add_proc_to_q p (p_queue y);;
    mret tt
  else mret tt.

(** ** scheduler

    One round of [for(;;)], to the next [swtch] (the process it switches
    to, with [ptable.lock] held) or to the end of the round. *)
Definition scan : M (kst K) (option nat) :=
  match pol cfg with
  | RR => rr_scan 0
  | FCFS => fcfs_scan
  | MLFQ => mlfq_scan
  end.

Definition end_round (o : option nat) : M (kst K) (option nat) :=
  match o with
  | Some p => mret (Some p)
  | None => unlock c LkPtable;; mret None
  end.

Definition scheduler : M (kst K) (option nat) :=
  on_l (sti c);; lock c LkPtable;; o ← scan; end_round o.

(** The same loop from the return of [swtch], after running [p]. *)
Definition scheduler_return (p : nat) : M (kst K) (option nat) :=
  switchkvm cfg c;;
  set_curproc None;;
  o ← match pol cfg with
      | RR => rr_scan (S p)
      | FCFS => mret None
      | MLFQ => on_pt (requeue p);; mret None
      end;
  end_round o.

(** ** The timer interrupt (trap.c) *)
Definition q_ticks_max : list Z := [2; 4; 8; 16; 32].
Definition TICKS_LIMIT : Z := 500.

(** [case T_IRQ0 + IRQ_TIMER] on CPU 0. *)
Definition clock_tick : M (kst K) unit :=
  i ← on_l (mycpu c);
  if decide (i = 0%nat) then
    lock c LkTicks;;
    on_pt (modify (fun t => set_ticks (u32 (ticks t + 1)) t));;
    wakeup cfg c ChanTicks;;
    unlock c LkTicks;;
    ticking
  else mret tt.

(** What the rest of [trap] decides for the interrupted process. *)
Inductive preempt : Type := Stay | Yield | KillSelf.

(** The policy part for a RUNNING process; [wakeup_ps] is the global of
    trap.c. *)
Definition tick_policy (cur : nat) (wakeup_ps : Z) : M (kst K) preempt :=
  p ← proc_at cur;
  match pol cfg with
  | RR => mret Yield
  | FCFS =>
      if (TICKS_LIMIT <? p_ticks p) || (0 <? wakeup_ps) then
        mret (if TICKS_LIMIT <? p_ticks p then KillSelf else Yield)
      else mret Stay
  | MLFQ =>
      q ← deref (nthZ q_ticks_max (p_queue p));
      if q <=? p_curr_ticks p then change_q_flag c cur;; mret Yield
      else incr_curr_ticks c cur;; mret Stay
  end.

(** ** Reports *)
Definition getps_row (st : procstate) : option string :=
  match st with
  | SLEEPING => Some "%d   SLEEPING \t %d \t %d \t %d"%string
  | RUNNING => Some "%d   RUNNING  \t %d \t %d \t %d"%string
  | RUNNABLE => Some "%d   RUNNABLE \t %d \t %d \t %d"%string
  | ZOMBIE => Some "%d    ZOMBIE \t %d \t %d \t %d"%string
  | _ => None
  end.

Definition getps : M (kst K) Z :=
  locked_section c (
    (if mlfq cfg
     then cprintf_k "PID   State \tr_time\tw_time\ts_time\tcur_q\t q0\tq1\tq2\tq3\tq4\n" []
     else cprintf_k "PID   State \tr_time\tw_time\ts_time\n" []);;
    for_each (seq 0 NPROC) (fun i =>
      p ← proc_at i;
      t ← on_pt (gets ticks);
      match getps_row (p_state p) with
      | Some row =>
          if 3 <=? p_pid p then
            let e := if decide (p_state p = ZOMBIE) then p_etime p else t in
            let args := [CInt (p_pid p); CInt (p_rtime p);
                         CInt (u32 (e - p_ctime p - p_rtime p - p_iotime p)); CInt (p_iotime p)] in
            if mlfq cfg then
              cprintf_k (row ++ " \t %d \t %d \t %d \t %d \t %d \t %d\n")
                (args ++ CInt (if decide (p_state p = ZOMBIE) then -1 else p_queue p) :: (CInt <$> p_qticks p))
            else cprintf_k (row ++ "\n") args
          else mret tt
      | None => mret tt
      end);;
    mret (-1)).

Definition sys_threadinfo (cur : nat) : M (kst K) Z :=
  p ← proc_at cur;
  cprintf_k "PID : %d\n" [CInt (p_tgid p)];;
  cprintf_k "TID : %d\n" [CInt (p_pid p)];;
  cprintf_k "Page Directory Address : %p\n" [CInt (p_pgdir p)];;
  cprintf_k "Stack Pointer Value : %p\n" [CInt (tf_esp (p_tf p))];;
  cprintf_k "Statr Function Address : %p\n" [CInt (p_function p)];;
  cprintf_k "Memory Size : %d bytes\n\n" [CInt (p_sz p)];;
  mret 0.

(** [getcallerpcs] (spinlock.c) on kernel memory [m]: up to [n] frames. *)
Fixpoint getcallerpcs (m : Z -> Z) (n : nat) (ebp : Z) : list Z :=
  match n with
  | O => []
  | S n' =>
      if (ebp =? 0) || (ebp <? KERNBASE) || (ebp =? 4294967295) then replicate n 0
      else m (u32 (ebp + 4)) :: getcallerpcs m n' (m ebp)
  end.

Definition state_name (st : procstate) : list Z :=
  codes (match st with
         | UNUSED => "unused" | EMBRYO => "embryo" | SLEEPING => "sleep "
         | RUNNABLE => "runble" | RUNNING => "run   " | ZOMBIE => "zombie"
         end).

(** The characters before the first nul. *)
Fixpoint cstr (l : list Z) : list Z :=
  match l with
  | [] => []
  | x :: l' => if x =? 0 then [] else x :: cstr l'
  end.

(** [getcallerpcs((uint* )p->context->ebp+2, pc)] starts two words below
    its argument, at the saved frame pointer itself. *)
Definition procdump (m : Z -> Z) : M (kst K) unit :=
  for_each (seq 0 NPROC) (fun i =>
    p ← proc_at i;
    if decide (p_state p = UNUSED) then mret tt
    else
      cprintf_k "%d %s %s" [CInt (p_pid p); CStr (Some (state_name (p_state p))); CStr (Some (cstr (p_name p)))];;
      (if decide (p_state p = SLEEPING) then
         for_each (cstr (getcallerpcs m 10 (cx_ebp (p_ctx p)))) (fun pc => cprintf_k " %p" [CInt pc])
       else mret tt);;
      cprintf_k "\n" []).
End Sched.
