(* ===== verification/Syscall.v ===== *)
(** * System calls: sysproc.c, and the table and [syscall] of syscall.c

    A call ends with its result, asleep on a channel, or in [exit]. *)

From stdpp Require Import prelude strings.
From S2P Require Import Prelude CString Console Spinlock ProcData Kalloc Vm Pipe Bio Log Fs Dir File Proc Kernel Sysfile Exec Sched.

Open Scope Z_scope.

Section Syscall.
Context (cfg : config) (c : nat) (mc : machine) (garbage : list Z).

Notation KM := (M (kst kfs)).
#[local] Instance svc : KernelSvc kfs := kernel_svc mc.

(** ** sysproc.c *)
Definition ret (m : KM Z) : KM sys_end := r ← m; mret (SysRet r).

Definition wait_result (cur : nat) (m : KM (wait_end + bool)) : KM sys_end :=
  e ← m;
  mret (match e with
        | inl (WaitDone pid) => SysRet pid
        | inl _ => SysRet (-1)
        | inr _ => SysSleep (ChanProc cur)
        end).

Definition sys_fork (cur : nat) : KM sys_end := ret (fork cfg c cur).

Definition sys_exit (cur : nat) : KM sys_end := i ← exit cfg c cur; mret (SysGone i).

Definition sys_wait (cur : nat) : KM sys_end := wait_result cur (wait cfg c cur).

(** A call with one, two or three integer arguments; [-1] when one of them
    cannot be fetched. *)
Definition args1 (cur : nat) (f : Z -> KM sys_end) : KM sys_end :=
  o ← argint cur 0; match o with Some a => f a | None => mret (SysRet (-1)) end.
Definition args2 (cur : nat) (f : Z -> Z -> KM sys_end) : KM sys_end :=
  args1 cur (fun a => o ← argint cur 1; match o with Some b => f a b | None => mret (SysRet (-1)) end).
Definition args3 (cur : nat) (f : Z -> Z -> Z -> KM sys_end) : KM sys_end :=
  args2 cur (fun a b => o ← argint cur 2; match o with Some d => f a b d | None => mret (SysRet (-1)) end).

Definition sys_kill (cur : nat) : KM sys_end := args1 cur (fun pid => ret (kill cfg c pid)).

Definition sys_getpid (cur : nat) : KM sys_end := p ← proc_at cur; mret (SysRet (p_tgid p)).

Definition sys_sbrk (cur : nat) : KM sys_end :=
  args1 cur (fun n =>
    p ← proc_at cur;
    r ← growproc c cur n;
    mret (SysRet (if r <? 0 then -1 else s32 (p_sz p)))).

(** The loop of [sys_sleep], entered with [tickslock] held: [n] is compared
    as an unsigned number. *)
Definition sleep_pass (cur : nat) (ticks0 n : Z) : KM sys_end :=
  t ← on_pt (gets ticks);
  if u32 (t - ticks0) <? u32 n then
    p ← proc_at cur;
    if negb (p_killed p =? 0) then unlock c LkTicks;; mret (SysRet (-1))
    else sleep c cur ChanTicks LkTicks;; mret (SysSleep ChanTicks)
  else unlock c LkTicks;; mret (SysRet 0).

Definition sys_sleep (cur : nat) : KM sys_end :=
  args1 cur (fun n => lock c LkTicks;; t ← on_pt (gets ticks); sleep_pass cur t n).

Definition sys_uptime : KM sys_end :=
  lock c LkTicks;; t ← on_pt (gets ticks); unlock c LkTicks;; mret (SysRet (s32 t)).

Definition sys_waitx (cur : nat) : KM sys_end :=
  ow ← argptr cur 0 4;
  match ow with
  | None => mret (SysRet (-1))
  | Some wtime =>
      orr ← argptr cur 1 4;
      match orr with
      | None => mret (SysRet (-1))
      | Some rtime => wait_result cur (waitx cfg c cur wtime rtime)
      end
  end.

Definition sys_getps : KM sys_end := ret (getps cfg c).

Definition sys_clone (cur : nat) : KM sys_end :=
  args3 cur (fun function arg stack => ret (clone cfg c cur (u32 function) (u32 arg) (u32 stack))).

Definition sys_join (cur : nat) : KM sys_end :=
  args2 cur (fun tid stack => wait_result cur (join cfg c cur tid (u32 stack))).

Definition sys_gettid (cur : nat) : KM sys_end := p ← proc_at cur; mret (SysRet (p_pid p)).

(** ** The table *)
Definition syscalls (cur : nat) (num : Z) : option (KM sys_end) :=
  match num with
  | 1 => Some (sys_fork cur)
  | 2 => Some (sys_exit cur)
  | 3 => Some (sys_wait cur)
  | 4 => Some (ret (sys_pipe cfg c mc cur))
  | 5 => Some (sys_read cfg c mc cur)
  | 6 => Some (sys_kill cur)
  | 7 => Some (ret (sys_exec cfg c mc garbage cur))
  | 8 => Some (ret (sys_fstat cfg c cur))
  | 9 => Some (ret (sys_chdir cfg c mc garbage cur))
  | 10 => Some (ret (sys_dup cfg c cur))
  | 11 => Some (sys_getpid cur)
  | 12 => Some (sys_sbrk cur)
  | 13 => Some (sys_sleep cur)
  | 14 => Some sys_uptime
  | 15 => Some (ret (sys_open cfg c mc garbage cur))
  | 16 => Some (sys_write cfg c mc cur)
  | 17 => Some (ret (sys_mknod cfg c mc garbage cur))
  | 18 => Some (ret (sys_unlink cfg c mc garbage cur))
  | 19 => Some (ret (sys_link cfg c mc garbage cur))
  | 20 => Some (ret (sys_mkdir cfg c mc garbage cur))
  | 21 => Some (ret (sys_close cfg c mc cur))
  | 22 => Some (sys_waitx cur)
  | 23 => Some sys_getps
  | 25 => Some (sys_clone cur)
  | 26 => Some (sys_join cur)
  | 27 => Some (sys_gettid cur)
  | 28 => Some (ret (sys_threadinfo cur))
  | _ => None
  end.

Definition set_eax (cur : nat) (r : Z) : KM unit :=
  set_proc cur (fun x => set_p_tf (set_tf_eax (u32 r) (p_tf x)) x).

(** A call that sleeps or exits does not return to [syscall] in this run. *)
Definition syscall (cur : nat) : KM sys_end :=
  p ← proc_at cur;
  let num := s32 (tf_eax (p_tf p)) in
  match syscalls cur num with
  | Some m =>
      e ← m;
      (match e with SysRet r => set_eax cur r | _ => mret tt end);;
      mret e
  | None =>
      cprintf_k "%d %s: unknown sys call %d\n" [CInt (p_pid p); CStr (Some (cstr (p_name p))); CInt num];;
      set_eax cur (-1);;
      mret (SysRet (-1))
  end.
End Syscall.
