(* ===== verification/Trap.v ===== *)
(** * The trap handler (trap.c)

    [trap] is run on CPU [c] for the process [cur], or for none while the
    CPU is in its scheduler.  The device handlers belong to other files and
    are arguments.  All gates but that of system calls are interrupt gates,
    so the processor enters [trap] with interrupts off.  A run ends when
    [trap] returns or when the process gives up the CPU: what comes after
    [yield] is [trap_resume]. *)

From stdpp Require Import prelude strings.
From S2P Require Import Prelude CString Console Spinlock ProcData Kalloc Vm Pipe Bio Log Fs Dir File Proc Kernel Sysfile Exec Sched Syscall.

Open Scope Z_scope.

Definition T_SYSCALL : Z := 64.
Definition T_IRQ0 : Z := 32.
Definition IRQ_TIMER : Z := 0.
Definition IRQ_KBD : Z := 1.
Definition IRQ_COM1 : Z := 4.
Definition IRQ_IDE : Z := 14.
Definition IRQ_SPURIOUS : Z := 31.
Definition DPL_USER : Z := 3.

(** The fields of the trap frame that [trap] reads. *)
Record frame : Type := mkFrame { t_trapno : Z; t_cs : Z; t_eip : Z; t_err : Z }.

Inductive trap_end : Type :=
| TReturn                     (** back to the interrupted code *)
| TExit (intena : bool)       (** in [exit] *)
| TSleep (ch : chan)          (** in [sleep], from a system call *)
| TYield (intena : bool).     (** in [yield] *)

(** One gate of the interrupt descriptor table: handler, privilege level,
    and whether interrupts stay enabled. *)
Record gate : Type := mkGate { g_off : Z; g_dpl : Z; g_trap : bool }.

Definition tvinit (vectors : list Z) : list gate :=
  let idt := (fun v => mkGate v 0 false) <$> take 256 vectors in
  match vectors !! Z.to_nat T_SYSCALL with
  | Some v => <[Z.to_nat T_SYSCALL := mkGate v DPL_USER true]> idt
  | None => idt
  end.

Section Trap.
Context (cfg : config) (c : nat) (mc : machine) (garbage : list Z).
Notation KM := (M (kst kfs)).
#[local] Instance svc : KernelSvc kfs := kernel_svc mc.

(** [ideintr], [kbdintr], [uartintr]; the register %cr2; [wakeup_ps]. *)
Context (ideintr kbdintr uartintr : KM unit) (cr2 wakeup_ps : Z).

(** [if(myproc() && myproc()->killed && (tf->cs&3) == DPL_USER) exit();] *)
Definition killed_exit (cur : option nat) (tf : frame) (k : KM trap_end) : KM trap_end :=
  match cur with
  | None => k
  | Some i =>
      p ← proc_at i;
      if negb (p_killed p =? 0) && (Z.land (t_cs tf) 3 =? DPL_USER) then b ← exit cfg c i; mret (TExit b)
      else k
  end.

Definition trap_syscall (cur : nat) : KM trap_end :=
  p ← proc_at cur;
  if negb (p_killed p =? 0) then b ← exit cfg c cur; mret (TExit b)
  else
    e ← syscall cfg c mc garbage cur;
    match e with
    | SysRet _ =>
        p ← proc_at cur;
        if negb (p_killed p =? 0) then b ← exit cfg c cur; mret (TExit b) else mret TReturn
    | SysSleep ch => mret (TSleep ch)
    | SysGone b => mret (TExit b)
    end.

(** The switch. *)
Definition trap_default (cur : option nat) (tf : frame) : KM unit :=
  id ← on_l (mycpu c);
  match cur with
  | Some i =>
      if Z.land (t_cs tf) 3 =? 0 then
        cprintf_k "unexpected trap %d from cpu %d eip %x (cr2=0x%x)\n" [CInt (t_trapno tf); CInt (Z.of_nat id); CInt (t_eip tf); CInt cr2];;
        panic "trap"
      else
        p ← proc_at i;
        cprintf_k "pid %d %s: trap %d err %d on cpu %d eip 0x%x addr 0x%x--kill proc\n"
          [CInt (p_pid p); CStr (Some (cstr (p_name p))); CInt (t_trapno tf); CInt (t_err tf); CInt (Z.of_nat id); CInt (t_eip tf); CInt cr2];;
        set_proc i (set_p_killed 1)
  | None =>
      cprintf_k "unexpected trap %d from cpu %d eip %x (cr2=0x%x)\n" [CInt (t_trapno tf); CInt (Z.of_nat id); CInt (t_eip tf); CInt cr2];;
      panic "trap"
  end.

Definition trap_dispatch (cur : option nat) (tf : frame) : KM unit :=
  let no := t_trapno tf in
  if no =? T_IRQ0 + IRQ_TIMER then clock_tick cfg c
  else if no =? T_IRQ0 + IRQ_IDE then ideintr
  else if no =? T_IRQ0 + IRQ_IDE + 1 then mret tt
  else if no =? T_IRQ0 + IRQ_KBD then kbdintr
  else if no =? T_IRQ0 + IRQ_COM1 then uartintr
  else if (no =? T_IRQ0 + 7) || (no =? T_IRQ0 + IRQ_SPURIOUS) then
    id ← on_l (mycpu c);
    cprintf_k "cpu%d: spurious interrupt at %x:%x\n" [CInt (Z.of_nat id); CInt (t_cs tf); CInt (t_eip tf)]
  else trap_default cur tf.

(** The scheduling policy's part, then [k]. *)
Definition trap_policy (cur : option nat) (tf : frame) (k : KM trap_end) : KM trap_end :=
  match cur with
  | None => k
  | Some i =>
      p ← proc_at i;
      if bool_decide (p_state p = RUNNING) && (t_trapno tf =? T_IRQ0 + IRQ_TIMER) then
        d ← tick_policy cfg c i wakeup_ps;
        match d with
        | Stay => k
        | KillSelf => kill cfg c (p_pid p);; k
        | Yield => b ← yield c i; mret (TYield b)
        end
      else k
  end.

(** The end of [trap], also after [yield] returns. *)
Definition trap_resume (cur : option nat) (tf : frame) : KM trap_end := killed_exit cur tf (mret TReturn).

Definition trap (cur : option nat) (tf : frame) : KM trap_end :=
  if t_trapno tf =? T_SYSCALL then i ← deref cur; trap_syscall i
  else
    trap_dispatch cur tf;;
    killed_exit cur tf (trap_policy cur tf (trap_resume cur tf)).
End Trap.
