(* ===== verification/Aging.v ===== *)
(** * The MLFQ aging pass and the choice of the next process

    [age_loop] on a queue is the list function [age_spec]; [mlfq_pick] takes
    the head of the first queue that is not empty. *)

From stdpp Require Import prelude.
From S2P Require Import Prelude Spinlock ProcData Queue Mlfq Kalloc Proc Sched.

Open Scope Z_scope.

(** The waiting time of process [x] is over the limit. *)
Definition aged (s : ptab) (x : nat) : bool :=
  match procs s !! x with
  | Some p => 30 <? s32 (ticks s - p_enter p)
  | None => false
  end.

(** The queue after its aging loop, and the processes moved up.  The loop
    counter advances past the element that slides into the place of a moved
    one, so that element stays whatever its age. *)
Fixpoint age_spec (old : nat -> bool) (l : list nat) : list nat * list nat :=
  match l with
  | [] => ([], [])
  | x :: l' =>
      if old x then
        match l' with
        | [] => ([], [x])
        | y :: l'' => let '(kept, moved) := age_spec old l'' in (y :: kept, x :: moved)
        end
      else let '(kept, moved) := age_spec old l' in (x :: kept, moved)
  end.

Lemma age_spec_ext f g n : forall l, (length l <= n)%nat -> (forall x, x ∈ l -> f x = g x) ->
  age_spec f l = age_spec g l.
Proof.
  induction n as [|n IH]; intros [|x l] Hn H; simpl in Hn; try done; [lia|].
  simpl. rewrite <- (H x) by set_solver. destruct (f x).
  - destruct l as [|y l]; [done|]. simpl in Hn. rewrite (IH l); [done|lia|set_solver].
  - rewrite (IH l); [done|lia|set_solver].
Qed.

(** Only the processes in [l] changed: each entered queue [q] now. *)
Definition moved_to (q : nat) (l : list nat) (s s' : ptab) : Prop :=
  forall x, procs s' !! x = if decide (x ∈ l) then enqueued q s <$> procs s !! x else procs s !! x.

Lemma age_spec_moved f n : forall l x, (length l <= n)%nat -> x ∈ (age_spec f l).2 -> x ∈ l /\ f x = true.
Proof.
  induction n as [|n IH]; intros [|y l] x Hn; simpl in *; try (intros H; by apply elem_of_nil in H); try lia.
  destruct (f y) eqn:Ey.
  - destruct l as [|z l]; simpl in *.
    + intros ->%list_elem_of_singleton. split; [set_solver|done].
    + destruct (age_spec f l) as [k m] eqn:E. simpl. intros [->|Hx]%elem_of_cons; [split; [set_solver|done]|].
      destruct (IH l x) as [? ?]; [lia|by rewrite E|]. split; [set_solver|done].
  - destruct (age_spec f l) as [k m] eqn:E. simpl. intros Hx.
    destruct (IH l x) as [? ?]; [lia|by rewrite E|]. split; [set_solver|done].
Qed.

Lemma queue_head_run s q l1 x l2 : qlist s q (l1 ++ x :: l2) ->
  queue_cell (Z.of_nat q) (Z.of_nat (length l1)) s = Ok (Some x, s).
Proof.
  intros (_ & row & Hr & _ & _ & Ht). eapply queue_cell_run; [done|].
  eapply qlist_cell; [done..|]. by rewrite list_lookup_middle.
Qed.

Section AgeLoop.
Context (i : nat).

(** Moving one process up. *)
Lemma age_move s ls pre x rest up :
  mlfq_inv s ls None -> ls !! S i = Some (pre ++ x :: rest) -> ls !! i = Some up ->
  exists s', (remove_proc_from_q x (Z.of_nat (S i));; add_proc_to_q x (Z.of_nat (S i) - 1);; mret tt) s = Ok (tt, s') /\
    mlfq_inv s' (<[i := up ++ [x]]> (<[S i := pre ++ rest]> ls)) None /\ same_globals s s' /\ moved_to i [x] s s'.
Proof.
  intros Hinv Hl Hup. destruct (mi_mem _ _ _ Hinv _ _ x Hl ltac:(set_solver)) as (px & Hpx & Hr & _).
  destruct (inv_dequeue s ls x (S i) pre rest Hinv Hl) as (s1 & Hrem & Hinv1 & Hg1 & Hp1).
  rewrite (bind_Ok _ _ _ _ _ Hrem). rewrite <- Hp1 in Hpx.
  assert (Hi : (i < NQ)%nat) by (rewrite <- (mi_nq _ _ _ Hinv); by eapply lookup_lt_Some).
  destruct (inv_enqueue s1 _ x px i Hinv1 Hpx Hr Hi) as (s2 & l & Hl2 & Hadd & Hinv2 & Hg2 & Hp2).
  rewrite list_lookup_insert_ne in Hl2 by lia. simplify_eq.
  exists s2. split.
  { replace (Z.of_nat (S i) - 1) with (Z.of_nat i) by lia. by rewrite (bind_Ok _ _ _ _ _ Hadd). }
  split; [done|]. destruct Hg1 as (A1 & A2 & A3 & A4 & A5), Hg2 as (B1 & B2 & B3 & B4 & B5).
  split; [split_and!; congruence|]. intros y. rewrite Hp2, Hp1.
  destruct (decide (y = x)) as [->|Hne].
  - rewrite decide_True by set_solver. rewrite list_lookup_insert_eq; rewrite <- Hp1 in *; [|by eapply lookup_lt_Some].
    rewrite Hpx. simpl. unfold enqueued. by rewrite A4.
  - rewrite decide_False by set_solver. by rewrite list_lookup_insert_ne.
Qed.

Lemma age_end s ls l n fuel : mlfq_inv s ls None -> ls !! S i = Some l -> (length l <= n)%nat ->
  age_loop (S fuel) (Z.of_nat (S i)) (Z.of_nat n) s = Ok (tt, s).
Proof.
  intros Hinv Hl Hn. destruct (mi_rows _ _ _ Hinv _ _ Hl) as [Ht _]. cbn [age_loop].
  rewrite (bind_Ok _ _ _ _ _ (tail_of_run _ _ _ Ht)).
  destruct (Z.ltb_spec (Z.of_nat (length l) - 1) (Z.of_nat n)); [done|lia].
Qed.

(** One round at an element that is there. *)
Lemma age_round s ls pre x rest fuel : mlfq_inv s ls None -> ls !! S i = Some (pre ++ x :: rest) ->
  age_loop (S fuel) (Z.of_nat (S i)) (Z.of_nat (length pre)) s =
  ((if aged s x
    then remove_proc_from_q x (Z.of_nat (S i));; add_proc_to_q x (Z.of_nat (S i) - 1);; mret tt
    else mret tt);; age_loop fuel (Z.of_nat (S i)) (Z.of_nat (S (length pre)))) s.
Proof.
  intros Hinv Hl. pose proof (mi_rows _ _ _ Hinv _ _ Hl) as Hq. pose proof Hq as [Ht _].
  destruct (mi_mem _ _ _ Hinv _ _ x Hl ltac:(set_solver)) as (px & Hpx & _).
  cbn [age_loop]. rewrite (bind_Ok _ _ _ _ _ (tail_of_run _ _ _ Ht)).
  destruct (Z.ltb_spec (Z.of_nat (length (pre ++ x :: rest)) - 1) (Z.of_nat (length pre))) as [H|H].
  { rewrite length_app in H. simpl in H. lia. }
  rewrite (bind_Ok _ _ _ _ _ (queue_head_run _ _ _ _ _ Hq)). unfold deref at 1.
  rewrite (bind_Ok (mret x) _ _ _ _ eq_refl), (bind_Ok _ _ _ _ _ (get_proc_run _ _ _ Hpx)).
  rewrite (bind_Ok get _ _ _ _ eq_refl). unfold aged. rewrite Hpx.
  by replace (Z.of_nat (length pre) + 1) with (Z.of_nat (S (length pre))) by lia.
Qed.

Lemma moved_cons s s1 s2 x l : moved_to i [x] s s1 -> moved_to i l s1 s2 -> ticks s1 = ticks s -> x ∉ l ->
  moved_to i (x :: l) s s2.
Proof.
  intros H1 H2 Ht Hx y. rewrite H2, H1. unfold enqueued. rewrite Ht. destruct (decide (y = x)) as [->|Hne].
  - rewrite decide_False by done. by rewrite !decide_True by set_solver.
  - rewrite (decide_False (P := y ∈ [x])) by set_solver.
    destruct (decide (y ∈ l)); [by rewrite decide_True by set_solver|by rewrite decide_False by set_solver].
Qed.

(** The loop from position [length pre] on. *)
Lemma age_loop_run fuel : forall s ls pre rest up,
  mlfq_inv s ls None -> ls !! S i = Some (pre ++ rest) -> ls !! i = Some up -> (length rest < fuel)%nat ->
  exists s', age_loop fuel (Z.of_nat (S i)) (Z.of_nat (length pre)) s = Ok (tt, s') /\
    let '(kept, moved) := age_spec (aged s) rest in
    mlfq_inv s' (<[i := up ++ moved]> (<[S i := pre ++ kept]> ls)) None /\ same_globals s s' /\ moved_to i moved s s'.
Proof.
  induction fuel as [|fuel IH]; intros s ls pre rest up Hinv Hl Hup Hf; [lia|].
  destruct rest as [|x rest].
  { rewrite app_nil_r in Hl. exists s. split; [by eapply age_end|]. simpl. rewrite !app_nil_r.
    rewrite (list_insert_id ls (S i) pre), list_insert_id by done. split; [done|]. split; [by repeat split|].
    intros y. by rewrite decide_False by set_solver. }
  simpl in Hf. rewrite (age_round s ls pre x rest fuel Hinv Hl). simpl age_spec. destruct (aged s x) eqn:Ex.
  - destruct (age_move s ls pre x rest up Hinv Hl Hup) as (s1 & E1 & Hinv1 & Hg1 & Hm1).
    rewrite (bind_Ok _ _ _ _ _ E1).
    assert (Hl1 : (<[i := up ++ [x]]> (<[S i := pre ++ rest]> ls)) !! S i = Some (pre ++ rest)).
    { rewrite list_lookup_insert_ne by lia. apply list_lookup_insert_eq. by eapply lookup_lt_Some. }
    destruct rest as [|y rest].
    { destruct fuel as [|fuel]; [lia|]. exists s1. split; [|done]. eapply age_end; [done..|].
      rewrite app_nil_r. lia. }
    assert (Hfresh : forall z, z ∈ rest -> z <> x).
    { intros z Hz ->. pose proof (mi_nodup _ _ _ Hinv) as Hnd.
      destruct (concat_insert ls (S i) _ [] Hl) as (a & b & E & _). rewrite E in Hnd.
      apply NoDup_app in Hnd as (_ & _ & [Hnd _]%NoDup_app). apply NoDup_app in Hnd as (_ & _ & Hnd).
      apply NoDup_cons in Hnd as [Hn _]. set_solver. }
    destruct (IH s1 _ (pre ++ [y]) rest (up ++ [x]) Hinv1) as (s2 & E2 & Hs2).
    { by rewrite <- app_assoc. }
    { apply list_lookup_insert_eq. rewrite length_insert. by eapply lookup_lt_Some. }
    { simpl in Hf. lia. }
    rewrite length_app in E2. simpl in E2. rewrite Nat.add_1_r in E2. exists s2. split; [done|].
    rewrite (age_spec_ext (aged s1) (aged s) (length rest) rest) in Hs2; [|done|].
    2: { intros z Hz. unfold aged. rewrite Hm1, decide_False by (pose proof (Hfresh z Hz); set_solver).
         by destruct Hg1 as (_ & _ & _ & -> & _). }
    destruct (age_spec (aged s) rest) as [kept moved] eqn:Ea. destruct Hs2 as (Hinv2 & Hg2 & Hm2).
    split; [|split].
    + rewrite <- !app_assoc in Hinv2. simpl in Hinv2.
      rewrite (list_insert_insert_ne _ i (S i)) in Hinv2 by lia.
      rewrite list_insert_insert_eq in Hinv2. rewrite (list_insert_insert_ne _ (S i) i) in Hinv2 by lia.
      by rewrite list_insert_insert_eq in Hinv2.
    + destruct Hg1 as (?&?&?&?&?), Hg2 as (?&?&?&?&?). split_and!; congruence.
    + eapply moved_cons; [done..| |].
      * by destruct Hg1 as (_ & _ & _ & ? & _).
      * intros Hx. assert (Hx' : x ∈ (age_spec (aged s) rest).2) by by rewrite Ea.
        apply (age_spec_moved _ (length rest)) in Hx' as [Hx' _]; [|done]. by apply (Hfresh x).
  - destruct (IH s ls (pre ++ [x]) rest up Hinv) as (s2 & E2 & Hs2); [by rewrite <- app_assoc|done|lia|].
    rewrite length_app in E2. simpl in E2. rewrite Nat.add_1_r in E2.
    exists s2. rewrite (bind_Ok (mret tt) _ _ _ _ eq_refl). split; [done|].
    destruct (age_spec (aged s) rest) as [kept moved]. by rewrite <- app_assoc in Hs2.
Qed.
End AgeLoop.

(** ** The whole pass *)

(** The queues from level [top] on after their loops, the levels below first
    scanned in order. *)
Fixpoint age_rest (old : nat -> bool) (top : list nat) (rest : list (list nat)) : list (list nat) :=
  match rest with
  | [] => [top]
  | l :: rest' => (top ++ (age_spec old l).2) :: age_rest old (age_spec old l).1 rest'
  end.

Definition age_all (old : nat -> bool) (ls : list (list nat)) : list (list nat) :=
  match ls with [] => [] | top :: rest => age_rest old top rest end.

(** What may happen to a process: nothing, or one level up with a fresh
    time. *)
Definition aged_step (s s' : ptab) : Prop := forall x,
  procs s' !! x = procs s !! x \/
  (aged s x = true /\ exists q p, procs s !! x = Some p /\ p_queue p = Z.of_nat (S q) /\
     procs s' !! x = Some (enqueued q s p)).

Lemma aged_step_move s0 s s1 q moved : same_globals s0 s -> aged_step s0 s ->
  (forall x, x ∈ moved -> aged s0 x = true /\ exists p, procs s0 !! x = Some p /\ p_queue p = Z.of_nat (S q) /\ procs s !! x = Some p) ->
  moved_to q moved s s1 -> aged_step s0 s1.
Proof.
  intros Hg Hst Hm Hmv x. rewrite Hmv. case_decide as Hx; [|apply Hst].
  destruct (Hm x Hx) as (Ha & p & Hp0 & Hq & Hp). right. split; [done|]. exists q, p.
  rewrite Hp. simpl. unfold enqueued. by destruct Hg as (_ & _ & _ & -> & _).
Qed.

#[local] Arguments age_loop : simpl never.

Lemma aging_rest rest : forall s0 s done top, same_globals s0 s ->
  mlfq_inv s (done ++ top :: rest) None ->
  (forall x, x ∈ concat rest -> procs s !! x = procs s0 !! x) -> aged_step s0 s ->
  exists s', for_each (Z.of_nat <$> seq (S (length done)) (length rest)) (fun i => age_loop (S NPROC) i 0) s = Ok (tt, s') /\
    mlfq_inv s' (done ++ age_rest (aged s0) top rest) None /\ same_globals s0 s' /\ aged_step s0 s'.
Proof.
  induction rest as [|l rest IH]; intros s0 s done top Hg Hinv Hsame Hst; simpl.
  { by exists s. }
  assert (Hnd : NoDup (l ++ concat rest)).
  { pose proof (mi_nodup _ _ _ Hinv) as Hnd. rewrite concat_app in Hnd. simpl in Hnd.
    apply NoDup_app in Hnd as (_ & _ & Hnd). by apply NoDup_app in Hnd as (_ & _ & Hnd). }
  assert (Hl : (done ++ top :: l :: rest) !! S (length done) = Some ([] ++ l)).
  { rewrite lookup_app_r by lia. by replace (S (length done) - length done)%nat with 1%nat by lia. }
  assert (Hlen : (length l < S NPROC)%nat).
  { destruct (mi_rows _ _ _ Hinv _ _ Hl) as (_ & row & _ & _ & Hle & _). simpl in Hle. lia. }
  destruct (age_loop_run (length done) (S NPROC) s _ [] l top Hinv Hl) as (s1 & E1 & H1); [by rewrite list_lookup_middle|exact Hlen|].
  rewrite (age_spec_ext (aged s) (aged s0) (length l) l) in H1; [|done|].
  2: { intros x Hx. unfold aged. rewrite Hsame by set_solver. by destruct Hg as (_ & _ & _ & -> & _). }
  destruct (age_spec (aged s0) l) as [kept moved] eqn:Ea. destruct H1 as (Hinv1 & Hg1 & Hm1). simpl.
  assert (Hml : forall x, x ∈ moved -> x ∈ l /\ aged s0 x = true).
  { intros x Hx. apply (age_spec_moved _ (length l)); [done|by rewrite Ea]. }
  assert (El : <[length done := top ++ moved]> (<[S (length done) := [] ++ kept]> (done ++ top :: l :: rest)) =
    (done ++ [top ++ moved]) ++ kept :: rest).
  { rewrite !insert_app_r_alt, Nat.sub_diag by lia. replace (S (length done) - length done)%nat with 1%nat by lia.
    simpl. by rewrite <- app_assoc. }
  rewrite El in Hinv1. clear El.
  assert (Hg01 : same_globals s0 s1).
  { destruct Hg as (?&?&?&?&?), Hg1 as (?&?&?&?&?). split_and!; congruence. }
  destruct (IH s0 s1 (done ++ [top ++ moved]) kept Hg01 Hinv1) as (s' & E' & Hinv' & Hg' & Hst').
  - intros x Hx. rewrite Hm1, decide_False; [apply Hsame; set_solver|].
    intros Hmx. apply Hml in Hmx as [Hmx _]. apply NoDup_app in Hnd as (_ & Hd & _). by apply (Hd x).
  - eapply (aged_step_move s0 s s1 (length done) moved); [done|done| |done].
    intros x Hx. destruct (Hml x Hx) as [Hxl Hold]. split; [done|].
    destruct (mi_mem _ _ _ Hinv _ _ x Hl Hxl) as (p & Hp & _ & Hq). exists p.
    by rewrite <- Hsame by set_solver.
  - exists s'. rewrite length_app in E'. simpl in E'. rewrite Nat.add_1_r in E'.
    rewrite (bind_Ok _ _ _ _ _ E1). split; [done|]. by rewrite <- app_assoc in Hinv'.
Qed.

(** [for(i = 1; i < 5; i++)]: the pass returns, the queues become
    [age_all], and each process stays or moves one level up. *)
Lemma aging_run s ls : mlfq_inv s ls None ->
  exists s', aging s = Ok (tt, s') /\ mlfq_inv s' (age_all (aged s) ls) None /\
    same_globals s s' /\ aged_step s s'.
Proof.
  intros Hinv. destruct ls as [|top rest]; [discriminate (mi_nq _ _ _ Hinv)|].
  pose proof (mi_nq _ _ _ Hinv) as Hlen. unfold NQ in Hlen. simpl in Hlen.
  destruct (aging_rest rest s s [] top) as (s' & E & H); [by repeat split|done|done|by left|].
  exists s'. split; [|done]. simpl in E. by replace (length rest) with 4%nat in E by lia.
Qed.

(** ** The choice of the next process *)

(** All levels above [q] are empty, and [x] heads level [q]. *)
Definition first_at (ls : list (list nat)) (q x : nat) (l : list nat) : Prop :=
  ls !! q = Some (x :: l) /\ forall q', (q' < q)%nat -> ls !! q' = Some [].

Definition pick_level (i : Z) : M ptab (option nat) :=
  t ← tail_of i;
  if 0 <=? t then
    cell ← queue_cell i 0;
    p ← deref cell;
    remove_proc_from_q p i;;
    mret (Some p)
  else mret None.

Lemma pick_empty s q : qlist s q [] -> pick_level (Z.of_nat q) s = Ok (None, s).
Proof. intros [Ht _]. unfold pick_level. by rewrite (bind_Ok _ _ _ _ _ (tail_of_run _ _ _ Ht)). Qed.

Lemma pick_head s ls q x l : mlfq_inv s ls None -> ls !! q = Some (x :: l) ->
  exists s', pick_level (Z.of_nat q) s = Ok (Some x, s') /\ mlfq_inv s' (<[q := l]> ls) (Some x) /\
    same_globals s s' /\ procs s' = procs s.
Proof.
  intros Hinv Hl. pose proof (mi_rows _ _ _ Hinv _ _ Hl) as Hq. pose proof Hq as [Ht _].
  destruct (inv_dequeue s ls x q [] l Hinv Hl) as (s' & Hrem & Hinv' & Hg & Hp).
  exists s'. split; [|done]. unfold pick_level. rewrite (bind_Ok _ _ _ _ _ (tail_of_run _ _ _ Ht)).
  destruct (Z.leb_spec 0 (Z.of_nat (length (x :: l)) - 1)) as [_|H]; [|simpl in H; lia].
  rewrite (bind_Ok _ _ _ _ _ (queue_head_run s q [] x l Hq)). simpl.
  by rewrite (bind_Ok (mret x) _ _ _ _ eq_refl), (bind_Ok _ _ _ _ _ Hrem).
Qed.

Lemma pick_from n : forall s ls k, mlfq_inv s ls None -> (k + n = length ls)%nat ->
  (forall q, (q < k)%nat -> ls !! q = Some []) ->
  (for_until (Z.of_nat <$> seq k n) pick_level s = Ok (None, s) /\ Forall (fun l => l = []) ls) \/
  (exists q x l s', for_until (Z.of_nat <$> seq k n) pick_level s = Ok (Some x, s') /\ first_at ls q x l /\
     mlfq_inv s' (<[q := l]> ls) (Some x) /\ same_globals s s' /\ procs s' = procs s).
Proof.
  induction n as [|n IH]; intros s ls k Hinv Hk Hempty; simpl.
  { left. split; [done|]. apply Forall_lookup. intros q l Hq.
    pose proof (lookup_lt_Some _ _ _ Hq). rewrite Hempty in Hq by lia. by simplify_eq. }
  destruct (lookup_lt_is_Some_2 ls k) as [l Hl]; [lia|]. destruct l as [|x l].
  - rewrite (bind_Ok _ _ _ _ _ (pick_empty s k (mi_rows _ _ _ Hinv _ _ Hl))).
    apply IH; [done|lia|]. intros q Hq. destruct (decide (q = k)) as [->|]; [done|]. apply Hempty. lia.
  - right. destruct (pick_head s ls k x l Hinv Hl) as (s' & E & H). exists k, x, l, s'.
    by rewrite (bind_Ok _ _ _ _ _ E).
Qed.

(** [mlfq_pick] finds nothing only when every queue is empty, and otherwise
    takes the head of the first queue that is not. *)
Lemma mlfq_pick_run s ls : mlfq_inv s ls None ->
  (mlfq_pick s = Ok (None, s) /\ Forall (fun l => l = []) ls) \/
  (exists q x l s', mlfq_pick s = Ok (Some x, s') /\ first_at ls q x l /\
     mlfq_inv s' (<[q := l]> ls) (Some x) /\ same_globals s s' /\ procs s' = procs s).
Proof.
  intros Hinv. apply (pick_from 5 s ls 0 Hinv); [by rewrite (mi_nq _ _ _ Hinv)|lia].
Qed.
