(* ===== verification/Inv.v ===== *)
(** * The process table invariant

    [pt_inv R E X s]: [R] are the slots that are RUNNING, [E] the new slots
    with the stage of their set-up, every process that can run has a kernel
    stack, a page table and the property [G _ true], every other slot has
    [G _ false], and in an MLFQ build the queues
    satisfy [mlfq_inv].  The operations of proc.c are shown to keep it, with the
    change of [R], [E] and [X] each of them makes. *)

From stdpp Require Import prelude strings functions.
From S2P Require Import Prelude CString Console Spinlock ProcData Queue Mlfq Kalloc Proc Sched.

Open Scope Z_scope.

Definition in_use (st : procstate) : Prop := st = SLEEPING \/ st = RUNNABLE \/ st = RUNNING.

(** Closes [~ in_use st -> _] for a state [st] that is in use. *)
Ltac live := let H := fresh in intros H; exfalso; apply H; clear H; unfold in_use; by auto.

(** How far a new slot has been set up: found (0), with a kernel stack (1),
    with its level (2), ready to run (3). *)
Definition emb_ok (cfg : config) (stage : nat) (p : proc) : Prop :=
  p_state p = EMBRYO /\
  ((1 <= stage)%nat -> p_kstack p <> 0) /\
  ((2 <= stage)%nat -> mlfq cfg = true -> p_queue p = 0) /\
  ((3 <= stage)%nat -> p_pgdir p <> 0).

(** The process [X] that a CPU has just switched away from: RUNNABLE and not
    yet queued ([true]), or asleep or a zombie ([false]). *)
Definition unqueued (X : option (nat * bool)) : option nat :=
  match X with Some (p, true) => Some p | _ => None end.

Definition off_cpu (st : procstate) : Prop := st = SLEEPING \/ st = ZOMBIE.

Record pt_inv (cfg : config) (G : nat -> bool -> Prop) (R : list nat) (E : list (nat * nat)) (X : option (nat * bool))
    (s : ptab) : Prop := {
  pi_len : length (procs s) = NPROC;
  pi_run : forall i p, procs s !! i = Some p -> (p_state p = RUNNING <-> i ∈ R);
  pi_dom : forall i, i ∈ R -> (i < NPROC)%nat;
  pi_live : forall i p, procs s !! i = Some p -> in_use (p_state p) ->
    p_kstack p <> 0 /\ p_pgdir p <> 0 /\ G i true;
  pi_dead : forall i p, procs s !! i = Some p -> ~ in_use (p_state p) -> G i false;
  pi_shape : forall i p, procs s !! i = Some p ->
    length (p_qticks p) = 5%nat /\ length (p_ofile p) = NOFILE /\ length (p_name p) = 16%nat;
  pi_emb : forall i st, (i, st) ∈ E -> exists p, procs s !! i = Some p /\ emb_ok cfg st p;
  pi_X : forall i, X = Some (i, false) -> exists p, procs s !! i = Some p /\ off_cpu (p_state p);
  pi_mlfq : mlfq cfg = true -> exists ls, mlfq_inv s ls (unqueued X)
}.

(** ** The state of the kernel around a run *)

(** The process table satisfies [P], the CPUs and locks [L], and the layers
    below are in state [k]. *)
Definition at_pt {K} (P : ptab -> Prop) (k : K) (L : lockst -> Prop) (s : kst K) : Prop :=
  P (pt s) /\ kk s = k /\ L (lks s).

(** The same with the layers below in any state. *)
Definition at_p {K} (P : ptab -> Prop) (L : lockst -> Prop) (s : kst K) : Prop := P (pt s) /\ L (lks s).

(** The CPUs are [cs], and [h lk] is the CPU that holds [lk]. *)
Definition Lk (cs : list cpu) (h : lockid -> option nat) (l : lockst) : Prop :=
  cpus l = cs /\ distinct_ids l /\
  forall lk, locks l lk = match h lk with Some c => mkLock 1 (Some c) | None => mkLock 0 None end.

Section Lift.
Context {K : Type}.

Lemma triple_on_pt {A} (P : ptab -> Prop) (m : M ptab A) (Q : A -> ptab -> Prop) (k : K) l :
  triple P m Q -> triple (at_pt P k l) (on_pt m) (fun a => at_pt (Q a) k l).
Proof.
  intros H s (HP & Hk & Hl). destruct (H _ HP) as (a & p' & E & HQ).
  exists a, (mkKst p' (kk s) (lks s)). split; [unfold on_pt; by rewrite E|done].
Qed.

Lemma post_on_pt {A} (P : ptab -> Prop) (m : M ptab A) (Q : A -> ptab -> Prop) l :
  post P m Q -> post (at_p (K := K) P l) (on_pt m) (fun a => at_p (Q a) l).
Proof.
  intros H s a s' [HP Hl] E. unfold on_pt in E. destruct (m (pt s)) as [[b p']| |] eqn:Em; simplify_eq.
  split; [by eapply H|done].
Qed.

Lemma post_on_k {A} (P : ptab -> Prop) (m : M K A) l :
  post (at_p P l) (on_k m) (fun _ => at_p P l).
Proof.
  intros s a s' [HP Hl] E. unfold on_k in E. by destruct (m (kk s)) as [[b k']| |] eqn:Em; simplify_eq.
Qed.

Lemma triple_on_l {A} (P : ptab -> Prop) (m : M lockst A) (k : K) (L : lockst -> Prop) (Q : A -> lockst -> Prop) :
  triple L m Q -> triple (at_pt P k L) (on_l m) (fun a => at_pt P k (Q a)).
Proof.
  intros H s (HP & Hk & HL). destruct (H _ HL) as (a & l' & E & HQ).
  exists a, (mkKst (pt s) (kk s) l'). split; [unfold on_l; by rewrite E|done].
Qed.

(** A run that is total for every state of the lower layers. *)
Lemma at_p_of_at_pt {A} (P : ptab -> Prop) (m : M (kst K) A) (Q : A -> ptab -> Prop) L (L' : A -> lockst -> Prop) :
  (forall k, triple (at_pt P k L) m (fun a => at_pt (Q a) k (L' a))) ->
  post (at_p P L) m (fun a => at_p (Q a) (L' a)).
Proof.
  intros H s a s' [HP Hl] E. destruct (H (kk s) s) as (b & s2 & E2 & HQ & _ & Hl2); [done|].
  rewrite E in E2. by injection E2 as <- <-.
Qed.

(** ** Locks *)
Lemma Lk_ext cs h h' l : Lk cs h l -> (forall lk, h lk = h' lk) -> Lk cs h' l.
Proof. intros (H1 & H2 & H3) E. split_and!; [done..|]. intros lk. by rewrite <- E. Qed.

Context (P : ptab -> Prop) (k : K) (cs : list cpu) (h : lockid -> option nat) (c : nat) (x : cpu).
Context (Hc : cs !! c = Some x) (Hn : nest_ok x) (Hb : c_ncli x < 2 ^ 30 - 2).

Lemma Lk_update l y lk o : Lk cs h l -> c_apicid y = c_apicid x ->
  Lk (<[c := y]> cs) (<[lk := o]> h)
    (mkLs (<[c := y]> (cpus l)) (<[lk := match o with Some c => mkLock 1 (Some c) | None => mkLock 0 None end]> (locks l))).
Proof using Hc.
  intros (Ecs & Hd & Hl) Ey. split_and!; [by rewrite <- Ecs| |].
  - apply (distinct_upd l c x y); by rewrite ?Ecs.
  - intros lk'. simpl. destruct (decide (lk' = lk)) as [->|Hne].
    + by rewrite !fn_lookup_insert.
    + by rewrite !fn_lookup_insert_ne.
Qed.

Lemma lock_tr lk : h lk = None ->
  triple (at_pt P k (Lk cs h)) (lock c lk)
    (fun _ => at_pt P k (Lk (<[c := pushed x]> cs) (<[lk := Some c]> h))).
Proof using Hc Hn Hb.
  intros Hf. apply (triple_on_l _ _ _ _ (fun _ => _)). intros l HL. pose proof HL as (Ecs & Hd & Hl).
  eexists tt, _. split; [apply (acquire_run l c x); rewrite ?Ecs; try done; by rewrite Hl, Hf|].
  by apply (Lk_update l (pushed x) lk (Some c)).
Qed.

Lemma unlock_tr lk : h lk = Some c -> 0 < c_ncli x ->
  triple (at_pt P k (Lk cs h)) (unlock c lk)
    (fun _ => at_pt P k (Lk (<[c := popped x]> cs) (<[lk := None]> h))).
Proof using Hc Hn Hb.
  intros Hf Hp. apply (triple_on_l _ _ _ _ (fun _ => _)). intros l HL. pose proof HL as (Ecs & Hd & Hl).
  eexists tt, _. split; [apply (release_run l c x); rewrite ?Ecs; try done; by rewrite Hl, Hf|].
  by apply (Lk_update l (popped x) lk None).
Qed.
End Lift.

(** A critical section of [ptable.lock], entered with the lock free. *)
Lemma locked_section_tr {K A} (P : ptab -> Prop) (Q : A -> ptab -> Prop) (k k' : K) cs h c x
    (body : M (kst K) A) :
  cs !! c = Some x -> nest_ok x -> c_ncli x < 2 ^ 30 - 3 -> h LkPtable = None ->
  (forall L, triple (at_pt P k L) body (fun a => at_pt (Q a) k' L)) ->
  triple (at_pt P k (Lk cs h)) (locked_section c body)
    (fun a => at_pt (Q a) k' (Lk (<[c := settled x]> cs) h)).
Proof.
  intros Hc Hn Hb Hf Hbody. unfold locked_section.
  eapply triple_bind; [apply (lock_tr P k cs h c x); [done..|lia|done]|]. intros [].
  eapply triple_bind; [apply Hbody|]. intros a. simpl.
  assert (Hc' : <[c := pushed x]> cs !! c = Some (pushed x)).
  { apply list_lookup_insert_eq. by eapply lookup_lt_Some. }
  eapply triple_bind.
  { apply (unlock_tr (Q a) k' _ _ c (pushed x) Hc').
    - apply nest_pushed; [done|lia].
    - simpl. lia.
    - by rewrite fn_lookup_insert.
    - simpl. destruct Hn. lia. }
  intros []. apply triple_ret. intros s (HQ & Hk & HL). split_and!; [done..|].
  rewrite list_insert_insert_eq, popped_pushed in HL by done. eapply Lk_ext; [done|].
  intros lk. destruct (decide (lk = LkPtable)) as [->|Hne].
  - by rewrite fn_lookup_insert.
  - by rewrite !fn_lookup_insert_ne.
Qed.

(** CPU [c] outside every critical section: as [x], up to the saved interrupt
    flag, the page table and the stack pointer that kernel code changes as it
    runs. *)
Definition cpu_same (x y : cpu) : Prop :=
  c_apicid y = c_apicid x /\ c_proc y = c_proc x /\ c_ncli y = c_ncli x /\ c_if y = c_if x.

(** CPU [c] satisfies [phi], the others are as in [cs]. *)
Definition LkS (cs : list cpu) (h : lockid -> option nat) (c : nat) (phi : cpu -> Prop) (l : lockst) : Prop :=
  exists y, phi y /\ Lk (<[c := y]> cs) h l.

Definition LkC (cs : list cpu) (h : lockid -> option nat) (c : nat) (x : cpu) : lockst -> Prop :=
  LkS cs h c (cpu_same x).

(** Few locks are nested, and interrupts are off inside the nest. *)
Definition calm (x : cpu) : Prop := nest_ok x /\ c_ncli x < 1000.

Lemma cpu_same_settled x y : cpu_same x y -> cpu_same x (settled y).
Proof. intros (?&?&?&?). by repeat split. Qed.

(** Operations on a CPU known by a predicate. *)
Section CpuOps.
Context {K : Type} (P : ptab -> Prop) (k : K) (cs : list cpu) (h : lockid -> option nat) (c : nat).
Context (phi psi : cpu -> Prop) (Hlt : (c < length cs)%nat).

Lemma set_cpu_S f : (forall z, phi z -> psi (f z) /\ c_apicid (f z) = c_apicid z) ->
  triple (at_pt P k (LkS cs h c phi)) (on_l (set_cpu c f)) (fun _ => at_pt P k (LkS cs h c psi)).
Proof using Hlt.
  intros Hf. apply (triple_on_l _ _ _ _ (fun _ => _)). intros l (z & Hz & HL). pose proof HL as (Ecs & Hd & Hl).
  assert (Hz' : cpus l !! c = Some z) by (rewrite Ecs; by apply list_lookup_insert_eq).
  destruct (Hf z Hz) as [Hpsi Ha]. eexists tt, _. split; [by apply set_cpu_run|].
  exists (f z). split; [done|]. split_and!.
  - simpl. by rewrite Ecs, list_insert_insert_eq.
  - by eapply distinct_upd.
  - done.
Qed.

Lemma lock_S lk : h lk = None -> (forall z, phi z -> nest_ok z /\ c_ncli z < 2 ^ 30 - 2 /\ psi (pushed z)) ->
  triple (at_pt P k (LkS cs h c phi)) (lock c lk) (fun _ => at_pt P k (LkS cs (<[lk := Some c]> h) c psi)).
Proof using Hlt.
  intros Hf Hz s (HP & Hk & z & Hphi & HL). destruct (Hz z Hphi) as (Hn & Hb & Hpsi).
  destruct (lock_tr P k (<[c := z]> cs) h c z (list_lookup_insert_eq _ _ _ Hlt) Hn Hb lk Hf s)
    as (a & s' & E & HP' & Hk' & HL'); [done|].
  exists a, s'. split; [done|]. split_and!; [done..|]. exists (pushed z).
  by rewrite list_insert_insert_eq in HL'.
Qed.

Lemma unlock_S lk : h lk = Some c -> (forall z, phi z -> nest_ok z /\ 0 < c_ncli z < 2 ^ 30 - 2 /\ psi (popped z)) ->
  triple (at_pt P k (LkS cs h c phi)) (unlock c lk) (fun _ => at_pt P k (LkS cs (<[lk := None]> h) c psi)).
Proof using Hlt.
  intros Hf Hz s (HP & Hk & z & Hphi & HL). destruct (Hz z Hphi) as (Hn & [Hp Hb] & Hpsi).
  destruct (unlock_tr P k (<[c := z]> cs) h c z (list_lookup_insert_eq _ _ _ Hlt) Hn Hb lk Hf Hp s)
    as (a & s' & E & HP' & Hk' & HL'); [done|].
  exists a, s'. split; [done|]. split_and!; [done..|]. exists (popped z).
  by rewrite list_insert_insert_eq in HL'.
Qed.
End CpuOps.

Section Sections.
Context {K : Type} (cs : list cpu) (h : lockid -> option nat) (c : nat) (x : cpu).
Context (Hlt : (c < length cs)%nat) (H0 : calm x) (Hf : h LkPtable = None).

Lemma nest_same y : cpu_same x y -> calm y.
Proof using H0. clear Hlt Hf. intros (_ & _ & En & Ei). unfold calm, nest_ok in *. by rewrite En, Ei. Qed.

Lemma section_tr {A} (P : ptab -> Prop) (Q : A -> ptab -> Prop) (k k' : K) (body : M (kst K) A) :
  (forall L, triple (at_pt P k L) body (fun a => at_pt (Q a) k' L)) ->
  triple (at_pt P k (LkC cs h c x)) (locked_section c body) (fun a => at_pt (Q a) k' (LkC cs h c x)).
Proof using Hlt H0 Hf.
  intros Hb s (HP & Hk & y & Hy & HL). destruct (nest_same y Hy) as [Hn Hy0].
  destruct (locked_section_tr P Q k k' (<[c := y]> cs) h c y body) with s as (a & s' & E & HQ & Hk' & HL');
    [by apply list_lookup_insert_eq|done|lia|done|done|done|].
  exists a, s'. split; [done|]. split_and!; [done..|]. exists (settled y).
  split; [by apply cpu_same_settled|]. by rewrite list_insert_insert_eq in HL'.
Qed.

Lemma section_post {A} (P : ptab -> Prop) (Q : A -> ptab -> Prop) (body : M (kst K) A) :
  (forall k L, triple (at_pt P k L) body (fun a => at_pt (Q a) k L)) ->
  post (at_p P (LkC cs h c x)) (locked_section c body) (fun a => at_p (Q a) (LkC cs h c x)).
Proof using Hlt H0 Hf.
  intros Hb. apply (at_p_of_at_pt P _ Q _ (fun _ => LkC cs h c x)). intros k. by apply section_tr.
Qed.
End Sections.

Section Ops.
Context {K : Type} {KS : KernelSvc K} (cfg : config) {G : nat -> bool -> Prop}.

#[local] Abbreviation inv := (pt_inv cfg G).

(** ** Single slots *)
Lemma slot_at R E X s i : inv R E X s -> (i < NPROC)%nat -> exists p, procs s !! i = Some p.
Proof. intros H Hi. apply lookup_lt_is_Some_2. by rewrite (pi_len _ _ _ _ _ _ H). Qed.

(** A slot that is not new is none of [E]. *)
Lemma emb_other R E X s i x j st : inv R E X s -> procs s !! i = Some x -> p_state x <> EMBRYO ->
  (j, st) ∈ E -> j <> i /\ (j, st) ∈ E.
Proof.
  intros H Hx Hs Hj. split; [|done]. intros ->.
  destruct (pi_emb _ _ _ _ _ _ H _ _ Hj) as (p & Hp & He & _). congruence.
Qed.

Lemma X_other R E X s i x p : inv R E X s -> procs s !! i = Some x -> ~ off_cpu (p_state x) ->
  X = Some (p, false) -> p <> i /\ X = Some (p, false).
Proof.
  intros H Hx Hs Hp. split; [|done]. intros ->.
  destruct (pi_X _ _ _ _ _ _ H _ Hp) as (q & Hq & Ho). congruence.
Qed.

(** The fields [pt_inv] does not read. *)
Definition neutral (x y : proc) : Prop :=
  same_sched x y /\ p_kstack y = p_kstack x /\ p_pgdir y = p_pgdir x /\
  length (p_qticks y) = length (p_qticks x) /\ length (p_ofile y) = length (p_ofile x) /\
  length (p_name y) = length (p_name x).

(** Replacing slot [i] by [y], for the part of the invariant that is not
    about queues. *)
Lemma pt_inv_update R R' E E' X X' s i x y s' :
  inv R E X s -> procs s !! i = Some x -> procs s' = <[i := y]> (procs s) ->
  (forall j, j <> i -> j ∈ R' <-> j ∈ R) -> (p_state y = RUNNING <-> i ∈ R') ->
  (in_use (p_state y) -> p_kstack y <> 0 /\ p_pgdir y <> 0 /\ G i true) ->
  (~ in_use (p_state y) -> G i false) ->
  length (p_qticks y) = 5%nat -> length (p_ofile y) = NOFILE -> length (p_name y) = 16%nat ->
  (forall j st, (j, st) ∈ E' -> j = i /\ emb_ok cfg st y \/ j <> i /\ (j, st) ∈ E) ->
  (forall p, X' = Some (p, false) -> p = i /\ off_cpu (p_state y) \/ p <> i /\ X = Some (p, false)) ->
  (mlfq cfg = true -> exists ls, mlfq_inv s' ls (unqueued X')) ->
  inv R' E' X' s'.
Proof.
  intros H Hx Hs' HR Hi Hlive Hdead Hq Ho Hn HE HXX Hm.
  assert (Hlt : (i < length (procs s))%nat) by by eapply lookup_lt_Some.
  assert (Hlk : forall j p, procs s' !! j = Some p -> (j = i /\ p = y) \/ (j <> i /\ procs s !! j = Some p)).
  { intros j p Hj. rewrite Hs' in Hj. destruct (decide (j = i)) as [->|].
    - rewrite list_lookup_insert_eq in Hj by done. left. naive_solver.
    - rewrite list_lookup_insert_ne in Hj by done. auto. }
  destruct H as [H1 H2 H3 H4 H4' H5 H6 H7 _]. split.
  - by rewrite Hs', length_insert.
  - intros j p Hj. apply Hlk in Hj as [[-> ->]|[Hne Hj]]; [done|]. rewrite HR by done. eauto.
  - intros j Hj. destruct (decide (j = i)) as [->|]; [lia|]. apply H3. by apply HR.
  - intros j p Hj. apply Hlk in Hj as [[-> ->]|[_ Hj]]; eauto.
  - intros j p Hj. apply Hlk in Hj as [[-> ->]|[_ Hj]]; eauto.
  - intros j p Hj. apply Hlk in Hj as [[-> ->]|[_ Hj]]; eauto.
  - intros j st Hj. rewrite Hs'. destruct (HE j st Hj) as [[-> Hy]|[Hne Hold]].
    + exists y. by rewrite list_lookup_insert_eq.
    + destruct (H6 _ _ Hold) as (p & ? & ?). exists p. by rewrite list_lookup_insert_ne.
  - intros p Hp. rewrite Hs'. destruct (HXX p Hp) as [[-> Hy]|[Hne Hold]].
    + exists y. by rewrite list_lookup_insert_eq.
    + destruct (H7 _ Hold) as (q & ? & ?). exists q. by rewrite list_lookup_insert_ne.
  - done.
Qed.

(** The same for a slot that is not new, with its queue update. *)
Lemma pt_inv_step R R' E X X' s i x y s' :
  inv R E X s -> procs s !! i = Some x -> procs s' = <[i := y]> (procs s) ->
  p_state x <> EMBRYO ->
  (forall j, j <> i -> j ∈ R' <-> j ∈ R) -> (p_state y = RUNNING <-> i ∈ R') ->
  (in_use (p_state y) -> p_kstack y <> 0 /\ p_pgdir y <> 0 /\ G i true) ->
  (~ in_use (p_state y) -> G i false) ->
  p_qticks y = p_qticks x -> p_ofile y = p_ofile x -> length (p_name y) = length (p_name x) ->
  (forall p, X' = Some (p, false) -> p = i /\ off_cpu (p_state y) \/ p <> i /\ X = Some (p, false)) ->
  (mlfq cfg = true -> exists ls, mlfq_inv s' ls (unqueued X')) ->
  inv R' E X' s'.
Proof.
  intros H Hx Hs' Hne HR Hi Hlive Hdead Hq Ho Hn HXX Hm.
  pose proof (pi_shape _ _ _ _ _ _ H _ _ Hx) as (Hq' & Ho' & Hn').
  eapply (pt_inv_update R R' E E X X' s i x y); try done; [by rewrite Hq|by rewrite Ho|by rewrite Hn|].
  intros j st Hj. right. by eapply emb_other.
Qed.

Lemma pt_inv_neutral R E X s i x y : inv R E X s -> procs s !! i = Some x -> neutral x y ->
  inv R E X (set_procs (<[i := y]> (procs s)) s).
Proof.
  intros Hs Hx (Hsame & Hk & Hd & Hq' & Ho' & Hn'). pose proof Hsame as (Hst & Hpid & Hqu).
  pose proof (pi_shape _ _ _ _ _ _ Hs _ _ Hx) as (Hq & Ho & Hn).
  eapply (pt_inv_update R R E E X X s i x y); try done.
  - rewrite Hst. by eapply pi_run.
  - rewrite Hst, Hk, Hd. by eapply pi_live.
  - rewrite Hst. by eapply pi_dead.
  - by rewrite Hq'.
  - by rewrite Ho'.
  - by rewrite Hn'.
  - intros j st Hj. destruct (decide (j = i)) as [->|]; [left|by right]. split; [done|].
    destruct (pi_emb _ _ _ _ _ _ Hs _ _ Hj) as (p & Hp & He). simplify_eq.
    unfold emb_ok in *. by rewrite Hst, Hk, Hd, Hqu.
  - intros p Hp. destruct (decide (p = i)) as [->|]; [left|by right]. split; [done|].
    destruct (pi_X _ _ _ _ _ _ Hs _ Hp) as (q & Hq1 & Hq2). simplify_eq. by rewrite Hst.
  - intros Hm. destruct (pi_mlfq _ _ _ _ _ _ Hs Hm) as [ls Hls]. exists ls. by eapply inv_update_same.
Qed.

Lemma set_neutral R E X i f : (i < NPROC)%nat -> (forall x, neutral x (f x)) ->
  triple (inv R E X) (upd_proc i f) (fun _ => inv R E X).
Proof.
  intros Hi Hf s Hs. destruct (slot_at _ _ _ _ _ Hs Hi) as [x Hx].
  eexists tt, _. split; [by apply upd_proc_run|]. by eapply pt_inv_neutral.
Qed.

Lemma pt_inv_ext R E X s s' : inv R E X s -> procs s' = procs s -> queues s' = queues s ->
  q_tail s' = q_tail s -> nextpid s' = nextpid s -> inv R E X s'.
Proof.
  intros [H1 H2 H3 H4 H4' H5 H6 H7 H8] Ep Eq Et En. split; rewrite ?Ep; try done.
  intros Hm. destruct (H8 Hm) as [ls Hls]. exists ls. by eapply mlfq_inv_ext.
Qed.

Lemma proc_at_run (s : kst K) i x : procs (pt s) !! i = Some x -> proc_at i s = Ok (x, s).
Proof. intros H. unfold proc_at, on_pt. rewrite (get_proc_run _ _ _ H). by destruct s. Qed.

Lemma set_proc_run (s : kst K) i x f : procs (pt s) !! i = Some x ->
  set_proc i f s = Ok (tt, mkKst (set_procs (<[i := f x]> (procs (pt s))) (pt s)) (kk s) (lks s)).
Proof. intros H. unfold set_proc, on_pt. by rewrite (upd_proc_run _ _ _ _ H). Qed.

Lemma set_proc_neutral R E X i f (k : K) l : (i < NPROC)%nat ->
  (forall x, neutral x (f x)) ->
  triple (at_pt (inv R E X) k l) (set_proc i f) (fun _ => at_pt (inv R E X) k l).
Proof. intros. by apply triple_on_pt, set_neutral. Qed.

Lemma set_running_tr R E X i f (k : K) l : i ∈ R -> (forall x, neutral x (f x)) ->
  triple (at_pt (inv R E X) k l) (set_proc i f) (fun _ => at_pt (inv R E X) k l).
Proof.
  intros Hi Hf s Hs. pose proof Hs as [HI _].
  exact (set_proc_neutral R E X i f k l (pi_dom _ _ _ _ _ _ HI _ Hi) Hf s Hs).
Qed.

Lemma proc_at_tr R E X i (k : K) l : (i < NPROC)%nat ->
  triple (at_pt (inv R E X) k l) (proc_at i)
    (fun x => at_pt (fun s => inv R E X s /\ procs s !! i = Some x) k l).
Proof.
  intros Hi s (HP & Hk & Hl). destruct (slot_at _ _ _ _ _ HP Hi) as [x Hx].
  exists x, s. split; [by apply proc_at_run|done].
Qed.

(** Printing changes nothing but the console. *)
Lemma cprintf_tr (P : ptab -> Prop) fmt args (k : K) L : fmt_ok (cfmt fmt) args = true ->
  (forall s o, P s -> P (set_cons_out o s)) ->
  triple (at_pt P k L) (cprintf_k fmt args) (fun _ => at_pt P k L).
Proof.
  intros Ho HP s (HI & Hk & HL). destruct (cprintf_some _ (cfmt fmt) args (le_n _) Ho) as [out Eo].
  unfold cprintf_k. rewrite Eo. eexists tt, _. split; [done|]. split_and!; [|done..]. by apply HP.
Qed.

(** ** Waking up *)
Lemma wake_proc_tr R E i x (k : K) l : p_state x = SLEEPING ->
  triple (at_pt (fun s => inv R E None s /\ procs s !! i = Some x) k l) (wake_proc cfg i)
    (fun _ => at_pt (inv R E None) k l).
Proof.
  intros Hst s ([HI Hx] & Hk & HL). unfold wake_proc.
  rewrite (bind_Ok _ _ _ _ _ (set_proc_run _ _ _ _ Hx)).
  pose proof (pi_shape _ _ _ _ _ _ HI _ _ Hx) as (Hq & Ho & Hn).
  assert (Hlt : (i < length (procs (pt s)))%nat) by by eapply lookup_lt_Some.
  assert (HiR : i ∉ R). { intros Hr. apply (pi_run _ _ _ _ _ _ HI _ _ Hx) in Hr. congruence. }
  assert (Hlv : p_kstack x <> 0 /\ p_pgdir x <> 0 /\ G i true).
  { eapply (pi_live _ _ _ _ _ _ HI); [done|by left]. }
  destruct (mlfq cfg) eqn:Em; simpl.
  - destruct (pi_mlfq _ _ _ _ _ _ HI Em) as [ls Hls].
    set (s1 := mkKst _ _ _).
    assert (Hx1 : procs (pt s1) !! i = Some (set_p_state RUNNABLE x)) by by apply list_lookup_insert_eq.
    rewrite (bind_Ok _ _ _ _ _ (set_proc_run _ _ _ _ Hx1)). simpl. rewrite list_insert_insert_eq.
    set (x2 := set_p_curr_ticks 0 (set_p_state RUNNABLE x)).
    set (p2 := set_procs (<[i := x2]> (procs (pt s))) (set_procs _ (pt s))).
    assert (Hx2 : procs p2 !! i = Some x2) by by apply list_lookup_insert_eq.
    rewrite (bind_Ok _ _ _ _ _ (proc_at_run (mkKst p2 _ _) i x2 Hx2)).
    assert (Hm2 : mlfq_inv p2 ls (Some i)).
    { eapply (inv_update_wake (pt s) ls i x x2); try done; try by rewrite Hst.
      exact (mi_level _ _ _ Hls i x Hx ltac:(by rewrite Hst) ltac:(by rewrite Hst)). }
    destruct (level_nat (p_queue x2)) as (q & Eq & Hqlt).
    { eapply (mi_level _ _ _ Hm2); [exact Hx2|discriminate..]. }
    destruct (inv_enqueue p2 ls i x2 q Hm2 Hx2 eq_refl Hqlt) as (p3 & lq & _ & Hadd & Hinv3 & _ & Hps).
    eexists tt, (mkKst p3 (kk s) (lks s)). split.
    { unfold mbind, M_bind, on_pt. cbn [pt]. rewrite Eq, Hadd. done. }
    split; [|done]. simpl in Hps |- *. rewrite list_insert_insert_eq in Hps.
    eapply (pt_inv_step R R E None None (pt s) i x _ p3 HI Hx Hps); try done; try live; eauto; by rewrite Hst.
  - eexists tt, _. split; [done|]. split; [|done]. simpl.
    eapply (pt_inv_step R R E None None (pt s) i x (set_p_state RUNNABLE x)); try done; try live; by rewrite ?Hst, ?Em.
Qed.

Lemma wakeup1_tr R E ch (k : K) l :
  triple (at_pt (inv R E None) k l) (wakeup1 cfg ch) (fun _ => at_pt (inv R E None) k l).
Proof.
  apply triple_for_each. intros i Hi. apply elem_of_seq in Hi.
  eapply triple_bind; [apply proc_at_tr; lia|]. intros x. simpl.
  case_decide as Hd; [apply wake_proc_tr; by destruct Hd|].
  apply triple_ret. intros s ([? _] & ? & ?). done.
Qed.

Lemma kill_body_tr R E pid (k : K) L :
  triple (at_pt (inv R E None) k L)
    (r ← for_until (seq 0 NPROC) (fun i =>
       x ← proc_at i;
       if p_pid x =? pid then
         set_proc i (set_p_killed 1);;
         (if decide (p_state x = SLEEPING) then wake_proc cfg i else mret tt);;
         mret (Some 0)
       else mret None);
     mret (match r with Some v => v | None => -1 end))
    (fun _ => at_pt (inv R E None) k L).
Proof.
  eapply triple_bind.
  { apply (triple_for_until _ _ (at_pt (inv R E None) k L) (fun _ => at_pt (inv R E None) k L)).
    intros i Hi. apply elem_of_seq in Hi. eapply triple_bind; [apply proc_at_tr; lia|]. intros x. simpl.
    destruct (p_pid x =? pid); [|apply triple_ret; intros s ([? _] & ? & ?); done].
    eapply (triple_bind _ _ _ (fun _ => at_pt (fun s => inv R E None s /\ procs s !! i = Some (set_p_killed 1 x)) k L)).
    { intros s ([HI Hx] & Hk & HL). eexists tt, _. split; [by apply set_proc_run|].
      split_and!; [by eapply pt_inv_neutral| |done..].
      apply list_lookup_insert_eq. by eapply lookup_lt_Some. }
    intros []. eapply (triple_bind _ _ _ (fun _ => at_pt (inv R E None) k L)); [|intros []; by apply triple_ret].
    case_decide; [by apply wake_proc_tr|]. apply triple_ret. intros s ([? _] & ? & ?). done. }
  intros [v|]; by apply triple_ret.
Qed.

(** ** Accounting *)
Lemma ticking_tr R E X (k : K) L :
  triple (at_pt (inv R E X) k L) ticking (fun _ => at_pt (inv R E X) k L).
Proof.
  apply triple_for_each. intros i Hi. apply elem_of_seq in Hi. apply set_proc_neutral; [lia|].
  intros x. unfold tick_one. by repeat case_decide.
Qed.

Lemma incr_body_tr R E X i (k : K) L : mlfq cfg = true -> i ∈ R ->
  triple (at_pt (inv R E X) k L)
    (set_proc i (fun x => set_p_curr_ticks (s32 (p_curr_ticks x + 1)) x);;
     x ← proc_at i;
     n ← deref (nthZ (p_qticks x) (p_queue x));
     l ← deref (updZ (p_qticks x) (p_queue x) (s32 (n + 1)));
     set_proc i (set_p_qticks l))
    (fun _ => at_pt (inv R E X) k L).
Proof.
  intros Hm Hi s (HI & Hk & HL). pose proof (pi_dom _ _ _ _ _ _ HI _ Hi) as Hlt.
  destruct (set_proc_neutral R E X i (fun x => set_p_curr_ticks (s32 (p_curr_ticks x + 1)) x) k L Hlt
    ltac:(done) s (conj HI (conj Hk HL))) as ([] & s1 & E1 & HI1 & Hk1 & HL1).
  rewrite (bind_Ok _ _ _ _ _ E1). destruct (slot_at _ _ _ _ _ HI1 Hlt) as [x Hx].
  rewrite (bind_Ok _ _ _ _ _ (proc_at_run _ _ _ Hx)).
  pose proof (pi_shape _ _ _ _ _ _ HI1 _ _ Hx) as (Hq & _).
  destruct (pi_mlfq _ _ _ _ _ _ HI1 Hm) as [ls Hls].
  assert (Hr : p_state x = RUNNING) by by apply (pi_run _ _ _ _ _ _ HI1 _ _ Hx).
  destruct (level_nat (p_queue x)) as (q & Eq & Hql); [eapply (mi_level _ _ _ Hls); [done|by rewrite Hr..]|].
  unfold NQ in Hql. rewrite Eq, nthZ_nat.
  destruct (lookup_lt_is_Some_2 (p_qticks x) q) as [n Hqn]; [lia|]. rewrite Hqn. simpl.
  rewrite (bind_Ok (mret n) _ _ _ _ eq_refl), updZ_nat by lia. simpl.
  rewrite (bind_Ok (mret _) _ _ _ _ eq_refl).
  rewrite (set_proc_run _ _ _ _ Hx). eexists tt, _. split; [done|]. split_and!; [|done..].
  eapply pt_inv_neutral; [done..|]. split_and!; try done. apply length_insert.
Qed.
End Ops.
