(* ===== verification/Lifecycle.v ===== *)
(** * Creating and reaping processes

    [allocproc], [fork], [clone], [exit], [wait], [waitx] and [join] keep the
    process table invariant.  The calls into the layers below are unknown
    code on their own state, so the operations that make them are specified
    for the runs that return ([post]); the others are total ([triple]). *)

From stdpp Require Import prelude strings functions.
From S2P Require Import Prelude CString Console Spinlock ProcData Queue Mlfq Kalloc Proc Sched Inv.

Open Scope Z_scope.

#[local] Arguments for_each : simpl never.
#[local] Arguments for_until : simpl never.
#[local] Arguments seq : simpl never.

(** Solves [emb_pres] for an update that sets fields to known values. *)
Ltac emb :=
  let x := fresh "x" in
  intros x (? & ? & ? & ?) ? ? ?; split; [|by split_and!];
  split_and!; simpl; intros; try done; try lia; eauto with lia.

Section Life.
Context {K : Type} {KS : KernelSvc K} (cfg : config) {G : nat -> bool -> Prop}.

#[local] Abbreviation inv := (pt_inv cfg G).

(** ** allocproc *)
Lemma find_state_some st ps i : find_state st ps = Some i ->
  exists p, ps !! i = Some p /\ p_state p = st /\ forall j q, (j < i)%nat -> ps !! j = Some q -> p_state q <> st.
Proof.
  unfold find_state. intros H. apply fmap_Some in H as ([k p] & H & ->).
  apply list_find_Some in H as (Hk & Hp & Hmin). exists p. split_and!; try done. intros j q Hj Hq. eauto.
Qed.

Lemma find_state_none st ps : find_state st ps = None -> forall i p, ps !! i = Some p -> p_state p <> st.
Proof.
  unfold find_state. intros H. apply fmap_None, list_find_None in H.
  rewrite Forall_lookup in H. eauto.
Qed.

(** The slot after the critical section of [allocproc]. *)
Definition fresh_slot (s : ptab) (x : proc) : proc :=
  set_p_tgid (nexttgid s) (set_p_pid (nextpid s) (set_p_state EMBRYO x)).

Lemma alloc_body_run (s : kst K) i x : procs (pt s) !! i = Some x ->
  (set_proc i (set_p_state EMBRYO);;
   set_proc i (set_p_pid (nextpid (pt s)));;
   on_pt (modify (fun t => set_nextpid (s32 (nextpid t + 1)) t));;
   set_proc i (set_p_tgid (nexttgid (pt s)));;
   on_pt (modify (fun t => set_nexttgid (s32 (nexttgid t + 1)) t));;
   mret (Some i)) s =
  Ok (Some i, mkKst (set_nexttgid (s32 (nexttgid (pt s) + 1)) (set_nextpid (s32 (nextpid (pt s) + 1))
    (set_procs (<[i := fresh_slot (pt s) x]> (procs (pt s))) (pt s)))) (kk s) (lks s)).
Proof.
  intros Hx. assert (Hlt : (i < length (procs (pt s)))%nat) by by eapply lookup_lt_Some.
  rewrite (bind_Ok _ _ _ _ _ (set_proc_run _ _ _ _ Hx)).
  set (s1 := mkKst _ _ _).
  assert (Hx1 : procs (pt s1) !! i = Some (set_p_state EMBRYO x)) by by apply list_lookup_insert_eq.
  rewrite (bind_Ok _ _ _ _ _ (set_proc_run _ _ _ _ Hx1)). subst s1. cbn. rewrite list_insert_insert_eq.
  rewrite (bind_Ok _ _ _ _ _ (eq_refl : on_pt (modify _) _ = _)). cbn.
  set (s2 := mkKst (set_nextpid _ _) _ _).
  assert (Hx2 : procs (pt s2) !! i = Some (set_p_pid (nextpid (pt s)) (set_p_state EMBRYO x)))
    by by apply list_lookup_insert_eq.
  rewrite (bind_Ok _ _ _ _ _ (set_proc_run _ _ _ _ Hx2)). subst s2. cbn. by rewrite list_insert_insert_eq.
Qed.

(** Fewer than 2^31 - 1 processes have been created. *)
Definition pids_left (s : ptab) : Prop := 0 < nextpid s < 2 ^ 31 - 1.

(** What [alloc_slot] leaves: with a slot, it is new, and its pid is the
    old [nextpid]. *)
Lemma alloc_inv R E X s i x : inv R E X s -> pids_left s -> procs s !! i = Some x -> p_state x = UNUSED ->
  inv R ((i, 0%nat) :: E) X (set_nexttgid (s32 (nexttgid s + 1)) (set_nextpid (s32 (nextpid s + 1))
    (set_procs (<[i := fresh_slot s x]> (procs s)) s))).
Proof.
  intros HI Hp Hx Hu. pose proof (pi_shape _ _ _ _ _ _ HI _ _ Hx) as (Hq & Ho & Hn).
  eapply (pt_inv_update cfg R R E _ X X s i x (fresh_slot s x)); try done.
  - split; [done|]. intros Hr. apply (pi_run _ _ _ _ _ _ HI _ _ Hx) in Hr. congruence.
  - by intros [?|[?|?]].
  - intros _. apply (pi_dead _ _ _ _ _ _ HI i x Hx). rewrite Hu. by intros [?|[?|?]].
  - intros j st Hj. apply elem_of_cons in Hj as [[= -> ->]|Hj].
    + left. split; [done|]. split_and!; done || (intros; lia).
    + right. eapply (emb_other _ _ _ _ _ _ _ _ _ HI Hx); [congruence|done].
  - intros p Hpx. right. eapply X_other; [done..| |done]. rewrite Hu. by intros [?|?].
  - intros Hm. destruct (pi_mlfq _ _ _ _ _ _ HI Hm) as [ls Hls]. exists ls.
    unfold pids_left in Hp. rewrite (s32_small (nextpid s + 1)) by lia.
    eapply mlfq_inv_ext; [apply (inv_alloc s ls (unqueued X) i x (fresh_slot s x)); try done; lia|done..].
Qed.

Definition alloc_post (R : list nat) (E : list (nat * nat)) (X : option (nat * bool)) (o : option nat) : ptab -> Prop :=
  match o with
  | None => inv R E X
  | Some i => fun s => inv R ((i, 0%nat) :: E) X s /\ forall st, (i, st) ∉ E
  end.

Lemma alloc_slot_tr R E X (k : K) cs h c x :
  (c < length cs)%nat -> calm x -> h LkPtable = None ->
  triple (at_pt (fun s => inv R E X s /\ pids_left s) k (LkC cs h c x)) (alloc_slot c)
    (fun o => at_pt (alloc_post R E X o) k (LkC cs h c x)).
Proof.
  intros Hc H0 Hf. apply section_tr; [done..|].
  intros L s ([HI Hp] & Hk & HL). rewrite (bind_Ok get _ _ _ _ eq_refl).
  destruct (find_state UNUSED (procs (pt s))) as [i|] eqn:Ef.
  - destruct (find_state_some _ _ _ Ef) as (y & Hy & Hu & _).
    rewrite (alloc_body_run s i y Hy). eexists _, _. split; [done|].
    split_and!; [|done..]. split; [by apply alloc_inv|]. intros st Hst.
    destruct (pi_emb _ _ _ _ _ _ HI _ _ Hst) as (p & Hp2 & He & _). congruence.
  - eexists _, _. split; [done|]. by split_and!.
Qed.

(** ** Setting up a new slot *)

(** A run on the private slot [i], which is at stage [st]. *)
Lemma emb_update R E X s i st st' x y :
  inv R ((i, st) :: E) X s -> procs s !! i = Some x -> (forall st2, (i, st2) ∉ E) ->
  p_pid y = p_pid x -> emb_ok cfg st' y ->
  length (p_qticks y) = 5%nat -> length (p_ofile y) = NOFILE -> length (p_name y) = 16%nat ->
  inv R ((i, st') :: E) X (set_procs (<[i := y]> (procs s)) s).
Proof.
  intros HI Hx Hni Hpid He Hq Ho Hn.
  destruct (pi_emb _ _ _ _ _ _ HI i st) as (x0 & Hx0 & He0 & _); [by left|]. simplify_eq.
  pose proof He as (Hs & _).
  eapply (pt_inv_update cfg R R ((i, st) :: E) _ X X s i x y); try done.
  - rewrite Hs. split; [done|]. intros Hr. apply (pi_run _ _ _ _ _ _ HI _ _ Hx) in Hr. congruence.
  - rewrite Hs. by intros [?|[?|?]].
  - intros _. apply (pi_dead _ _ _ _ _ _ HI i x Hx). rewrite He0. by intros [?|[?|?]].
  - intros j st2 Hj. apply elem_of_cons in Hj as [[= -> ->]|Hj]; [by left|].
    right. split; [|by right]. intros ->. by apply (Hni st2).
  - intros p Hpx. right. eapply X_other; [done..| |done]. rewrite He0. by intros [?|?].
  - intros Hm. destruct (pi_mlfq _ _ _ _ _ _ HI Hm) as [ls Hls]. exists ls.
    eapply (inv_update_idle s ls (unqueued X) (unqueued X) i x y Hls Hx); try done; try congruence; auto.
    + eapply (inv_not_queued _ _ _ Hls); [done|congruence].
    + left. split; [done|]. intros E1.
      destruct (mi_X _ _ _ Hls i E1) as (_ & p & Hp & Hr). congruence.
Qed.

(** [f] takes a slot at stage [st] to stage [st']. *)
Definition emb_pres (st st' : nat) (f : proc -> proc) : Prop := forall x,
  emb_ok cfg st x -> length (p_ofile x) = NOFILE -> length (p_name x) = 16%nat -> length (p_qticks x) = 5%nat ->
  emb_ok cfg st' (f x) /\ p_pid (f x) = p_pid x /\ length (p_qticks (f x)) = 5%nat /\
  length (p_ofile (f x)) = NOFILE /\ length (p_name (f x)) = 16%nat.

(** Reading more into the stage of a slot. *)
Lemma pt_inv_stage R E X i st st' s : inv R ((i, st) :: E) X s ->
  (forall x, emb_ok cfg st x -> emb_ok cfg st' x) -> inv R ((i, st') :: E) X s.
Proof.
  intros [H1 H2 H3 H4 H4' H5 H6 H7 H8] Hst. split; try done.
  intros j st2 Hj. apply elem_of_cons in Hj as [[= -> ->]|Hj]; [|apply H6; by right].
  destruct (H6 i st) as (x & Hx & He); [by left|]. eauto.
Qed.

Lemma emb_set_tr R E X i st st' f (k : K) L : (forall st2, (i, st2) ∉ E) -> emb_pres st st' f ->
  triple (at_pt (inv R ((i, st) :: E) X) k L) (set_proc i f)
    (fun _ => at_pt (inv R ((i, st') :: E) X) k L).
Proof.
  intros Hni Hf s (HI & Hk & HL).
  destruct (pi_emb _ _ _ _ _ _ HI i st) as (x & Hx & He); [by left|].
  pose proof (pi_shape _ _ _ _ _ _ HI _ _ Hx) as (Hq & Ho & Hn).
  destruct (Hf x He Ho Hn Hq) as (He' & Hpid & Hq' & Ho' & Hn').
  eexists tt, _. split; [by apply set_proc_run|]. split_and!; [|done..]. by eapply emb_update.
Qed.

Lemma emb_set R E X i st st' f L : (forall st2, (i, st2) ∉ E) -> emb_pres st st' f ->
  post (at_p (K := K) (inv R ((i, st) :: E) X) L) (set_proc i f)
    (fun _ => at_p (inv R ((i, st') :: E) X) L).
Proof.
  intros Hni Hf. eapply (at_p_of_at_pt _ _ (fun _ => _) _ (fun _ => _)). intros k. by apply emb_set_tr.
Qed.

(** Giving the slot back. *)
Lemma emb_drop R E X i st L : (forall st2, (i, st2) ∉ E) ->
  post (at_p (K := K) (inv R ((i, st) :: E) X) L) (set_proc i (set_p_state UNUSED))
    (fun _ => at_p (inv R E X) L).
Proof.
  intros Hni. eapply (at_p_of_at_pt _ _ (fun _ => _) _ (fun _ => _)). intros k s (HI & Hk & HL).
  destruct (pi_emb _ _ _ _ _ _ HI i st) as (x & Hx & He & _); [by left|].
  pose proof (pi_shape _ _ _ _ _ _ HI _ _ Hx) as (Hq & Ho & Hn).
  eexists tt, _. split; [by apply set_proc_run|]. split_and!; [|done..].
  eapply (pt_inv_update cfg R R ((i, st) :: E) E X X (pt s) i x (set_p_state UNUSED x)); try done.
  - split; [done|]. intros Hr. apply (pi_run _ _ _ _ _ _ HI _ _ Hx) in Hr. congruence.
  - by intros [?|[?|?]].
  - intros _. apply (pi_dead _ _ _ _ _ _ HI i x Hx). rewrite He. by intros [?|[?|?]].
  - intros j st2 Hj. right. split; [|by right]. intros ->. by apply (Hni st2).
  - intros p Hpx. right. eapply X_other; [done..| |done]. rewrite He. by intros [?|?].
  - intros Hm. destruct (pi_mlfq _ _ _ _ _ _ HI Hm) as [ls Hls]. exists ls.
    eapply (inv_update_idle (pt s) ls (unqueued X) (unqueued X) i x _ Hls Hx); try done; try congruence; auto.
    + eapply (inv_not_queued _ _ _ Hls); [done|congruence].
    + left. split; [done|]. intros E1.
      destruct (mi_X _ _ _ Hls i E1) as (_ & p & Hp & Hr). congruence.
Qed.

Lemma init_slot_post R E X i L : (forall st, (i, st) ∉ E) ->
  post (at_p (K := K) (inv R ((i, 0%nat) :: E) X) L) (init_slot cfg i)
    (fun b => at_p (inv R (if (b : bool) then (i, 2%nat) :: E else E) X) L).
Proof.
  intros Hni. unfold init_slot. eapply post_bind; [apply post_on_k|]. intros a. simpl.
  destruct (Z.eqb_spec a 0) as [->|Ha].
  - eapply post_bind; [apply (emb_set R E X i 0 0); [done|emb]|intros []; simpl].
    eapply post_bind; [by apply emb_drop|intros []; simpl]. by apply post_ret.
  - eapply post_bind; [apply (emb_set R E X i 0 1); [done|emb]|intros []; simpl].
    do 4 (eapply post_bind; [apply (emb_set R E X i 1 1); [done|emb]|intros []; simpl]).
    eapply post_bind; [apply (post_on_pt _ _ (fun _ => inv R ((i, 1%nat) :: E) X))|intros t; simpl].
    { by intros s b s' Hs [= _ <-]. }
    eapply post_bind; [apply (emb_set R E X i 1 1); [done|emb]|intros []; simpl].
    eapply (post_bind _ _ _ (fun _ => at_p (inv R ((i, 2%nat) :: E) X) L)).
    + unfold when. destruct (mlfq cfg) eqn:Em; [apply emb_set; [done|emb]|].
      apply post_ret. intros s [Hs HL]. split; [|done].
      eapply pt_inv_stage; [done|]. intros x (He & Hk & _). unfold emb_ok. rewrite Em. split_and!; done || (intros; try lia; by apply Hk).
    + intros []; simpl. by apply post_ret.
Qed.

(** ** publish: the new process becomes RUNNABLE *)
Lemma publish_inv R E s i : inv R ((i, 3%nat) :: E) None s -> (forall st, (i, st) ∉ E) -> G i true ->
  exists x, procs s !! i = Some x /\
  let s1 := set_procs (<[i := set_p_state RUNNABLE x]> (procs s)) s in
  if mlfq cfg then exists s', add_proc_to_q i 0 s1 = Ok (1, s') /\ inv R E None s'
  else inv R E None s1.
Proof.
  intros HI Hni Hg. destruct (pi_emb _ _ _ _ _ _ HI i 3%nat) as (x & Hx & He & Hk & Hqu & Hd); [by left|].
  exists x. split; [done|]. intros s1.
  pose proof (pi_shape _ _ _ _ _ _ HI _ _ Hx) as (Hq & Ho & Hn).
  assert (HiR : i ∉ R). { intros Hr. apply (pi_run _ _ _ _ _ _ HI _ _ Hx) in Hr. congruence. }
  assert (HE : forall j st (y : proc), (j, st) ∈ E -> j = i /\ emb_ok cfg st y \/ j <> i /\ (j, st) ∈ (i, 3%nat) :: E).
  { intros j st y Hj. right. split; [|by right]. intros ->. by apply (Hni st). }
  destruct (mlfq cfg) eqn:Em.
  - destruct (pi_mlfq _ _ _ _ _ _ HI Em) as [ls Hls].
    assert (Hm1 : mlfq_inv s1 ls (Some i)).
    { eapply (inv_update_wake s ls i x); try done; try congruence. simpl. rewrite Hqu by (lia || done). lia. }
    assert (Hx1 : procs s1 !! i = Some (set_p_state RUNNABLE x)).
    { apply list_lookup_insert_eq. by eapply lookup_lt_Some. }
    destruct (inv_enqueue s1 ls i _ 0%nat Hm1 Hx1 eq_refl ltac:(unfold NQ; lia)) as (s' & l & _ & Hadd & Hinv' & _ & Hps).
    exists s'. split; [done|]. simpl in Hps. rewrite list_insert_insert_eq in Hps.
    eapply (pt_inv_update cfg R R _ E None None s i x _ s' HI Hx Hps); try done; try live; eauto.
    intros _. split_and!; eauto with lia.
  - eapply (pt_inv_update cfg R R _ E None None s i x (set_p_state RUNNABLE x)); try done; try live; eauto; [|by rewrite Em].
    intros _. split_and!; eauto with lia.
Qed.

Lemma publish_tr R E i (k : K) cs h c x :
  (c < length cs)%nat -> calm x -> h LkPtable = None -> (forall st, (i, st) ∉ E) -> G i true ->
  triple (at_pt (inv R ((i, 3%nat) :: E) None) k (LkC cs h c x)) (publish cfg c i)
    (fun _ => at_pt (inv R E None) k (LkC cs h c x)).
Proof.
  intros Hc H0 Hf Hni Hg. unfold publish.
  apply (section_tr _ _ _ _ Hc H0 Hf (inv R ((i, 3%nat) :: E) None) (fun _ => inv R E None)).
  intros L s (HI & Hk & HL). destruct (publish_inv R E (pt s) i HI Hni Hg) as (y & Hy & Hpub).
  rewrite (bind_Ok _ _ _ _ _ (set_proc_run _ _ _ _ Hy)). unfold when. destruct (mlfq cfg).
  - destruct Hpub as (s' & Hadd & HI'). exists tt, (mkKst s' (kk s) (lks s)). split; [|done].
    unfold mbind, M_bind, on_pt. cbn [pt]. by rewrite Hadd.
  - eexists tt, _. by split.
Qed.

(** ** fork and clone, on the new slot *)
Lemma read_any (P : ptab -> Prop) i L : post (at_p (K := K) P L) (proc_at i) (fun _ => at_p P L).
Proof.
  eapply post_on_pt. intros s a s' Hs E1. unfold get_proc in E1. minv E1.
  unfold deref in E1. by destruct (procs s0 !! i); minv E1.
Qed.

Lemma read_post R E X i L :
  post (at_p (K := K) (inv R E X) L) (proc_at i) (fun _ => at_p (inv R E X) L).
Proof. apply read_any. Qed.

Lemma dup_files_post R E X cur np st L : (forall st, (np, st) ∉ E) ->
  post (at_p (K := K) (inv R ((np, st) :: E) X) L) (dup_files cur np) (fun _ => at_p (inv R ((np, st) :: E) X) L).
Proof.
  intros Hni. unfold dup_files. eapply post_bind.
  - apply post_for_each. intros i _. eapply post_bind; [apply read_post|]. intros cp. simpl.
    eapply post_bind; [apply post_deref; intros a s _ Hs; exact Hs|]. intros [f|]; [|by apply post_ret].
    eapply post_bind; [apply post_on_k|]. intros f'. apply emb_set; [done|].
    intros x He Ho Hn Hq. split_and!; try done; try apply He. simpl. by rewrite length_insert.
  - intros []. eapply post_bind; [apply read_post|]. intros cp. simpl.
    eapply post_bind; [apply post_deref; intros a s _ Hs; exact Hs|]. intros d.
    eapply post_bind; [apply post_on_k|]. intros d'. apply emb_set; [done|emb].
Qed.

Lemma set_name_post R E X np st src L : (forall st, (np, st) ∉ E) ->
  post (at_p (K := K) (inv R ((np, st) :: E) X) L) (set_name np src) (fun _ => at_p (inv R ((np, st) :: E) X) L).
Proof.
  intros Hni s a s' [HI HL] Hrun. unfold set_name in Hrun.
  destruct (pi_emb _ _ _ _ _ _ HI np st) as (x & Hx & He); [by left|].
  rewrite (bind_Ok _ _ _ _ _ (proc_at_run _ _ _ Hx)) in Hrun.
  unfold deref in Hrun. destruct (safestrcpy (p_name x) src 16) as [n|] eqn:En; [|done].
  rewrite (bind_Ok (mret n) _ _ _ _ eq_refl) in Hrun.
  apply safestrcpy_length in En.
  eapply (emb_set R E X np st st (set_p_name n) L Hni); [|by split|exact Hrun].
  intros y Hey Ho Hn Hq. split_and!; try done; try apply Hey. simpl. rewrite En.
  by destruct (pi_shape _ _ _ _ _ _ HI _ _ Hx) as (_ & _ & ?).
Qed.

Lemma fork_body_post R E X cur np L : (forall st, (np, st) ∉ E) ->
  post (at_p (K := K) (inv R ((np, 2%nat) :: E) X) L) (fork_body cur np)
    (fun b => at_p (inv R (if (b : bool) then (np, 3%nat) :: E else E) X) L).
Proof.
  intros Hni. unfold fork_body. eapply post_bind; [apply read_post|]. intros cp. simpl.
  eapply post_bind; [apply post_on_k|]. intros d. simpl.
  destruct (Z.eqb_spec d 0) as [->|Hd].
  - eapply post_bind; [apply (emb_set R E X np 2 2); [done|emb]|intros []; simpl].
    eapply post_bind; [apply read_post|]. intros x. simpl.
    eapply post_bind; [apply post_on_k|]. intros []. simpl.
    eapply post_bind; [apply (emb_set R E X np 2 0); [done|emb]|intros []; simpl].
    eapply post_bind; [by apply emb_drop|intros []; simpl]. by apply post_ret.
  - eapply post_bind; [apply (emb_set R E X np 2 3); [done|emb]|intros []; simpl].
    do 4 (eapply post_bind; [apply (emb_set R E X np 3 3); [done|emb]|intros []; simpl]).
    eapply post_bind; [by apply dup_files_post|intros []; simpl].
    eapply post_bind; [by apply set_name_post|intros []; simpl]. by apply post_ret.
Qed.

(** A RUNNING process has an address space. *)
Lemma read_running R E X cur L : cur ∈ R ->
  post (at_p (K := K) (inv R E X) L) (proc_at cur) (fun x s => at_p (inv R E X) L s /\ p_pgdir x <> 0).
Proof.
  intros Hc s a s' [HI HL] Hrun.
  destruct (slot_at cfg _ _ _ _ _ HI (pi_dom _ _ _ _ _ _ HI _ Hc)) as [x Hx].
  rewrite (proc_at_run _ _ _ Hx) in Hrun. injection Hrun as <- <-. split; [done|].
  apply (pi_run _ _ _ _ _ _ HI _ _ Hx) in Hc.
  eapply (pi_live _ _ _ _ _ _ HI); [done|]. by right; right.
Qed.

Lemma clone_body_post R E X cur np function arg stack L : (forall st, (np, st) ∉ E) -> cur ∈ R ->
  post (at_p (K := K) (inv R ((np, 2%nat) :: E) X) L) (clone_body cur np function arg stack)
    (fun _ => at_p (inv R ((np, 3%nat) :: E) X) L).
Proof.
  intros Hni Hc. unfold clone_body. eapply post_bind; [by apply read_running|]. intros cp. simpl.
  apply post_pure. intros Hd.
  eapply post_bind; [apply (emb_set R E X np 2 2); [done|emb]|intros []; simpl].
  eapply post_bind; [apply (emb_set R E X np 2 3); [done|emb]|intros []; simpl].
  do 4 (eapply post_bind; [apply (emb_set R E X np 3 3); [done|emb]|intros []; simpl]).
  do 2 (eapply post_bind; [apply post_on_k|intros []; simpl]).
  do 5 (eapply post_bind; [apply (emb_set R E X np 3 3); [done|emb]|intros []; simpl]).
  eapply post_bind; [by apply dup_files_post|intros []; simpl]. by apply set_name_post.
Qed.

(** ** Leaving the CPU *)
Definition slot_state (i : nat) (st : procstate) (s : ptab) : Prop :=
  exists x, procs s !! i = Some x /\ p_state x = st.

(** [R] without the process [cur]. *)
Definition minus (R : list nat) (cur : nat) : list nat := filter (fun j => j <> cur) R.

Lemma elem_of_minus R cur j : j ∈ minus R cur <-> j <> cur /\ j ∈ R.
Proof. unfold minus. by rewrite list_elem_of_filter. Qed.

(** A RUNNING process goes to sleep or becomes a zombie. *)
Lemma leave_tr R E cur st (k : K) L : cur ∈ R -> st = SLEEPING \/ st = ZOMBIE -> (st = ZOMBIE -> G cur false) ->
  triple (at_pt (inv R E None) k L) (set_proc cur (set_p_state st))
    (fun _ => at_pt (fun s => inv (minus R cur) E (Some (cur, false)) s /\ slot_state cur st s) k L).
Proof.
  intros Hc Hst Hg s (HI & Hk & HL). pose proof (pi_dom _ _ _ _ _ _ HI _ Hc) as Hlt.
  destruct (slot_at cfg _ _ _ _ _ HI Hlt) as [x Hx].
  pose proof (proj2 (pi_run _ _ _ _ _ _ HI _ _ Hx) Hc) as Hr.
  eexists tt, _. split; [by apply set_proc_run|]. split_and!; try done.
  - eapply (pt_inv_step cfg R _ E None (Some (cur, false)) (pt s) cur x (set_p_state st x)); try done.
    + by rewrite Hr.
    + intros j Hj. rewrite elem_of_minus. naive_solver.
    + rewrite elem_of_minus. simpl. naive_solver.
    + intros _. exact (pi_live _ _ _ _ _ _ HI cur x Hx (or_intror (or_intror Hr))).
    + simpl. destruct Hst as [-> | ->]; [live|auto].
    + intros p [= <-]. left. by split.
    + intros Hm. destruct (pi_mlfq _ _ _ _ _ _ HI Hm) as [ls Hls]. exists ls.
      eapply (inv_update_idle (pt s) ls None None cur x _ Hls Hx); try done.
      * eapply (inv_not_queued _ _ _ Hls); [done|by rewrite Hr].
      * by left.
      * by rewrite Hr.
      * simpl. naive_solver.
      * left. exact (mi_level _ _ _ Hls cur x Hx ltac:(by rewrite Hr) ltac:(by rewrite Hr)).
  - exists (set_p_state st x). split; [|done]. apply list_lookup_insert_eq. by eapply lookup_lt_Some.
Qed.

(** [yield]: RUNNABLE, and not yet queued. *)
Lemma leave_yield_tr R E cur (k : K) L : cur ∈ R ->
  triple (at_pt (inv R E None) k L) (set_proc cur (set_p_state RUNNABLE))
    (fun _ => at_pt (fun s => inv (minus R cur) E (Some (cur, true)) s /\ slot_state cur RUNNABLE s) k L).
Proof.
  intros Hc s (HI & Hk & HL). pose proof (pi_dom _ _ _ _ _ _ HI _ Hc) as Hlt.
  destruct (slot_at cfg _ _ _ _ _ HI Hlt) as [x Hx].
  pose proof (proj2 (pi_run _ _ _ _ _ _ HI _ _ Hx) Hc) as Hr.
  eexists tt, _. split; [by apply set_proc_run|]. split_and!; try done.
  - eapply (pt_inv_step cfg R _ E None (Some (cur, true)) (pt s) cur x (set_p_state RUNNABLE x)); try done.
    + by rewrite Hr.
    + intros j Hj. rewrite elem_of_minus. naive_solver.
    + rewrite elem_of_minus. simpl. naive_solver.
    + intros _. exact (pi_live _ _ _ _ _ _ HI cur x Hx (or_intror (or_intror Hr))).
    + live.
    + intros Hm. destruct (pi_mlfq _ _ _ _ _ _ HI Hm) as [ls Hls]. exists ls.
      eapply (inv_update_wake (pt s) ls cur x); try done; try by rewrite Hr.
      exact (mi_level _ _ _ Hls cur x Hx ltac:(by rewrite Hr) ltac:(by rewrite Hr)).
  - exists (set_p_state RUNNABLE x). split; [|done]. apply list_lookup_insert_eq. by eapply lookup_lt_Some.
Qed.

Lemma set_slot_tr R E X i f st (k : K) L : (forall x, neutral x (f x)) ->
  triple (at_pt (fun s => inv R E X s /\ slot_state i st s) k L) (set_proc i f)
    (fun _ => at_pt (fun s => inv R E X s /\ slot_state i st s) k L).
Proof.
  intros Hf s ([HI (x & Hx & Hs)] & Hk & HL). eexists tt, _. split; [by apply set_proc_run|].
  split_and!; try done; [by eapply pt_inv_neutral|]. exists (f x).
  split; [apply list_lookup_insert_eq; by eapply lookup_lt_Some|].
  by destruct (Hf x) as ((-> & _) & _).
Qed.

(** [sched]'s checks pass with [ptable.lock] as the only lock. *)
Lemma sched_tr (P : ptab -> Prop) cur st (k : K) cs h c x :
  cs !! c = Some x -> nest_ok x -> c_ncli x = 1 -> h LkPtable = Some c -> st <> RUNNING ->
  triple (at_pt (fun s => P s /\ slot_state cur st s) k (Lk cs h)) (sched c cur)
    (fun i s => at_pt (fun s => P s /\ slot_state cur st s) k (Lk cs h) s /\ i = c_intena x).
Proof.
  intros Hc Hn H1 Hh Hst s ([HP (p & Hp & Hps)] & Hk & HL). pose proof HL as (Ecs & Hd & Hl).
  unfold sched. pose proof Hc as Hc'. rewrite <- Ecs in Hc'.
  pose proof (holding_run _ _ _ Hc' Hd Hn LkPtable ltac:(lia)) as Hhold.
  rewrite settled_nested, (upd_cpus_id _ _ _ Hc'), Hl, Hh in Hhold by lia.
  assert (Hoff : c_if x = false) by (apply Hn; lia).
  assert (Hlift : forall A (m : M lockst A) a, m (lks s) = Ok (a, lks s) -> on_l m s = Ok (a, s)).
  { intros A m a E. unfold on_l. rewrite E. by destruct s. }
  rewrite (bind_Ok _ _ _ _ _ (Hlift _ _ _ Hhold)). simpl. rewrite bool_decide_eq_true_2 by done. simpl.
  rewrite (bind_Ok _ _ _ _ _ (Hlift _ _ _ (mycpu_run _ _ _ Hc' Hoff Hd))).
  rewrite (bind_Ok _ _ _ _ _ (Hlift _ _ _ (cpu_at_run _ _ _ Hc'))). rewrite H1. simpl.
  rewrite (bind_Ok _ _ _ _ _ (proc_at_run _ _ _ Hp)). rewrite decide_False by congruence.
  rewrite (bind_Ok _ _ s false s).
  - exists (c_intena x), s. split; [done|]. split; [|done]. split_and!; try done. by exists p.
  - apply Hlift. unfold readeflags_if. rewrite (bind_Ok _ _ _ _ _ (cpu_at_run _ _ _ Hc')). by rewrite Hoff.
Qed.

(** ** exit, outside [ptable.lock] *)
Section Unlocked.
Context (R : list nat) (E : list (nat * nat)) (cs : list cpu) (h : lockid -> option nat) (c : nat) (x : cpu).
Context (Hlt : (c < length cs)%nat) (H0 : calm x) (Hf : h LkPtable = None).

Lemma wakeup_tr ch (k : K) :
  triple (at_pt (inv R E None) k (LkC cs h c x)) (wakeup cfg c ch)
    (fun _ => at_pt (inv R E None) k (LkC cs h c x)).
Proof using Hlt H0 Hf.
  apply (section_tr _ _ _ _ Hlt H0 Hf (inv R E None) (fun _ => inv R E None)). intros L. apply wakeup1_tr.
Qed.

Lemma kill_tr pid (k : K) :
  triple (at_pt (inv R E None) k (LkC cs h c x)) (kill cfg c pid)
    (fun _ => at_pt (inv R E None) k (LkC cs h c x)).
Proof using Hlt H0 Hf.
  apply (section_tr _ _ _ _ Hlt H0 Hf (inv R E None) (fun _ => inv R E None)). intros L. apply kill_body_tr.
Qed.

Lemma wake_all_post l :
  post (at_p (K := K) (inv R E None) (LkC cs h c x)) (wake_all cfg c l)
    (fun _ => at_p (inv R E None) (LkC cs h c x)).
Proof using Hlt H0 Hf.
  apply post_for_each. intros ch _. apply (at_p_of_at_pt _ _ (fun _ => _) _ (fun _ => _)).
  intros k. apply wakeup_tr.
Qed.

Lemma set_running_post X cur f : cur ∈ R -> (forall y, neutral y (f y)) ->
  post (at_p (K := K) (inv R E X) (LkC cs h c x)) (set_proc cur f)
    (fun _ => at_p (inv R E X) (LkC cs h c x)).
Proof using.
  intros Hc Hn. apply (at_p_of_at_pt _ _ (fun _ => _) _ (fun _ => _)). intros k. by apply set_running_tr.
Qed.

Lemma close_file_post X cur fd :
  post (at_p (K := K) (inv R E X) (LkC cs h c x)) (close_file cur fd)
    (fun _ => at_p (inv R E X) (LkC cs h c x)).
Proof using.
  unfold close_file. eapply post_bind; [apply read_post|intros cp; simpl].
  eapply post_bind; [apply post_deref; intros a s _ Hs; exact Hs|]. intros [f|]; [|by apply post_ret].
  eapply post_bind; [apply post_on_k|intros w; simpl]. by apply post_ret.
Qed.

Lemma clear_file_post X cur fd : cur ∈ R ->
  post (at_p (K := K) (inv R E X) (LkC cs h c x)) (clear_file cur fd)
    (fun _ => at_p (inv R E X) (LkC cs h c x)).
Proof using.
  intros Hc. apply set_running_post; [done|]. intros y. split_and!; try done. simpl. by rewrite length_insert.
Qed.

Lemma put_cwd_post X cur :
  post (at_p (K := K) (inv R E X) (LkC cs h c x)) (put_cwd cur)
    (fun _ => at_p (inv R E X) (LkC cs h c x)).
Proof using.
  unfold put_cwd. eapply post_bind; [apply read_post|intros cp; simpl].
  eapply post_bind; [apply post_deref; intros a s _ Hs; exact Hs|]. intros d. apply post_on_k.
Qed.
End Unlocked.

(** ** Reaping a zombie *)
Section Reap.
Context (R : list nat) (E : list (nat * nat)) (i : nat) (L : lockst -> Prop).

#[local] Abbreviation zombie := (fun s => inv R E None s /\ slot_state i ZOMBIE s).

Lemma read_zombie j : post (at_p (K := K) zombie L) (proc_at j) (fun _ => at_p zombie L).
Proof using. apply read_any. Qed.

Lemma zombie_set f : (forall x, same_sched x (f x) /\ p_qticks (f x) = p_qticks x /\
    p_ofile (f x) = p_ofile x /\ length (p_name (f x)) = length (p_name x)) ->
  post (at_p (K := K) zombie L) (set_proc i f) (fun _ => at_p zombie L).
Proof using.
  intros Hf. apply (at_p_of_at_pt _ _ (fun _ => _) _ (fun _ => _)). intros k s ([HI (x & Hx & Hz)] & Hk & HL).
  destruct (Hf x) as (Hsame & Hq & Ho & Hn). pose proof Hsame as (Hst & _).
  eexists tt, _. split; [by apply set_proc_run|]. split_and!; try done.
  - eapply (pt_inv_step cfg R R E None None (pt s) i x (f x)); try done; rewrite ?Hst, ?Hz; try done.
    + split; [done|]. intros Hr. apply (pi_run _ _ _ _ _ _ HI _ _ Hx) in Hr. congruence.
    + by intros [?|[?|?]].
    + intros _. apply (pi_dead _ _ _ _ _ _ HI i x Hx). rewrite Hz. by intros [?|[?|?]].
    + intros Hm. destruct (pi_mlfq _ _ _ _ _ _ HI Hm) as [ls Hls]. exists ls. by eapply inv_update_same.
  - exists (f x). split; [apply list_lookup_insert_eq; by eapply lookup_lt_Some|congruence].
Qed.

(** [remove_proc_from_q] does not find the zombie; the slot is cleared. *)
Lemma zombie_free f : (forall x, p_state (f x) = UNUSED /\ p_qticks (f x) = p_qticks x /\
    p_ofile (f x) = p_ofile x /\ length (p_name (f x)) = length (p_name x)) ->
  forall s, zombie s -> exists x, procs s !! i = Some x /\
    forall y, y = x \/ y = set_p_queue (-1) x -> inv R E None (set_procs (<[i := f y]> (procs s)) s).
Proof using.
  intros Hf s [HI (x & Hx & Hz)]. exists x. split; [done|]. intros y Hy.
  destruct (Hf y) as (Hst & Hq & Ho & Hn).
  eapply (pt_inv_step cfg R R E None None s i x (f y)); try done; rewrite ?Hst, ?Hz; try done.
  - split; [done|]. intros Hr. apply (pi_run _ _ _ _ _ _ HI _ _ Hx) in Hr. congruence.
  - by intros [?|[?|?]].
  - intros _. apply (pi_dead _ _ _ _ _ _ HI i x Hx). rewrite Hz. by intros [?|[?|?]].
  - rewrite Hq. by destruct Hy as [-> | ->].
  - rewrite Ho. by destruct Hy as [-> | ->].
  - rewrite Hn. by destruct Hy as [-> | ->].
  - intros Hm. destruct (pi_mlfq _ _ _ _ _ _ HI Hm) as [ls Hls]. exists ls.
    eapply inv_update_free; [done..|congruence|done].
Qed.

Lemma free_post f : (forall x, p_state (f x) = UNUSED /\ p_qticks (f x) = p_qticks x /\
    p_ofile (f x) = p_ofile x /\ length (p_name (f x)) = length (p_name x)) ->
  post (at_p (K := K) zombie L) (set_proc i f) (fun _ => at_p (inv R E None) L).
Proof using.
  intros Hf. apply (at_p_of_at_pt _ _ (fun _ => _) _ (fun _ => _)). intros k s (Hz & Hk & HL).
  destruct (zombie_free f Hf _ Hz) as (x & Hx & Hfree).
  eexists tt, _. split; [by apply set_proc_run|]. split_and!; [|done..]. apply Hfree. by left.
Qed.

Lemma leave_free_post f (v : Z) : (forall x, p_state (f x) = UNUSED /\ p_qticks (f x) = p_qticks x /\
    p_ofile (f x) = p_ofile x /\ length (p_name (f x)) = length (p_name x)) ->
  post (at_p (K := K) zombie L) (leave_queue cfg i;; set_proc i f;; mret v)
    (fun _ => at_p (inv R E None) L).
Proof using.
  intros Hf. unfold leave_queue, when. destruct (mlfq cfg) eqn:Em.
  2: { eapply (post_bind _ _ _ (fun _ => at_p zombie L)); [by apply post_ret|intros []].
       eapply post_bind; [by apply free_post|intros []; by apply post_ret]. }
  apply (at_p_of_at_pt _ _ (fun _ => _) _ (fun _ => _)). intros k s (Hz & Hk & HL).
  destruct (zombie_free f Hf _ Hz) as (x & Hx & Hfree). destruct Hz as [HI (x' & Hx' & Hz)].
  assert (x' = x) as -> by congruence.
  destruct (pi_mlfq _ _ _ _ _ _ HI Em) as [ls Hls].
  destruct (level_nat (p_queue x)) as (q & Eq & Hq); [eapply (mi_level _ _ _ Hls); [done|congruence..]|].
  pose proof (inv_remove_absent _ _ _ i x q Hls Hx ltac:(congruence)
    (inv_not_queued _ _ _ Hls _ _ Hx ltac:(congruence)) Hq) as Hrem.
  eexists v, _. split.
  { unfold mbind, M_bind. rewrite (proc_at_run _ _ _ Hx). unfold on_pt. rewrite Eq, Hrem.
    set (s1 := mkKst _ _ _). rewrite (set_proc_run s1 i x _ Hx).
    rewrite (set_proc_run _ i (set_p_queue (-1) x)); [done|].
    apply list_lookup_insert_eq. by eapply lookup_lt_Some. }
  split_and!; [|done..]. simpl. rewrite list_insert_insert_eq. apply Hfree. by right.
Qed.

Lemma wait_reap_post : post (at_p (K := K) zombie L) (wait_reap cfg i) (fun _ => at_p (inv R E None) L).
Proof using.
  unfold wait_reap. eapply post_bind; [apply read_zombie|intros x; simpl].
  eapply post_bind; [apply post_on_k|intros []; simpl].
  eapply post_bind; [by apply zombie_set|intros []; simpl].
  eapply post_bind; [apply post_on_k|intros []; simpl].
  apply leave_free_post. intros y. split_and!; try done. simpl. by rewrite length_insert.
Qed.

Lemma waitx_reap_post cur wtime rtime :
  post (at_p (K := K) zombie L) (waitx_reap cfg cur wtime rtime i) (fun _ => at_p (inv R E None) L).
Proof using.
  unfold waitx_reap. do 2 (eapply post_bind; [apply read_zombie|intros ?; simpl]).
  do 3 (eapply post_bind; [apply post_on_k|intros []; simpl]).
  eapply post_bind; [by apply zombie_set|intros []; simpl].
  eapply post_bind; [apply post_on_k|intros []; simpl].
  apply leave_free_post. intros y. split_and!; try done. simpl. by rewrite length_insert.
Qed.

Lemma join_reap_post cur stackp :
  post (at_p (K := K) zombie L) (join_reap cur stackp i) (fun _ => at_p (inv R E None) L).
Proof using.
  unfold join_reap. do 2 (eapply post_bind; [apply read_zombie|intros ?; simpl]).
  eapply post_bind; [apply post_on_k|intros []; simpl].
  eapply post_bind; [by apply zombie_set|intros []; simpl].
  eapply post_bind; [apply post_on_k|intros []; simpl].
  eapply post_bind; [by apply zombie_set|intros []; simpl].
  eapply post_bind; [apply free_post|intros []; by apply post_ret].
  intros y. split_and!; try done. simpl. by rewrite length_insert.
Qed.
End Reap.

Section Leave.
Context (R : list nat) (E : list (nat * nat)) (cur : nat) (k : K) (cs : list cpu)
  (h : lockid -> option nat) (c : nat) (x : cpu).
Context (Hcur : cur ∈ R) (Hc : cs !! c = Some x) (Hn : nest_ok x).

Lemma pushed_at : <[c := pushed x]> cs !! c = Some (pushed x).
Proof using Hc. apply list_lookup_insert_eq. by eapply lookup_lt_Some. Qed.

Lemma yield_tr : c_ncli x = 0 -> h LkPtable = None ->
  triple (at_pt (inv R E None) k (Lk cs h)) (yield c cur)
    (fun i s => at_pt (fun s => inv (minus R cur) E (Some (cur, true)) s /\ slot_state cur RUNNABLE s) k
                  (Lk (<[c := pushed x]> cs) (<[LkPtable := Some c]> h)) s /\ i = c_if x).
Proof using Hcur Hc Hn.
  intros H0 Hf. unfold yield.
  eapply triple_bind; [apply (lock_tr _ k cs h c x Hc Hn ltac:(lia) LkPtable Hf)|intros []; simpl].
  eapply triple_bind; [by apply leave_yield_tr|intros []; simpl].
  eapply triple_consequence; [eapply (sched_tr _ cur RUNNABLE k _ _ c (pushed x) pushed_at)|done|].
  - apply nest_pushed; [done|lia].
  - simpl. lia.
  - by rewrite fn_lookup_insert.
  - done.
  - intros i s [? ->]. simpl. by rewrite H0.
Qed.

(** [sleep] under another lock: that lock is handed over to
    [ptable.lock]. *)
Lemma sleep_tr ch lk : lk <> LkPtable -> c_ncli x = 1 -> h LkPtable = None -> h lk = Some c ->
  triple (at_pt (inv R E None) k (Lk cs h)) (sleep c cur ch lk)
    (fun i s => at_pt (fun s => inv (minus R cur) E (Some (cur, false)) s /\ slot_state cur SLEEPING s) k
                  (Lk cs (<[lk := None]> (<[LkPtable := Some c]> h))) s /\ i = c_intena x).
Proof using Hcur Hc Hn.
  intros Hne H1 Hf Hh. unfold sleep. rewrite decide_False by done.
  eapply (triple_bind _ _ _ (fun _ => at_pt (inv R E None) k (Lk cs (<[lk := None]> (<[LkPtable := Some c]> h))))).
  - eapply triple_bind; [apply (lock_tr _ k cs h c x Hc Hn ltac:(lia) LkPtable Hf)|intros []; simpl].
    eapply triple_consequence; [apply (unlock_tr (inv R E None) k (<[c := pushed x]> cs) (<[LkPtable := Some c]> h) c (pushed x) pushed_at)|done|].
    + apply nest_pushed; [done|lia].
    + simpl. lia.
    + by rewrite fn_lookup_insert_ne.
    + simpl. lia.
    + intros [] s. rewrite list_insert_insert_eq, popped_pushed, settled_nested by (done || lia).
      by rewrite list_insert_id.
  - intros []. eapply triple_bind; [by apply set_running_tr|intros []; simpl].
    eapply triple_bind; [apply leave_tr; auto; done|intros []; simpl].
    eapply (sched_tr _ cur SLEEPING k _ _ c x Hc Hn H1); [|done].
    rewrite fn_lookup_insert_ne by done. by rewrite fn_lookup_insert.
Qed.

Lemma sleep_ptable_tr ch : c_ncli x = 1 -> h LkPtable = Some c ->
  triple (at_pt (inv R E None) k (Lk cs h)) (sleep c cur ch LkPtable)
    (fun i s => at_pt (fun s => inv (minus R cur) E (Some (cur, false)) s /\ slot_state cur SLEEPING s) k (Lk cs h) s /\ i = c_intena x).
Proof using Hcur Hc Hn.
  intros H1 Hh. unfold sleep. rewrite decide_True by done.
  eapply (triple_bind _ _ _ (fun _ => at_pt (inv R E None) k (Lk cs h))); [by apply triple_ret|intros []; simpl].
  eapply triple_bind; [by apply set_running_tr|intros []; simpl].
  eapply triple_bind; [apply leave_tr; auto; done|intros []; simpl].
  by eapply (sched_tr _ cur SLEEPING k _ _ c x Hc Hn H1).
Qed.

(** The critical section of [exit]. *)
Lemma exit_zombie_tr : c_ncli x = 0 -> h LkPtable = None -> G cur false ->
  triple (at_pt (inv R E None) k (Lk cs h)) (exit_zombie cfg c cur)
    (fun i s => at_pt (fun s => inv (minus R cur) E (Some (cur, false)) s /\ slot_state cur ZOMBIE s) k
                  (Lk (<[c := pushed x]> cs) (<[LkPtable := Some c]> h)) s /\ i = c_if x).
Proof using Hcur Hc Hn.
  intros H0 Hf Hg. unfold exit_zombie. set (L' := Lk (<[c := pushed x]> cs) (<[LkPtable := Some c]> h)).
  eapply triple_bind; [apply (lock_tr _ k cs h c x Hc Hn ltac:(lia) LkPtable Hf)|intros []; simpl].
  eapply (triple_bind _ _ _ (fun _ => at_pt (inv R E None) k L')).
  { intros s Hs. pose proof Hs as [HI _].
    destruct (slot_at cfg _ _ _ _ _ HI (pi_dom _ _ _ _ _ _ HI _ Hcur)) as [y Hy].
    exists y, s. split; [by apply proc_at_run|exact Hs]. }
  intros cp. eapply triple_bind; [apply wakeup1_tr|intros []; simpl].
  eapply (triple_bind _ _ _ (fun _ => at_pt (inv R E None) k L')).
  { apply triple_for_each. intros i Hi. apply elem_of_seq in Hi.
    eapply (triple_bind _ _ _ (fun _ => at_pt (inv R E None) k L')).
    { eapply triple_consequence; [apply (proc_at_tr cfg (G := G) R E None i k L'); lia|done|].
      intros y s ([? _] & ? & ?). done. }
    intros y. case_decide; [|by apply triple_ret].
    eapply (triple_bind _ _ _ (fun _ => at_pt (inv R E None) k L')); [intros s Hs; by exists (initproc (pt s)), s; destruct s|].
    intros ip. eapply triple_bind; [apply set_proc_neutral; [lia|done]|intros []; simpl].
    case_decide; [apply wakeup1_tr|by apply triple_ret]. }
  intros []. eapply triple_bind; [apply leave_tr; auto|intros []; simpl].
  set (P := fun s => inv (minus R cur) E (Some (cur, false)) s /\ slot_state cur ZOMBIE s).
  eapply (triple_bind _ _ _ (fun _ => at_pt P k L')); [intros s Hs; by exists (ticks (pt s)), s; destruct s|intros t; simpl].
  do 2 (eapply triple_bind; [by apply set_slot_tr|intros []; simpl]).
  eapply (triple_bind _ _ _ (fun _ => at_pt P k L')).
  { intros s Hs. pose proof Hs as [[_ (y & Hy & _)] _]. exists y, s. split; [by apply proc_at_run|exact Hs]. }
  intros y. eapply triple_bind; [apply (cprintf_tr P); [by vm_compute|]|intros []; simpl].
  { intros s o [HI Hs]. split; [by eapply pt_inv_ext|done]. }
  eapply triple_consequence; [apply (sched_tr (inv (minus R cur) E (Some (cur, false))) cur ZOMBIE k (<[c := pushed x]> cs)
    (<[LkPtable := Some c]> h) c (pushed x) pushed_at)|done|].
  - apply nest_pushed; [done|lia].
  - simpl. lia.
  - by rewrite fn_lookup_insert.
  - done.
  - intros i s [? ->]. simpl. by rewrite H0.
Qed.

(** ** wait, waitx, join *)
Definition wait_post (e : wait_end) (s : kst K) : Prop :=
  match e with
  | WaitSleep => at_p (inv R E None) (Lk cs h) s
  | _ => at_p (inv R E None) (Lk (<[c := popped x]> cs) (<[LkPtable := None]> h)) s
  end.

Lemma unlock_post (P : ptab -> Prop) : c_ncli x = 1 -> h LkPtable = Some c ->
  post (at_p (K := K) P (Lk cs h)) (unlock c LkPtable)
    (fun _ => at_p P (Lk (<[c := popped x]> cs) (<[LkPtable := None]> h))).
Proof using Hc Hn.
  intros H1 Hh. apply (at_p_of_at_pt _ _ (fun _ => _) _ (fun _ => _)). intros k'.
  apply (unlock_tr P k' cs h c x Hc Hn ltac:(lia) LkPtable Hh ltac:(lia)).
Qed.

Lemma wait_pass_post kid reap : c_ncli x = 1 -> h LkPtable = Some c ->
  (forall i, post (at_p (fun s => inv R E None s /\ slot_state i ZOMBIE s) (Lk cs h)) (reap i)
               (fun _ => at_p (inv R E None) (Lk cs h))) ->
  post (at_p (inv R E None) (Lk cs h)) (wait_pass c cur kid reap) wait_post.
Proof using Hc Hn.
  intros H1 Hh Hreap. unfold wait_pass.
  eapply post_bind; [apply read_post|intros cp; simpl].
  eapply (post_bind _ _ _ (fun _ => at_p (inv R E None) (Lk cs h))); [by intros s a s' Hs [= <- <-]|].
  intros s0. eapply (post_bind _ _ _ (fun r s => at_p (inv R E None) (Lk cs h) s)).
  - eapply post_consequence; [apply (post_for_until _ _ (at_p (inv R E None) (Lk cs h))
      (fun _ => at_p (inv R E None) (Lk cs h)))|done|by intros [v|]].
    intros i _ s a s' Hs Hrun. apply bind_inv in Hrun as (y & s1 & Hy & Hrun).
    pose proof (read_post _ _ _ _ _ _ _ _ Hs Hy) as Hs1.
    assert (procs (pt s) !! i = Some y /\ s1 = s) as [Hyi ->].
    { unfold proc_at, on_pt in Hy. destruct (get_proc i (pt s)) as [[]| |] eqn:Eg; simplify_eq.
      unfold get_proc in Eg. minv Eg. unfold deref in Eg. destruct (procs _ !! i) eqn:Ei; minv Eg.
      by destruct s. }
    destruct (negb (kid cp y)); [by apply ret_inv in Hrun as [-> ->]|].
    case_decide as Hz; [|by apply ret_inv in Hrun as [-> ->]].
    apply bind_inv in Hrun as (v & s2 & Hv & Hrun). apply ret_inv in Hrun as [-> ->].
    eapply (Hreap i); [|exact Hv]. destruct Hs as [HI HL]. split; [|done]. split; [done|]. by exists y.
  - intros [pid|].
    + eapply post_bind; [by apply unlock_post|intros []]. by apply post_ret.
    + destruct (_ || _); [|by apply post_ret].
      eapply post_bind; [by apply unlock_post|intros []]. by apply post_ret.
Qed.

Lemma call_pass_post w : c_ncli x = 1 -> h LkPtable = Some c ->
  post (at_p (inv R E None) (Lk cs h)) (call_pass cfg c cur w) wait_post.
Proof using Hc Hn.
  intros H1 Hh. destruct w; apply wait_pass_post; try done; intros i;
    [apply wait_reap_post|apply waitx_reap_post|apply join_reap_post].
Qed.

(** A pass either returns with the lock free, or leaves the caller asleep
    in [sched]. *)
Definition loop_post (r : wait_end + bool) (s : kst K) : Prop :=
  match r with
  | inl e => at_p (inv R E None) (Lk (<[c := popped x]> cs) (<[LkPtable := None]> h)) s
  | inr i => at_p (fun s => inv (minus R cur) E (Some (cur, false)) s /\ slot_state cur SLEEPING s) (Lk cs h) s /\ i = c_intena x
  end.

End Leave.

Lemma wait_loop_post R E cur cs h c x w :
  cur ∈ R -> cs !! c = Some x -> nest_ok x -> c_ncli x = 1 -> h LkPtable = Some c ->
  post (at_p (inv R E None) (Lk cs h)) (wait_loop cfg c cur w) (loop_post R E cur cs h c x).
Proof.
  intros Hcur Hc Hn H1 Hh. unfold wait_loop. eapply post_bind; [by apply call_pass_post|].
  intros [pid| |]; [by apply post_ret ..|]. simpl.
  intros s r s' [HI HL] Hrun. apply bind_inv in Hrun as (i & s1 & Hsl & Hrun).
  apply ret_inv in Hrun as [-> ->]. simpl.
  destruct (sleep_ptable_tr R E cur (kk s) cs h c x Hcur Hc Hn (ChanProc cur) H1 Hh s)
    as (i' & s2 & E2 & (HI2 & _ & HL2) & Ei); [done|].
  rewrite Hsl in E2. by injection E2 as <- <-.
Qed.
End Life.
