(* ===== verification/ProcThms.v ===== *)
(** * What the process system calls do

    [fork] and [clone] build the new process the way their callers expect,
    [kill] marks the process it names, [exit] reparents the children, and
    the behaviour of [wait] and [growproc] with threads. *)

From stdpp Require Import prelude strings functions.
From S2P Require Import Prelude CString Console Spinlock ProcData Queue Mlfq Kalloc Proc Sched Inv Lifecycle.

Open Scope Z_scope.

#[local] Arguments for_each : simpl never.
#[local] Arguments for_until : simpl never.
#[local] Arguments seq : simpl never.

Section Slots.
Context {K : Type} {KS : KernelSvc K} (cfg : config) (c : nat).

(** Slot [np] satisfies [phi], and the record of [cur] is [cp]. *)
Definition child (cur np : nat) (cp : proc) (phi : proc -> Prop) (t : ptab) : Prop :=
  procs t !! cur = Some cp /\ exists x, procs t !! np = Some x /\ phi x.

Definition childk (cur np : nat) (cp : proc) (phi : proc -> Prop) (s : kst K) : Prop := child cur np cp phi (pt s).

Section Child.
Context (cur np : nat) (cp : proc).

Lemma child_upd t phi psi f : cur <> np -> (forall x, phi x -> psi (f x)) -> child cur np cp phi t ->
  forall y, procs t !! np = Some y -> child cur np cp psi (set_procs (<[np := f y]> (procs t)) t).
Proof using.
  intros Hne Hf [Hc (x & Hx & Hphi)] y Hy. simplify_eq. split; simpl.
  - by rewrite list_lookup_insert_ne.
  - exists (f x). rewrite list_lookup_insert_eq by by eapply lookup_lt_Some. auto.
Qed.

Lemma child_set phi psi f : cur <> np -> (forall x, phi x -> psi (f x)) ->
  post (childk cur np cp phi) (set_proc np f) (fun _ => childk cur np cp psi).
Proof using.
  intros Hne Hf s [] s' Hs Hrun. pose proof Hs as [_ (x & Hx & _)].
  rewrite (set_proc_run _ _ _ _ Hx) in Hrun. injection Hrun as <-. unfold childk. simpl. by eapply child_upd.
Qed.

Lemma child_k {A} phi (m : M K A) : post (childk cur np cp phi) (on_k m) (fun _ => childk cur np cp phi).
Proof using. intros s a s' Hs Hrun. unfold on_k in Hrun. by destruct (m (kk s)) as [[? ?]| |]; simplify_eq. Qed.

Lemma child_l {A} phi (m : M lockst A) : post (childk cur np cp phi) (on_l m) (fun _ => childk cur np cp phi).
Proof using. intros s a s' Hs Hrun. unfold on_l in Hrun. by destruct (m (lks s)) as [[? ?]| |]; simplify_eq. Qed.

Lemma read_same j (s s' : kst K) x : proc_at j s = Ok (x, s') -> s' = s /\ procs (pt s) !! j = Some x.
Proof using.
  unfold proc_at, on_pt, get_proc, mbind, M_bind, get, deref. destruct (procs (pt s) !! j) eqn:E; [|done].
  intros H. unfold mret, M_ret in H. simplify_eq. by destruct s.
Qed.

Lemma child_read phi j : post (childk cur np cp phi) (proc_at j)
  (fun x s => childk cur np cp phi s /\ (j = cur -> x = cp) /\ (j = np -> phi x)).
Proof using.
  intros s x s' Hs [-> Hx]%read_same. split; [done|]. destruct Hs as [Hc (y & Hy & Hphi)].
  split; intros ->; congruence.
Qed.

Lemma child_with_cur {A} phi (k : proc -> M (kst K) A) Q :
  post (childk cur np cp phi) (k cp) Q -> post (childk cur np cp phi) (x ← proc_at cur; k x) Q.
Proof using.
  intros H s a s' Hs Hrun. apply bind_inv in Hrun as (x & s1 & [-> Hx]%read_same & Hrun).
  destruct Hs as [Hc Hnp]. assert (x = cp) as -> by congruence. by eapply H; [split|].
Qed.

Lemma child_pt {A} phi psi (m : M ptab A) : post (child cur np cp phi) m (fun _ => child cur np cp psi) ->
  post (childk cur np cp phi) (on_pt m) (fun _ => childk cur np cp psi).
Proof using.
  intros H s a s' Hs Hrun. unfold on_pt in Hrun. destruct (m (pt s)) as [[b p']| |] eqn:Em; simplify_eq. by eapply H.
Qed.

(** Queue operations leave the records alone, apart from the two fields
    [add_proc_to_q] sets. *)
Lemma child_globals phi t t' : procs t' = procs t -> child cur np cp phi t -> child cur np cp phi t'.
Proof using. intros E. unfold child. by rewrite E. Qed.

Lemma child_get phi : post (child cur np cp phi) get (fun _ => child cur np cp phi).
Proof using. by intros s a s' Hs [= <- <-]. Qed.

Lemma child_modify phi f : (forall t, procs (f t) = procs t) ->
  post (child cur np cp phi) (modify f) (fun _ => child cur np cp phi).
Proof using. intros Hf s [] s' Hs [= <-]. eapply child_globals; [apply Hf|done]. Qed.

Lemma child_deref {A} phi (o : option A) : post (child cur np cp phi) (deref o) (fun _ => child cur np cp phi).
Proof using. apply post_deref. by intros a s _ Hs. Qed.

Lemma child_gets {A} phi psi (k : ptab -> M ptab A) :
  (forall t, post (child cur np cp phi) (k t) (fun _ => child cur np cp psi)) ->
  post (child cur np cp phi) (t ← get; k t) (fun _ => child cur np cp psi).
Proof using. intros H. eapply post_bind; [apply child_get|]. apply H. Qed.

Lemma child_tail phi q v : post (child cur np cp phi) (set_tail q v) (fun _ => child cur np cp phi).
Proof using. apply child_gets. intros t. eapply post_bind; [apply child_deref|intros l]. by apply child_modify. Qed.

Lemma child_cell phi q i v : post (child cur np cp phi) (set_cell q i v) (fun _ => child cur np cp phi).
Proof using.
  apply child_gets. intros t. do 3 (eapply post_bind; [apply child_deref|intros ?]). by apply child_modify.
Qed.

Lemma child_get_proc phi j : post (child cur np cp phi) (get_proc j) (fun _ => child cur np cp phi).
Proof using. apply child_gets. intros t. apply child_deref. Qed.

Lemma child_upd_proc phi psi f : cur <> np -> (forall x, phi x -> psi (f x)) ->
  post (child cur np cp phi) (upd_proc np f) (fun _ => child cur np cp psi).
Proof using.
  intros Hne Hf s [] s' Hs Hrun. pose proof Hs as [_ (x & Hx & _)].
  rewrite (upd_proc_run _ _ _ _ Hx) in Hrun. injection Hrun as <-. by eapply child_upd.
Qed.

Lemma child_add phi q : cur <> np -> (forall x v, phi x -> phi (set_p_enter v x)) -> (forall x v, phi x -> phi (set_p_queue v x)) ->
  post (child cur np cp phi) (add_proc_to_q np q) (fun _ => child cur np cp phi).
Proof using.
  intros Hne He Hq. unfold add_proc_to_q, tail_of.
  eapply post_bind; [apply child_gets; intros t; apply child_deref|intros tl; simpl].
  eapply post_bind; [apply child_get_proc|intros pp; simpl].
  eapply (post_bind _ _ _ (fun _ => child cur np cp phi)).
  - unfold find_pid. eapply post_consequence; [apply (post_for_until _ _ (child cur np cp phi) (fun _ => child cur np cp phi))|done|by intros [?|] s].
    intros i _. unfold queue_pid, queue_cell.
    eapply (post_bind _ _ _ (fun _ => child cur np cp phi)); [|intros x; apply post_ret; intros s Hs; by case_match].
    eapply post_bind; [apply child_gets; intros t|intros o; simpl].
    { eapply post_bind; [apply child_deref|intros row]. apply child_deref. }
    eapply post_bind; [apply child_deref|intros x; simpl]. eapply post_bind; [apply child_get_proc|intros px; by apply post_ret].
  - intros [?|]; [by apply post_ret|]. apply child_gets. intros t.
    eapply post_bind; [apply (child_upd_proc phi phi); auto|intros []; simpl].
    eapply post_bind; [apply (child_upd_proc phi phi); auto|intros []; simpl].
    eapply post_bind; [apply child_tail|intros []; simpl]. eapply post_bind; [apply child_cell|intros []; by apply post_ret].
Qed.

Lemma child_lock phi lk : post (childk cur np cp phi) (lock c lk) (fun _ => childk cur np cp phi).
Proof using. apply child_l. Qed.

Lemma child_publish phi : cur <> np -> (forall x v, phi x -> phi (set_p_enter v x)) -> (forall x v, phi x -> phi (set_p_queue v x)) ->
  (forall x, phi x -> phi (set_p_state RUNNABLE x)) ->
  post (childk cur np cp phi) (publish cfg c np) (fun _ => childk cur np cp (fun x => phi x /\ p_state x = RUNNABLE)).
Proof using.
  intros Hne He Hq Hr. set (psi := fun x => phi x /\ p_state x = RUNNABLE). unfold publish, locked_section.
  eapply post_bind; [apply child_lock|intros []; simpl].
  eapply (post_bind _ _ _ (fun _ => childk cur np cp psi)).
  - eapply post_bind; [apply (child_set phi psi); [done|]|intros []; simpl].
    { intros x Hx. split; [by apply Hr|done]. }
    unfold when. destruct (mlfq cfg); [|by apply post_ret].
    eapply post_bind; [apply (child_pt psi psi), child_add; [done|..]|intros ?; by apply post_ret].
    + intros x v [? ?]. split; auto.
    + intros x v [? ?]. split; auto.
  - intros []. eapply post_bind; [apply child_l|intros []; by apply post_ret].
Qed.

(** What [init_slot] leaves, when there is a kernel stack. *)
Lemma child_init pid : cur <> np ->
  post (childk cur np cp (fun x => p_pid x = pid)) (init_slot cfg np)
    (fun b => childk cur np cp (fun x => p_pid x = pid /\ ((b : bool) = true -> p_kstack x <> 0 /\ cx_eip (p_ctx x) = forkret_pc cfg))).
Proof using.
  intros Hne. unfold init_slot. eapply post_bind; [apply child_k|intros a; simpl].
  eapply post_bind; [apply (child_set _ (fun x => p_pid x = pid /\ p_kstack x = a)); done|intros []; simpl].
  destruct (Z.eqb_spec a 0) as [Ha|Ha].
  - eapply post_bind; [apply (child_set _ (fun x => p_pid x = pid)); [done|by intros x [? _]]|intros []; simpl].
    apply post_ret. intros s [Hc (x & Hx & Hp)]. split; [done|]. by exists x.
  - do 3 (eapply post_bind; [apply (child_set _ (fun x => p_pid x = pid /\ p_kstack x = a)); done|intros []; simpl]).
    set (psi := fun x => p_pid x = pid /\ p_kstack x = a /\ cx_eip (p_ctx x) = forkret_pc cfg).
    eapply post_bind; [apply (child_set _ psi); [done|by intros x [? ?]]|intros []; simpl].
    eapply post_bind; [apply (child_pt psi psi); by intros s b s' Hs [= _ <-]|intros t; simpl].
    eapply post_bind; [apply (child_set psi psi); done|intros []; simpl].
    eapply (post_bind _ _ _ (fun _ => childk cur np cp psi)).
    + unfold when. destruct (mlfq cfg); [by apply child_set|by apply post_ret].
    + intros []. apply post_ret. intros s [Hc (x & Hx & Hp & Hk & He)]. split; [done|]. exists x. split; [done|]. split; [done|].
      intros _. split; [congruence|done].
Qed.

Lemma child_dup phi : cur <> np -> (forall x v, phi x -> phi (set_p_ofile v x)) -> (forall x v, phi x -> phi (set_p_cwd v x)) ->
  post (childk cur np cp phi) (dup_files cur np) (fun _ => childk cur np cp phi).
Proof using.
  intros Hne Ho Hd. unfold dup_files.
  eapply (post_bind _ _ _ (fun _ => childk cur np cp phi)).
  - apply post_for_each. intros i _.
    eapply (post_bind _ _ _ (fun _ => childk cur np cp phi)); [by intros s x s' Hs [-> _]%read_same|intros x; simpl].
    eapply post_bind; [apply post_deref; intros a s _ Hs; exact Hs|]. intros [f|]; [|by apply post_ret].
    eapply post_bind; [apply child_k|intros f'; simpl]. apply child_set; auto.
  - intros []. eapply (post_bind _ _ _ (fun _ => childk cur np cp phi)); [by intros s x s' Hs [-> _]%read_same|intros x; simpl].
    eapply post_bind; [apply post_deref; intros a s _ Hs; exact Hs|intros d; simpl].
    eapply post_bind; [apply child_k|intros d'; simpl]. apply child_set; auto.
Qed.

Lemma child_printinfo phi : post (childk cur np cp phi) (printinfo np) (fun _ => childk cur np cp phi).
Proof using.
  assert (Hp : forall fmt args, post (childk cur np cp phi) (cprintf_k fmt args) (fun _ => childk cur np cp phi)).
  { intros fmt args. unfold cprintf_k. eapply post_bind; [apply post_deref; intros out s _ Hs; exact Hs|intros out; simpl].
    apply (child_pt phi phi). by apply child_modify. }
  unfold printinfo. eapply (post_bind _ _ _ (fun _ => childk cur np cp phi)); [by intros s x s' Hs [-> _]%read_same|intros x; simpl].
  do 6 (eapply post_bind; [apply Hp|intros []; simpl]). by apply post_ret.
Qed.

Lemma child_name phi src : cur <> np -> (forall x v, phi x -> phi (set_p_name v x)) ->
  post (childk cur np cp phi) (set_name np src) (fun _ => childk cur np cp phi).
Proof using.
  intros Hne Hn. unfold set_name.
  eapply (post_bind _ _ _ (fun _ => childk cur np cp phi)); [by intros s x s' Hs [-> _]%read_same|intros x; simpl].
  eapply post_bind; [apply post_deref; intros a s _ Hs; exact Hs|intros n; simpl]. apply child_set; auto.
Qed.
End Child.

(** ** fork and clone *)

(** The slot [allocproc] takes was UNUSED, and gets the next pid. *)
Lemma alloc_child cur cp s0 : procs (pt s0) !! cur = Some cp -> p_state cp <> UNUSED ->
  post (fun s => s = s0) (alloc_slot c) (fun o s => forall np, o = Some np ->
    cur <> np /\ (exists y, procs (pt s0) !! np = Some y /\ p_state y = UNUSED) /\
    childk cur np cp (fun x => p_pid x = nextpid (pt s0)) s).
Proof using.
  intros Hc Hs s o s' -> Hrun np ->. unfold alloc_slot, locked_section in Hrun.
  apply bind_inv in Hrun as ([] & s1 & E1 & Hrun).
  assert (Ept : pt s1 = pt s0).
  { unfold lock, on_l in E1. destruct (acquire c LkPtable (lks s0)) as [[? ?]| |]; by simplify_eq. }
  apply bind_inv in Hrun as (r & s2 & E2 & Hrun). rewrite (bind_Ok get _ _ _ _ eq_refl), Ept in E2.
  apply bind_inv in Hrun as (u & s3 & E3 & Hrun). apply ret_inv in Hrun as [<- <-].
  assert (Ept3 : pt s' = pt s2).
  { unfold unlock, on_l in E3. destruct (release c LkPtable (lks s2)) as [[? ?]| |]; by simplify_eq. }
  destruct (find_state UNUSED (procs (pt s0))) as [i|] eqn:Ef; [|by apply ret_inv in E2 as [? _]].
  destruct (find_state_some _ _ _ Ef) as (y & Hy & Hu & _).
  assert (Hy1 : procs (pt s1) !! i = Some y) by by rewrite Ept.
  pose proof (alloc_body_run s1 i y Hy1) as Hb. rewrite Ept in Hb. rewrite Hb in E2. injection E2 as <- <-.
  assert (Hne : cur <> i) by congruence. split_and!; eauto. unfold childk. rewrite Ept3. simpl. split; simpl.
  - by rewrite list_lookup_insert_ne.
  - exists (fresh_slot (pt s0) y). by rewrite list_lookup_insert_eq by by eapply lookup_lt_Some.
Qed.

Lemma allocproc_child cur cp s0 : procs (pt s0) !! cur = Some cp -> p_state cp <> UNUSED ->
  post (fun s => s = s0) (allocproc cfg c) (fun o s => forall np, o = Some np ->
    cur <> np /\ (exists y, procs (pt s0) !! np = Some y /\ p_state y = UNUSED) /\
    childk cur np cp (fun x => p_pid x = nextpid (pt s0) /\ p_kstack x <> 0 /\ cx_eip (p_ctx x) = forkret_pc cfg) s).
Proof using.
  intros Hc Hs. unfold allocproc. eapply post_bind; [by apply alloc_child|]. intros [np|]; [|by apply post_ret].
  intros s o s' Hpre Hrun. destruct (Hpre np eq_refl) as (Hne & Hu & Hch).
  apply bind_inv in Hrun as (b & s1 & E1 & Hrun). apply ret_inv in Hrun as [-> ->].
  destruct (child_init cur np cp _ Hne _ _ _ Hch E1) as [Hc' (x & Hx & Hp & Hb)].
  intros np' Hnp. destruct b; [|done]. injection Hnp as <-. split_and!; try done.
  destruct (Hb eq_refl). split; [done|]. exists x. by split_and!.
Qed.

(** The new process of [fork]: a copy of the caller that will return 0. *)
Definition forked (cur : nat) (cp x : proc) : Prop :=
  p_parent x = Some cur /\ p_sz x = p_sz cp /\ p_tf x = set_tf_eax 0 (p_tf cp) /\ p_pgdir x <> 0.

(** The new thread of [clone]: it shares the address space and the thread
    group, and starts at [function] on the given stack. *)
Definition cloned (cur : nat) (cp : proc) (function stack : Z) (x : proc) : Prop :=
  p_parent x = Some cur /\ p_sz x = p_sz cp /\ p_pgdir x = p_pgdir cp /\ p_tgid x = p_tgid cp /\
  p_tstack x = stack /\ tf_eip (p_tf x) = u32 function /\ tf_eax (p_tf x) = 0 /\
  tf_esp (p_tf x) = u32 (stack + PGSIZE - 8) /\ tf_ebp (p_tf x) = u32 (stack + PGSIZE - 8).

Section Body.
Context (cur np : nat) (cp : proc) (pid : Z) (Hne : cur <> np).

(** What [allocproc] set up, kept by everything that follows. *)
Definition base (x : proc) : Prop := p_pid x = pid /\ p_kstack x <> 0 /\ cx_eip (p_ctx x) = forkret_pc cfg.

Lemma fork_body_child : post (childk cur np cp base) (fork_body cur np)
  (fun b s => (b : bool) = true -> childk cur np cp (fun x => base x /\ forked cur cp x) s).
Proof using Hne.
  unfold fork_body. apply child_with_cur. eapply post_bind; [apply child_k|intros d; simpl].
  eapply post_bind; [apply (child_set _ _ _ _ (fun x => base x /\ p_pgdir x = d)); [done|by intros x]|intros []; simpl].
  destruct (Z.eqb_spec d 0) as [Hd|Hd].
  { intros s b s' _ Hrun. repeat (apply bind_inv in Hrun as (? & ? & _ & Hrun)). by apply ret_inv in Hrun as [-> _]. }
  eapply post_bind; [apply (child_set _ _ _ _ (fun x => base x /\ p_pgdir x = d /\ p_sz x = p_sz cp)); [done|]|intros []; simpl].
  { by intros x [? ?]. }
  eapply post_bind; [apply (child_set _ _ _ _ (fun x => base x /\ p_pgdir x = d /\ p_sz x = p_sz cp /\ p_parent x = Some cur)); [done|]|intros []; simpl].
  { by intros x (? & ? & ?). }
  eapply post_bind; [apply (child_set _ _ _ _ (fun x => base x /\ p_pgdir x = d /\ p_sz x = p_sz cp /\ p_parent x = Some cur /\ p_tf x = p_tf cp)); [done|]|intros []; simpl].
  { by intros x (? & ? & ? & ?). }
  eapply post_bind; [apply (child_set _ _ _ _ (fun x => base x /\ forked cur cp x)); [done|]|intros []; simpl].
  { intros x (? & ? & ? & ? & E). split; [done|]. split_and!; simpl; try done; [by rewrite E|congruence]. }
  eapply post_bind; [by apply child_dup|intros []; simpl].
  eapply post_bind; [by apply child_name|intros []; simpl]. by apply post_ret.
Qed.

Lemma clone_body_child function arg stack : post (childk cur np cp base) (clone_body cur np function arg stack)
  (fun _ => childk cur np cp (fun x => base x /\ cloned cur cp function stack x)).
Proof using Hne.
  unfold clone_body. apply child_with_cur.
  eapply post_bind; [apply (child_set _ _ _ _ (fun x => base x /\ p_sz x = p_sz cp)); [done|by intros x]|intros []; simpl].
  set (P2 := fun x => base x /\ p_sz x = p_sz cp /\ p_pgdir x = p_pgdir cp).
  eapply post_bind; [apply (child_set _ _ _ _ P2); [done|by intros x [? ?]]|intros []; simpl].
  set (P3 := fun x => P2 x /\ p_parent x = Some cur).
  eapply post_bind; [apply (child_set _ _ _ _ P3); [done|by intros x]|intros []; simpl].
  eapply post_bind; [apply (child_set _ _ _ _ P3); [done|by intros x]|intros []; simpl].
  set (P4 := fun x => P3 x /\ p_tgid x = p_tgid cp).
  eapply post_bind; [apply (child_set _ _ _ _ P4); [done|by intros x]|intros []; simpl].
  eapply post_bind; [apply (child_set _ _ _ _ P4); [done|by intros x]|intros []; simpl].
  do 2 (eapply post_bind; [apply child_k|intros []; simpl]).
  set (P5 := fun x => P4 x /\ tf_esp (p_tf x) = u32 (stack + PGSIZE - 8)).
  eapply post_bind; [apply (child_set _ _ _ _ P5); [done|by intros x]|intros []; simpl].
  set (P6 := fun x => P5 x /\ tf_ebp (p_tf x) = u32 (stack + PGSIZE - 8)).
  eapply post_bind; [apply (child_set _ _ _ _ P6); [done|by intros x [? ?]]|intros []; simpl].
  set (P7 := fun x => P6 x /\ tf_eip (p_tf x) = u32 function).
  eapply post_bind; [apply (child_set _ _ _ _ P7); [done|by intros x]|intros []; simpl].
  set (P8 := fun x => P7 x /\ p_tstack x = stack).
  eapply post_bind; [apply (child_set _ _ _ _ P8); [done|by intros x]|intros []; simpl].
  eapply post_bind; [apply (child_set _ _ _ _ (fun x => base x /\ cloned cur cp function stack x)); [done|]|intros []; simpl].
  { intros x (((((((? & ? & ?) & ?) & ?) & ?) & ?) & ?) & ?). split; [done|]. by split_and!. }
  eapply post_bind; [by apply child_dup|intros []; simpl]. by apply child_name.
Qed.
End Body.


(** Claim C29. [clone] that does not fail returns the tid of a RUNNABLE thread
    in a slot that was UNUSED: it shares the caller's page table, size and
    thread group, starts at [function] with the stack pointer two words below
    the top of the given page, and returns 0. *)
Theorem clone_creates_thread cur cp (s s' : kst K) tid function arg stack :
  procs (pt s) !! cur = Some cp -> p_state cp <> UNUSED -> clone cfg c cur function arg stack s = Ok (tid, s') -> tid <> -1 ->
  tid = nextpid (pt s) /\
  exists np y x, procs (pt s) !! np = Some y /\ p_state y = UNUSED /\ procs (pt s') !! np = Some x /\
    p_state x = RUNNABLE /\ p_pid x = tid /\ p_kstack x <> 0 /\ cx_eip (p_ctx x) = forkret_pc cfg /\
    cloned cur cp function stack x.
Proof using.
  intros Hc Hs Hrun Hpid. unfold clone in Hrun. apply bind_inv in Hrun as (o & s1 & E1 & Hrun).
  pose proof (allocproc_child cur cp s Hc Hs _ _ _ eq_refl E1) as Ha.
  destruct o as [np|]; [|by apply ret_inv in Hrun as [-> _]].
  destruct (Ha np eq_refl) as (Hne & (y & Hy & Hu) & Hch).
  apply bind_inv in Hrun as ([] & s2 & E2 & Hrun). pose proof (clone_body_child cur np cp _ Hne _ _ _ _ _ _ Hch E2) as Hb.
  apply bind_inv in Hrun as (x & s3 & [-> Hx]%read_same & Hrun). apply bind_inv in Hrun as ([] & s4 & E4 & Hrun).
  apply bind_inv in Hrun as (v & s5 & E5 & Hrun). apply ret_inv in Hrun as [-> ->].
  assert (Epid : p_pid x = nextpid (pt s)) by (destruct Hb as [_ (x' & Hx' & (? & _) & _)]; congruence).
  pose proof (child_publish cur np cp (fun x => base (nextpid (pt s)) x /\ cloned cur cp function stack x) Hne
    ltac:(done) ltac:(done) ltac:(done) s2 tt s4 Hb E4) as Hp.
  destruct (child_printinfo cur np cp _ _ _ _ Hp E5) as [Hc' (x2 & Hx2 & [(Hb1 & Hb2 & Hb3) Hf] & Hr)].
  split; [done|]. exists np, y, x2. split_and!; try done; try apply Hf; congruence.
Qed.

(** ** wait *)

(** [wait] selects by page table as well as by parent, so the
    caller counts as its own child: as long as it is not killed it never
    returns -1, also without any child, but sleeps. *)
Theorem wait_never_fails cur cp (s s' : kst K) e : procs (pt s) !! cur = Some cp -> p_killed cp = 0 ->
  call_pass cfg c cur CallWait s = Ok (e, s') -> e <> WaitError.
Proof using.
  intros Hc Hk Hrun. simpl in Hrun. unfold wait_pass in Hrun.
  rewrite (bind_Ok _ _ _ _ _ (proc_at_run _ _ _ Hc)), (bind_Ok get _ _ _ _ eq_refl) in Hrun.
  assert (Hex : existsb (wait_kid cur cp) (procs (pt s)) = true).
  { apply existsb_exists. exists cp. split; [by apply list_elem_of_In; eapply list_elem_of_lookup_2|].
    unfold wait_kid. by rewrite Z.eqb_refl, orb_true_r. }
  apply bind_inv in Hrun as (r & s1 & _ & Hrun). destruct r as [pid|].
  - apply bind_inv in Hrun as (? & ? & _ & Hrun). by apply ret_inv in Hrun as [-> _].
  - rewrite Hex, Hk in Hrun. simpl in Hrun. by apply ret_inv in Hrun as [-> _].
Qed.

(** ** exit *)
(** The parent fields, and the first process. *)
Definition family (t : ptab) : list (option nat) * option nat := (p_parent <$> procs t, initproc t).

(** Runs that keep the family. *)
Definition keeps {A} (m : M ptab A) : Prop := forall v, post (fun t => family t = v) m (fun _ t => family t = v).
Definition keepsk {A} (m : M (kst K) A) : Prop :=
  forall v, post (fun s => family (pt s) = v) m (fun _ s => family (pt s) = v).

Lemma keeps_bind {A B} (m : M ptab A) (k : A -> M ptab B) : keeps m -> (forall a, keeps (k a)) -> keeps (m ≫= k).
Proof using. intros Hm Hk v. eapply post_bind; [apply Hm|]. intros a. apply Hk. Qed.

Lemma keepsk_bind {A B} (m : M (kst K) A) (k : A -> M (kst K) B) : keepsk m -> (forall a, keepsk (k a)) -> keepsk (m ≫= k).
Proof using. intros Hm Hk v. eapply post_bind; [apply Hm|]. intros a. apply Hk. Qed.

Lemma keeps_ret {A} (a : A) : keeps (mret a).
Proof using. intros v. by apply post_ret. Qed.

Lemma keepsk_ret {A} (a : A) : keepsk (mret a).
Proof using. intros v. by apply post_ret. Qed.

Lemma keeps_get : keeps get.
Proof using. by intros v s a s' Hs [= <- <-]. Qed.

Lemma keeps_deref {A} (o : option A) : keeps (deref o).
Proof using. intros v. apply post_deref. by intros a s _ Hs. Qed.

Lemma keeps_modify f : (forall t, procs (f t) = procs t /\ initproc (f t) = initproc t) -> keeps (modify f).
Proof using. intros Hf v s [] s' Hs [= <-]. unfold family in *. destruct (Hf s) as [-> ->]. done. Qed.

Lemma family_upd t i x y : procs t !! i = Some x ->
  family (set_procs (<[i := y]> (procs t)) t) = (<[i := p_parent y]> (family t).1, (family t).2).
Proof using. intros Hx. unfold family. simpl. by rewrite list_fmap_insert. Qed.

Lemma keeps_upd i f : (forall x, p_parent (f x) = p_parent x) -> keeps (upd_proc i f).
Proof using.
  intros Hf v s [] s' Hs Hrun. unfold upd_proc in Hrun. apply bind_inv in Hrun as (x & s1 & E1 & Hrun).
  unfold get_proc in E1. rewrite (bind_Ok get _ _ _ _ eq_refl) in E1. unfold deref in E1.
  destruct (procs s !! i) as [x'|] eqn:Hx; [|done]. apply ret_inv in E1 as [-> ->]. injection Hrun as <-.
  rewrite (family_upd _ _ _ _ Hx), Hf, <- Hs. unfold family. simpl. f_equal. apply list_insert_id. by rewrite list_lookup_fmap, Hx.
Qed.

Lemma keepsk_pt {A} (m : M ptab A) : keeps m -> keepsk (on_pt m).
Proof using.
  intros H v s a s' Hs Hrun. unfold on_pt in Hrun. destruct (m (pt s)) as [[b p']| |] eqn:Em; simplify_eq. by eapply H.
Qed.

Lemma keepsk_l {A} (m : M lockst A) : keepsk (on_l m).
Proof using. intros v s a s' Hs Hrun. unfold on_l in Hrun. by destruct (m (lks s)) as [[? ?]| |]; simplify_eq. Qed.

Lemma keepsk_read i : keepsk (proc_at i).
Proof using. by intros v s x s' Hs [-> _]%read_same. Qed.

Lemma keepsk_for {X} (l : list X) (body : X -> M (kst K) unit) : (forall x, keepsk (body x)) -> keepsk (for_each l body).
Proof using. intros H v. apply post_for_each. intros x _. apply H. Qed.

Lemma keeps_until {X R} (l : list X) (body : X -> M ptab (option R)) : (forall x, keeps (body x)) -> keeps (for_until l body).
Proof using.
  intros H v. eapply post_consequence; [apply (post_for_until l body (fun t => family t = v) (fun _ t => family t = v))|done|by intros [?|] s].
  intros x _ s a s' Hs Hrun. pose proof (H x v s a s' Hs Hrun). by destruct a.
Qed.

Lemma keeps_get_proc i : keeps (get_proc i).
Proof using. apply keeps_bind; [apply keeps_get|intros t; apply keeps_deref]. Qed.

Lemma keeps_find q pid idx : keeps (find_pid q pid idx).
Proof using.
  apply keeps_until. intros i. apply keeps_bind; [|intros x; apply keeps_ret]. unfold queue_pid, queue_cell.
  apply keeps_bind; [|intros o].
  - apply keeps_bind; [apply keeps_get|intros t]. apply keeps_bind; [apply keeps_deref|intros row; apply keeps_deref].
  - apply keeps_bind; [apply keeps_deref|intros y]. apply keeps_bind; [apply keeps_get_proc|intros py; apply keeps_ret].
Qed.

Lemma keeps_add p q : keeps (add_proc_to_q p q).
Proof using.
  apply keeps_bind; [apply keeps_bind; [apply keeps_get|intros t; apply keeps_deref]|intros tl].
  apply keeps_bind; [apply keeps_get_proc|intros pp].
  apply keeps_bind; [apply keeps_find|intros [?|]]; [apply keeps_ret|].
  apply keeps_bind; [apply keeps_get|intros t]. do 2 (apply keeps_bind; [by apply keeps_upd|intros []]).
  apply keeps_bind; [|intros []; apply keeps_bind; [|intros []; apply keeps_ret]].
  - apply keeps_bind; [apply keeps_get|intros t1]. apply keeps_bind; [apply keeps_deref|intros l; by apply keeps_modify].
  - apply keeps_bind; [apply keeps_get|intros t1]. do 3 (apply keeps_bind; [apply keeps_deref|intros ?]). by apply keeps_modify.
Qed.

Lemma keeps_wakeup1 ch : keepsk (wakeup1 cfg ch).
Proof using.
  apply keepsk_for. intros i. apply keepsk_bind; [apply keepsk_read|intros x]. case_decide; [|apply keepsk_ret].
  unfold wake_proc. apply keepsk_bind; [by apply keepsk_pt, keeps_upd|intros []].
  unfold when. destruct (mlfq cfg); [|apply keepsk_ret].
  apply keepsk_bind; [by apply keepsk_pt, keeps_upd|intros []]. apply keepsk_bind; [apply keepsk_read|intros y].
  apply keepsk_bind; [apply keepsk_pt, keeps_add|intros ?; apply keepsk_ret].
Qed.

Lemma keepsk_printf fmt args : keepsk (cprintf_k fmt args).
Proof using.
  unfold cprintf_k. apply keepsk_bind; [|intros out; by apply keepsk_pt, keeps_modify].
  intros v. apply post_deref. by intros a s _ Hs.
Qed.

Lemma keepsk_sched cur : keepsk (sched c cur).
Proof using.
  unfold sched. apply keepsk_bind; [apply keepsk_l|intros [|]]; [|by intros v s a s' _ ?].
  apply keepsk_bind; [apply keepsk_l|intros m]. apply keepsk_bind; [apply keepsk_l|intros y].
  cbn [negb]. case_match; [by intros v s a s' _ ?|]. apply keepsk_bind; [apply keepsk_read|intros p].
  case_decide; [by intros v s a s' _ ?|]. apply keepsk_bind; [apply keepsk_l|intros [|]]; [by intros v s a s' _ ?|apply keepsk_ret].
Qed.

(** The children of [cur] go to [ip]. *)
Definition reparent (cur : nat) (ip o : option nat) : option nat := if decide (o = Some cur) then ip else o.


Lemma exit_loop_step cur i v ip : v !! i <> None ->
  post (fun s : kst K => family (pt s) = (v, ip))
    (x ← proc_at i;
     if decide (p_parent x = Some cur) then
       ip ← on_pt (gets initproc);
       set_proc i (set_p_parent ip);;
       if decide (p_state x = ZOMBIE) then wakeup1 cfg (chan_of ip) else mret tt
     else mret tt)
    (fun _ s => family (pt s) = (alter (reparent cur ip) i v, ip)).
Proof using.
  intros Hi s [] s' Hs Hrun. apply bind_inv in Hrun as (x & s1 & [-> Hx]%read_same & Hrun).
  assert (Hv : v !! i = Some (p_parent x)).
  { injection Hs as <- _. by rewrite list_lookup_fmap, Hx. }
  case_decide as Hp.
  - apply bind_inv in Hrun as (ip' & s2 & E2 & Hrun).
    assert (ip' = ip /\ s2 = s) as [-> ->].
    { unfold on_pt, gets in E2. injection E2 as <- <-. split; [by injection Hs as _ ->|by destruct s]. }
    apply bind_inv in Hrun as ([] & s3 & E3 & Hrun). rewrite (set_proc_run _ _ _ _ Hx) in E3. injection E3 as <-.
    assert (Hs3 : family (pt (mkKst (set_procs (<[i := set_p_parent ip x]> (procs (pt s))) (pt s)) (kk s) (lks s))) =
      (alter (reparent cur ip) i v, ip)).
    { simpl. rewrite (family_upd _ _ _ _ Hx), Hs. simpl. f_equal. apply list_eq. intros j. destruct (decide (j = i)) as [->|Hne].
      - rewrite list_lookup_insert_eq by by eapply lookup_lt_Some. rewrite list_lookup_alter_eq, Hv. simpl. unfold reparent. by rewrite decide_True.
      - by rewrite list_lookup_insert_ne, list_lookup_alter_ne. }
    case_decide; [by eapply keeps_wakeup1|by apply ret_inv in Hrun as [_ ->]].
  - apply ret_inv in Hrun as [_ ->]. rewrite Hs. f_equal. apply list_eq. intros j. destruct (decide (j = i)) as [->|Hne].
    + rewrite list_lookup_alter_eq, Hv. simpl. unfold reparent. by rewrite decide_False.
    + by rewrite list_lookup_alter_ne.
Qed.

Lemma exit_loop cur n : forall k v ip, (k + n <= length v)%nat ->
  post (fun s : kst K => family (pt s) = (v, ip))
    (for_each (seq k n) (fun i =>
       x ← proc_at i;
       if decide (p_parent x = Some cur) then
         ip ← on_pt (gets initproc);
         set_proc i (set_p_parent ip);;
         if decide (p_state x = ZOMBIE) then wakeup1 cfg (chan_of ip) else mret tt
       else mret tt))
    (fun _ s => family (pt s) = (take k v ++ (reparent cur ip <$> take n (drop k v)) ++ drop (k + n) v, ip)).
Proof using.
  induction n as [|n IH]; intros k v ip Hk; cbn [seq for_each].
  - apply post_ret. intros s ->. simpl. rewrite Nat.add_0_r. by rewrite take_drop.
  - eapply post_bind; [apply exit_loop_step|intros []].
    { intros Hn. apply lookup_ge_None in Hn. lia. }
    assert (Hlen : length (alter (reparent cur ip) k v) = length v) by apply length_alter.
    destruct (lookup_lt_is_Some_2 v k) as [o Ho]; [lia|].
    eapply post_consequence; [apply (IH (S k) (alter (reparent cur ip) k v) ip); rewrite Hlen; lia|done|]. intros [] s ->. f_equal.
    rewrite (drop_S v o k Ho). cbn [take fmap list_fmap].
    replace (alter (reparent cur ip) k v) with (<[k := reparent cur ip o]> v).
    2: { apply list_eq. intros j. destruct (decide (j = k)) as [->|Hne].
         - rewrite list_lookup_insert_eq by lia. by rewrite list_lookup_alter_eq, Ho.
         - by rewrite list_lookup_insert_ne, list_lookup_alter_ne. }
    rewrite (take_S_r _ _ (reparent cur ip o)) by (by rewrite list_lookup_insert_eq by lia).
    rewrite take_insert_ge by lia. rewrite !drop_insert_lt by lia.
    rewrite <- !(assoc_L (++)). cbn. by replace (k + S n)%nat with (S (k + n)) by lia.
Qed.

Lemma set_proc_slot i f (s s' : kst K) : set_proc i f s = Ok (tt, s') ->
  exists x, procs (pt s) !! i = Some x /\ procs (pt s') !! i = Some (f x).
Proof using.
  intros H. destruct (procs (pt s) !! i) as [x|] eqn:Hx.
  - rewrite (set_proc_run _ _ _ _ Hx) in H. injection H as <-. exists x. split; [done|]. simpl.
    apply list_lookup_insert_eq. by eapply lookup_lt_Some.
  - exfalso. revert H. unfold set_proc, on_pt, upd_proc, get_proc, mbind, M_bind, get, deref, fault. by rewrite Hx.
Qed.

Lemma printf_procs fmt args (s s' : kst K) : cprintf_k fmt args s = Ok (tt, s') -> procs (pt s') = procs (pt s).
Proof using.
  unfold cprintf_k. intros H. apply bind_inv in H as (out & s1 & E1 & H). unfold deref in E1.
  destruct (cprintf (cfmt fmt) args); [|done]. apply ret_inv in E1 as [-> ->]. unfold on_pt, modify in H. by injection H as <-.
Qed.

Lemma sched_same cur (s s' : kst K) b : sched c cur s = Ok (b, s') -> pt s' = pt s.
Proof using.
  assert (Hl : forall A (m : M lockst A) a (s1 s2 : kst K), on_l m s1 = Ok (a, s2) -> pt s2 = pt s1).
  { intros A m a s1 s2 H. unfold on_l in H. by destruct (m (lks s1)) as [[? ?]| |]; simplify_eq. }
  unfold sched. intros H. apply bind_inv in H as (h & s1 & E1%Hl & H). destruct h; [|done]. cbn [negb] in H.
  apply bind_inv in H as (m & s2 & E2%Hl & H). apply bind_inv in H as (y & s3 & E3%Hl & H).
  case_match; [done|]. apply bind_inv in H as (p & s4 & [-> _]%read_same & H). case_decide; [done|].
  apply bind_inv in H as (i & s5 & E5%Hl & H). destruct i; [done|]. apply ret_inv in H as [_ ->]. congruence.
Qed.

(** The last part of [exit]. *)
Lemma exit_zombie_spec cur (s s' : kst K) b : length (procs (pt s)) = NPROC ->
  exit_zombie cfg c cur s = Ok (b, s') ->
  (p_parent <$> procs (pt s')) = reparent cur (initproc (pt s)) <$> (p_parent <$> procs (pt s)) /\
  exists x, procs (pt s') !! cur = Some x /\ p_state x = ZOMBIE.
Proof using.
  intros Hlen Hrun. unfold exit_zombie in Hrun. set (is_zombie := fun s : kst K => exists x, procs (pt s) !! cur = Some x /\ p_state x = ZOMBIE).
  set (v := p_parent <$> procs (pt s)). set (ip := initproc (pt s)).
  apply bind_inv in Hrun as ([] & s1 & E1 & Hrun). pose proof (keepsk_l _ (v, ip) _ _ _ eq_refl E1) as F1.
  apply bind_inv in Hrun as (cp & s2 & [-> Hcp]%read_same & Hrun).
  apply bind_inv in Hrun as ([] & s3 & E3 & Hrun). pose proof (keeps_wakeup1 _ _ _ _ _ F1 E3) as F3.
  apply bind_inv in Hrun as ([] & s4 & E4 & Hrun).
  assert (Hv : length v = NPROC) by (unfold v; by rewrite length_fmap).
  pose proof (exit_loop cur NPROC 0 v ip ltac:(lia) _ _ _ F3 E4) as F4.
  rewrite take_0, drop_0 in F4. change (0 + NPROC)%nat with NPROC in F4. cbn [app] in F4.
  rewrite (take_ge v NPROC), (drop_ge v NPROC), app_nil_r in F4 by (rewrite Hv; done).
  set (w := reparent cur ip <$> v) in *.
  apply bind_inv in Hrun as ([] & s5 & E5 & Hrun).
  pose proof (keepsk_pt _ (keeps_upd cur (set_p_state ZOMBIE) ltac:(done)) _ _ _ _ F4 E5) as F5.
  assert (Z5 : is_zombie s5).
  { destruct (set_proc_slot _ _ _ _ E5) as (x & Hx & Hx'). by exists (set_p_state ZOMBIE x). }
  assert (Hset : forall f (s1 s2 : kst K), set_proc cur f s1 = Ok (tt, s2) ->
    (forall x, p_parent (f x) = p_parent x /\ p_state (f x) = p_state x) -> family (pt s1) = (w, ip) -> is_zombie s1 -> family (pt s2) = (w, ip) /\ is_zombie s2).
  { intros f s1' s2' E Hf F (x & Hx & Hz). split.
    - eapply (keepsk_pt _ (keeps_upd cur f ltac:(apply Hf))); [exact F|exact E].
    - destruct (set_proc_slot _ _ _ _ E) as (x' & Hx1 & Hx2). simplify_eq. exists (f x). split; [done|]. by destruct (Hf x) as [_ ->]. }
  apply bind_inv in Hrun as (t & s6 & E6 & Hrun).
  assert (s6 = s5) as ->. { unfold on_pt, gets in E6. injection E6 as _ <-. by destruct s5. }
  apply bind_inv in Hrun as ([] & s7 & E7 & Hrun). destruct (Hset _ _ _ E7 (fun x => conj eq_refl eq_refl) F5 Z5) as [F7 Z7].
  apply bind_inv in Hrun as ([] & s8 & E8 & Hrun). destruct (Hset _ _ _ E8 (fun x => conj eq_refl eq_refl) F7 Z7) as [F8 Z8].
  apply bind_inv in Hrun as (x & s9 & [-> Hx]%read_same & Hrun).
  apply bind_inv in Hrun as ([] & s10 & E10 & Hrun).
  pose proof (keepsk_printf _ _ _ _ _ _ F8 E10) as F10.
  assert (Z10 : is_zombie s10) by (unfold is_zombie; by rewrite (printf_procs _ _ _ _ E10)).
  pose proof (keepsk_sched _ _ _ _ _ F10 Hrun) as F11. injection F11 as -> _.
  split; [done|]. by rewrite (sched_same _ _ _ _ Hrun).
Qed.

Lemma keepsk_k {A} (m : M K A) : keepsk (on_k m).
Proof using. intros v s a s' Hs Hrun. unfold on_k in Hrun. by destruct (m (kk s)) as [[? ?]| |]; simplify_eq. Qed.

Lemma keepsk_wake l : keepsk (wake_all cfg c l).
Proof using.
  apply keepsk_for. intros ch. unfold wakeup, locked_section. apply keepsk_bind; [apply keepsk_l|intros []]. apply keepsk_bind; [apply keeps_wakeup1|intros []].
  apply keepsk_bind; [apply keepsk_l|intros []; apply keepsk_ret].
Qed.

Lemma keepsk_exit_files cur : keepsk (exit_files cfg c cur).
Proof using.
  unfold exit_files. apply keepsk_bind; [|intros []].
  - intros v s [] s' Hs Hrun. unfold exit_check in Hrun. rewrite (bind_Ok get _ _ _ _ eq_refl) in Hrun. case_decide; [done|]. by apply ret_inv in Hrun as [_ ->].
  - apply keepsk_for. intros fd. apply keepsk_bind; [|intros [w|]; [|apply keepsk_ret]].
    + apply keepsk_bind; [apply keepsk_read|intros cp]. apply keepsk_bind; [intros v; apply post_deref; by intros a s _ Hs|intros [f|]; [|apply keepsk_ret]].
      apply keepsk_bind; [apply keepsk_k|intros w; apply keepsk_ret].
    + apply keepsk_bind; [apply keepsk_wake|intros []; by apply keepsk_pt, keeps_upd].
Qed.

Lemma keepsk_exit_cwd cur : keepsk (exit_cwd cfg c cur).
Proof using.
  unfold exit_cwd, put_cwd. apply keepsk_bind; [apply keepsk_k|intros []]. apply keepsk_bind; [|intros w1].
  - apply keepsk_bind; [apply keepsk_read|intros cp]. apply keepsk_bind; [intros v; apply post_deref; by intros a s _ Hs|intros d; apply keepsk_k].
  - apply keepsk_bind; [apply keepsk_wake|intros []]. apply keepsk_bind; [apply keepsk_k|intros w2]. apply keepsk_bind; [apply keepsk_wake|intros []]. by apply keepsk_pt, keeps_upd.
Qed.

Lemma exit_spec cur (s s' : kst K) b : length (procs (pt s)) = NPROC -> exit cfg c cur s = Ok (b, s') ->
  (p_parent <$> procs (pt s')) = reparent cur (initproc (pt s)) <$> (p_parent <$> procs (pt s)) /\
  exists x, procs (pt s') !! cur = Some x /\ p_state x = ZOMBIE.
Proof using.
  intros Hlen Hrun. unfold exit in Hrun. apply bind_inv in Hrun as ([] & s1 & E1 & Hrun). apply bind_inv in Hrun as ([] & s2 & E2 & Hrun).
  pose proof (keepsk_exit_files _ _ _ _ _ eq_refl E1) as F1. pose proof (keepsk_exit_cwd _ _ _ _ _ F1 E2) as F2. injection F2 as Fp Fi.
  rewrite <- Fp, <- Fi. apply (exit_zombie_spec cur s2 s' b); [|done]. rewrite <- Hlen. apply (f_equal length) in Fp. by rewrite !length_fmap in Fp.
Qed.


(** ** growproc after join *)

(** Slot [i] shares the page table [d] of [cur] and has no kernel stack. *)
Definition stale (cur i : nat) (d : Z) (s : kst K) : Prop :=
  (exists cp, procs (pt s) !! cur = Some cp /\ p_pgdir cp = d) /\
  exists x, procs (pt s) !! i = Some x /\ p_pgdir x = d /\ p_kstack x = 0.

Lemma stale_set cur i d j f : (forall x, p_pgdir (f x) = p_pgdir x /\ p_kstack (f x) = p_kstack x) ->
  post (stale cur i d) (set_proc j f) (fun _ => stale cur i d).
Proof using.
  intros Hf s [] s' Hs Hrun. destruct (procs (pt s) !! j) as [y|] eqn:Hy.
  2: { destruct (set_proc_slot _ _ _ _ Hrun) as (? & ? & _). congruence. }
  rewrite (set_proc_run _ _ _ _ Hy) in Hrun. injection Hrun as <-. destruct Hs as [(cp & Hc & Hd) (x & Hx & Hxd & Hxk)].
  assert (Hat : forall k z, procs (pt s) !! k = Some z -> exists z', <[j := f y]> (procs (pt s)) !! k = Some z' /\
    p_pgdir z' = p_pgdir z /\ p_kstack z' = p_kstack z).
  { intros k z Hz. destruct (decide (k = j)) as [->|Hne].
    - assert (z = y) as -> by congruence. exists (f y). rewrite list_lookup_insert_eq by by eapply lookup_lt_Some. split; [done|apply Hf].
    - exists z. by rewrite list_lookup_insert_ne. }
  destruct (Hat _ _ Hc) as (cp' & Hc' & Hcd & _), (Hat _ _ Hx) as (x' & Hx' & Hxd' & Hxk').
  split; [exists cp'; split; [done|congruence]|]. exists x'. split_and!; [done|congruence..].
Qed.

Lemma stale_frame {A} cur i d (m : M (kst K) A) : (forall s a s', m s = Ok (a, s') -> pt s' = pt s) ->
  post (stale cur i d) m (fun _ => stale cur i d).
Proof using. intros Hm s a s' Hs Hrun. unfold stale. by rewrite (Hm _ _ _ Hrun). Qed.

Lemma on_l_pt {A} (m : M lockst A) (s s' : kst K) a : on_l m s = Ok (a, s') -> pt s' = pt s.
Proof using. unfold on_l. intros H. by destruct (m (lks s)) as [[? ?]| |]; simplify_eq. Qed.

Lemma stale_switchuvm cur i d j : post (stale cur i d) (switchuvm c j) (fun _ => stale cur i d).
Proof using.
  unfold switchuvm. eapply post_bind; [apply stale_frame; by intros s a s' [-> _]%read_same|intros x; simpl].
  case_match; [by intros s a s' _ ?|]. case_match; [by intros s a s' _ ?|]. apply stale_frame. intros s a s'. apply on_l_pt.
Qed.

End Slots.
