(* ===== verification/SchedInv.v ===== *)
(** * The schedulers keep the invariant and never panic

    [requeue], [switchuvm], the three [scan]s, [scheduler] and
    [scheduler_return], as total specifications. *)

From stdpp Require Import prelude strings functions.
From S2P Require Import Prelude CString Console Spinlock ProcData Queue Mlfq Kalloc Proc Sched Aging Inv Lifecycle.

Open Scope Z_scope.

#[local] Arguments for_each : simpl never.
#[local] Arguments for_until : simpl never.
#[local] Arguments seq : simpl never.

(** ** requeue *)

(** The level of a process after its time slice. *)
Definition next_level (x : proc) : Z :=
  if p_change_q x =? 1 then (if p_queue x =? 4 then 4 else p_queue x + 1) else p_queue x.

(** The record of a process that is queued again. *)
Definition requeued (s : ptab) (x : proc) : proc :=
  set_p_queue (next_level x) (set_p_enter (s32 (ticks s)) (set_p_curr_ticks 0
    (if p_change_q x =? 1 then set_p_change_q 0 x else x))).

Lemma upd_again s ps i x f : (i < length ps)%nat ->
  upd_proc i f (set_procs (<[i := x]> ps) s) = Ok (tt, set_procs (<[i := f x]> ps) s).
Proof.
  intros H. rewrite (upd_proc_run _ i x) by (by apply list_lookup_insert_eq).
  cbn [procs set_procs]. by rewrite list_insert_insert_eq.
Qed.

Lemma requeue_run s ls p x :
  mlfq_inv s ls (Some p) -> procs s !! p = Some x ->
  exists s' q l, Z.of_nat q = next_level x /\ ls !! q = Some l /\ requeue p s = Ok (tt, s') /\
    mlfq_inv s' (<[q := l ++ [p]]> ls) None /\ same_globals s s' /\
    procs s' = <[p := requeued s x]> (procs s).
Proof.
  intros Hinv Hx. destruct (mi_X _ _ _ Hinv p eq_refl) as (Hni & x0 & Hx0 & Hr).
  assert (x0 = x) as -> by congruence. clear Hx0.
  assert (Hlt : (p < length (procs s))%nat) by by eapply lookup_lt_Some.
  assert (Hlev : 0 <= p_queue x <= 4) by (eapply (mi_level _ _ _ Hinv); [done|congruence..]).
  set (x1 := set_p_queue (next_level x) (set_p_curr_ticks 0 (if p_change_q x =? 1 then set_p_change_q 0 x else x))).
  assert (E : (if p_change_q x =? 1 then
         upd_proc p (set_p_change_q 0);;
         upd_proc p (set_p_curr_ticks 0);;
         (if negb (p_queue x =? 4) then upd_proc p (fun y => set_p_queue (p_queue y + 1) y) else mret tt)
       else upd_proc p (set_p_curr_ticks 0)) s = Ok (tt, set_procs (<[p := x1]> (procs s)) s)).
  { subst x1. unfold next_level. destruct (p_change_q x =? 1).
    - rewrite (bind_Ok _ _ _ _ _ (upd_proc_run _ _ _ _ Hx)).
      rewrite (bind_Ok _ _ _ _ _ (upd_again _ _ _ _ _ Hlt)).
      destruct (Z.eqb_spec (p_queue x) 4) as [E4|E4]; cbn [negb].
      + by destruct x; simpl in E4 |- *; subst.
      + by rewrite upd_again.
    - rewrite (upd_proc_run _ _ _ _ Hx). by destruct x. }
  assert (Hn : 0 <= next_level x <= 4).
  { unfold next_level. destruct (p_change_q x =? 1); [|done]. destruct (Z.eqb_spec (p_queue x) 4); lia. }
  assert (Hinv1 : mlfq_inv (set_procs (<[p := x1]> (procs s)) s) ls (Some p)).
  { eapply inv_update_level; [done..| | |].
    - subst x1. by destruct (p_change_q x =? 1).
    - subst x1. by destruct (p_change_q x =? 1).
    - done. }
  destruct (level_nat _ Hn) as (q & Eq & Hq).
  destruct (inv_enqueue _ ls p x1 q Hinv1) as (s' & l & Hl & Hadd & Hinv' & Hg & Hp').
  { by apply list_lookup_insert_eq. }
  { subst x1. by destruct (p_change_q x =? 1). }
  { done. }
  exists s', q, l. split; [done|]. split; [done|]. split.
  - unfold requeue. rewrite (bind_Ok _ _ _ _ _ (get_proc_run _ _ _ Hx)), decide_True by done.
    rewrite (bind_Ok _ _ _ _ _ E).
    rewrite (bind_Ok _ _ _ _ _ (get_proc_run (set_procs (<[p := x1]> (procs s)) s) p x1 (list_lookup_insert_eq _ _ _ Hlt))).
    change (p_queue x1) with (next_level x). rewrite Eq. by rewrite (bind_Ok _ _ _ _ _ Hadd).
  - split; [done|]. split; [done|]. rewrite Hp'. cbn [procs set_procs]. rewrite list_insert_insert_eq.
    do 2 f_equal. unfold enqueued, requeued. subst x1. rewrite <- Eq. done.
Qed.

(** ** Round robin *)
Lemma rr_next_some from ps i : rr_next from ps = Some i ->
  (from <= i)%nat /\ (exists x, ps !! i = Some x /\ p_state x = RUNNABLE) /\
  forall j y, (from <= j < i)%nat -> ps !! j = Some y -> p_state y <> RUNNABLE.
Proof.
  unfold rr_next. intros H. apply fmap_Some in H as ([n x] & H & ->). simpl.
  apply list_find_Some in H as (Hn & Hr & Hmin). rewrite lookup_drop in Hn. split; [lia|]. split; [eauto|].
  intros j y Hj Hy. apply (Hmin (j - from)%nat y); [|lia]. rewrite lookup_drop. by replace (from + (j - from))%nat with j by lia.
Qed.

Lemma rr_next_none from ps : rr_next from ps = None ->
  forall j y, (from <= j)%nat -> ps !! j = Some y -> p_state y <> RUNNABLE.
Proof.
  unfold rr_next. intros H j y Hj Hy. apply fmap_None, list_find_None in H. rewrite Forall_lookup in H.
  apply (H (j - from)%nat y). rewrite lookup_drop. by replace (from + (j - from))%nat with j by lia.
Qed.

(** ** FCFS *)
Definition fcfs_best (ps : list proc) (n : nat) (b : option nat) : Prop :=
  match b with
  | None => forall j y, (j < n)%nat -> ps !! j = Some y -> p_state y <> RUNNABLE
  | Some i => (i < n)%nat /\ exists x, ps !! i = Some x /\ p_state x = RUNNABLE /\
      forall j y, (j < n)%nat -> ps !! j = Some y -> p_state y = RUNNABLE ->
        p_ctime x <= p_ctime y /\ (p_ctime x = p_ctime y -> (i <= j)%nat)
  end.

Lemma fcfs_step_best ps n b : (n < length ps)%nat -> fcfs_best ps n b -> fcfs_best ps (S n) (fcfs_step ps b n).
Proof.
  intros Hn Hb. unfold fcfs_step. destruct (lookup_lt_is_Some_2 ps n Hn) as [x Hx]. rewrite Hx.
  case_decide as Hr.
  - destruct b as [i|]; simpl in *.
    + destruct Hb as (Hi & y & Hy & Hyr & Hmin). split; [lia|]. exists y. split_and!; try done.
      intros j z Hj Hz Hzr. destruct (decide (j = n)) as [->|]; [congruence|]. apply Hmin; [lia|done..].
    + intros j y Hj Hy. destruct (decide (j = n)) as [->|]; [congruence|]. apply (Hb j); [lia|done].
  - assert (Hxr : p_state x = RUNNABLE) by (by destruct (p_state x); try (exfalso; by apply Hr)).
    destruct b as [i|].
    + destruct Hb as (Hi & y & Hy & Hyr & Hmin). rewrite Hy. destruct (Z.ltb_spec (p_ctime x) (p_ctime y)) as [Hl|Hl].
      * split; [lia|]. exists x. split_and!; try done. intros j z Hj Hz Hzr.
        destruct (decide (j = n)) as [->|]; [by simplify_eq|].
        destruct (Hmin j z ltac:(lia) Hz Hzr). lia.
      * split; [lia|]. exists y. split_and!; try done. intros j z Hj Hz Hzr.
        destruct (decide (j = n)) as [->|]; [simplify_eq; split; lia|].
        apply Hmin; [lia|done..].
    + split; [lia|]. exists x. split_and!; try done. intros j z Hj Hz Hzr.
      destruct (decide (j = n)) as [->|]; [by simplify_eq|].
      exfalso. apply (Hb j z); [lia|done..].
Qed.

Lemma fcfs_pick_best ps : fcfs_best ps (length ps) (fcfs_pick ps).
Proof.
  unfold fcfs_pick.
  assert (H : forall n, (n <= length ps)%nat -> fcfs_best ps n (foldl (fcfs_step ps) None (seq 0 n))).
  { induction n as [|n IH]; intros Hn; [simpl; lia|].
    rewrite seq_S, foldl_app. simpl. apply fcfs_step_best; [lia|]. apply IH. lia. }
  by apply H.
Qed.

(** ** Switching *)

(** A CPU by its APIC id, process, nesting depth and interrupt flag; [e]
    constrains the saved flag. *)
Definition cpu_is (a : Z) (o : option nat) (n : Z) (i : bool) (e : option bool) (z : cpu) : Prop :=
  c_apicid z = a /\ c_proc z = o /\ c_ncli z = n /\ c_if z = i /\
  match e with Some b => c_intena z = b | None => True end.

(** The CPU after [switchuvm] of a process with record [y]. *)
Definition switched (z : cpu) (y : proc) : cpu :=
  popped (set_c_cr3 (V2P (p_pgdir y)) (set_c_esp0 (u32 (p_kstack y + KSTACKSIZE)) (pushed z))).

Section Switch.
Context {K : Type} (cs : list cpu) (h : lockid -> option nat) (c : nat) (Hlt : (c < length cs)%nat).

Lemma switchuvm_run (s : kst K) p y z :
  procs (pt s) !! p = Some y -> p_kstack y <> 0 -> p_pgdir y <> 0 ->
  Lk (<[c := z]> cs) h (lks s) -> calm z ->
  switchuvm c p s = Ok (tt, mkKst (pt s) (kk s) (upd_cpus (lks s) c (switched z y))).
Proof using Hlt.
  intros Hy Hks Hpd (Ecs & Hd & Hl) [Hnest Hb].
  unfold switchuvm. rewrite (bind_Ok _ _ _ _ _ (proc_at_run _ _ _ Hy)).
  destruct (Z.eqb_spec (p_kstack y) 0); [done|]. destruct (Z.eqb_spec (p_pgdir y) 0); [done|].
  assert (Hz : cpus (lks s) !! c = Some z) by (rewrite Ecs; by apply list_lookup_insert_eq).
  set (z1 := set_c_esp0 (u32 (p_kstack y + KSTACKSIZE)) (pushed z)).
  set (z2 := set_c_cr3 (V2P (p_pgdir y)) z1). set (l2 := upd_cpus (lks s) c z2).
  assert (E : (pushcli c;; m ← mycpu c; set_cpu m (set_c_esp0 (u32 (p_kstack y + KSTACKSIZE)));;
      set_cpu c (set_c_cr3 (V2P (p_pgdir y)));; popcli c) (lks s) = Ok (tt, upd_cpus (lks s) c (popped z2))).
  { rewrite (bind_Ok _ _ _ _ _ (pushcli_run _ _ _ Hz Hd Hnest)).
    assert (H1 : cpus (upd_cpus (lks s) c (pushed z)) !! c = Some (pushed z)) by by eapply upd_cpus_lookup.
    assert (Hd1 : distinct_ids (upd_cpus (lks s) c (pushed z))) by by eapply distinct_upd.
    rewrite (bind_Ok _ _ _ _ _ (mycpu_run _ _ _ H1 eq_refl Hd1)).
    rewrite (bind_Ok _ _ _ _ _ (set_cpu_run _ _ _ _ H1)), upd_cpus_twice.
    assert (H2 : cpus (upd_cpus (lks s) c z1) !! c = Some z1) by by eapply upd_cpus_lookup.
    rewrite (bind_Ok _ _ _ _ _ (set_cpu_run _ _ _ _ H2)), upd_cpus_twice. fold z2. fold l2.
    assert (H3 : cpus l2 !! c = Some z2) by by eapply upd_cpus_lookup.
    assert (Hd3 : distinct_ids l2) by by eapply distinct_upd.
    rewrite (popcli_run l2 c z2 H3 Hd3); [by subst l2; rewrite upd_cpus_twice| |simpl; destruct Hnest; lia].
    split; [simpl; destruct Hnest; lia|done]. }
  unfold on_l. by rewrite E.
Qed.

Lemma Lk_switched l z y : Lk (<[c := z]> cs) h l -> Lk (<[c := switched z y]> cs) h (upd_cpus l c (switched z y)).
Proof using Hlt.
  intros (Ecs & Hd & Hl). split_and!; simpl; [by rewrite Ecs, list_insert_insert_eq| |done].
  apply (distinct_upd l c z); [|done..]. rewrite Ecs. by apply list_lookup_insert_eq.
Qed.
End Switch.

Section SchedInv.
Context {K : Type} {KS : KernelSvc K} (cfg : config) {G : nat -> bool -> Prop}.
Context (k : K) (cs : list cpu) (h : lockid -> option nat) (c : nat) (a : Z).
Context (Hlt : (c < length cs)%nat).

#[local] Abbreviation inv := (pt_inv cfg G).

(** [switchuvm] of a process with a stack and a page table. *)
Lemma switchuvm_tr (P : ptab -> Prop) p o e :
  (forall s, P s -> exists y, procs s !! p = Some y /\ p_kstack y <> 0 /\ p_pgdir y <> 0) ->
  triple (at_pt P k (LkS cs h c (cpu_is a o 1 false e))) (switchuvm c p)
    (fun _ => at_pt P k (LkS cs h c (cpu_is a o 1 false e))).
Proof using Hlt.
  intros HP s (HPs & Hk & z & Hz & HL). destruct (HP _ HPs) as (y & Hy & Hks & Hpd).
  destruct Hz as (Ha & Ho & Hn & Hi & He).
  assert (Hcalm : calm z) by (split; [split; [lia|done]|lia]).
  rewrite (switchuvm_run cs h c Hlt s p y z Hy Hks Hpd HL Hcalm).
  eexists tt, _. split; [done|]. split_and!; [done..|]. exists (switched z y). split.
  - split_and!; simpl; try done; [lia|by rewrite Hn|]. destruct e; [|done]. by rewrite Hn.
  - by apply (Lk_switched cs h c Hlt).
Qed.

(** The chosen process starts to run. *)
Lemma enter_tr R E X p L : (mlfq cfg = true -> X = Some (p, true)) ->
  triple (at_pt (fun s => inv R E X s /\ slot_state p RUNNABLE s) k L) (set_proc p (set_p_state RUNNING))
    (fun _ => at_pt (fun s => inv (p :: R) E None s /\ p ∉ R) k L).
Proof using.
  intros HX s ([HI (x & Hx & Hr)] & Hk & HL). eexists tt, _. split; [by apply set_proc_run|].
  split_and!; [| |done..].
  2: { intros Hp. apply (pi_run _ _ _ _ _ _ HI _ _ Hx) in Hp. congruence. }
  eapply (pt_inv_step cfg R (p :: R) E X None (pt s) p x (set_p_state RUNNING x)); try done.
  - by rewrite Hr.
  - intros j Hj. rewrite elem_of_cons. naive_solver.
  - split; [|done]. intros _. by left.
  - intros _. exact (pi_live _ _ _ _ _ _ HI p x Hx (or_intror (or_introl Hr))).
  - live.
  - intros Hm. rewrite (HX Hm) in HI. destruct (pi_mlfq _ _ _ _ _ _ HI Hm) as [ls Hls]. exists ls.
    by eapply inv_update_run.
Qed.

Lemma runnable_live R E X s p : inv R E X s -> slot_state p RUNNABLE s ->
  exists y, procs s !! p = Some y /\ p_kstack y <> 0 /\ p_pgdir y <> 0.
Proof using.
  intros HI (x & Hx & Hr). exists x. split; [done|].
  by destruct (pi_live _ _ _ _ _ _ HI p x Hx (or_intror (or_introl Hr))) as (? & ? & _).
Qed.

Lemma count_run_tr R E X p st L :
  triple (at_pt (fun s => inv R E X s /\ slot_state p st s) k L) (count_run p)
    (fun _ => at_pt (fun s => inv R E X s /\ slot_state p st s) k L).
Proof using. by apply set_slot_tr. Qed.

(** What a scan leaves: a process switched to, or nothing. *)
Definition scan_post (R : list nat) (E : list (nat * nat)) (e : option bool) (o : option nat) : kst K -> Prop :=
  match o with
  | Some p => at_pt (fun s => inv (p :: R) E None s /\ p ∉ R) k (LkS cs h c (cpu_is a (Some p) 1 false e))
  | None => at_pt (inv R E None) k (LkS cs h c (cpu_is a None 1 false e))
  end.

Lemma dispatch_tr R E X p o e : (mlfq cfg = true -> X = Some (p, true)) ->
  triple (at_pt (fun s => inv R E X s /\ slot_state p RUNNABLE s) k (LkS cs h c (cpu_is a o 1 false e)))
    (dispatch c p) (fun _ => scan_post R E e (Some p)).
Proof using Hlt.
  intros HX. unfold dispatch.
  eapply triple_bind; [apply (set_cpu_S _ _ _ _ _ _ (cpu_is a (Some p) 1 false e) Hlt)|intros []; simpl].
  { by intros z (? & ? & ? & ? & ?). }
  eapply triple_bind; [apply switchuvm_tr; intros s [HI Hs]; by eapply runnable_live|intros []; simpl].
  eapply triple_bind; [apply count_run_tr|intros []; simpl]. by apply enter_tr.
Qed.

Lemma rr_scan_tr R E from e : mlfq cfg = false ->
  triple (at_pt (inv R E None) k (LkS cs h c (cpu_is a None 1 false e))) (rr_scan c from) (scan_post R E e).
Proof using Hlt.
  intros Hm s Hs. unfold rr_scan. rewrite (bind_Ok get _ _ _ _ eq_refl).
  destruct (rr_next from (procs (pt s))) as [p|] eqn:Ep; [|by exists None, s].
  apply rr_next_some in Ep as (_ & (x & Hx & Hr) & _).
  destruct (dispatch_tr R E None p None e) with s as ([] & s' & E' & H'); [by rewrite Hm| |].
  { destruct Hs as (HI & Hk & HL). split_and!; try done. by exists x. }
  exists (Some p), s'. by rewrite (bind_Ok _ _ _ _ _ E').
Qed.

Lemma fcfs_scan_tr R E e : mlfq cfg = false ->
  triple (at_pt (inv R E None) k (LkS cs h c (cpu_is a None 1 false e))) (fcfs_scan c) (scan_post R E e).
Proof using Hlt.
  intros Hm s Hs. unfold fcfs_scan. rewrite (bind_Ok get _ _ _ _ eq_refl).
  pose proof (fcfs_pick_best (procs (pt s))) as Hb.
  destruct (fcfs_pick (procs (pt s))) as [p|]; [|by exists None, s].
  destruct Hb as (_ & x & Hx & Hr & _). rewrite (bind_Ok _ _ _ _ _ (proc_at_run _ _ _ Hx)), decide_True by done.
  destruct (dispatch_tr R E None p None e) with s as ([] & s' & E' & H'); [by rewrite Hm| |].
  { destruct Hs as (HI & Hk & HL). split_and!; try done. by exists x. }
  exists (Some p), s'. by rewrite (bind_Ok _ _ _ _ _ E').
Qed.

(** ** MLFQ *)
Lemma pt_inv_procs R E X X' s s' : inv R E X s -> procs s' = procs s ->
  (forall p, X' = Some (p, false) -> X = Some (p, false)) ->
  (mlfq cfg = true -> exists ls, mlfq_inv s' ls (unqueued X')) -> inv R E X' s'.
Proof using. intros [H1 H2 H3 H4 H4' H5 H6 H7 _] Ep HXX Hm. split; rewrite ?Ep; try done. eauto. Qed.

Lemma pt_inv_aged R E X s s' : mlfq cfg = true -> inv R E X s -> aged_step s s' ->
  (exists ls, mlfq_inv s' ls (unqueued X)) -> inv R E X s'.
Proof using.
  clear Hlt. intros Hm [H1 H2 H3 H4 H4' H5 H6 H7 _] Hst [ls Hls].
  assert (Hlk : forall i p', procs s' !! i = Some p' -> exists p, procs s !! i = Some p /\
    p_state p' = p_state p /\ p_kstack p' = p_kstack p /\ p_pgdir p' = p_pgdir p /\
    p_qticks p' = p_qticks p /\ p_ofile p' = p_ofile p /\ p_name p' = p_name p).
  { intros i p' Hp'. destruct (Hst i) as [E0|(_ & q & p & Hp & _ & E0)]; rewrite E0 in Hp'; [by exists p'|].
    simplify_eq. by exists p. }
  split; try done.
  - apply (mi_procs _ _ _ Hls).
  - intros i p' Hp'. destruct (Hlk i p' Hp') as (p & Hp & -> & _). by apply (H2 i).
  - intros i p' Hp'. destruct (Hlk i p' Hp') as (p & Hp & -> & -> & -> & _). by apply (H4 i).
  - intros i p' Hp'. destruct (Hlk i p' Hp') as (p & Hp & -> & _). by apply (H4' i).
  - intros i p' Hp'. destruct (Hlk i p' Hp') as (p & Hp & _ & _ & _ & -> & -> & ->). by apply (H5 i).
  - intros i st Hi. destruct (H6 i st Hi) as (p & Hp & He).
    destruct (Hst i) as [E0|(_ & q & p0 & Hp0 & Hq & E0)]; [exists p; by rewrite E0|].
    rewrite E0. eexists. split; [done|]. simplify_eq. destruct He as (He & Hk1 & Hk2 & Hk3).
    split_and!; [done..| |done]. intros Hst2 _. specialize (Hk2 Hst2 Hm). lia.
  - intros i Hi. destruct (H7 i Hi) as (p & Hp & Hoff).
    destruct (Hst i) as [E0|(_ & q & p0 & Hp0 & Hq & E0)]; [exists p; by rewrite E0|].
    rewrite E0. eexists. split; [done|]. by simplify_eq.
  - eauto.
Qed.

Lemma mlfq_scan_tr R E e : mlfq cfg = true ->
  triple (at_pt (inv R E None) k (LkS cs h c (cpu_is a None 1 false e))) (mlfq_scan c) (scan_post R E e).
Proof using Hlt.
  intros Hm s (HI & Hk & HL). unfold mlfq_scan.
  destruct (pi_mlfq _ _ _ _ _ _ HI Hm) as [ls Hls].
  destruct (aging_run _ _ Hls) as (p1 & E1 & Hls1 & _ & Hst).
  assert (HI1 : inv R E None p1) by (eapply pt_inv_aged; eauto).
  assert (EO1 : on_pt aging s = Ok (tt, mkKst p1 (kk s) (lks s))) by (unfold on_pt; by rewrite E1).
  rewrite (bind_Ok _ _ _ _ _ EO1).
  destruct (mlfq_pick_run _ _ Hls1) as [[E2 _]|(q & x & l & p2 & E2 & _ & Hls2 & _ & Hp2)].
  - assert (EO2 : on_pt mlfq_pick (mkKst p1 (kk s) (lks s)) = Ok (None, mkKst p1 (kk s) (lks s)))
      by (unfold on_pt; simpl; by rewrite E2).
    rewrite (bind_Ok _ _ _ _ _ EO2). by eexists None, _.
  - assert (EO2 : on_pt mlfq_pick (mkKst p1 (kk s) (lks s)) = Ok (Some x, mkKst p2 (kk s) (lks s)))
      by (unfold on_pt; simpl; by rewrite E2).
    rewrite (bind_Ok _ _ _ _ _ EO2). destruct (mi_X _ _ _ Hls2 x eq_refl) as (_ & y & Hy & Hr).
    rewrite (bind_Ok _ _ _ _ _ (proc_at_run (mkKst p2 (kk s) (lks s)) _ _ Hy)), decide_True by done.
    assert (HI2 : inv R E (Some (x, true)) p2) by (eapply pt_inv_procs; eauto; done).
    set (P := fun s => inv R E (Some (x, true)) s /\ slot_state x RUNNABLE s).
    assert (T : triple (at_pt P k (LkS cs h c (cpu_is a None 1 false e)))
      (count_run x;; set_curproc c (Some x);; switchuvm c x;; set_proc x (set_p_state RUNNING);; mret (Some x))
      (scan_post R E e)).
    { eapply triple_bind; [apply count_run_tr|intros []; simpl].
      eapply triple_bind; [apply (set_cpu_S _ _ _ _ _ _ (cpu_is a (Some x) 1 false e) Hlt)|intros []; simpl].
      { by intros z (? & ? & ? & ? & ?). }
      eapply triple_bind; [apply switchuvm_tr; intros s' [HI' Hs']; by eapply runnable_live|intros []; simpl].
      eapply triple_bind; [by apply enter_tr|intros []; simpl]. by apply triple_ret. }
    apply T. split; [split; [done|by exists y]|done].
Qed.

Lemma scan_tr R E e :
  triple (at_pt (inv R E None) k (LkS cs h c (cpu_is a None 1 false e))) (scan cfg c) (scan_post R E e).
Proof using Hlt.
  unfold scan. pose proof (eq_refl : mlfq cfg = match pol cfg with MLFQ => true | _ => false end) as Hm.
  destruct (pol cfg); [by apply rr_scan_tr|by apply fcfs_scan_tr|by apply mlfq_scan_tr].
Qed.
End SchedInv.

(** ** The scheduler loop *)
Section Loop.
Context {K : Type} {KS : KernelSvc K} (cfg : config) {G : nat -> bool -> Prop}.
Context (k : K) (cs : list cpu) (h : lockid -> option nat) (c : nat) (a : Z).
Context (Hlt : (c < length cs)%nat) (Hf : h LkPtable = None).

#[local] Abbreviation inv := (pt_inv cfg G).

(** After a round: on [Some p] the CPU holds [ptable.lock] and is about to
    run [p]; on [None] it is idle with interrupts on. *)
Definition round_post (R : list nat) (E : list (nat * nat)) (e : option bool) (i : bool) (o : option nat) : kst K -> Prop :=
  match o with
  | Some p => at_pt (fun s => inv (p :: R) E None s /\ p ∉ R) k
                (LkS cs (<[LkPtable := Some c]> h) c (cpu_is a (Some p) 1 false e))
  | None => at_pt (inv R E None) k (LkS cs h c (cpu_is a None 0 i None))
  end.

Lemma end_round_tr R E e i o : (forall b, e = Some b -> i = b) -> (e = None -> False) ->
  triple (scan_post cfg (G := G) k cs (<[LkPtable := Some c]> h) c a R E e o) (end_round c o) (round_post R E e i).
Proof using Hlt Hf.
  intros Hi He. destruct o as [p|]; simpl; [by apply triple_ret|].
  eapply triple_bind.
  { apply (unlock_S _ _ _ _ _ _ (cpu_is a None 0 i None) Hlt).
    - by rewrite fn_lookup_insert.
    - intros z (Ha & Ho & Hn & Hoff & Hint). split; [split; [lia|done]|]. split; [lia|].
      split_and!; simpl; try done; [lia|]. rewrite Hn. destruct e as [b|]; [|done].
      rewrite (Hi b eq_refl). simpl. by rewrite Hint. }
  intros []. apply triple_ret. intros s (HI & Hk & z & Hz & HL). split_and!; [done..|].
  exists z. split; [done|]. eapply Lk_ext; [done|]. intros lk.
  destruct (decide (lk = LkPtable)) as [->|]; [by rewrite fn_lookup_insert|by rewrite !fn_lookup_insert_ne].
Qed.

Lemma scheduler_tr R E i0 :
  triple (at_pt (inv R E None) k (LkS cs h c (cpu_is a None 0 i0 None))) (scheduler cfg c)
    (round_post R E (Some true) true).
Proof using Hlt Hf.
  unfold scheduler.
  eapply triple_bind; [apply (set_cpu_S _ _ _ _ _ _ (cpu_is a None 0 true None) Hlt)|intros []; simpl].
  { by intros z (? & ? & ? & ? & ?). }
  eapply triple_bind.
  { apply (lock_S _ _ _ _ _ _ (cpu_is a None 1 false (Some true)) Hlt LkPtable Hf).
    intros z (Ha & Ho & Hn & Hi & _). split; [split; lia|]. split; [lia|].
    split_and!; simpl; try done; [lia|]. by rewrite Hn. }
  intros []. eapply triple_bind; [by apply scan_tr|]. intros o. apply end_round_tr; [by intros b [= <-]|done].
Qed.

(** [requeue] of the process the CPU has switched away from. *)
Lemma requeue_tr R E p b L : mlfq cfg = true ->
  triple (at_pt (inv R E (Some (p, b))) k L) (on_pt (requeue p)) (fun _ => at_pt (inv R E None) k L).
Proof using.
  intros Hm. apply (triple_on_pt _ _ (fun _ => inv R E None)). intros s HI.
  destruct (pi_mlfq _ _ _ _ _ _ HI Hm) as [ls Hls]. destruct b; simpl in Hls.
  - destruct (mi_X _ _ _ Hls p eq_refl) as (_ & x & Hx & Hs).
    destruct (requeue_run s ls p x Hls Hx) as (s' & q & l & _ & _ & E1 & Hls' & _ & Hp').
    exists tt, s'. split; [done|].
    eapply (pt_inv_step cfg R R E _ None s p x (requeued s x)); try done; try congruence; eauto.
    + split; [|intros Hr; apply (pi_run _ _ _ _ _ _ HI _ _ Hx) in Hr; congruence].
      unfold requeued. destruct (p_change_q x =? 1); simpl; congruence.
    + intros _. pose proof (pi_live _ _ _ _ _ _ HI p x Hx (or_intror (or_introl Hs))) as Hlive.
      unfold requeued. by destruct (p_change_q x =? 1).
    + assert (Er : p_state (requeued s x) = RUNNABLE) by (unfold requeued; by destruct (p_change_q x =? 1)).
      rewrite Er. live.
    + unfold requeued. by destruct (p_change_q x =? 1).
    + unfold requeued. by destruct (p_change_q x =? 1).
    + unfold requeued. by destruct (p_change_q x =? 1).
  - destruct (pi_X _ _ _ _ _ _ HI p eq_refl) as (x & Hx & Hs).
    exists tt, s. split; [|eapply pt_inv_procs; eauto; done].
    unfold requeue. rewrite (bind_Ok _ _ _ _ _ (get_proc_run _ _ _ Hx)).
    by rewrite decide_False by (destruct Hs; congruence).
Qed.

Lemma scheduler_return_tr R E p o b :
  triple (at_pt (inv R E (Some (p, b))) k (LkS cs (<[LkPtable := Some c]> h) c (cpu_is a o 1 false None)))
    (scheduler_return cfg c p) (fun r s => exists i, round_post R E (Some i) i r s).
Proof using Hlt Hf.
  intros s (HP & Hk & z & Hz & HL). set (i := c_intena z).
  assert (T : triple (at_pt (inv R E (Some (p, b))) k
    (LkS cs (<[LkPtable := Some c]> h) c (cpu_is a o 1 false (Some i)))) (scheduler_return cfg c p) (round_post R E (Some i) i)).
  { unfold scheduler_return.
    eapply triple_bind; [apply (set_cpu_S _ _ _ _ _ _ (cpu_is a o 1 false (Some i)) Hlt)|intros []; simpl].
    { by intros y (? & ? & ? & ? & ?). }
    eapply triple_bind; [apply (set_cpu_S _ _ _ _ _ _ (cpu_is a None 1 false (Some i)) Hlt)|intros []; simpl].
    { by intros y (? & ? & ? & ? & ?). }
    eapply triple_bind; [|intros r; apply end_round_tr; [by intros ? [= <-]|done]].
    pose proof (eq_refl : mlfq cfg = match pol cfg with MLFQ => true | _ => false end) as Hm.
    destruct (pol cfg).
    - eapply triple_consequence; [by apply rr_scan_tr| |done].
      intros s1 (HI & ? & ?). split_and!; try done. eapply pt_inv_procs; [done..|]. by rewrite Hm.
    - apply triple_ret. intros s1 (HI & ? & ?). split_and!; try done. eapply pt_inv_procs; [done..|]. by rewrite Hm.
    - eapply triple_bind; [by apply requeue_tr|intros []; simpl]. by apply triple_ret. }
  destruct (T s) as (r & s' & E' & H').
  { split; [exact HP|]. split; [done|]. exists z. split; [|done]. destruct Hz as (?&?&?&?&_). by split_and!. }
  exists r, s'. split; [done|]. by exists i.
Qed.
End Loop.
