(* ===== verification/SchedThms.v ===== *)
(** * What the schedulers choose

    The queue operations as list operations, one MLFQ round (aging, then the
    head of the first queue that is not empty), the level after a time
    slice, the length of a slice, and the choices of round robin and FCFS. *)

From stdpp Require Import prelude strings functions.
From S2P Require Import Prelude CString Console Spinlock ProcData Queue Mlfq Kalloc Proc Sched Aging Inv Lifecycle SchedInv.

Open Scope Z_scope.

#[local] Arguments for_each : simpl never.
#[local] Arguments for_until : simpl never.
#[local] Arguments seq : simpl never.

(** ** The queues *)

(** No process of [l] has the pid of [p]. *)
Definition pid_absent (s : ptab) (l : list nat) (pid : Z) : Prop :=
  forall x, x ∈ l -> exists px, procs s !! x = Some px /\ p_pid px <> pid.

(** [add_proc_to_q] appends a process whose pid is not in the queue,
    and [remove_proc_from_q] then takes it out again; the other queues keep
    their contents. *)
Theorem queue_roundtrip s q l p pp : qlist s q l -> (length l < NPROC)%nat -> procs s !! p = Some pp ->
  pid_absent s l (p_pid pp) ->
  exists s1 s2, add_proc_to_q p (Z.of_nat q) s = Ok (1, s1) /\ qlist s1 q (l ++ [p]) /\
    procs s1 = <[p := enqueued q s pp]> (procs s) /\
    remove_proc_from_q p (Z.of_nat q) s1 = Ok (1, s2) /\ qlist s2 q l /\ procs s2 = procs s1 /\
    other_queues q s s1 /\ other_queues q s1 s2.
Proof.
  intros Hq Hl Hp Habs.
  destruct (add_run s q l p pp Hq Hl Hp) as (s1 & E1 & Hq1 & Ho1 & _ & Hp1 & _).
  { intros i x _ Hx. apply Habs. by eapply list_elem_of_lookup_2. }
  assert (Hpl : (p < length (procs s))%nat) by by eapply lookup_lt_Some.
  assert (Hpp : procs s1 !! p = Some (enqueued q s pp)) by (rewrite Hp1; by apply list_lookup_insert_eq).
  destruct (remove_run s1 q l p [] p (enqueued q s pp) Hq1 Hpp) as (s2 & E2 & Hq2 & Ho2 & _ & Hp2 & _).
  { by exists (enqueued q s pp). }
  { intros y Hy. destruct (Habs y Hy) as (py & Hy1 & Hne). exists py. rewrite Hp1.
    rewrite list_lookup_insert_ne by (intros ->; congruence). done. }
  rewrite app_nil_r in Hq2. exists s1, s2. by split_and!.
Qed.

(** The duplicate check of [add_proc_to_q] stops before the last
    element: a process that is last in its queue is added a second time. *)
Theorem add_misses_last s q l p pp : qlist s q (l ++ [p]) -> (S (length l) < NPROC)%nat ->
  procs s !! p = Some pp -> pid_absent s l (p_pid pp) ->
  exists s', add_proc_to_q p (Z.of_nat q) s = Ok (1, s') /\ qlist s' q (l ++ [p; p]).
Proof.
  intros Hq Hl Hp Habs.
  destruct (add_run s q (l ++ [p]) p pp Hq) as (s' & E & Hq' & _); [rewrite length_app; simpl; lia|done| |].
  - intros i x Hi Hx. rewrite length_app in Hi. simpl in Hi. rewrite lookup_app_l in Hx by lia.
    apply Habs. by eapply list_elem_of_lookup_2.
  - exists s'. by rewrite <- (assoc_L (++)) in Hq'.
Qed.

(** ** One MLFQ round *)


Lemma age_rest_at old : forall rest top i l, rest !! i = Some l ->
  exists up, age_rest old top rest !! S i = Some ((age_spec old l).1 ++ up).
Proof.
  induction rest as [|l0 rest IH]; intros top [|i] l Hl; simplify_eq/=.
  - destruct rest as [|l1 rest]; simpl; [exists []; by rewrite app_nil_r|eauto].
  - by apply IH.
Qed.

(** Aging passes over the process behind a promoted one: with the
    first two processes of a lower queue both waiting for more than 30 ticks,
    only the first is promoted, the second stays at the head of its queue. *)
Theorem aging_skips_next s ls q x y l : mlfq_inv s ls None -> ls !! S q = Some (x :: y :: l) ->
  aged s x = true -> aged s y = true ->
  exists s' ls' rest, aging s = Ok (tt, s') /\ mlfq_inv s' ls' None /\ ls' !! S q = Some (y :: rest) /\
    x ∉ y :: rest.
Proof.
  intros Hinv Hl Hx Hy. destruct (aging_run s ls Hinv) as (s' & E & Hinv' & _).
  destruct ls as [|top rest0]; [done|]. simpl in Hl.
  destruct (age_rest_at (aged s) rest0 top q _ Hl) as [up Hup]. simpl in Hup. rewrite Hx in Hup.
  destruct (age_spec (aged s) l) as [kept moved] eqn:Ea. simpl in Hup.
  exists s', (age_rest (aged s) top rest0), (kept ++ up). split_and!; try done.
  (* [x] is now one queue up, and the queues hold nothing twice *)
  pose proof (mi_nodup _ _ _ Hinv') as Hnd. simpl in Hnd.
  assert (Hup' : exists l', age_rest (aged s) top rest0 !! q = Some l' /\ x ∈ l').
  { clear -Hl Hx Ea. revert top q Hl. induction rest0 as [|l0 rest IH]; intros top q Hl; [done|].
    destruct q as [|q]; simplify_eq/=.
    - rewrite Hx, Ea. simpl. eexists. split; [done|]. set_solver.
    - by apply IH. }
  destruct Hup' as (l' & Hl' & Hin). intros Hin2.
  by eapply (nodup_concat_disjoint _ q (S q) l' (y :: kept ++ up) x Hnd).
Qed.

(** After its run a process goes to the tail of the queue of its
    level, or of the next level when it has used up its time slice; at the
    last level it stays there.  Its tick count restarts and the flag is
    cleared. *)
Theorem requeue_level s ls p x : mlfq_inv s ls (Some p) -> procs s !! p = Some x ->
  exists s' q l x', requeue p s = Ok (tt, s') /\ ls !! q = Some l /\ mlfq_inv s' (<[q := l ++ [p]]> ls) None /\
    procs s' = <[p := x']> (procs s) /\ p_queue x' = Z.of_nat q /\ p_curr_ticks x' = 0 /\ p_change_q x' <> 1 /\
    Z.of_nat q = (if p_change_q x =? 1 then Z.min 4 (p_queue x + 1) else p_queue x).
Proof.
  intros Hinv Hx. destruct (requeue_run s ls p x Hinv Hx) as (s' & q & l & Hq & Hl & E & Hinv' & _ & Hp).
  destruct (mi_X _ _ _ Hinv p eq_refl) as (_ & x0 & Hx0 & Hr). simplify_eq.
  pose proof (mi_level _ _ _ Hinv p x Hx ltac:(congruence) ltac:(congruence)) as Hlev.
  exists s', q, l, (requeued s x). unfold requeued in *. unfold next_level in *.
  destruct (Z.eqb_spec (p_change_q x) 1); split_and!; try done.
  destruct (Z.eqb_spec (p_queue x) 4); lia.
Qed.

(** ** The time slice *)
Lemma slice_bound q max : q_ticks_max !! q = Some max -> 0 < max <= 32.
Proof. destruct q as [|[|[|[|[|q]]]]]; simpl; intros [= <-]; lia. Qed.

Section Slice.
Context {K : Type} {KS : KernelSvc K} (cfg : config) {G : nat -> bool -> Prop}.
Context (R : list nat) (E : list (nat * nat)) (X : option (nat * bool)) (k : K).
Context (cs : list cpu) (h : lockid -> option nat) (c : nat) (z : cpu) (cur q : nat) (max : Z).
Context (Hlt : (c < length cs)%nat) (Hz : calm z) (Hf : h LkPtable = None) (Hm : pol cfg = MLFQ) (Hc : cur ∈ R)
  (Hq : q_ticks_max !! q = Some max).

#[local] Abbreviation inv := (pt_inv cfg G).

(** Process [cur] at level [q] with [t] ticks of its slice used. *)
Definition used (t : Z) (s : ptab) : Prop :=
  inv R E X s /\ exists x, procs s !! cur = Some x /\ p_queue x = Z.of_nat q /\ p_curr_ticks x = t.

Lemma mlfq_of_pol : mlfq cfg = true.
Proof using Hm. unfold mlfq. by rewrite Hm. Qed.

Lemma incr_used t L : 0 <= t < 1000 ->
  triple (at_pt (used t) k L)
    (set_proc cur (fun x => set_p_curr_ticks (s32 (p_curr_ticks x + 1)) x);;
     x ← proc_at cur;
     n ← deref (nthZ (p_qticks x) (p_queue x));
     l ← deref (updZ (p_qticks x) (p_queue x) (s32 (n + 1)));
     set_proc cur (set_p_qticks l))
    (fun _ => at_pt (used (t + 1)) k L).
Proof using Hc Hq Hm Hlt.
  intros Ht s ([HI (x & Hx & Hxq & Hxt)] & Hk & HL).
  destruct (incr_body_tr cfg (G := G) R E X cur k L mlfq_of_pol Hc s) as ([] & s' & Hrun & HI' & Hk' & HL'); [done|].
  exists tt, s'. split; [done|]. split_and!; try done.
  assert (Hlt' : (cur < length (procs (pt s)))%nat) by by eapply lookup_lt_Some.
  rewrite (bind_Ok _ _ _ _ _ (set_proc_run _ _ _ _ Hx)) in Hrun.
  set (x1 := set_p_curr_ticks _ x) in Hrun. set (s1 := mkKst _ _ _) in Hrun.
  assert (Hx1 : procs (pt s1) !! cur = Some x1) by by apply list_lookup_insert_eq.
  rewrite (bind_Ok _ _ _ _ _ (proc_at_run _ _ _ Hx1)) in Hrun.
  apply bind_inv in Hrun as (n & s2 & E2 & Hrun). unfold deref in E2. case_match; [|done]. apply ret_inv in E2 as [-> ->].
  apply bind_inv in Hrun as (l & s3 & E3 & Hrun). unfold deref in E3. case_match; [|done]. apply ret_inv in E3 as [-> ->].
  rewrite (set_proc_run _ _ _ _ Hx1) in Hrun. injection Hrun as <-. split; [exact HI'|]. simpl.
  eexists. split; [apply list_lookup_insert_eq; by rewrite length_insert|]. simpl. split; [done|].
  rewrite Hxt. apply s32_small. lia.
Qed.

Lemma tick_used t : 0 <= t < 1000 -> t < max ->
  triple (at_pt (used t) k (LkC cs h c z)) (tick_policy cfg c cur 0)
    (fun d s => at_pt (used (t + 1)) k (LkC cs h c z) s /\ d = Stay).
Proof using Hlt Hz Hf Hm Hc Hq.
  intros Ht Hmax s Hs. pose proof Hs as ([HI (x & Hx & Hxq & Hxt)] & _).
  unfold tick_policy. rewrite (bind_Ok _ _ _ _ _ (proc_at_run _ _ _ Hx)), Hm, Hxq, nthZ_nat, Hq. simpl.
  rewrite (bind_Ok (mret max) _ _ _ _ eq_refl).
  destruct (Z.leb_spec max (p_curr_ticks x)) as [Hle|_]; [lia|].
  destruct (section_tr cs h c z Hlt Hz Hf (used t) (fun _ => used (t + 1)) k k _ (fun L => incr_used t L Ht) s Hs)
    as (u & s' & E' & H'). unfold incr_curr_ticks. rewrite (bind_Ok _ _ _ _ _ E'). eauto.
Qed.

Lemma tick_full t : max <= t ->
  triple (at_pt (used t) k (LkC cs h c z)) (tick_policy cfg c cur 0)
    (fun d s => (exists x, procs (pt s) !! cur = Some x /\ p_change_q x = 1 /\ p_queue x = Z.of_nat q) /\ d = Yield).
Proof using Hlt Hz Hf Hm Hc Hq.
  intros Hmax s Hs. pose proof Hs as ([HI (x & Hx & Hxq & Hxt)] & _).
  unfold tick_policy. rewrite (bind_Ok _ _ _ _ _ (proc_at_run _ _ _ Hx)), Hm, Hxq, nthZ_nat, Hq. simpl.
  rewrite (bind_Ok (mret max) _ _ _ _ eq_refl).
  destruct (Z.leb_spec max (p_curr_ticks x)) as [_|Hle]; [|lia].
  set (P := fun t => exists x, procs t !! cur = Some x /\ p_change_q x = 1 /\ p_queue x = Z.of_nat q).
  assert (T : forall L, triple (at_pt (used t) k L) (set_proc cur (set_p_change_q 1)) (fun _ => at_pt P k L)).
  { intros L s0 ([_ (y & Hy & Hyq & _)] & Hk & HL). eexists tt, _. split; [by apply set_proc_run|].
    split_and!; try done. exists (set_p_change_q 1 y). split; [|done]. apply list_lookup_insert_eq. by eapply lookup_lt_Some. }
  destruct (section_tr cs h c z Hlt Hz Hf (used t) (fun _ => P) k k _ T s Hs) as (u & s' & E' & H' & _).
  unfold change_q_flag. rewrite (bind_Ok _ _ _ _ _ E'). eauto.
Qed.

(** The decisions of [n] timer interrupts in a row. *)
Fixpoint run_ticks (n : nat) : M (kst K) (list preempt) :=
  match n with
  | O => mret []
  | S n' => d ← tick_policy cfg c cur 0; ds ← run_ticks n'; mret (d :: ds)
  end.

Lemma run_ticks_tr n : forall t, 0 <= t -> t + Z.of_nat n = max ->
  triple (at_pt (used t) k (LkC cs h c z)) (run_ticks (n + 1))
    (fun ds s => (exists x, procs (pt s) !! cur = Some x /\ p_change_q x = 1 /\ p_queue x = Z.of_nat q) /\
                 ds = replicate n Stay ++ [Yield]).
Proof using Hlt Hz Hf Hm Hc Hq.
  pose proof (slice_bound _ _ Hq) as Hb. induction n as [|n IH]; intros t Ht Hn; simpl.
  - eapply triple_bind; [apply tick_full; lia|]. intros d s [Hx ->]. by eexists _, s.
  - eapply triple_bind; [apply tick_used; lia|]. intros d. apply triple_pure. intros ->.
    eapply triple_bind; [apply IH; lia|]. intros ds. apply triple_ret. intros s [Hx ->]. done.
Qed.

(** Claim C27. A process that starts a slice at MLFQ level [q] keeps the CPU
    for exactly [q_ticks_max\[q\]] timer interrupts; the next one marks its
    slice as used up and makes it yield. *)
Theorem mlfq_slice x : p_queue x = Z.of_nat q -> p_curr_ticks x = 0 ->
  forall s, at_pt (fun t => inv R E X t /\ procs t !! cur = Some x) k (LkC cs h c z) s ->
  exists s', run_ticks (Z.to_nat max + 1) s = Ok (replicate (Z.to_nat max) Stay ++ [Yield], s') /\
    exists x', procs (pt s') !! cur = Some x' /\ p_change_q x' = 1 /\ p_queue x' = Z.of_nat q.
Proof using Hlt Hz Hf Hm Hc Hq.
  intros Hxq Hxt s ([HI Hx] & Hk & HL). pose proof (slice_bound _ _ Hq) as Hb.
  destruct (run_ticks_tr (Z.to_nat max) 0 ltac:(lia) ltac:(lia) s) as (ds & s' & Hrun & Hx' & ->); [|by exists s'].
  split_and!; try done. split; [done|]. by exists x.
Qed.
End Slice.

(** ** Round robin and FCFS *)

(** The round robin scan takes the first RUNNABLE slot at or after
    its position, and gives up only when there is none. *)
Theorem rr_next_first from ps : match rr_next from ps with
  | Some i => (from <= i)%nat /\ (exists x, ps !! i = Some x /\ p_state x = RUNNABLE) /\
      forall j y, (from <= j < i)%nat -> ps !! j = Some y -> p_state y <> RUNNABLE
  | None => forall j y, (from <= j)%nat -> ps !! j = Some y -> p_state y <> RUNNABLE
  end.
Proof.
  destruct (rr_next from ps) as [i|] eqn:Er; [by apply rr_next_some|by apply rr_next_none].
Qed.

(** FCFS takes a RUNNABLE process with the smallest creation time,
    the one in the lowest slot among equals, and nothing only when no process
    is RUNNABLE. *)
Theorem fcfs_pick_earliest ps : match fcfs_pick ps with
  | Some i => exists x, ps !! i = Some x /\ p_state x = RUNNABLE /\
      forall j y, ps !! j = Some y -> p_state y = RUNNABLE ->
        p_ctime x <= p_ctime y /\ (p_ctime x = p_ctime y -> (i <= j)%nat)
  | None => forall j y, ps !! j = Some y -> p_state y <> RUNNABLE
  end.
Proof.
  pose proof (fcfs_pick_best ps) as H. destruct (fcfs_pick ps) as [i|]; simpl in H.
  - destruct H as (_ & x & Hx & Hr & Hmin). exists x. split_and!; try done.
    intros j y Hy. apply Hmin; [|done]. by eapply lookup_lt_Some.
  - intros j y Hy. apply (H j); [|done]. by eapply lookup_lt_Some.
Qed.

(** How many more scans the loop at position [from] needs to reach slot [j]. *)
Definition rr_distance (j from : nat) : nat := if (from <=? j)%nat then (j - from)%nat else ((NPROC - from) + 1 + j)%nat.

Lemma rr_distance_le j from : (j < NPROC)%nat -> (rr_distance j from <= NPROC)%nat.
Proof. unfold rr_distance. destruct (Nat.leb_spec from j); lia. Qed.

(** A scan takes [j] or comes closer to it. *)
Lemma rr_closer j from ps x : length ps = NPROC -> ps !! j = Some x -> p_state x = RUNNABLE ->
  rr_next from ps = Some j \/
  (rr_distance j (match rr_next from ps with Some p => S p | None => 0%nat end) < rr_distance j from)%nat.
Proof.
  intros Hl Hx Hr. pose proof (lookup_lt_Some _ _ _ Hx) as Hj. destruct (rr_next from ps) as [i|] eqn:E.
  - apply rr_next_some in E as (Hi & (y & Hy & _) & Hmin). apply lookup_lt_Some in Hy. destruct (decide (i = j)) as [->|Hne]; [by left|]. right.
    unfold rr_distance. destruct (Nat.leb_spec from j).
    + assert (i < j)%nat. { destruct (decide (j < i)%nat); [|lia]. by destruct (Hmin j x). } destruct (Nat.leb_spec (S i) j); lia.
    + destruct (Nat.leb_spec (S i) j); lia.
  - right. unfold rr_distance. destruct (Nat.leb_spec from j); [by destruct (rr_next_none from ps E j x)|]. simpl. lia.
Qed.

Lemma rr_scan_pick {K} {KS : KernelSvc K} c from (s s' : kst K) o : rr_scan c from s = Ok (o, s') -> rr_next from (procs (pt s)) = o.
Proof.
  unfold rr_scan. rewrite (bind_Ok _ _ _ s s) by done. destruct (rr_next from (procs (pt s))) as [p|]; intros H; [|by injection H as <- _].
  apply bind_inv in H as (u & s1 & _ & H). by injection H as <- _.
Qed.


(** ** A concrete table

    Two RUNNABLE processes at level 1 that have waited for 100 ticks. *)
Definition ready (pid q : Z) : proc := set_p_queue q (set_p_pid pid (set_p_state RUNNABLE zero_proc)).

Definition ready_procs : list proc := ready 1 1 :: ready 2 1 :: replicate 62 zero_proc.

Definition ready_tab : ptab := mkPtab ready_procs
  [replicate 64 None; Some 0%nat :: Some 1%nat :: replicate 62 None; replicate 64 None; replicate 64 None; replicate 64 None]
  [-1; 1; -1; -1; -1] None 3 3 100 [].

Definition ready_queues : list (list nat) := [[]; [0%nat; 1%nat]; []; []; []].

Lemma ready_at i p : ready_procs !! i = Some p ->
  (i = 0%nat /\ p = ready 1 1) \/ (i = 1%nat /\ p = ready 2 1) \/ p = zero_proc.
Proof.
  unfold ready_procs. destruct i as [|[|i]]; simpl; [naive_solver..|].
  change (replicate 62 zero_proc !! i = Some p -> (S (S i) = 0%nat /\ p = ready 1 1) \/ (S (S i) = 1%nat /\ p = ready 2 1) \/ p = zero_proc).
  intros [-> _]%lookup_replicate. by right; right.
Qed.

Ltac ready_cases H := apply ready_at in H as [[-> ->]|[[-> ->]| ->]]; try done.

Lemma ready_inv : mlfq_inv ready_tab ready_queues None.
Proof.
  split; try done.
  - intros q l Hq. destruct q as [|[|[|[|[|q]]]]]; simplify_eq/=; (split; [done|]); eexists; (split; [done|]); (split; [done|]);
      (split; [simpl; unfold NPROC; lia|done]).
  - repeat constructor; set_solver.
  - intros q l i Hq Hi. destruct q as [|[|[|[|[|q]]]]]; simplify_eq/=; try (by apply elem_of_nil in Hi).
    apply elem_of_cons in Hi as [->|Hi%list_elem_of_singleton]; [|subst]; by eexists.
  - intros i p Hp Hr. simpl in Hp. ready_cases Hp; left; simpl; set_solver.
  - intros i j p p' Hp Hp'. simpl in Hp, Hp'. ready_cases Hp; ready_cases Hp'.
  - intros i p Hp. simpl in Hp. ready_cases Hp; intros _; simpl; lia.
  - intros i p Hp. simpl in Hp. ready_cases Hp; intros _ _; simpl; lia.
Qed.

(** The same table while process 0 is out of its queue. *)
Definition out_tab : ptab := mkPtab ready_procs
  [replicate 64 None; Some 1%nat :: replicate 63 None; replicate 64 None; replicate 64 None; replicate 64 None]
  [-1; 0; -1; -1; -1] None 3 3 100 [].

Lemma out_inv : mlfq_inv out_tab [[]; [1%nat]; []; []; []] (Some 0%nat).
Proof.
  split; try done.
  - intros q l Hq. destruct q as [|[|[|[|[|q]]]]]; simplify_eq/=; (split; [done|]); eexists; (split; [done|]); (split; [done|]);
      (split; [simpl; unfold NPROC; lia|done]).
  - repeat constructor; set_solver.
  - intros q l i Hq Hi. destruct q as [|[|[|[|[|q]]]]]; simplify_eq/=; try (by apply elem_of_nil in Hi).
    apply list_elem_of_singleton in Hi as ->. by eexists.
  - intros i p Hp Hr. simpl in Hp. ready_cases Hp; [by right|left; simpl; set_solver].
  - intros x [= <-]. split; [simpl; set_solver|]. by eexists.
  - intros i j p p' Hp Hp'. simpl in Hp, Hp'. ready_cases Hp; ready_cases Hp'.
  - intros i p Hp. simpl in Hp. ready_cases Hp; intros _; simpl; lia.
  - intros i p Hp. simpl in Hp. ready_cases Hp; intros _ _; simpl; lia.
Qed.

Lemma requeue_level_witness :
  exists s' q l x', requeue 0 out_tab = Ok (tt, s') /\ [[]; [1%nat]; []; []; []] !! q = Some l /\
    mlfq_inv s' (<[q := l ++ [0%nat]]> [[]; [1%nat]; []; []; []]) None /\
    procs s' = <[0%nat := x']> (procs out_tab) /\ p_queue x' = Z.of_nat q /\ p_curr_ticks x' = 0 /\ p_change_q x' <> 1 /\
    Z.of_nat q = (if p_change_q (ready 1 1) =? 1 then Z.min 4 (p_queue (ready 1 1) + 1) else p_queue (ready 1 1)).
Proof. exact (requeue_level out_tab [[]; [1%nat]; []; []; []] 0 (ready 1 1) out_inv eq_refl). Defined.

Lemma queue_roundtrip_witness :
  exists s1 s2, add_proc_to_q 0 (Z.of_nat 0) ready_tab = Ok (1, s1) /\ qlist s1 0 ([] ++ [0%nat]) /\
    procs s1 = <[0%nat := enqueued 0 ready_tab (ready 1 1)]> (procs ready_tab) /\
    remove_proc_from_q 0 (Z.of_nat 0) s1 = Ok (1, s2) /\ qlist s2 0 [] /\ procs s2 = procs s1 /\
    other_queues 0 ready_tab s1 /\ other_queues 0 s1 s2.
Proof.
  apply (queue_roundtrip ready_tab 0 [] 0 (ready 1 1)).
  - by apply (mi_rows _ _ _ ready_inv).
  - unfold NPROC. simpl. lia.
  - reflexivity.
  - intros x Hx. by apply elem_of_nil in Hx.
Defined.

Lemma add_misses_last_witness :
  exists s', add_proc_to_q 1 (Z.of_nat 1) ready_tab = Ok (1, s') /\ qlist s' 1 ([0%nat] ++ [1%nat; 1%nat]).
Proof.
  apply (add_misses_last ready_tab 1 [0%nat] 1 (ready 2 1)).
  - by apply (mi_rows _ _ _ ready_inv).
  - unfold NPROC. simpl. lia.
  - reflexivity.
  - intros x ->%list_elem_of_singleton. by exists (ready 1 1).
Defined.


Lemma aging_skips_next_witness :
  exists s' ls' rest, aging ready_tab = Ok (tt, s') /\ mlfq_inv s' ls' None /\ ls' !! 1%nat = Some (1%nat :: rest) /\
    0%nat ∉ 1%nat :: rest.
Proof. apply (aging_skips_next ready_tab ready_queues 0 0 1 [] ready_inv); reflexivity. Defined.
