(* ===== verification/System.v ===== *)
(** * The whole system: any number of CPUs, system calls and interrupts

    A CPU is in its scheduler, or runs a process, or is between the two with
    [ptable.lock] held.  A system call or an interrupt is a list of
    [action]s; each is one critical section of [ptable.lock], or a piece of
    code that runs without it, of the functions of proc.c, trap.c and
    sysproc.c.  The CPUs interleave at every action. *)

From stdpp Require Import prelude strings functions relations.
From S2P Require Import Prelude CString Console Spinlock ProcData Queue Mlfq Kalloc Proc Sched Aging Inv Lifecycle SchedInv.

Open Scope Z_scope.

#[local] Arguments for_each : simpl never.
#[local] Arguments for_until : simpl never.
#[local] Arguments seq : simpl never.

(** The arguments of [clone]; [None] is [fork]. *)
Definition clone_args : Type := option (Z * Z * Z).

Inductive action (K : Type) : Type :=
| AFork (cl : clone_args)                    (** [allocproc], under the lock *)
| AInit (np : nat) (cl : clone_args)         (** [allocproc], the rest *)
| ABody (np : nat) (cl : clone_args)         (** [fork] or [clone] on the new slot *)
| APublish (np : nat) (cl : clone_args)      (** the new process becomes RUNNABLE *)
| AWake (ch : chan)                          (** [wakeup] *)
| AKill (pid : Z)
| AExit | AClose (fd : nat) | AClear (fd : nat) | ABegin | APut | AEnd | ACwd | AZombie   (** [exit] *)
| AWait (w : wait_call)                      (** [wait], [waitx], [join] *)
| ALock (lk : lockid) | AUnlock (lk : lockid)
| ASleep (ch : chan) (lk : lockid)
| ATicks | ATicking                          (** [ticks++], [ticking()] *)
| APolicy (wakeup_ps : Z)                    (** the policy part of [trap] *)
| AYield
| AGrow (n : Z) | AGrowThreads (sz : Z) | AGrowSelf    (** [growproc] *)
| ASvc (m : M K (list chan))                 (** code of the other layers *)
| AOwn (f : proc -> proc).                   (** other code on the caller's own slot *)
Arguments AFork {K} _.
Arguments AInit {K} _ _.
Arguments ABody {K} _ _.
Arguments APublish {K} _ _.
Arguments AWake {K} _.
Arguments AKill {K} _.
Arguments AExit {K}.
Arguments AClose {K} _.
Arguments AClear {K} _.
Arguments ABegin {K}.
Arguments APut {K}.
Arguments AEnd {K}.
Arguments ACwd {K}.
Arguments AZombie {K}.
Arguments AWait {K} _.
Arguments ALock {K} _.
Arguments AUnlock {K} _.
Arguments ASleep {K} _ _.
Arguments ATicks {K}.
Arguments ATicking {K}.
Arguments APolicy {K} _.
Arguments AYield {K}.
Arguments AGrow {K} _.
Arguments AGrowThreads {K} _.
Arguments AGrowSelf {K}.
Arguments ASvc {K} _.
Arguments AOwn {K} _.

(** The kernel context [swtch] saves for a process: where its code goes on. *)
Inductive kont (K : Type) : Type :=
| KNone
| KForkret                                               (** [forkret] *)
| KYield (intena : bool) (rest : list (action K))        (** in [yield] *)
| KSleep (lk : lockid) (intena : bool) (rest : list (action K))
| KWait (w : wait_call) (intena : bool) (rest : list (action K))
| KDead.                                                 (** in [exit] *)
Arguments KNone {K}.
Arguments KForkret {K}.
Arguments KYield {K} _ _.
Arguments KSleep {K} _ _ _.
Arguments KWait {K} _ _ _.
Arguments KDead {K}.

(** A CPU: running process [o] ([None]: its scheduler loop) with the rest of
    its kernel code and the spin locks it holds; back in the scheduler after
    [swtch] from [p]; or just switched to [p]. *)
Inductive mode (K : Type) : Type :=
| MRun (o : option nat) (prog : list (action K)) (hl : list lockid)
| MBack (p : nat)
| MResume (p : nat).
Arguments MRun {K} _ _ _.
Arguments MBack {K} _.
Arguments MResume {K} _.

Record sys (K : Type) : Type := mkSys { ks : kst K; modes : list (mode K); saved : list (kont K) }.
Arguments mkSys {K} _ _ _.
Arguments ks {K} _.
Arguments modes {K} _.
Arguments saved {K} _.

Section System.
Context {K : Type} {KS : KernelSvc K} (cfg : config).

(** ** One action

    The result is more code to run first, or the context saved by [swtch]
    (a function of the code that is left). *)
Definition clone_body_of (cur np : nat) (cl : clone_args) : M (kst K) bool :=
  match cl with
  | None => fork_body cur np
  | Some (function, arg, stack) => clone_body cur np function arg stack;; mret true
  end.

Definition act (c : nat) (o : option nat) (a : action K)
    : M (kst K) (list (action K) + (list (action K) -> kont K)) :=
  match a with
  | AFork cl =>
      r ← alloc_slot c;
      mret (inl match r with Some np => [AInit np cl] | None => [] end)
  | AInit np cl => b ← init_slot cfg np; mret (inl (if (b : bool) then [ABody np cl] else []))
  | ABody np cl =>
      cur ← deref o;
      b ← clone_body_of cur np cl;
      mret (inl (if (b : bool) then [APublish np cl] else []))
  | APublish np cl =>
      publish cfg c np;;
      (match cl with Some _ => printinfo np;; mret tt | None => mret tt end);;
      mret (inl [])
  | AWake ch => wakeup cfg c ch;; mret (inl [])
  | AKill pid => kill cfg c pid;; mret (inl [])
  | AExit => cur ← deref o; exit_check cur;; mret (inl [])
  | AClose fd =>
      cur ← deref o;
      r ← close_file cur fd;
      mret (inl match r with Some w => (AWake <$> w) ++ [AClear fd] | None => [] end)
  | AClear fd => cur ← deref o; clear_file cur fd;; mret (inl [])
  | ABegin => on_k svc_begin_op;; mret (inl [])
  | APut => cur ← deref o; w ← put_cwd cur; mret (inl (AWake <$> w))
  | AEnd => w ← on_k svc_end_op; mret (inl (AWake <$> w))
  | ACwd => cur ← deref o; set_proc cur (set_p_cwd None);; mret (inl [])
  | AZombie => cur ← deref o; exit_zombie cfg c cur;; mret (inr (fun _ => KDead))
  | AWait w =>
      cur ← deref o;
      lock c LkPtable;;
      r ← wait_loop cfg c cur w;
      mret match r with inl _ => inl [] | inr i => inr (KWait w i) end
  | ALock lk => lock c lk;; mret (inl [])
  | AUnlock lk => unlock c lk;; mret (inl [])
  | ASleep ch lk => cur ← deref o; i ← sleep c cur ch lk; mret (inr (KSleep lk i))
  | ATicks => on_pt (modify (fun t => set_ticks (u32 (ticks t + 1)) t));; mret (inl [])
  | ATicking => ticking;; mret (inl [])
  | APolicy ps =>
      match o with
      | None => mret (inl [])
      | Some cur =>
          d ← tick_policy cfg c cur ps;
          p ← proc_at cur;
          mret (inl match d with Stay => [] | Yield => [AYield] | KillSelf => [AKill (p_pid p)] end)
      end
  | AYield => cur ← deref o; i ← yield c cur; mret (inr (KYield i))
  | AGrow n =>
      cur ← deref o;
      r ← grow_mem cur n;
      mret (inl match r with Some sz => [AGrowThreads sz; AGrowSelf] | None => [] end)
  | AGrowThreads sz => cur ← deref o; grow_threads c cur sz;; mret (inl [])
  | AGrowSelf => cur ← deref o; switchuvm c cur;; mret (inl [])
  | ASvc m => w ← on_k m; mret (inl (AWake <$> w))
  | AOwn f => cur ← deref o; set_proc cur f;; mret (inl [])
  end.

(** The locks held after an action, and the saved contexts: [allocproc] sets
    up the context of a new process. *)
Definition held_after (a : action K) (hl : list lockid) : list lockid :=
  match a with
  | ALock lk => lk :: hl
  | AUnlock lk => tail hl
  | _ => hl
  end.

Definition saved_after (a : action K) (sv : list (kont K)) : list (kont K) :=
  match a with AInit np _ => <[np := KForkret]> sv | _ => sv end.

(** ** Code that may be run

    [AOwn] stands for code that changes the caller's own record: it keeps the
    fields proc.c manages. *)
Definition own_ok (f : proc -> proc) : Prop := forall x,
  same_sched x (f x) /\ p_kstack (f x) = p_kstack x /\ (p_pgdir x <> 0 -> p_pgdir (f x) <> 0) /\
  length (p_qticks (f x)) = length (p_qticks x) /\ length (p_ofile (f x)) = length (p_ofile x) /\
  length (p_name (f x)) = length (p_name x).

(** The new slots that a piece of code is setting up. *)
Definition embs1 (a : action K) : list (nat * nat) :=
  match a with
  | AInit np _ => [(np, 0%nat)]
  | ABody np _ => [(np, 2%nat)]
  | APublish np _ => [(np, 3%nat)]
  | _ => []
  end.

Definition embs (prog : list (action K)) : list (nat * nat) := concat (embs1 <$> prog).

(** Locks are acquired and released in nested order; [sleep] holds its lock
    and no other; a process gives up the CPU with no other lock held, and
    does not exit while it sets up a new slot. *)
Fixpoint wf_prog (hl : list lockid) (prog : list (action K)) : Prop :=
  match prog with
  | [] => hl = []
  | ALock lk :: p => lk <> LkPtable /\ (lk ∉ hl) /\ (length hl < 100)%nat /\ wf_prog (lk :: hl) p
  | AUnlock lk :: p => head hl = Some lk /\ wf_prog (tail hl) p
  | ASleep ch lk :: p => hl = [lk] /\ wf_prog hl p
  | AYield :: p | AWait _ :: p | APolicy _ :: p => hl = [] /\ wf_prog hl p
  | AZombie :: p => hl = [] /\ embs p = [] /\ wf_prog hl p
  | AOwn f :: p => own_ok f /\ wf_prog hl p
  | _ :: p => wf_prog hl p
  end.

(** Code a process may start with: no slot half set up. *)
Definition entry (prog : list (action K)) : Prop := wf_prog [] prog /\ embs prog = [].

(** An interrupt taken in the kernel does not end in [exit]: [trap] calls it
    only when it returns to user mode. *)
Definition handler (prog : list (action K)) : Prop := entry prog /\ AZombie ∉ prog.

(** ** Steps *)
Definition after_round (o : option nat) : mode K :=
  match o with Some p => MResume p | None => MRun None [] [] end.

Inductive step : sys K -> sys K -> Prop :=
| step_act s c o a prog hl l k' :
    modes s !! c = Some (MRun o (a :: prog) hl) -> act c o a (ks s) = Ok (inl l, k') ->
    (forall cl, a = AFork cl -> pids_left (pt (ks s))) ->
    step s (mkSys k' (<[c := MRun o (l ++ prog) (held_after a hl)]> (modes s)) (saved_after a (saved s)))
| step_off s c p a prog hl k k' :
    modes s !! c = Some (MRun (Some p) (a :: prog) hl) -> act c (Some p) a (ks s) = Ok (inr k, k') ->
    step s (mkSys k' (<[c := MBack p]> (modes s)) (<[p := k prog]> (saved s)))
| step_back s c p o k' :
    modes s !! c = Some (MBack p) -> scheduler_return cfg c p (ks s) = Ok (o, k') ->
    step s (mkSys k' (<[c := after_round o]> (modes s)) (saved s))
| step_sched s c o k' :
    modes s !! c = Some (MRun None [] []) -> scheduler cfg c (ks s) = Ok (o, k') ->
    step s (mkSys k' (<[c := after_round o]> (modes s)) (saved s))
| step_forkret s c p k' :
    modes s !! c = Some (MResume p) -> saved s !! p = Some KForkret -> forkret c (ks s) = Ok (tt, k') ->
    step s (mkSys k' (<[c := MRun (Some p) [] []]> (modes s)) (<[p := KNone]> (saved s)))
| step_yielded s c p i rest k' :
    modes s !! c = Some (MResume p) -> saved s !! p = Some (KYield i rest) ->
    yield_return c i (ks s) = Ok (tt, k') ->
    step s (mkSys k' (<[c := MRun (Some p) rest []]> (modes s)) (<[p := KNone]> (saved s)))
| step_slept s c p lk i rest k' :
    modes s !! c = Some (MResume p) -> saved s !! p = Some (KSleep lk i rest) ->
    sleep_return c p i lk (ks s) = Ok (tt, k') ->
    step s (mkSys k' (<[c := MRun (Some p) (ALock lk :: rest) []]> (modes s)) (<[p := KNone]> (saved s)))
| step_waited s c p w i rest e k' :
    modes s !! c = Some (MResume p) -> saved s !! p = Some (KWait w i rest) ->
    wait_resume cfg c p i w (ks s) = Ok (inl e, k') ->
    step s (mkSys k' (<[c := MRun (Some p) rest []]> (modes s)) (<[p := KNone]> (saved s)))
| step_waiting s c p w i rest j k' :
    modes s !! c = Some (MResume p) -> saved s !! p = Some (KWait w i rest) ->
    wait_resume cfg c p i w (ks s) = Ok (inr j, k') ->
    step s (mkSys k' (<[c := MBack p]> (modes s)) (<[p := KWait w j rest]> (saved s)))
| step_enter s c p prog :
    modes s !! c = Some (MRun (Some p) [] []) -> entry prog ->
    step s (mkSys (ks s) (<[c := MRun (Some p) prog []]> (modes s)) (saved s))
| step_interrupt s c o prog ip :
    modes s !! c = Some (MRun o prog []) -> handler ip ->
    step s (mkSys (ks s) (<[c := MRun o (ip ++ prog) []]> (modes s)) (saved s)).
End System.
