(* ===== verification/Actions.v ===== *)
(** * The actions of a CPU

    Every action of [System] keeps the process table invariant, and changes
    the running processes, the new slots and the locks as its code says. *)

From stdpp Require Import prelude strings functions relations.
From S2P Require Import Prelude CString Console Spinlock ProcData Queue Mlfq Kalloc Proc Sched Aging Inv Lifecycle SchedInv System.

Open Scope Z_scope.

#[local] Arguments for_each : simpl never.
#[local] Arguments for_until : simpl never.
#[local] Arguments seq : simpl never.

(** A CPU that runs [o] and holds the locks [hl]. *)
Definition cpu_run (a : Z) (o : option nat) (hl : list lockid) (z : cpu) : Prop :=
  c_apicid z = a /\ c_proc z = o /\ c_ncli z = Z.of_nat (length hl) /\ (hl <> [] -> c_if z = false).

Lemma cpu_run_calm a o hl z : (length hl <= 100)%nat -> cpu_run a o hl z -> calm z.
Proof.
  intros Hl (_ & _ & Hn & Hi). split; [|lia]. split; [lia|]. intros Hp. apply Hi. destruct hl; [simpl in Hn; lia|done].
Qed.

Lemma cpu_run_same a o hl z y : cpu_run a o hl z -> cpu_same z y -> cpu_run a o hl y.
Proof. intros (H1 & H2 & H3 & H4) (E1 & E2 & E3 & E4). unfold cpu_run. by rewrite E1, E2, E3, E4. Qed.

Section Actions.
Context {K : Type} {KS : KernelSvc K} (cfg : config) {G : nat -> bool -> Prop}.

#[local] Abbreviation inv := (pt_inv cfg G).

Lemma lock_free cs h c z lk (s : kst K) r :
  (c < length cs)%nat -> Lk (<[c := z]> cs) h (lks s) -> calm z -> lock c lk s = Ok r -> h lk = None.
Proof.
  intros Hlt (Ecs & Hd & Hl) [Hn Hb] E. unfold lock, on_l in E.
  destruct (acquire c lk (lks s)) as [[u l']| |] eqn:Ea; [|done..].
  apply (acquire_free (lks s) c z lk) in Ea; [| |done..|lia].
  - rewrite Hl in Ea. by destruct (h lk).
  - rewrite Ecs. by apply list_lookup_insert_eq.
Qed.

Lemma section_free {A} cs h c z (body : M (kst K) A) (s : kst K) r :
  (c < length cs)%nat -> Lk (<[c := z]> cs) h (lks s) -> calm z ->
  locked_section c body s = Ok r -> h LkPtable = None.
Proof.
  intros Hlt HL Hz E. destruct r as [r s']. unfold locked_section in E.
  apply bind_inv in E as (u & s1 & E1 & _). by eapply lock_free.
Qed.

(** ** Code outside [ptable.lock] *)
Lemma own_post R E X cur f L : cur ∈ R -> own_ok f ->
  post (at_p (K := K) (inv R E X) L) (set_proc cur f) (fun _ => at_p (inv R E X) L).
Proof.
  intros Hc Hf. apply (at_p_of_at_pt _ _ (fun _ => _) _ (fun _ => _)). intros k s (HI & Hk & HL).
  destruct (slot_at cfg _ _ _ _ _ HI (pi_dom _ _ _ _ _ _ HI _ Hc)) as [x Hx].
  pose proof (proj2 (pi_run _ _ _ _ _ _ HI _ _ Hx) Hc) as Hr.
  destruct (pi_live _ _ _ _ _ _ HI cur x Hx (or_intror (or_intror Hr))) as (Hks & Hpd & HG).
  destruct (pi_shape _ _ _ _ _ _ HI _ _ Hx) as (Hq & Ho & Hn).
  destruct (Hf x) as (Hsame & Hk' & Hd' & Hq' & Ho' & Hn'). pose proof Hsame as (Hst & _).
  eexists tt, _. split; [by apply set_proc_run|]. split_and!; [|done..].
  eapply (pt_inv_update cfg R R E E X X (pt s) cur x (f x)); try done.
  - rewrite Hst. by eapply pi_run.
  - rewrite Hk'. auto.
  - rewrite Hst, Hr. live.
  - by rewrite Hq'.
  - by rewrite Ho'.
  - by rewrite Hn'.
  - intros j st Hj. right. eapply (emb_other cfg _ _ _ _ _ _ _ _ HI Hx); [congruence|done].
  - intros q Hq2. right. eapply (X_other cfg _ _ _ _ _ _ _ HI Hx); [|done]. rewrite Hr. by intros [?|?].
  - intros Hm. destruct (pi_mlfq _ _ _ _ _ _ HI Hm) as [ls Hls]. exists ls. by eapply inv_update_same.
Qed.

Lemma set_any_post R E X i f L : (forall x, neutral x (f x)) ->
  post (at_p (K := K) (inv R E X) L) (set_proc i f) (fun _ => at_p (inv R E X) L).
Proof.
  intros Hf s a s' [HI HL] Hrun. unfold set_proc, on_pt, upd_proc in Hrun.
  destruct (procs (pt s) !! i) as [x|] eqn:Hx.
  - change (set_proc i f s = Ok (a, s')) in Hrun. rewrite (set_proc_run _ _ _ _ Hx) in Hrun.
    injection Hrun as <- <-. split; [|done]. by eapply pt_inv_neutral.
  - exfalso. revert Hrun. unfold get_proc, mbind, M_bind, get, deref, fault. by rewrite Hx.
Qed.

Lemma grow_mem_post R E X cur n L :
  post (at_p (K := K) (inv R E X) L) (grow_mem cur n) (fun _ => at_p (inv R E X) L).
Proof.
  unfold grow_mem. eapply post_bind; [apply read_post|intros cp; simpl].
  eapply (post_bind _ _ _ (fun _ => at_p (inv R E X) L)).
  { destruct (0 <? n); [apply post_on_k|]. destruct (n <? 0); [apply post_on_k|by apply post_ret]. }
  intros sz. destruct (_ && _); [by apply post_ret|].
  eapply post_bind; [by apply set_any_post|intros []; by apply post_ret].
Qed.

(** [switchuvm] that returns changes only the CPU's page table and stack. *)
Lemma switchuvm_post (P : ptab -> Prop) cs h c z p :
  (c < length cs)%nat -> calm z ->
  post (at_p (K := K) P (LkS cs h c (fun y => cpu_same z y /\ (0 < c_ncli z -> c_intena y = c_intena z))))
    (switchuvm c p)
    (fun _ => at_p P (LkS cs h c (fun y => cpu_same z y /\ (0 < c_ncli z -> c_intena y = c_intena z)))).
Proof.
  intros Hlt Hz s a s' [HP (y & [Hsame Hint] & HL)] Hrun.
  assert (Hy : calm y) by (destruct Hsame as (_ & _ & En & Ei); unfold calm, nest_ok in *; by rewrite En, Ei).
  destruct (procs (pt s) !! p) as [x|] eqn:Hx.
  2: { exfalso. revert Hrun. unfold switchuvm, proc_at, on_pt, get_proc, mbind, M_bind, get, deref, fault. by rewrite Hx. }
  destruct (decide (p_kstack x = 0 \/ p_pgdir x = 0)) as [Hbad|Hgood].
  { exfalso. revert Hrun. unfold switchuvm. rewrite (bind_Ok _ _ _ _ _ (proc_at_run _ _ _ Hx)).
    destruct (Z.eqb_spec (p_kstack x) 0); [done|]. destruct (Z.eqb_spec (p_pgdir x) 0); [done|]. naive_solver. }
  rewrite (switchuvm_run cs h c Hlt s p x y Hx ltac:(naive_solver) ltac:(naive_solver) HL Hy) in Hrun.
  injection Hrun as <- <-. split; [done|]. exists (switched y x). split; [|by apply (Lk_switched cs h c Hlt)].
  destruct Hsame as (E1 & E2 & E3 & E4). destruct Hy as [[Hn1 Hn2] Hb]. split.
  - split_and!; simpl; try done; [lia|]. destruct (Z.eqb_spec (c_ncli y + 1) 1) as [E|E].
    + rewrite (proj2 (Z.eqb_eq (c_ncli y) 0)) by lia. simpl. done.
    + simpl. rewrite <- E4. symmetry. apply Hn2. lia.
  - intros Hp. simpl. rewrite (proj2 (Z.eqb_neq (c_ncli y) 0)) by lia. by apply Hint.
Qed.

(** ** Critical sections *)
Section OnCpu.
Context (cs : list cpu) (h : lockid -> option nat) (c : nat) (aid : Z) (o : option nat) (hl : list lockid).
Context (Hlt : (c < length cs)%nat) (Hhl : (length hl <= 100)%nat).

#[local] Abbreviation here := (LkS cs h c (cpu_run aid o hl)).

Lemma section_run {A} (P : ptab -> Prop) (Q : A -> ptab -> Prop) (body : M (kst K) A) :
  (forall k L, triple (at_pt P k L) body (fun a => at_pt (Q a) k L)) ->
  post (at_p P here) (locked_section c body) (fun a => at_p (Q a) here).
Proof using Hlt Hhl.
  intros Hb s a s' [HP (z & Hz & HL)] Hrun.
  pose proof (cpu_run_calm _ _ _ _ Hhl Hz) as Hcalm.
  pose proof (section_free _ _ _ _ _ _ _ Hlt HL Hcalm Hrun) as Hfree.
  destruct (section_post cs h c z Hlt Hcalm Hfree P Q body Hb s a s') as [HQ (y & Hy & HL')]; [|done|].
  - split; [done|]. exists z. split; [done|]. done.
  - split; [done|]. exists y. split; [by eapply cpu_run_same|done].
Qed.

Lemma section_none {A} (P : ptab -> Prop) (body : M (kst K) A) s r : at_p P here s ->
  locked_section c body s = Ok r -> h LkPtable = None.
Proof using Hlt Hhl.
  intros [_ (z & Hz & HL)] Hrun. eapply section_free; [done..| |done]. by eapply cpu_run_calm.
Qed.

Lemma lock_none (P : ptab -> Prop) lk (s : kst K) r : at_p P here s -> lock c lk s = Ok r -> h lk = None.
Proof using Hlt Hhl.
  intros [_ (z & Hz & HL)] Hrun. eapply lock_free; [done..| |done]. by eapply cpu_run_calm.
Qed.

(** A critical section that returns found the lock free. *)
Lemma section_when_free {A} (P : ptab -> Prop) (body : M (kst K) A) Q :
  (h LkPtable = None -> post (at_p P here) (locked_section c body) Q) ->
  post (at_p P here) (locked_section c body) Q.
Proof using Hlt Hhl. intros H s a s' Hs Hrun. eapply H; [by eapply section_none|done..]. Qed.

Lemma calm_post {A} (P : ptab -> Prop) (Q : A -> ptab -> Prop) (m : M (kst K) A) :
  (forall k z, calm z -> triple (at_pt P k (LkC cs h c z)) m (fun a => at_pt (Q a) k (LkC cs h c z))) ->
  post (at_p P here) m (fun a => at_p (Q a) here).
Proof using Hhl.
  intros H s a s' [HP (z & Hz & HL)] Hrun. pose proof (cpu_run_calm _ _ _ _ Hhl Hz) as Hcalm.
  destruct (H (kk s) z Hcalm s) as (b & s2 & E2 & HQ & _ & y & Hy & HL').
  - split_and!; [done..|]. by exists z.
  - rewrite Hrun in E2. injection E2 as <- <-. split; [done|]. exists y. split; [by eapply cpu_run_same|done].
Qed.

(** [ticking], [kill], [wakeup] and the policy part of the timer. *)
Lemma ticking_post R E X : post (at_p (K := K) (inv R E X) here) ticking (fun _ => at_p (inv R E X) here).
Proof using. apply (at_p_of_at_pt _ _ (fun _ => _) _ (fun _ => _)). intros k. apply ticking_tr. Qed.

Lemma policy_post R E X cur ps : cur ∈ R ->
  post (at_p (K := K) (inv R E X) here) (tick_policy cfg c cur ps) (fun _ => at_p (inv R E X) here).
Proof using Hlt Hhl.
  intros Hc. unfold tick_policy. eapply post_bind; [apply read_post|intros p; simpl].
  pose proof (eq_refl : mlfq cfg = match pol cfg with MLFQ => true | _ => false end) as Hm.
  destruct (pol cfg); [by apply post_ret| |].
  - destruct (_ || _); by apply post_ret.
  - eapply post_bind; [apply post_deref; intros q s _ Hs; exact Hs|intros q; simpl]. destruct (q <=? p_curr_ticks p).
    + eapply (post_bind _ _ _ (fun _ => at_p (inv R E X) here)); [|intros []; by apply post_ret].
      apply (section_run (inv R E X) (fun _ => inv R E X)). intros k L. by apply set_running_tr.
    + eapply (post_bind _ _ _ (fun _ => at_p (inv R E X) here)); [|intros []; by apply post_ret].
      apply (section_run (inv R E X) (fun _ => inv R E X)). intros k L. by apply incr_body_tr.
Qed.

Lemma grow_threads_post R E X cur sz :
  post (at_p (K := K) (inv R E X) here) (grow_threads c cur sz) (fun _ => at_p (inv R E X) here).
Proof using Hlt Hhl.
  intros s a s' Hs Hrun. pose proof (section_none _ _ _ _ Hs Hrun) as Hfree.
  destruct Hs as [HI (z & Hz & HL)]. pose proof (cpu_run_calm _ _ _ _ Hhl Hz) as [Hn Hb].
  unfold grow_threads, locked_section in Hrun. apply bind_inv in Hrun as (u & s1 & E1 & Hrun).
  destruct (lock_tr (inv R E X) (kk s) (<[c := z]> cs) h c z (list_lookup_insert_eq _ _ _ Hlt) Hn ltac:(lia) LkPtable Hfree s)
    as (u' & s1' & E1' & HI1 & _ & HL1); [done|]. rewrite E1 in E1'. injection E1' as <- <-.
  apply bind_inv in Hrun as ([] & s2 & E2 & Hrun). apply bind_inv in Hrun as (u2 & s3 & E3 & Hrun).
  apply ret_inv in Hrun as [-> ->].
  set (phi := fun y => cpu_same (pushed z) y /\ (0 < c_ncli (pushed z) -> c_intena y = c_intena (pushed z))).
  set (h1 := <[LkPtable := Some c]> h).
  assert (Hnz : c_ncli z <= 100) by (destruct Hz as (_ & _ & En & _); lia).
  assert (Hcalm1 : calm (pushed z)) by (split; [apply nest_pushed; [done|lia]|simpl; lia]).
  assert (H2 : at_p (inv R E X) (LkS cs h1 c phi) s2).
  { refine ((_ : post (at_p (inv R E X) (LkS cs h1 c phi)) _ (fun _ => at_p (inv R E X) (LkS cs h1 c phi))) s1 tt s2 _ E2).
    - eapply post_bind; [apply read_post|intros cp; simpl].
      apply post_for_each. intros i _. eapply post_bind; [apply read_post|intros x; simpl].
      destruct (negb _); [by apply post_ret|].
      eapply post_bind; [by apply set_any_post|intros []; simpl]. by apply switchuvm_post.
    - split; [done|]. exists (pushed z). rewrite list_insert_insert_eq in HL1. split; [|done]. by split. }
  destruct H2 as [HI2 (y & [(E1y & E2y & E3y & E4y) Hint] & HL2)].
  destruct (unlock_tr (inv R E X) (kk s2) (<[c := y]> cs) h1 c y (list_lookup_insert_eq _ _ _ Hlt)) with (lk := LkPtable) (s := s2)
    as (u3 & s3' & E3' & HI3 & _ & HL3).
  { destruct Hcalm1 as [[A1 A2] _]. split; rewrite E3y; [done|]. by rewrite E4y. }
  { rewrite E3y. simpl. lia. }
  { by apply fn_lookup_insert. }
  { rewrite E3y. simpl. destruct Hn. lia. }
  { done. }
  rewrite E3 in E3'. injection E3' as <- <-. split; [done|]. exists (popped y).
  rewrite list_insert_insert_eq in HL3. split.
  - eapply cpu_run_same; [done|]. simpl in *. split_and!; simpl; try done; [lia|].
    rewrite E3y, Hint by (destruct Hn; lia). destruct Hn as [Hn1 Hn2].
    destruct (Z.eqb_spec (c_ncli z) 0) as [E0|E0].
    + by rewrite (proj2 (Z.eqb_eq (c_ncli z + 1) 1)) by lia.
    + rewrite (proj2 (Z.eqb_neq (c_ncli z + 1) 1)) by lia. symmetry. apply Hn2. lia.
  - eapply Lk_ext; [done|]. intros lk. destruct (decide (lk = LkPtable)) as [->|].
    + by rewrite fn_lookup_insert.
    + unfold h1. by rewrite !fn_lookup_insert_ne.
Qed.

Lemma switch_self_post R E X p :
  post (at_p (K := K) (inv R E X) here) (switchuvm c p) (fun _ => at_p (inv R E X) here).
Proof using Hlt Hhl.
  intros s a s' [HI (z & Hz & HL)] Hrun. pose proof (cpu_run_calm _ _ _ _ Hhl Hz) as Hcalm.
  destruct (switchuvm_post (inv R E X) cs h c z p Hlt Hcalm s a s') as [HI' (y & [Hy _] & HL')]; [|done|].
  - split; [done|]. exists z. by split; [split; [repeat split|]|].
  - split; [done|]. exists y. split; [by eapply cpu_run_same|done].
Qed.

Lemma printinfo_post R E X np L :
  post (at_p (K := K) (inv R E X) L) (printinfo np) (fun _ => at_p (inv R E X) L).
Proof using.
  unfold printinfo. eapply post_bind; [apply read_post|intros p; simpl].
  assert (Hp : forall fmt args, post (at_p (K := K) (inv R E X) L) (cprintf_k fmt args) (fun _ => at_p (inv R E X) L)).
  { intros fmt args. unfold cprintf_k. eapply post_bind; [apply post_deref; intros out s _ Hs; exact Hs|intros out; simpl].
    apply (post_on_pt _ _ (fun _ => inv R E X)). intros s [] s' Hs [= <-]. by eapply pt_inv_ext. }
  do 6 (eapply post_bind; [apply Hp|intros []; simpl]). by apply post_ret.
Qed.

(** The actions that do not give up the CPU and hold no lock after they
    return. *)
Definition plain (a : action K) : Prop :=
  match a with
  | ALock _ | AUnlock _ | ASleep _ _ | AYield | AWait _ | AZombie => False
  | _ => True
  end.

Context (R : list nat) (E : list (nat * nat)) (X : option (nat * bool)).
Context (HX : h LkPtable = None -> X = None) (Ho : forall cur, o = Some cur -> cur ∈ R) (HE : NoDup E.*1).

Definition next_post (r : list (action K) + (list (action K) -> kont K)) (s : kst K) : Prop :=
  match r with
  | inl l => at_p (inv R (embs l ++ E) X) here s /\ NoDup ((embs l ++ E).*1)
  | inr _ => False
  end.

Lemma embs_wakes (w : list chan) : embs (K := K) (AWake <$> w) = [].
Proof using. by induction w. Qed.

Lemma fresh_of (i st : nat) : NoDup (((i, st) :: E).*1) -> forall st', (i, st') ∉ E.
Proof using.
  intros Hnd st' Hin. rewrite fmap_cons in Hnd. apply NoDup_cons in Hnd as [Hn _]. apply Hn.
  apply list_elem_of_fmap. by exists (i, st').
Qed.

Lemma fresh_nodup (i st : nat) : (forall st', (i, st') ∉ E) -> NoDup (((i, st) :: E).*1).
Proof using HE.
  intros Hf. rewrite fmap_cons. apply NoDup_cons. split; [|done].
  intros Hin. apply list_elem_of_fmap in Hin as ([j st'] & Ej & Hin). simpl in Ej. subst. by apply (Hf st').
Qed.

Lemma fork_action_post cl : post (at_p (fun s => inv R E X s /\ pids_left s) here) (act cfg c o (AFork cl)) next_post.
Proof using Hlt Hhl HE.
  unfold act. eapply (post_bind _ _ _ (fun r => at_p (alloc_post cfg (G := G) R E X r) here)).
  - unfold alloc_slot. apply section_when_free. intros Hf.
    apply (calm_post _ (fun r => alloc_post cfg R E X r)). intros k z Hz. by apply alloc_slot_tr.
  - intros [np|]; apply post_ret; [|by intros s Hs].
    intros s [[HI Hf] HL]. split; [done|]. by apply fresh_nodup.
Qed.

Lemma publish_action_post np cl : NoDup (((np, 3%nat) :: E).*1) -> G np true ->
  post (at_p (inv R ((np, 3%nat) :: E) X) here) (act cfg c o (APublish np cl)) next_post.
Proof using Hlt Hhl HX HE.
  intros Hnd Hg. unfold act. eapply (post_bind _ _ _ (fun _ => at_p (inv R E X) here)).
  - unfold publish. apply section_when_free. intros Hf. rewrite (HX Hf).
    apply (calm_post _ (fun _ => inv R E None)). intros k z Hz. apply publish_tr; try done. by eapply fresh_of.
  - intros []. eapply (post_bind _ _ _ (fun _ => at_p (inv R E X) here)); [|intros []; by apply post_ret].
    destruct cl; [|by apply post_ret]. eapply post_bind; [apply printinfo_post|intros ?; by apply post_ret].
Qed.

Lemma wake_action_post ch : post (at_p (inv R E X) here) (act cfg c o (AWake ch)) next_post.
Proof using Hlt Hhl HX HE.
  unfold act. eapply (post_bind _ _ _ (fun _ => at_p (inv R E X) here)); [|intros []; by apply post_ret].
  unfold wakeup. apply section_when_free. intros Hf. rewrite (HX Hf).
  apply (section_run (inv R E None) (fun _ => inv R E None)). intros k L. apply wakeup1_tr.
Qed.

Lemma kill_action_post pid : post (at_p (inv R E X) here) (act cfg c o (AKill pid)) next_post.
Proof using Hlt Hhl HX HE.
  unfold act. eapply (post_bind _ _ _ (fun _ => at_p (inv R E X) here)); [|intros ?; by apply post_ret].
  unfold kill. apply section_when_free. intros Hf. rewrite (HX Hf).
  apply (section_run (inv R E None) (fun _ => inv R E None)). intros k L. apply kill_body_tr.
Qed.

Lemma with_cur {A} (P : kst K -> Prop) (k : nat -> M (kst K) A) Q :
  (forall cur, cur ∈ R -> post P (k cur) Q) -> post P (cur ← deref o; k cur) Q.
Proof using Ho HE.
  intros H s a s' Hs Hrun. apply bind_inv in Hrun as (cur & s1 & E1 & Hrun).
  unfold deref in E1. destruct o as [cur'|] eqn:Eo; [|done]. apply ret_inv in E1 as [-> ->].
  by eapply (H cur'); [apply Ho|..].
Qed.

(** Ends a chain with [mret (inl l)] where the wakeups in [l] own nothing. *)
Lemma ret_next P l : embs l = [] -> (forall s, P s -> at_p (inv R E X) here s) ->
  post P (mret (inl l)) next_post.
Proof using HE. intros El H. apply post_ret. intros s Hs. simpl. rewrite El. split; [by apply H|done]. Qed.

Lemma body_action_post np cl : NoDup (((np, 2%nat) :: E).*1) ->
  post (at_p (inv R ((np, 2%nat) :: E) X) here) (act cfg c o (ABody np cl)) next_post.
Proof using Ho HE.
  intros Hnd. pose proof (fresh_of _ _ Hnd) as Hni. apply with_cur. intros cur Hc.
  eapply (post_bind _ _ _ (fun b => at_p (inv R (if (b : bool) then (np, 3%nat) :: E else E) X) here)).
  - destruct cl as [[[function arg] stack]|]; [|by apply fork_body_post].
    eapply post_bind; [by apply clone_body_post|intros []]. by apply post_ret.
  - intros [|]; apply post_ret; by intros s Hs.
Qed.

Lemma init_action_post np cl : NoDup (((np, 0%nat) :: E).*1) ->
  post (at_p (inv R ((np, 0%nat) :: E) X) here) (act cfg c o (AInit np cl)) next_post.
Proof using HE.
  intros Hnd. pose proof (fresh_of _ _ Hnd) as Hni. unfold act.
  eapply post_bind; [by apply init_slot_post|]. intros [|]; apply post_ret; by intros s Hs.
Qed.

Lemma close_action_post fd : post (at_p (inv R E X) here) (act cfg c o (AClose fd)) next_post.
Proof using Ho HE.
  apply with_cur. intros cur Hc. eapply (post_bind _ _ _ (fun _ => at_p (inv R E X) here)).
  - unfold close_file. eapply post_bind; [apply read_post|intros cp; simpl].
    eapply post_bind; [apply post_deref; intros a s _ Hs; exact Hs|]. intros [f|]; [|by apply post_ret].
    eapply post_bind; [apply post_on_k|intros w; simpl]. by apply post_ret.
  - intros [w|]; apply ret_next; try done. unfold embs. rewrite fmap_app, concat_app. simpl.
    rewrite app_nil_r. apply embs_wakes.
Qed.

Lemma set_cur_post cur f : cur ∈ R -> (forall y, neutral y (f y)) ->
  post (at_p (K := K) (inv R E X) here) (set_proc cur f) (fun _ => at_p (inv R E X) here).
Proof using. intros _ Hf. by apply set_any_post. Qed.

Lemma policy_action_post ps o' : o' = o ->
  post (at_p (inv R E X) here)
    (match o' with
     | None => mret (inl [])
     | Some cur =>
         d ← tick_policy cfg c cur ps;
         p ← proc_at cur;
         mret (inl match d with Stay => [] | Yield => [AYield] | KillSelf => [AKill (p_pid p)] end)
     end) next_post.
Proof using Hlt Hhl Ho HE.
  intros Eo. destruct o' as [cur|]; [|by apply ret_next].
  eapply post_bind; [apply policy_post; by apply Ho|intros d; simpl].
  eapply post_bind; [apply read_post|intros p; simpl]. by destruct d; apply ret_next.
Qed.

(** The actions on the caller's own slot and on the layers below. *)
Lemma simple_action_post a :
  match a with
  | AExit | AClear _ | ABegin | APut | AEnd | ACwd | ATicks | ATicking | APolicy _ | AGrow _
  | AGrowThreads _ | AGrowSelf | ASvc _ => True
  | AOwn f => own_ok f
  | _ => False
  end -> post (at_p (inv R E X) here) (act cfg c o a) next_post.
Proof using Hlt Hhl Ho HE.
  destruct a; try done; intros Ha; unfold act; try (apply with_cur; intros cur Hc).
  - eapply (post_bind _ _ _ (fun _ => at_p (inv R E X) here)); [|intros []; by apply ret_next].
    unfold exit_check. eapply (post_bind _ _ _ (fun _ => at_p (inv R E X) here)); [by intros s a s' Hs [= <- <-]|].
    intros s0. case_decide; [by intros s a s' _ ?|by apply post_ret].
  - eapply post_bind; [apply set_cur_post; [done|]|intros []; by apply ret_next].
    intros y. split_and!; try done. simpl. by rewrite length_insert.
  - eapply post_bind; [apply post_on_k|intros []; by apply ret_next].
  - eapply (post_bind _ _ _ (fun _ => at_p (inv R E X) here)).
    + unfold put_cwd. eapply post_bind; [apply read_post|intros cp; simpl].
      eapply post_bind; [apply post_deref; intros a s _ Hs; exact Hs|]. intros d. apply post_on_k.
    + intros w. apply ret_next; [apply embs_wakes|done].
  - eapply post_bind; [apply post_on_k|]. intros w. apply ret_next; [apply embs_wakes|done].
  - eapply post_bind; [by apply set_cur_post|intros []; by apply ret_next].
  - eapply (post_bind _ _ _ (fun _ => at_p (inv R E X) here)); [|intros []; by apply ret_next].
    apply (post_on_pt _ _ (fun _ => inv R E X)). intros s [] s' Hs [= <-]. by eapply pt_inv_ext.
  - eapply post_bind; [apply ticking_post|intros []; by apply ret_next].
  - by apply policy_action_post.
  - eapply post_bind; [apply grow_mem_post|]. by intros [sz|]; apply ret_next.
  - eapply post_bind; [by apply grow_threads_post|intros []; by apply ret_next].
  - eapply post_bind; [by apply switch_self_post|intros []; by apply ret_next].
  - eapply post_bind; [apply post_on_k|]. intros w. apply ret_next; [apply embs_wakes|done].
  - eapply post_bind; [by apply own_post|intros []; by apply ret_next].
Qed.

(** ** Locks *)
Lemma lock_action_post lk : (length hl < 100)%nat ->
  post (at_p (inv R E X) here) (act cfg c o (ALock lk))
    (fun r s => r = inl [] /\ h lk = None /\
       at_p (inv R E X) (LkS cs (<[lk := Some c]> h) c (cpu_run aid o (lk :: hl))) s).
Proof using Hlt Hhl.
  intros Hl s r s' Hs Hrun. apply bind_inv in Hrun as ([] & s1 & E1 & Hrun). apply ret_inv in Hrun as [-> ->].
  pose proof (lock_none _ _ _ _ Hs E1) as Hf. destruct Hs as [HI HL].
  destruct (lock_S (inv R E X) (kk s) cs h c (cpu_run aid o hl) (cpu_run aid o (lk :: hl)) Hlt lk Hf) with s
    as (u & s2 & E2 & HI2 & _ & HL2).
  - intros z Hz. destruct (cpu_run_calm _ _ _ _ Hhl Hz) as [Hn Hb]. destruct Hz as (H1 & H2 & H3 & H4).
    split; [done|]. split; [lia|]. split_and!; simpl; try done. lia.
  - done.
  - rewrite E1 in E2. by injection E2 as <- <-.
Qed.

Lemma unlock_action_post lk hl' : hl = lk :: hl' -> h lk = Some c ->
  post (at_p (inv R E X) here) (act cfg c o (AUnlock lk))
    (fun r s => r = inl [] /\ at_p (inv R E X) (LkS cs (<[lk := None]> h) c (cpu_run aid o hl')) s).
Proof using Hlt Hhl.
  intros Hl Hh s r s' [HI HL] Hrun. apply bind_inv in Hrun as ([] & s1 & E1 & Hrun). apply ret_inv in Hrun as [-> ->].
  destruct (unlock_S (inv R E X) (kk s) cs h c (cpu_run aid o hl) (cpu_run aid o hl') Hlt lk Hh) with s
    as (u & s2 & E2 & HI2 & _ & HL2).
  - intros z Hz. destruct (cpu_run_calm _ _ _ _ Hhl Hz) as [Hn Hb]. destruct Hz as (H1 & H2 & H3 & H4).
    rewrite Hl in H3, H4. simpl in H3. split; [done|]. split; [lia|]. split_and!; simpl; try done; [lia|].
    intros Hne. rewrite (proj2 (Z.eqb_neq (c_ncli z) 1)); [done|]. destruct hl'; [done|]. simpl in H3. lia.
  - done.
  - rewrite E1 in E2. by injection E2 as <- <-.
Qed.

(** ** Giving up the CPU *)
Definition good_kont (k : kont K) : Prop := match k with KNone | KDead => False | _ => True end.

(** The slots a saved context is setting up. *)
Definition embs_kont (k : kont K) : list (nat * nat) :=
  match k with
  | KYield _ rest | KSleep _ _ rest | KWait _ _ rest => embs rest
  | _ => []
  end.

(** After [swtch] away from [p]: [ptable.lock] is held, and the saved context
    can be resumed unless [p] has exited. *)
Definition off_post (p : nat) (h' : lockid -> option nat) (k : list (action K) -> kont K) (s : kst K) : Prop :=
  exists b st, at_p (fun s => inv (minus R p) E (Some (p, b)) s /\ slot_state p st s)
      (LkS cs h' c (cpu_is aid (Some p) 1 false None)) s /\
    (st <> ZOMBIE -> forall rest, good_kont (k rest) /\ embs_kont (k rest) = embs rest) /\
    (st = ZOMBIE -> forall rest, k rest = KDead) /\ (in_use st \/ st = ZOMBIE).

Lemma yield_action_post p : o = Some p -> hl = [] ->
  post (at_p (inv R E X) here) (act cfg c o AYield)
    (fun r s => match r with inl _ => False | inr k => h LkPtable = None /\ off_post p (<[LkPtable := Some c]> h) k s end).
Proof using Hlt Hhl HX Ho.
  intros Eo El s r s' Hs Hrun. unfold act in Hrun. rewrite Eo in Hrun. simpl deref in Hrun.
  rewrite (bind_Ok (mret p) _ _ _ _ eq_refl) in Hrun.
  apply bind_inv in Hrun as (i & s1 & E1 & Hrun). apply ret_inv in Hrun as [-> ->].
  assert (Hf : h LkPtable = None).
  { unfold yield in E1. apply bind_inv in E1 as (? & ? & E1 & _). by eapply lock_none. }
  split; [done|]. rewrite (HX Hf) in Hs. destruct Hs as [HI (z & Hz & HL)].
  pose proof (cpu_run_calm _ _ _ _ Hhl Hz) as [Hn Hb]. destruct Hz as (H1 & H2 & H3 & H4).
  rewrite El in H3. simpl in H3. rewrite Eo in H2.
  destruct (yield_tr cfg (G := G) R E p (kk s) (<[c := z]> cs) h c z (Ho p Eo) (list_lookup_insert_eq _ _ _ Hlt) Hn H3 Hf s)
    as (i' & s2 & E2 & (HP2 & _ & HL2) & Ei); [done|].
  rewrite E1 in E2. injection E2 as <- <-. exists true, RUNNABLE. split; [|split_and!; unfold in_use; by auto].
  split; [done|]. exists (pushed z). rewrite list_insert_insert_eq in HL2. split; [|done].
  split_and!; simpl; try done. lia.
Qed.

Lemma zombie_action_post p : o = Some p -> hl = [] -> G p false ->
  post (at_p (inv R E X) here) (act cfg c o AZombie)
    (fun r s => match r with inl _ => False | inr k => h LkPtable = None /\ off_post p (<[LkPtable := Some c]> h) k s end).
Proof using Hlt Hhl HX Ho.
  intros Eo El Hg s r s' Hs Hrun. unfold act in Hrun. rewrite Eo in Hrun. simpl deref in Hrun.
  rewrite (bind_Ok (mret p) _ _ _ _ eq_refl) in Hrun.
  apply bind_inv in Hrun as (i & s1 & E1 & Hrun). apply ret_inv in Hrun as [-> ->].
  assert (Hf : h LkPtable = None).
  { unfold exit_zombie in E1. apply bind_inv in E1 as (? & ? & E1 & _). by eapply lock_none. }
  split; [done|]. rewrite (HX Hf) in Hs. destruct Hs as [HI (z & Hz & HL)].
  pose proof (cpu_run_calm _ _ _ _ Hhl Hz) as [Hn Hb]. destruct Hz as (H1 & H2 & H3 & H4).
  rewrite El in H3. simpl in H3. rewrite Eo in H2.
  destruct (exit_zombie_tr cfg (G := G) R E p (kk s) (<[c := z]> cs) h c z (Ho p Eo) (list_lookup_insert_eq _ _ _ Hlt) Hn H3 Hf Hg s)
    as (i' & s2 & E2 & (HP2 & _ & HL2) & Ei); [done|].
  rewrite E1 in E2. injection E2 as <- <-. exists false, ZOMBIE. split; [|split_and!; unfold in_use; by auto].
  split; [done|]. exists (pushed z). rewrite list_insert_insert_eq in HL2. split; [|done].
  split_and!; simpl; try done. lia.
Qed.

Lemma sleep_action_post p ch lk : o = Some p -> hl = [lk] -> lk <> LkPtable -> h lk = Some c ->
  post (at_p (inv R E X) here) (act cfg c o (ASleep ch lk))
    (fun r s => match r with inl _ => False
                | inr k => h LkPtable = None /\ off_post p (<[lk := None]> (<[LkPtable := Some c]> h)) k s end).
Proof using Hlt Hhl HX Ho.
  intros Eo El Hne Hh s r s' Hs Hrun. unfold act in Hrun. rewrite Eo in Hrun. simpl deref in Hrun.
  rewrite (bind_Ok (mret p) _ _ _ _ eq_refl) in Hrun.
  apply bind_inv in Hrun as (i & s1 & E1 & Hrun). apply ret_inv in Hrun as [-> ->].
  assert (Hf : h LkPtable = None).
  { unfold sleep in E1. rewrite decide_False in E1 by done. apply bind_inv in E1 as (? & ? & E1 & _).
    apply bind_inv in E1 as (? & ? & E1 & _). by eapply lock_none. }
  split; [done|]. rewrite (HX Hf) in Hs. destruct Hs as [HI (z & Hz & HL)].
  pose proof (cpu_run_calm _ _ _ _ Hhl Hz) as [Hn Hb]. destruct Hz as (H1 & H2 & H3 & H4).
  rewrite El in H3, H4. simpl in H3. rewrite Eo in H2.
  destruct (sleep_tr cfg (G := G) R E p (kk s) (<[c := z]> cs) h c z (Ho p Eo) (list_lookup_insert_eq _ _ _ Hlt) Hn ch lk Hne H3 Hf Hh s)
    as (i' & s2 & E2 & (HP2 & _ & HL2) & Ei); [done|].
  rewrite E1 in E2. injection E2 as <- <-. exists false, SLEEPING. split; [|split_and!; unfold in_use; by auto].
  split; [done|]. exists z. split; [|done]. split_and!; try done. by apply H4.
Qed.

(** [wait], [waitx] and [join] return with the lock free, or sleep. *)
Lemma wait_action_post p w : o = Some p -> hl = [] ->
  post (at_p (inv R E X) here) (act cfg c o (AWait w))
    (fun r s => h LkPtable = None /\
       match r with
       | inl l => l = [] /\ at_p (inv R E None) here s
       | inr k => off_post p (<[LkPtable := Some c]> h) k s
       end).
Proof using Hlt Hhl HX Ho.
  intros Eo El s r s' Hs Hrun. unfold act in Hrun. rewrite Eo in Hrun. simpl deref in Hrun.
  rewrite (bind_Ok (mret p) _ _ _ _ eq_refl) in Hrun.
  apply bind_inv in Hrun as (u & s1 & E1 & Hrun). pose proof (lock_none _ _ _ _ Hs E1) as Hf.
  apply bind_inv in Hrun as (e & s2 & E2 & Hrun). apply ret_inv in Hrun as [-> ->].
  split; [done|]. rewrite (HX Hf) in Hs. destruct Hs as [HI (z & Hz & HL)].
  pose proof (cpu_run_calm _ _ _ _ Hhl Hz) as [Hn Hb]. pose proof Hz as (H1 & H2 & H3 & H4).
  rewrite El in H3. simpl in H3. rewrite Eo in H2.
  destruct (lock_tr (inv R E None) (kk s) (<[c := z]> cs) h c z (list_lookup_insert_eq _ _ _ Hlt) Hn ltac:(lia) LkPtable Hf s)
    as (u' & s1' & E1' & HI1 & _ & HL1); [done|]. rewrite E1 in E1'. injection E1' as <- <-.
  rewrite list_insert_insert_eq in HL1.
  assert (Hc1 : <[c := pushed z]> cs !! c = Some (pushed z)) by by apply list_lookup_insert_eq.
  pose proof (wait_loop_post cfg (G := G) R E p (<[c := pushed z]> cs) (<[LkPtable := Some c]> h) c (pushed z) w (Ho p Eo) Hc1
    (nest_pushed _ Hn ltac:(lia)) ltac:(simpl; lia) ltac:(by rewrite fn_lookup_insert) s1 e s2 (conj HI1 HL1) E2) as Hpost.
  destruct e as [e|i]; simpl in Hpost.
  - split; [done|]. destruct Hpost as [HI2 HL2]. split; [done|]. exists (settled z).
    rewrite list_insert_insert_eq, popped_pushed in HL2 by done. split.
    + eapply cpu_run_same; [done|]. by apply cpu_same_settled.
    + eapply Lk_ext; [done|]. intros lk. destruct (decide (lk = LkPtable)) as [->|].
      * by rewrite fn_lookup_insert.
      * by rewrite !fn_lookup_insert_ne.
  - destruct Hpost as [[HP2 HL2] Ei]. exists false, SLEEPING. split; [|split_and!; unfold in_use; by auto].
    split; [done|]. exists (pushed z). split; [|done]. split_and!; simpl; try done. lia.
Qed.
End OnCpu.
End Actions.
