(* ===== verification/SysInv.v ===== *)
(** * The system invariant

    Resuming a process, the invariant [sys_inv] of the whole system, and
    what an action does to it. *)

From stdpp Require Import prelude strings functions relations.
From S2P Require Import Prelude CString Console Spinlock ProcData Queue Mlfq Kalloc Proc Sched Aging Inv Lifecycle SchedInv System Actions.

Open Scope Z_scope.

#[local] Arguments for_each : simpl never.
#[local] Arguments for_until : simpl never.
#[local] Arguments seq : simpl never.

(** ** Resuming a process

    CPU [c] has switched to [p] and holds [ptable.lock] for it. *)
Section Resume.
Context {K : Type} {KS : KernelSvc K} (cfg : config) {G : nat -> bool -> Prop}.
Context (cs : list cpu) (h : lockid -> option nat) (c : nat) (aid : Z) (p : nat) (R : list nat) (E : list (nat * nat)).
Context (Hlt : (c < length cs)%nat) (Hh : h LkPtable = Some c) (Hp : p ∈ R).

#[local] Abbreviation inv := (pt_inv cfg G).
#[local] Abbreviation held := (LkS cs h c (cpu_is aid (Some p) 1 false None)).
#[local] Abbreviation free := (LkS cs (<[LkPtable := None]> h) c (cpu_run aid (Some p) [])).

Lemma forkret_tr P (k : K) : triple (at_pt P k held) (forkret c) (fun _ => at_pt P k free).
Proof using Hlt Hh.
  apply (unlock_S _ _ _ _ _ _ _ Hlt LkPtable Hh). intros z (H1 & H2 & H3 & H4 & _).
  split; [split; [lia|done]|]. split; [lia|]. split_and!; simpl; try done. lia.
Qed.

Lemma sched_return_tr P (k : K) i : triple (at_pt P k held) (sched_return c i) (fun _ => at_pt P k held).
Proof using Hlt.
  intros s (HP & Hk & z & Hz & HL). pose proof Hz as (H1 & H2 & H3 & H4 & _). pose proof HL as (Ecs & Hd & _).
  assert (Hc : cpus (lks s) !! c = Some z) by (rewrite Ecs; by apply list_lookup_insert_eq).
  unfold sched_return.
  assert (Em : on_l (mycpu c) s = Ok (c, s)).
  { unfold on_l. rewrite (mycpu_run _ _ _ Hc H4 Hd). by destruct s. }
  rewrite (bind_Ok _ _ _ _ _ Em).
  apply (set_cpu_S P k cs h c (cpu_is aid (Some p) 1 false None) (cpu_is aid (Some p) 1 false None) Hlt).
  - by intros y (? & ? & ? & ? & ?).
  - split_and!; [done..|]. by exists z.
Qed.

Lemma yield_return_tr P (k : K) i : triple (at_pt P k held) (yield_return c i) (fun _ => at_pt P k free).
Proof using Hlt Hh.
  unfold yield_return. eapply triple_bind; [apply sched_return_tr|intros []; simpl]. apply forkret_tr.
Qed.

Lemma sleep_return_tr (k : K) i lk X :
  triple (at_pt (inv R E X) k held) (sleep_return c p i lk)
    (fun _ => at_pt (inv R E X) k (if decide (lk = LkPtable) then held else free)).
Proof using Hlt Hh Hp.
  unfold sleep_return. eapply triple_bind; [apply sched_return_tr|intros []; simpl].
  eapply triple_bind; [by apply set_running_tr|intros []; simpl].
  case_decide; [by apply triple_ret|apply forkret_tr].
Qed.

(** [wait], [waitx] and [join] after [sleep] returns: another pass over the
    table, which returns or sleeps again. *)
Lemma wait_resume_post i w :
  post (at_p (inv R E None) held) (wait_resume cfg c p i w)
    (fun r s => match r with
       | inl _ => at_p (inv R E None) free s
       | inr _ => at_p (fun t => inv (minus R p) E (Some (p, false)) t /\ slot_state p SLEEPING t) held s
       end).
Proof using Hlt Hh Hp.
  unfold wait_resume. eapply (post_bind _ _ _ (fun _ => at_p (inv R E None) held)).
  - apply (at_p_of_at_pt _ _ (fun _ => _) _ (fun _ => _)). intros k. apply (sleep_return_tr k i LkPtable None).
  - intros [] s r s' [HI (z & Hz & HL)] Hrun. pose proof Hz as (H1 & H2 & H3 & H4 & _).
    assert (Hn : nest_ok z) by (split; [lia|done]).
    pose proof (wait_loop_post cfg (G := G) R E p (<[c := z]> cs) h c z w Hp (list_lookup_insert_eq _ _ _ Hlt) Hn H3 Hh s r s' (conj HI HL) Hrun) as Hpost.
    destruct r as [e|j]; simpl in Hpost.
    + destruct Hpost as [HI' HL']. split; [done|]. rewrite list_insert_insert_eq in HL'. exists (popped z).
      split; [|done]. split_and!; simpl; try done. lia.
    + destruct Hpost as [[HI' HL'] _]. split; [done|]. by exists z.
Qed.
End Resume.

(** ** The invariant *)
Section SysInv.
Context {K : Type} {KS : KernelSvc K} (cfg : config).

Definition runner (m : mode K) : option nat :=
  match m with MRun o _ _ => o | MBack _ => None | MResume p => Some p end.

Definition running (ms : list (mode K)) : list nat := omap runner ms.

Definition held_of (m : mode K) : list lockid := match m with MRun _ _ hl => hl | _ => [LkPtable] end.

Definition embs_mode (m : mode K) : list (nat * nat) := match m with MRun _ prog _ => embs prog | _ => [] end.

Definition all_embs (ms : list (mode K)) (sv : list (kont K)) : list (nat * nat) :=
  concat (embs_mode <$> ms) ++ concat (embs_kont <$> sv).

(** A process that can run is on a CPU or has a context to resume; the
    context of any other slot sets up no new process. *)
Definition good (ms : list (mode K)) (sv : list (kont K)) (i : nat) (b : bool) : Prop :=
  if b then i ∈ running ms \/ exists k, sv !! i = Some k /\ good_kont k
  else forall k, sv !! i = Some k -> embs_kont k = [].

(** The state of a CPU. *)
Definition cpu_mode (m : mode K) (z : cpu) : Prop :=
  match m with
  | MRun o _ hl => cpu_run (c_apicid z) o hl z
  | MBack p | MResume p => cpu_is (c_apicid z) (Some p) 1 false None z
  end.

Definition mode_ok (sv : list (kont K)) (m : mode K) : Prop :=
  match m with
  | MRun o prog hl => NoDup hl /\ (LkPtable ∉ hl) /\ (length hl <= 100)%nat /\ wf_prog hl prog /\
      forall p, o = Some p -> sv !! p = Some KNone
  | MBack _ => True
  | MResume p => exists k, sv !! p = Some k /\ good_kont k
  end.

Definition kont_ok (k : kont K) : Prop :=
  match k with
  | KYield _ rest | KWait _ _ rest => wf_prog [] rest
  | KSleep lk _ rest => lk <> LkPtable /\ wf_prog [lk] rest
  | _ => True
  end.

Definition X_ok (ms : list (mode K)) (X : option (nat * bool)) : Prop :=
  (forall c p, ms !! c = Some (MBack p) -> exists b, X = Some (p, b)) /\
  ((forall c p, ms !! c <> Some (MBack p)) -> X = None).

Record sys_inv_at (s : sys K) (cs : list cpu) (h : lockid -> option nat) (X : option (nat * bool)) : Prop := {
  si_pt : pt_inv cfg (good (modes s) (saved s)) (running (modes s)) (all_embs (modes s) (saved s)) X (pt (ks s));
  si_lk : Lk cs h (lks (ks s));
  si_len : length cs = length (modes s);
  si_cpu : forall c m z, modes s !! c = Some m -> cs !! c = Some z -> cpu_mode m z;
  si_held : forall c m lk, modes s !! c = Some m -> (h lk = Some c <-> lk ∈ held_of m);
  si_holder : forall lk c, h lk = Some c -> (c < length (modes s))%nat;
  si_run : NoDup (running (modes s));
  si_emb : NoDup (all_embs (modes s) (saved s)).*1;
  si_X : X_ok (modes s) X;
  si_mode : forall c m, modes s !! c = Some m -> mode_ok (saved s) m;
  si_kont : forall p k, saved s !! p = Some k -> kont_ok k;
  si_saved : length (saved s) = NPROC;
  si_stage : forall np st, (np, st) ∈ all_embs (modes s) (saved s) -> (2 <= st)%nat -> saved s !! np = Some KForkret
}.

Definition sys_inv (s : sys K) : Prop := exists cs h X, sys_inv_at s cs h X.

(** ** Changing one CPU and one saved context *)
Lemma embs_split ms sv c p m k : ms !! c = Some m -> sv !! p = Some k ->
  exists r, all_embs ms sv ≡ₚ embs_mode m ++ embs_kont k ++ r /\
    forall m' k', all_embs (<[c := m']> ms) (<[p := k']> sv) ≡ₚ embs_mode m' ++ embs_kont k' ++ r.
Proof using.
  intros Hm Hk. destruct (concat_fmap_insert embs_mode ms c m Hm) as (r1 & E1 & E1').
  destruct (concat_fmap_insert embs_kont sv p k Hk) as (r2 & E2 & E2').
  exists (r1 ++ r2). unfold all_embs. split; [rewrite E1, E2|intros m' k'; rewrite E1', E2'];
    rewrite <- !(assoc_L (++)); apply Permutation_app_head, Permutation_app_swap_app.
Qed.

Lemma embs_split_mode ms sv c m : ms !! c = Some m ->
  exists r, all_embs ms sv ≡ₚ embs_mode m ++ r /\ forall m', all_embs (<[c := m']> ms) sv ≡ₚ embs_mode m' ++ r.
Proof using.
  intros Hm. destruct (concat_fmap_insert embs_mode ms c m Hm) as (r1 & E1 & E1').
  exists (r1 ++ concat (embs_kont <$> sv)). unfold all_embs.
  split; [rewrite E1|intros m'; rewrite E1']; by rewrite <- (assoc_L (++)).
Qed.

Lemma pt_inv_mono G G' R R' E E' X s : pt_inv cfg G R E X s -> (forall j, j ∈ R' <-> j ∈ R) -> E' ⊆ E ->
  (forall i p, procs s !! i = Some p -> in_use (p_state p) -> G i true -> G' i true) ->
  (forall i p, procs s !! i = Some p -> ~ in_use (p_state p) -> G i false -> G' i false) ->
  pt_inv cfg G' R' E' X s.
Proof using.
  intros [H1 H2 H3 H4 H5 H6 H7 H8 H9] HR HE Ht Hf. split; try done.
  - intros i p Hp. rewrite HR. by apply H2.
  - intros i. rewrite HR. by apply H3.
  - intros i p Hp Hu. destruct (H4 i p Hp Hu) as (? & ? & ?). split_and!; eauto.
  - intros i p Hp Hu. eauto.
  - intros i st Hi. apply H7. by apply HE.
Qed.

(** The state after a step of CPU [c]. *)
Lemma sys_next s cs h X c m m' h' X' k' sv' phi :
  sys_inv_at s cs h X -> modes s !! c = Some m ->
  let ms' := <[c := m']> (modes s) in
  LkS cs h' c phi (lks k') -> (forall z, phi z -> cpu_mode m' z) ->
  pt_inv cfg (good ms' sv') (running ms') (all_embs ms' sv') X' (pt k') ->
  (forall lk, h' lk = Some c <-> lk ∈ held_of m') ->
  (forall lk c', c' <> c -> h' lk = Some c' <-> h lk = Some c') ->
  NoDup (running ms') -> NoDup (all_embs ms' sv').*1 -> X_ok ms' X' -> mode_ok sv' m' ->
  (forall c' m2, c' <> c -> modes s !! c' = Some m2 -> mode_ok sv' m2) ->
  (forall p k, sv' !! p = Some k -> kont_ok k) -> length sv' = NPROC ->
  (forall np st, (np, st) ∈ all_embs ms' sv' -> (2 <= st)%nat -> sv' !! np = Some KForkret) ->
  sys_inv (mkSys k' ms' sv').
Proof using.
  intros HI Hm ms' (y & Hy & HL) Hphi Hpt Hh1 Hh2 Hr He HX Hmo Hmo2 Hk Hl Hst.
  assert (Hc : (c < length (modes s))%nat) by by eapply lookup_lt_Some.
  assert (Hlk : forall c2 m2, ms' !! c2 = Some m2 -> (c2 = c /\ m2 = m') \/ (c2 <> c /\ modes s !! c2 = Some m2)).
  { intros c2 m2 H2. unfold ms' in H2. destruct (decide (c2 = c)) as [->|].
    - rewrite list_lookup_insert_eq in H2 by done. left. naive_solver.
    - rewrite list_lookup_insert_ne in H2 by done. auto. }
  exists (<[c := y]> cs), h', X'. split; simpl; try done.
  - unfold ms'. rewrite !length_insert. apply (si_len _ _ _ _ HI).
  - intros c2 m2 z H2 Hz. apply Hlk in H2 as [[-> ->]|[Hne H2]].
    + rewrite list_lookup_insert_eq in Hz by (rewrite (si_len _ _ _ _ HI); done). naive_solver.
    + rewrite list_lookup_insert_ne in Hz by done. by eapply (si_cpu _ _ _ _ HI).
  - intros c2 m2 lk H2. apply Hlk in H2 as [[-> ->]|[Hne H2]]; [done|].
    rewrite Hh2 by done. by eapply (si_held _ _ _ _ HI).
  - intros lk c2 H2. unfold ms'. rewrite length_insert. destruct (decide (c2 = c)) as [->|Hne]; [done|].
    apply Hh2 in H2; [|done]. by eapply (si_holder _ _ _ _ HI).
  - intros c2 m2 H2. apply Hlk in H2 as [[-> ->]|[Hne H2]]; eauto.
Qed.

(** ** The actions *)

Ltac acts :=
  repeat match goal with
  | H : mbind _ _ _ = Ok _ |- _ => apply bind_inv in H as (? & ? & ? & H)
  | H : mret _ _ = Ok _ |- _ => apply ret_inv in H as [? ?]
  end.

(** The code an action can put in front of the rest. *)
Definition produces (a : action K) (l : list (action K)) : Prop :=
  match a with
  | AFork cl => l = [] \/ exists np, l = [AInit np cl]
  | AInit np cl => l = [] \/ l = [ABody np cl]
  | ABody np cl => l = [] \/ l = [APublish np cl]
  | AClose fd => l = [] \/ exists w, l = (AWake <$> w) ++ [AClear fd]
  | APut | AEnd | ASvc _ => exists w, l = AWake <$> w
  | APolicy _ => l = [] \/ l = [AYield] \/ exists pid, l = [AKill pid]
  | AGrow _ => l = [] \/ exists sz, l = [AGrowThreads sz; AGrowSelf]
  | AZombie | ASleep _ _ | AYield => False
  | _ => l = []
  end.

Lemma act_produces c o a (s s' : kst K) l : act cfg c o a s = Ok (inl l, s') -> produces a l.
Proof using.
  unfold act. destruct a; intros H; acts; simplify_eq; simpl; eauto.
  all: try match goal with o : option nat |- produces (APolicy _) _ => destruct o; acts end.
  all: repeat match goal with
    | x : option _ |- _ => destruct x
    | x : bool |- _ => destruct x
    | x : preempt |- _ => destruct x
    | x : (_ + _)%type |- _ => destruct x
    end; acts; simplify_eq; simpl; eauto.
  all: repeat match goal with x : preempt |- _ => destruct x end; simplify_eq; simpl; eauto.
Qed.

(** The context an action can leave behind. *)
Definition leaves (a : action K) (k : list (action K) -> kont K) : Prop :=
  match a with
  | AZombie => k = fun _ => KDead
  | AWait w => exists i, k = KWait w i
  | ASleep _ lk => exists i, k = KSleep lk i
  | AYield => exists i, k = KYield i
  | _ => False
  end.

Lemma act_leaves c o a (s s' : kst K) k : act cfg c o a s = Ok (inr k, s') -> leaves a k.
Proof using.
  unfold act. destruct a; intros H; acts; simplify_eq; simpl; eauto.
  - match goal with x : (wait_end + bool)%type |- _ => destruct x end; simplify_eq; eauto.
  - by destruct o; acts; simplify_eq.
Qed.

Lemma head_tail {A} (l : list A) x : head l = Some x -> l = x :: tail l.
Proof using. destruct l; naive_solver. Qed.

Lemma embs_app (l1 l2 : list (action K)) : embs (l1 ++ l2) = embs l1 ++ embs l2.
Proof using. unfold embs. by rewrite fmap_app, concat_app. Qed.

Lemma embs_cons a (l : list (action K)) : embs (a :: l) = embs1 a ++ embs l.
Proof using. done. Qed.

Lemma wf_wakes hl w (prog : list (action K)) : wf_prog hl prog -> wf_prog hl ((AWake <$> w) ++ prog).
Proof using. intros H. by induction w. Qed.

Lemma wf_next hl a l prog : produces a l -> wf_prog hl (a :: prog) -> wf_prog (held_after a hl) (l ++ prog).
Proof using.
  intros Hp Hw. destruct a; simpl in *; try done; try (destruct Hp as [-> | ->]; exact Hw); destruct_and?;
    repeat match goal with
    | H : _ \/ _ |- _ => destruct H
    | H : exists _, _ |- _ => destruct H
    end; subst; simpl; try done; rewrite <- ?app_assoc; by try apply wf_wakes.
Qed.

(** A slot that is past [allocproc] was so before, or [allocproc] has just
    set up its context. *)
Lemma stage_next a l np st : produces a l -> (np, st) ∈ embs l -> (2 <= st)%nat ->
  (exists cl, a = AInit np cl) \/ exists st', (np, st') ∈ embs1 a /\ (2 <= st')%nat.
Proof using.
  intros Hp Hin Hst. destruct a; simpl in *;
    repeat match goal with
    | H : _ \/ _ |- _ => destruct H
    | H : exists _, _ |- _ => destruct H
    end; subst; simpl in *; rewrite ?embs_app, ?embs_wakes in Hin; unfold embs in Hin; simpl in Hin;
    try (by apply elem_of_nil in Hin); try done;
    apply list_elem_of_singleton in Hin; simplify_eq; try lia; eauto.
  right. eexists. split; [by left|]. lia.
Qed.

Section Act.
Context (cs : list cpu) (h : lockid -> option nat) (c : nat) (aid : Z) (o : option nat) (hl : list lockid).
Context (R : list nat) (E : list (nat * nat)) (X : option (nat * bool)).
Context (Hlt : (c < length cs)%nat) (Hhl : (length hl <= 100)%nat) (HX : h LkPtable = None -> X = None)
  (Ho : forall cur, o = Some cur -> cur ∈ R) (Hh : forall lk, h lk = Some c <-> lk ∈ hl) (Hnd : NoDup hl).

(** Only CPU [c] takes or gives back locks. *)
Definition locks_moved (h' : lockid -> option nat) (hl' : list lockid) : Prop :=
  (forall lk, h' lk = Some c <-> lk ∈ hl') /\ (forall lk c', c' <> c -> h' lk = Some c' <-> h lk = Some c').

Lemma moved_lock lk : h lk = None -> locks_moved (<[lk := Some c]> h) (lk :: hl).
Proof using Hh.
  intros Hf. split; intros lk'; destruct (decide (lk' = lk)) as [->|Hne].
  - rewrite fn_lookup_insert. split; [by left|done].
  - rewrite fn_lookup_insert_ne by done. rewrite Hh, elem_of_cons. naive_solver.
  - intros c' Hc. rewrite fn_lookup_insert, Hf. naive_solver.
  - intros c' Hc. by rewrite fn_lookup_insert_ne.
Qed.

Lemma moved_unlock lk hl' : hl = lk :: hl' -> locks_moved (<[lk := None]> h) hl'.
Proof using Hh Hnd Hhl.
  intros El. rewrite El in Hnd. apply NoDup_cons in Hnd as [Hni _].
  split; intros lk'; destruct (decide (lk' = lk)) as [->|Hne].
  - rewrite fn_lookup_insert. naive_solver.
  - rewrite fn_lookup_insert_ne by done. rewrite Hh, El, elem_of_cons. naive_solver.
  - intros c' Hc. rewrite fn_lookup_insert. split; [done|]. intros Hl.
    assert (h lk = Some c) by (apply Hh; rewrite El; by left). congruence.
  - intros c' Hc. by rewrite fn_lookup_insert_ne.
Qed.

Lemma moved_sleep lk : hl = [lk] -> lk <> LkPtable -> h LkPtable = None ->
  locks_moved (<[lk := None]> (<[LkPtable := Some c]> h)) [LkPtable].
Proof using Hh Hhl HX Hnd.
  intros El Hne Hf. split; intros lk'; destruct (decide (lk' = lk)) as [->|Hne1].
  - rewrite fn_lookup_insert, list_elem_of_singleton. naive_solver.
  - rewrite fn_lookup_insert_ne by done. rewrite list_elem_of_singleton. destruct (decide (lk' = LkPtable)) as [->|Hne2].
    + by rewrite fn_lookup_insert.
    + rewrite fn_lookup_insert_ne by done. rewrite Hh, El, list_elem_of_singleton. naive_solver.
  - intros c' Hc. rewrite fn_lookup_insert. split; [done|]. intros Hl.
    assert (h lk = Some c) by (apply Hh; rewrite El; by left). congruence.
  - intros c' Hc. rewrite fn_lookup_insert_ne by done. destruct (decide (lk' = LkPtable)) as [->|Hne2].
    + rewrite fn_lookup_insert, Hf. naive_solver.
    + by rewrite fn_lookup_insert_ne.
Qed.

Context {G : nat -> bool -> Prop}.

#[local] Abbreviation inv := (pt_inv cfg G).
#[local] Abbreviation here := (LkS cs h c (cpu_run aid o hl)).

Definition inl_post (a : action K) (l : list (action K)) (s' : kst K) : Prop := exists h',
  at_p (inv R (embs l ++ E) X) (LkS cs h' c (cpu_run aid o (held_after a hl))) s' /\
  NoDup ((embs l ++ E).*1) /\ locks_moved h' (held_after a hl).

Lemma inl_of_next a l s' : held_after a hl = hl -> next_post cfg (G := G) cs h c aid o hl R E X (inl l) s' -> inl_post a l s'.
Proof using Hh. intros Eh [H1 H2]. exists h. rewrite Eh. split_and!; try done. Qed.

Lemma act_inl a prog l (s s' : kst K) :
  NoDup ((embs1 a ++ E).*1) -> wf_prog hl (a :: prog) ->
  (forall cl, a = AFork cl -> pids_left (pt s)) -> (forall np cl, a = APublish np cl -> G np true) ->
  at_p (inv R (embs1 a ++ E) X) here s -> act cfg c o a s = Ok (inl l, s') -> inl_post a l s'.
Proof using Hlt Hhl HX Ho Hh Hnd.
  intros HE Hw Hfork Hpub Hs Hrun. pose proof (act_produces _ _ _ _ _ _ Hrun) as Hprod.
  assert (HE0 : NoDup E.*1) by (rewrite fmap_app in HE; by apply NoDup_app in HE as (_ & _ & ?)).
  destruct a; simpl in Hprod, Hw; try done; try (apply inl_of_next; [done|]).
  all: try (eapply simple_action_post; [done..| |done|done]; by destruct_and?).
  - eapply fork_action_post; [done..| |done]. destruct Hs as [HI HL]. split; [|done]. split; [done|]. by eapply Hfork.
  - eapply init_action_post; [..|exact Hs|exact Hrun]; done.
  - eapply body_action_post; [..|exact Hs|exact Hrun]; done.
  - eapply publish_action_post; [..|exact Hs|exact Hrun]; try done. by eapply Hpub.
  - eapply wake_action_post; [..|exact Hs|exact Hrun]; done.
  - eapply kill_action_post; [..|exact Hs|exact Hrun]; done.
  - eapply close_action_post; [..|exact Hs|exact Hrun]; done.
  - destruct Hw as [El _]. destruct o as [p|] eqn:Eo; [|done].
    pose proof (wait_action_post cfg cs h c aid (Some p) hl Hlt Hhl R E X HX Ho p w eq_refl El s _ s' Hs Hrun) as (Hf & _ & HI).
    rewrite (HX Hf), Hprod. split; [exact HI|done].
  - destruct Hw as (Hlk & Hni & Hl & _).
    destruct (lock_action_post cfg cs h c aid o hl Hlt Hhl R E X lk Hl s _ s' Hs Hrun) as (_ & Hf & HI). subst l.
    exists (<[lk := Some c]> h). split_and!; try done; by apply moved_lock.
  - destruct Hw as [Ehd _]. pose proof (head_tail _ _ Ehd) as El.
    assert (Hc : h lk = Some c) by (apply Hh; rewrite El; by left).
    destruct (unlock_action_post cfg cs h c aid o hl Hlt Hhl R E X lk (tail hl) El Hc s _ s' Hs Hrun) as (_ & HI). subst l.
    exists (<[lk := None]> h). split_and!; try done; by apply moved_unlock.
Qed.

Lemma act_inr p a prog k (s s' : kst K) : o = Some p -> LkPtable ∉ hl -> wf_prog hl (a :: prog) ->
  (a = AZombie -> G p false) -> at_p (inv R E X) here s -> act cfg c o a s = Ok (inr k, s') ->
  h LkPtable = None /\ kont_ok (k prog) /\ embs_kont (k prog) = embs prog /\ embs1 a = [] /\
  exists h', off_post cfg (G := G) cs c aid R E p h' k s' /\ locks_moved h' [LkPtable].
Proof using Hlt Hhl HX Ho Hh Hnd.
  intros Eo Hnp Hw Hz Hs Hrun. pose proof (act_leaves _ _ _ _ _ _ Hrun) as Hk.
  assert (Hm : h LkPtable = None -> hl = [] -> locks_moved (<[LkPtable := Some c]> h) [LkPtable]).
  { intros Hf El. rewrite <- El. by apply moved_lock. }
  destruct a; simpl in Hk, Hw; try done.
  - destruct Hw as (El & Ee & _). subst k.
    destruct (zombie_action_post cfg cs h c aid o hl Hlt Hhl R E X HX Ho p Eo El (Hz eq_refl) s _ s' Hs Hrun) as [Hf Hoff].
    split_and!; try done. exists (<[LkPtable := Some c]> h). eauto.
  - destruct Hw as [El Hw], Hk as [i ->]. rewrite El in Hw.
    destruct (wait_action_post cfg cs h c aid o hl Hlt Hhl R E X HX Ho p w Eo El s _ s' Hs Hrun) as [Hf Hoff].
    split_and!; try done. exists (<[LkPtable := Some c]> h). eauto.
  - destruct Hw as [El Hw], Hk as [i ->]. rewrite El in Hw.
    assert (Hne : lk <> LkPtable) by (intros ->; apply Hnp; rewrite El; by left).
    assert (Hc : h lk = Some c) by (apply Hh; rewrite El; by left).
    destruct (sleep_action_post cfg cs h c aid o hl Hlt Hhl R E X HX Ho p ch lk Eo El Hne Hc s _ s' Hs Hrun) as [Hf Hoff].
    split_and!; try done. eexists. split; [done|]. by apply moved_sleep.
  - destruct Hw as [El Hw], Hk as [i ->]. rewrite El in Hw.
    destruct (yield_action_post cfg cs h c aid o hl Hlt Hhl R E X HX Ho p Eo El s _ s' Hs Hrun) as [Hf Hoff].
    split_and!; try done. exists (<[LkPtable := Some c]> h). eauto.
Qed.
End Act.
End SysInv.
