(* ===== verification/Reachable.v ===== *)
(** * Reachable states

    Every step keeps [sys_inv], and what it says of every reachable state:
    a RUNNING process is on exactly one CPU, the queues hold exactly the
    RUNNABLE processes, and the scheduler and the code after a context
    switch never panic. *)

From stdpp Require Import prelude strings functions relations.
From S2P Require Import Prelude CString Console Spinlock ProcData Queue Mlfq Kalloc Proc Sched Aging Inv Lifecycle SchedInv System Actions SysInv.

Open Scope Z_scope.

#[local] Arguments for_each : simpl never.
#[local] Arguments for_until : simpl never.
#[local] Arguments seq : simpl never.

Section Steps.
Context {K : Type} {KS : KernelSvc K} (cfg : config).

#[local] Abbreviation sys_inv_at := (sys_inv_at cfg).
#[local] Abbreviation sys_inv := (sys_inv cfg).

(** ** The CPU that steps *)
Section OneCpu.
Context (s : sys K) (cs : list cpu) (h : lockid -> option nat) (X : option (nat * bool)) (c : nat) (m : mode K).
Context (HI : sys_inv_at s cs h X) (Hm : modes s !! c = Some m).

Lemma cpu_lt : (c < length cs)%nat.
Proof using HI Hm. rewrite (si_len _ _ _ _ _ HI). by eapply lookup_lt_Some. Qed.

Lemma cpu_here : exists z, cs !! c = Some z /\ cpu_mode m z.
Proof using HI Hm.
  destruct (lookup_lt_is_Some_2 cs c cpu_lt) as [z Hz]. exists z. split; [done|]. by eapply (si_cpu _ _ _ _ _ HI).
Qed.

Lemma lks_here : exists z, cpu_mode m z /\ LkS cs h c (fun y => y = z) (lks (ks s)).
Proof using HI Hm.
  destruct cpu_here as (z & Hz & Hmz). exists z. split; [done|]. exists z. split; [done|].
  rewrite list_insert_id by done. apply (si_lk _ _ _ _ _ HI).
Qed.

Lemma mine lk : h lk = Some c <-> lk ∈ held_of m.
Proof using HI Hm. by eapply (si_held _ _ _ _ _ HI). Qed.

(** At most one CPU is between a process and the scheduler. *)
Lemma others_not_back : h LkPtable = None \/ h LkPtable = Some c ->
  forall c' p, c' <> c -> modes s !! c' <> Some (MBack p).
Proof using HI.
  intros Hf c' p Hne Hb.
  assert (h LkPtable = Some c') by (apply (si_held _ _ _ _ _ HI _ _ LkPtable Hb); by left).
  destruct Hf; congruence.
Qed.

Lemma X_free : h LkPtable = None -> X = None.
Proof using HI.
  intros Hf. apply (si_X _ _ _ _ _ HI). intros c' p Hb.
  assert (h LkPtable = Some c') by (apply (si_held _ _ _ _ _ HI _ _ LkPtable Hb); by left). congruence.
Qed.

Lemma X_mine : h LkPtable = Some c -> (forall p, m <> MBack p) -> X = None.
Proof using HI Hm.
  intros Hf Hnb. apply (si_X _ _ _ _ _ HI). intros c' p Hb.
  destruct (decide (c' = c)) as [->|Hne]; [naive_solver|]. by eapply others_not_back; eauto.
Qed.

Lemma X_set_none m' : h LkPtable = None \/ h LkPtable = Some c -> (forall p, m' <> MBack p) ->
  X_ok (<[c := m']> (modes s)) None.
Proof using HI Hm.
  intros Hf Hnb. split; [|done]. intros c' p Hb. exfalso. destruct (decide (c' = c)) as [->|Hne].
  - rewrite list_lookup_insert_eq in Hb by by eapply lookup_lt_Some. naive_solver.
  - rewrite list_lookup_insert_ne in Hb by done. by eapply others_not_back; eauto.
Qed.

Lemma X_set_back p b : h LkPtable = None \/ h LkPtable = Some c ->
  X_ok (<[c := MBack p]> (modes s)) (Some (p, b)).
Proof using HI Hm.
  assert (Hl : <[c := MBack p]> (modes s) !! c = Some (MBack p)) by (apply list_lookup_insert_eq; by eapply lookup_lt_Some).
  intros Hf. split; [|intros H; exfalso; by apply (H c p)]. intros c' p' Hb. destruct (decide (c' = c)) as [->|Hne].
  - rewrite Hl in Hb. simplify_eq. eauto.
  - rewrite list_lookup_insert_ne in Hb by done. exfalso. by eapply others_not_back; eauto.
Qed.

Lemma X_same m' : (forall p, m <> MBack p) -> (forall p, m' <> MBack p) -> X_ok (<[c := m']> (modes s)) X.
Proof using HI Hm.
  intros H1 H2. destruct (si_X _ _ _ _ _ HI) as [Hb Hn]. split.
  - intros c' p Hc. destruct (decide (c' = c)) as [->|Hne].
    + rewrite list_lookup_insert_eq in Hc by by eapply lookup_lt_Some. naive_solver.
    + rewrite list_lookup_insert_ne in Hc by done. eauto.
  - intros H. apply Hn. intros c' p Hc. destruct (decide (c' = c)) as [->|Hne]; [naive_solver|].
    apply (H c' p). by rewrite list_lookup_insert_ne.
Qed.

Lemma running_split : exists r, running (modes s) ≡ₚ option_list (runner m) ++ r /\
  forall m', running (<[c := m']> (modes s)) ≡ₚ option_list (runner m') ++ r.
Proof using Hm. by apply omap_insert. Qed.

(** Nobody else runs the process of this CPU. *)
Lemma runner_other p c' m2 : runner m = Some p -> c' <> c -> modes s !! c' = Some m2 -> runner m2 <> Some p.
Proof using HI Hm.
  intros Hp Hne H2 Hp2. pose proof (si_run _ _ _ _ _ HI) as Hnd. destruct running_split as (r & E1 & E2).
  rewrite Hp in E1. simpl in E1. rewrite E1 in Hnd. apply NoDup_cons in Hnd as [Hni _]. apply Hni.
  assert (Hin : p ∈ running (<[c := MBack p]> (modes s))).
  { apply list_elem_of_omap. exists m2. split; [|done]. apply (list_elem_of_lookup_2 _ c').
    by rewrite list_lookup_insert_ne. }
  by rewrite E2 in Hin.
Qed.

(** The running process of a CPU is RUNNING. *)
Lemma runner_state p : runner m = Some p -> p ∈ running (modes s) /\
  exists x, procs (pt (ks s)) !! p = Some x /\ p_state x = RUNNING.
Proof using HI Hm.
  intros Hp. assert (Hin : p ∈ running (modes s)).
  { apply list_elem_of_omap. exists m. split; [|done]. by eapply list_elem_of_lookup_2. }
  split; [done|]. pose proof (si_pt _ _ _ _ _ HI) as Hpt.
  destruct (slot_at cfg _ _ _ _ _ Hpt (pi_dom _ _ _ _ _ _ Hpt _ Hin)) as [x Hx].
  exists x. split; [done|]. by apply (pi_run _ _ _ _ _ _ Hpt _ _ Hx).
Qed.
End OneCpu.

Lemma mode_ok_upd (sv : list (kont K)) m2 p k : mode_ok sv m2 -> runner m2 <> Some p -> mode_ok (<[p := k]> sv) m2.
Proof using.
  destruct m2 as [o prog hl|q|q]; simpl; [|done|].
  - intros (? & ? & ? & ? & Hk) Hne. split_and!; try done. intros q ->. rewrite list_lookup_insert_ne by naive_solver. auto.
  - intros (k' & Hk & Hg) Hne. exists k'. rewrite list_lookup_insert_ne by naive_solver. done.
Qed.

Lemma kont_ok_upd (sv : list (kont K)) p k : (forall q k', sv !! q = Some k' -> kont_ok k') -> kont_ok k ->
  forall q k', <[p := k]> sv !! q = Some k' -> kont_ok k'.
Proof using.
  intros H Hk q k' Hq. destruct (decide (q = p)) as [->|Hne].
  - apply list_lookup_insert_Some in Hq as [(_ & -> & _)|(? & _)]; done.
  - rewrite list_lookup_insert_ne in Hq by done. eauto.
Qed.

Lemma perm_sub {A} (l l' : list A) : l ≡ₚ l' -> l ⊆ l'.
Proof using. intros H x. by rewrite H. Qed.

Lemma saved_at (s : sys K) cs h X p : sys_inv_at s cs h X -> (p < NPROC)%nat -> exists k, saved s !! p = Some k.
Proof using. intros HI Hp. apply lookup_lt_is_Some_2. by rewrite (si_saved _ _ _ _ _ HI). Qed.

(** ** More code for the same process *)
Lemma prog_next (s : sys K) cs h X c o prog prog' hl : sys_inv_at s cs h X -> modes s !! c = Some (MRun o prog hl) ->
  wf_prog hl prog' -> embs prog' = embs prog ->
  sys_inv (mkSys (ks s) (<[c := MRun o prog' hl]> (modes s)) (saved s)).
Proof using.
  intros HI Hm Hw He. pose proof (si_mode _ _ _ _ _ HI _ _ Hm) as (Hnd & Hnp & Hl & _ & Hk).
  destruct (lks_here _ _ _ _ _ _ HI Hm) as (z & Hz & HL).
  destruct (running_split _ _ _ Hm) as (r & ER & ER'). specialize (ER' (MRun o prog' hl)).
  destruct (embs_split_mode _ (saved s) _ _ Hm) as (r2 & EE & EE'). specialize (EE' (MRun o prog' hl)).
  simpl in EE, EE'. rewrite He, <- EE in EE'. simpl in ER, ER'. rewrite <- ER in ER'.
  eapply (sys_next cfg s cs h X c _ (MRun o prog' hl) h X); try done.
  - intros y ->. exact Hz.
  - eapply pt_inv_mono; [exact (si_pt _ _ _ _ _ HI)|intros j; by rewrite ER'|by apply perm_sub| |done].
    intros i p _ _ [Hg|Hg]; [left; by rewrite ER'|by right].
  - by apply (mine _ _ _ _ _ _ HI Hm).
  - rewrite ER'. apply (si_run _ _ _ _ _ HI).
  - rewrite EE'. apply (si_emb _ _ _ _ _ HI).
  - by eapply X_same.
  - intros c' m2 _ H2. by eapply (si_mode _ _ _ _ _ HI).
  - apply (si_kont _ _ _ _ _ HI).
  - apply (si_saved _ _ _ _ _ HI).
  - intros np st. rewrite EE'. apply (si_stage _ _ _ _ _ HI).
Qed.

Lemma wf_app hl (ip prog : list (action K)) : wf_prog hl ip -> AZombie ∉ ip -> wf_prog [] prog -> wf_prog hl (ip ++ prog).
Proof using.
  revert hl. induction ip as [|a ip IH]; intros hl Hw Hz Hp; [simpl in Hw; by subst|].
  apply not_elem_of_cons in Hz as [Ha Hz].
  destruct a; simpl in *; destruct_and?; try done; split_and?; auto.
Qed.

Lemma interrupt_inv (s : sys K) cs h X c o prog ip : sys_inv_at s cs h X -> modes s !! c = Some (MRun o prog []) ->
  handler ip -> sys_inv (mkSys (ks s) (<[c := MRun o (ip ++ prog) []]> (modes s)) (saved s)).
Proof using.
  intros HI Hm [[Hw He] Hz]. pose proof (si_mode _ _ _ _ _ HI _ _ Hm) as (_ & _ & _ & Hwp & _).
  eapply prog_next; [done..|by apply wf_app|]. by rewrite embs_app, He.
Qed.

(** ** An action that stays on the CPU *)

(** [allocproc] stores the first context of a new slot; no other action
    changes a saved context. *)
Lemma saved_after_spec (s : sys K) cs h X c o a prog hl : sys_inv_at s cs h X ->
  modes s !! c = Some (MRun o (a :: prog) hl) ->
  let sv' := saved_after a (saved s) in
  (forall ms, all_embs ms sv' = all_embs ms (saved s)) /\
  (forall i b, good (modes s) (saved s) i b -> good (modes s) sv' i b) /\
  (forall c' m2, modes s !! c' = Some m2 -> mode_ok sv' m2) /\
  (forall p k, sv' !! p = Some k -> kont_ok k) /\ length sv' = NPROC /\
  (forall np, saved s !! np = Some KForkret -> sv' !! np = Some KForkret) /\
  (forall np cl, a = AInit np cl -> sv' !! np = Some KForkret).
Proof using.
  intros HI Hm. pose proof (si_pt _ _ _ _ _ HI) as Hpt.
  assert ((exists np cl, a = AInit np cl) \/ ~ (exists np cl, a = AInit np cl)) as [(np & cl & ->)|Hno].
  { destruct a; try (right; naive_solver). left. eauto. }
  2: { assert (Esv : saved_after a (saved s) = saved s) by (destruct a; try done; exfalso; naive_solver).
       cbv zeta. rewrite Esv. split_and!; try done; try apply HI. intros np cl ->. exfalso. naive_solver. }
  assert (Hin : (np, 0%nat) ∈ all_embs (modes s) (saved s)).
  { destruct (embs_split_mode _ (saved s) _ _ Hm) as (r & EE & _). rewrite EE. by left. }
  destruct (pi_emb _ _ _ _ _ _ Hpt _ _ Hin) as (x & Hx & Hst & _).
  assert (Hlt : (np < NPROC)%nat). { rewrite <- (pi_len _ _ _ _ _ _ Hpt). by eapply lookup_lt_Some. }
  destruct (saved_at _ _ _ _ np HI Hlt) as [k Hk].
  assert (Hke : embs_kont k = []).
  { apply (pi_dead _ _ _ _ _ _ Hpt np x Hx); [rewrite Hst; by intros [?|[?|?]]|done]. }
  assert (Hnew : <[np := KForkret]> (saved s) !! np = Some KForkret).
  { apply list_lookup_insert_eq. by rewrite (si_saved _ _ _ _ _ HI). }
  simpl. split_and!.
  - intros ms. unfold all_embs. rewrite list_fmap_insert. simpl. rewrite <- Hke at 1.
    rewrite list_insert_id; [done|]. by rewrite list_lookup_fmap, Hk.
  - intros i b Hg. destruct (decide (i = np)) as [->|Hne].
    + destruct b; simpl; rewrite Hnew; [right; by eexists|]. naive_solver.
    + destruct b; simpl in *; by rewrite list_lookup_insert_ne by done.
  - intros c' m2 H2. apply mode_ok_upd; [by eapply (si_mode _ _ _ _ _ HI)|]. intros Hr.
    destruct (runner_state _ _ _ _ _ _ HI H2 np Hr) as (_ & y & Hy & Hs). congruence.
  - by apply kont_ok_upd; [apply HI|].
  - rewrite length_insert. apply HI.
  - intros np' Hnp. destruct (decide (np' = np)) as [->|Hne]; [done|by rewrite list_lookup_insert_ne].
  - by intros np' cl' [= <- <-].
Qed.

Lemma good_running (ms ms' : list (mode K)) sv i b : (forall j, j ∈ running ms -> j ∈ running ms') ->
  good ms sv i b -> good ms' sv i b.
Proof using. intros H. destruct b; simpl; [|done]. intros [?|?]; auto. Qed.

Lemma held_ok (a : action K) hl prog : wf_prog hl (a :: prog) -> NoDup hl -> LkPtable ∉ hl -> (length hl <= 100)%nat ->
  NoDup (held_after a hl) /\ (LkPtable ∉ held_after a hl) /\ (length (held_after a hl) <= 100)%nat.
Proof using.
  intros Hw Hnd Hnp Hl. destruct a; try done.
  - destruct Hw as (? & ? & ? & _). simpl. split_and!; [by apply NoDup_cons|by apply not_elem_of_cons|lia].
  - destruct hl; [done|]. apply NoDup_cons in Hnd as [_ ?]. apply not_elem_of_cons in Hnp as [_ ?]. simpl in *. split_and!; [done..|lia].
Qed.

Lemma act_inv (s : sys K) cs h X c o a prog hl l k' : sys_inv_at s cs h X ->
  modes s !! c = Some (MRun o (a :: prog) hl) -> act cfg c o a (ks s) = Ok (inl l, k') ->
  (forall cl, a = AFork cl -> pids_left (pt (ks s))) ->
  sys_inv (mkSys k' (<[c := MRun o (l ++ prog) (held_after a hl)]> (modes s)) (saved_after a (saved s))).
Proof using.
  intros HI Hm Hrun Hpids. pose proof (si_pt _ _ _ _ _ HI) as Hpt.
  pose proof (si_mode _ _ _ _ _ HI _ _ Hm) as (Hnd & Hnp & Hl & Hw & Hk).
  pose proof (act_produces _ _ _ _ _ _ _ Hrun) as Hprod.
  destruct (lks_here _ _ _ _ _ _ HI Hm) as (z & Hz & y & -> & HL).
  set (m' := MRun o (l ++ prog) (held_after a hl)).
  destruct (running_split _ _ _ Hm) as (r & ER & ER'). specialize (ER' m'). simpl in ER, ER'. rewrite <- ER in ER'.
  destruct (embs_split_mode _ (saved s) _ _ Hm) as (r2 & EE & EE'). specialize (EE' m').
  simpl in EE, EE'. rewrite embs_cons, <- (assoc_L (++)) in EE. rewrite embs_app, <- (assoc_L (++)) in EE'.
  destruct (saved_after_spec _ _ _ _ _ _ _ _ _ HI Hm) as (S1 & S2 & S3 & S4 & S5 & S6 & S7). specialize (S1 (<[c := m']> (modes s))).
  destruct (act_inl cfg cs h c (c_apicid z) o hl (running (modes s)) (embs prog ++ r2) X
    (cpu_lt _ _ _ _ _ _ HI Hm) Hl (X_free _ _ _ _ HI)) with (G := good (modes s) (saved s)) (a := a) (prog := prog) (l := l) (s := ks s) (s' := k')
    as (h' & [Hpt' HL'] & HE' & Hmv1 & Hmv2); try done.
  { intros cur ->. by apply (runner_state _ _ _ _ _ _ HI Hm cur eq_refl). }
  { apply (mine _ _ _ _ _ _ HI Hm). }
  { rewrite <- EE. apply HI. }
  { intros np cl ->. right. exists KForkret. split; [|done]. apply (si_stage _ _ _ _ _ HI np 3%nat); [|lia].
    rewrite EE. by left. }
  { split; [|by exists z]. eapply pt_inv_mono; [exact Hpt|done|by rewrite <- EE|done..]. }
  eapply (sys_next cfg s cs h X c _ m' h' X); try done.
  - intros y Hy. pose proof Hy as [Ha _]. simpl. by rewrite Ha.
  - rewrite S1. eapply pt_inv_mono; [exact Hpt'|intros j; by rewrite ER'|by rewrite <- EE'| |].
    + intros i p _ _ Hg. eapply good_running; [intros j Hj; by rewrite ER'|by apply S2].
    + intros i p _ _ Hg. eapply (good_running (modes s)); [intros j Hj; by rewrite ER'|by apply S2].
  - rewrite ER'. apply HI.
  - by rewrite S1, EE'.
  - by eapply X_same.
  - pose proof (wf_next _ _ _ _ Hprod Hw). pose proof (S3 _ _ Hm) as (_ & _ & _ & _ & Hk').
    destruct (held_ok a hl prog) as (? & ? & ?); [done..|]. by split_and!.
  - intros c' m2 _ H2. by eapply S3.
  - intros np st Hin Hst. rewrite S1, EE', elem_of_app in Hin. destruct Hin as [Hin|Hin].
    + destruct (stage_next _ _ _ _ Hprod Hin Hst) as [[cl ->]|(st' & Hin' & Hst')]; [by eapply S7|].
      apply S6, (si_stage _ _ _ _ _ HI np st'); [|done]. rewrite EE, elem_of_app. by left.
    + apply S6, (si_stage _ _ _ _ _ HI np st); [|done]. rewrite EE, elem_of_app. by right.
Qed.

(** ** Leaving the CPU *)
Lemma off_next (s : sys K) cs h X c m p k h' k' aid b st : sys_inv_at s cs h X ->
  modes s !! c = Some m -> runner m = Some p ->
  h LkPtable = None \/ h LkPtable = Some c ->
  all_embs (<[c := MBack p]> (modes s)) (<[p := k]> (saved s)) ≡ₚ all_embs (modes s) (saved s) ->
  kont_ok k -> (st <> ZOMBIE -> good_kont k) -> (st = ZOMBIE -> embs_kont k = []) -> in_use st \/ st = ZOMBIE ->
  at_p (fun t => pt_inv cfg (good (modes s) (saved s)) (minus (running (modes s)) p) (all_embs (modes s) (saved s)) (Some (p, b)) t /\
                 slot_state p st t)
    (LkS cs h' c (cpu_is aid (Some p) 1 false None)) k' ->
  locks_moved h c h' [LkPtable] ->
  sys_inv (mkSys k' (<[c := MBack p]> (modes s)) (<[p := k]> (saved s))).
Proof using.
  intros HI Hm Hp Hf HEE Hkk Hgood Hdead Hst [[Hpt (x & Hx & Hxs)] HL] [Hmv1 Hmv2].
  destruct (runner_state _ _ _ _ _ _ HI Hm p Hp) as (HpR & x0 & Hx0 & Hr0).
  assert (Hlt : (p < length (saved s))%nat).
  { rewrite (si_saved _ _ _ _ _ HI), <- (pi_len _ _ _ _ _ _ Hpt). by eapply lookup_lt_Some. }
  destruct (running_split _ _ _ Hm) as (r & ER & ER'). specialize (ER' (MBack p)). rewrite Hp in ER. simpl in ER, ER'.
  pose proof (si_run _ _ _ _ _ HI) as Hnd. rewrite ER in Hnd. apply NoDup_cons in Hnd as [Hni Hnd].
  assert (Hnp : forall np st', (np, st') ∈ all_embs (modes s) (saved s) -> np <> p).
  { intros np st' Hin ->. destruct (pi_emb _ _ _ _ _ _ (si_pt _ _ _ _ _ HI) _ _ Hin) as (y & Hy & Hs & _). congruence. }
  eapply (sys_next cfg s cs h X c m (MBack p) h' (Some (p, b))); try done.
  - intros y Hy. pose proof Hy as [Ha _]. simpl. by rewrite Ha.
  - eapply pt_inv_mono; [exact Hpt| |by rewrite <- HEE| |].
    + intros j. rewrite ER', elem_of_minus, ER, elem_of_cons. naive_solver.
    + intros i y Hy Hu Hg. destruct (decide (i = p)) as [->|Hne]; simpl.
      * right. exists k. rewrite list_lookup_insert_eq by done. split; [done|]. apply Hgood. intros ->. simplify_eq.
        destruct Hu as [?|[?|?]]; congruence.
      * destruct Hg as [Hg|Hg]; [left|right; destruct Hg as (k2 & ? & ?); exists k2; by rewrite list_lookup_insert_ne].
        rewrite ER'. rewrite ER in Hg. by apply elem_of_cons in Hg as [?|?].
    + intros i y Hy Hu Hg. simpl. intros k2. destruct (decide (i = p)) as [->|Hne]; [|rewrite list_lookup_insert_ne by done; apply Hg].
      rewrite list_lookup_insert_eq by done. intros [= <-]. apply Hdead. simplify_eq. by destruct Hst.
  - by rewrite ER'.
  - rewrite HEE. apply HI.
  - by eapply X_set_back.
  - intros c' m2 Hne H2. apply mode_ok_upd; [by eapply (si_mode _ _ _ _ _ HI)|]. by apply (runner_other _ _ _ _ _ _ HI Hm p c' m2).
  - by apply kont_ok_upd; [apply HI|].
  - rewrite length_insert. apply HI.
  - intros np st' Hin Hs. rewrite HEE in Hin. rewrite list_lookup_insert_ne; [by apply (si_stage _ _ _ _ _ HI np st')|].
    intros ->. by eapply Hnp.
Qed.

Lemma off_inv (s : sys K) cs h X c p a prog hl k k' : sys_inv_at s cs h X ->
  modes s !! c = Some (MRun (Some p) (a :: prog) hl) -> act cfg c (Some p) a (ks s) = Ok (inr k, k') ->
  sys_inv (mkSys k' (<[c := MBack p]> (modes s)) (<[p := k prog]> (saved s))).
Proof using.
  intros HI Hm Hrun. pose proof (si_mode _ _ _ _ _ HI _ _ Hm) as (Hnd & Hnp & Hl & Hw & Hk).
  specialize (Hk p eq_refl). destruct (runner_state _ _ _ _ _ _ HI Hm p eq_refl) as (HpR & _).
  destruct (lks_here _ _ _ _ _ _ HI Hm) as (z & Hz & y & -> & HL).
  destruct (act_inr cfg cs h c (c_apicid z) (Some p) hl (running (modes s)) (all_embs (modes s) (saved s)) X
    (cpu_lt _ _ _ _ _ _ HI Hm) Hl (X_free _ _ _ _ HI)) with (G := good (modes s) (saved s)) (p := p) (a := a) (prog := prog)
    (k := k) (s := ks s) (s' := k') as (Hf & Hko & Hke & Ha & h' & (b & st & HP & Hg & Hd & Hst) & Hmv); try done.
  { by intros cur [= <-]. }
  { apply (mine _ _ _ _ _ _ HI Hm). }
  { intros _ k2 Hk2. rewrite Hk in Hk2. by simplify_eq. }
  { split; [apply HI|by exists z]. }
  destruct (embs_split _ _ _ _ _ _ Hm Hk) as (r & EE & EE'). specialize (EE' (MBack p) (k prog)).
  simpl in EE, EE'. rewrite embs_cons, Ha in EE. simpl in EE. rewrite Hke, <- EE in EE'.
  eapply (off_next s cs h X c _ p (k prog) h' k' (c_apicid z) b st); try done; [by left|..].
  - intros Hs. by apply Hg.
  - intros Hs. by rewrite (Hd Hs).
Qed.

(** ** A round of the scheduler *)
Lemma round_next (s : sys K) cs h X c m k k' aid e i o : sys_inv_at s cs h X ->
  modes s !! c = Some m -> runner m = None -> embs_mode m = [] -> held_of m ⊆ [LkPtable] ->
  h LkPtable = None \/ h LkPtable = Some c ->
  round_post cfg (G := good (modes s) (saved s)) k cs (<[LkPtable := None]> h) c aid
    (running (modes s)) (all_embs (modes s) (saved s)) e i o k' ->
  sys_inv (mkSys k' (<[c := after_round o]> (modes s)) (saved s)).
Proof using.
  intros HI Hm Hr He Hheld Hf Hpost. set (m' := after_round o : mode K).
  destruct (running_split _ _ _ Hm) as (r & ER & ER'). specialize (ER' m'). rewrite Hr in ER. simpl in ER. rewrite <- ER in ER'.
  destruct (embs_split_mode _ (saved s) _ _ Hm) as (r2 & EE & EE'). specialize (EE' m'). rewrite He in EE. simpl in EE.
  assert (He' : embs_mode m' = []) by by destruct o. rewrite He' in EE'. simpl in EE'. rewrite <- EE in EE'.
  assert (Hlks : forall lk, lk <> LkPtable -> h lk <> Some c).
  { intros lk Hne Hc. apply (mine _ _ _ _ _ _ HI Hm), Hheld, list_elem_of_singleton in Hc. done. }
  assert (Hother : forall c', c' <> c -> h LkPtable <> Some c') by (intros c' Hne ?; destruct Hf; congruence).
  assert (Hk : forall p k, saved s !! p = Some k -> kont_ok k) by apply HI.
  assert (Hm2 : forall c' m2, c' <> c -> modes s !! c' = Some m2 -> mode_ok (saved s) m2).
  { intros c' m2 _ H2. by eapply (si_mode _ _ _ _ _ HI). }
  assert (HX : X_ok (<[c := m']> (modes s)) None) by (eapply X_set_none; [done..|by destruct o]).
  assert (Hstg : forall np st, (np, st) ∈ all_embs (<[c := m']> (modes s)) (saved s) -> (2 <= st)%nat ->
    saved s !! np = Some KForkret).
  { intros np st. rewrite EE'. apply HI. }
  assert (Hnd : NoDup (all_embs (<[c := m']> (modes s)) (saved s)).*1) by (rewrite EE'; apply HI).
  destruct o as [p|]; subst m'; simpl in *.
  - destruct Hpost as ([Hpt Hp] & _ & HL). eapply (sys_next cfg s cs h X c m (MResume p) _ None _ _ _ HI Hm HL); try done.
    + intros z Hz. pose proof Hz as [Ha _]. simpl. rewrite Ha. destruct Hz as (? & ? & ? & ? & _). by split_and!.
    + eapply pt_inv_mono; [exact Hpt|intros j; rewrite ER', !elem_of_cons; done|by rewrite <- EE'| |done].
      intros j y _ _. apply good_running. intros q Hq. rewrite ER', elem_of_cons. by right.
    + intros lk. simpl. rewrite list_elem_of_singleton. destruct (decide (lk = LkPtable)) as [->|Hne].
      * by rewrite fn_lookup_insert.
      * rewrite !fn_lookup_insert_ne by done. split; [|done]. by intros ?%Hlks.
    + intros lk c' Hne. destruct (decide (lk = LkPtable)) as [->|Hne2].
      * rewrite fn_lookup_insert. split; [congruence|]. by intros ?%Hother.
      * by rewrite !fn_lookup_insert_ne.
    + rewrite ER'. apply NoDup_cons. split; [done|apply HI].
    + destruct (slot_at cfg _ _ _ _ _ Hpt (pi_dom _ _ _ _ _ _ Hpt p ltac:(by left))) as [x Hx].
      pose proof (proj2 (pi_run _ _ _ _ _ _ Hpt _ _ Hx) ltac:(by left)) as Hst.
      destruct (pi_live _ _ _ _ _ _ Hpt _ _ Hx (or_intror (or_intror Hst))) as (_ & _ & [?|Hg]); done.
    + apply HI.
  - destruct Hpost as (Hpt & _ & HL). eapply (sys_next cfg s cs h X c m (MRun None [] []) _ None _ _ _ HI Hm HL); try done.
    + intros z (Ha & Ho & Hn & Hi & _). simpl. by split_and!.
    + eapply pt_inv_mono; [exact Hpt|intros j; by rewrite ER'|by rewrite <- EE'| |done].
      intros j y _ _. apply good_running. intros q Hq. by rewrite ER'.
    + intros lk. simpl. split; [|by intros ?%elem_of_nil]. destruct (decide (lk = LkPtable)) as [->|Hne].
      * by rewrite fn_lookup_insert.
      * rewrite !fn_lookup_insert_ne by done. by intros ?%Hlks.
    + intros lk c' Hne. destruct (decide (lk = LkPtable)) as [->|Hne2].
      * rewrite fn_lookup_insert. split; [congruence|]. by intros ?%Hother.
      * by rewrite !fn_lookup_insert_ne.
    + rewrite ER'. apply HI.
    + split_and!; try done; [constructor|by intros ?%elem_of_nil|simpl; lia].
    + apply HI.
Qed.

(** [scheduler_return] in a reachable state: it returns. *)
Lemma back_run (s : sys K) cs h X c p : sys_inv_at s cs h X -> modes s !! c = Some (MBack p) ->
  exists o k' aid i, scheduler_return cfg c p (ks s) = Ok (o, k') /\
    round_post cfg (G := good (modes s) (saved s)) (kk (ks s)) cs (<[LkPtable := None]> h) c aid
      (running (modes s)) (all_embs (modes s) (saved s)) (Some i) i o k'.
Proof using.
  intros HI Hm. destruct (proj1 (si_X _ _ _ _ _ HI) _ _ Hm) as [b EX].
  destruct (lks_here _ _ _ _ _ _ HI Hm) as (z & Hz & y & -> & HL).
  assert (Hh : h LkPtable = Some c) by (apply (mine _ _ _ _ _ _ HI Hm); by left).
  destruct (scheduler_return_tr cfg (G := good (modes s) (saved s)) (kk (ks s)) cs (<[LkPtable := None]> h) c (c_apicid z)
    (cpu_lt _ _ _ _ _ _ HI Hm) ltac:(by rewrite fn_lookup_insert) (running (modes s)) (all_embs (modes s) (saved s)) p (Some p) b (ks s))
    as (o & k' & Hrun & i & Hpost).
  { split; [rewrite <- EX; apply HI|]. split; [done|]. exists z. split; [done|]. eapply Lk_ext; [done|].
    intros lk. destruct (decide (lk = LkPtable)) as [->|Hne]; [by rewrite fn_lookup_insert|by rewrite !fn_lookup_insert_ne]. }
  eauto 10.
Qed.

Lemma back_inv (s : sys K) cs h X c p o k' : sys_inv_at s cs h X -> modes s !! c = Some (MBack p) ->
  scheduler_return cfg c p (ks s) = Ok (o, k') -> sys_inv (mkSys k' (<[c := after_round o]> (modes s)) (saved s)).
Proof using.
  intros HI Hm Hrun. destruct (back_run _ _ _ _ _ _ HI Hm) as (o2 & k2 & aid & i & Hrun2 & Hpost).
  rewrite Hrun in Hrun2. injection Hrun2 as <- <-. eapply round_next; try done.
  right. apply (mine _ _ _ _ _ _ HI Hm). by left.
Qed.

Lemma sched_run (s : sys K) cs h X c : sys_inv_at s cs h X -> modes s !! c = Some (MRun None [] []) ->
  h LkPtable = None ->
  exists o k' aid, scheduler cfg c (ks s) = Ok (o, k') /\
    round_post cfg (G := good (modes s) (saved s)) (kk (ks s)) cs (<[LkPtable := None]> h) c aid
      (running (modes s)) (all_embs (modes s) (saved s)) (Some true) true o k'.
Proof using.
  intros HI Hm Hh. destruct (lks_here _ _ _ _ _ _ HI Hm) as (z & (_ & H2 & H3 & _) & y & -> & HL).
  destruct (scheduler_tr cfg (G := good (modes s) (saved s)) (kk (ks s)) cs (<[LkPtable := None]> h) c (c_apicid z)
    (cpu_lt _ _ _ _ _ _ HI Hm) ltac:(by rewrite fn_lookup_insert) (running (modes s)) (all_embs (modes s) (saved s)) (c_if z) (ks s))
    as (o & k' & Hrun & Hpost).
  { rewrite <- (X_free _ _ _ _ HI Hh). split; [apply HI|]. split; [done|]. exists z. split; [by split_and!|]. eapply Lk_ext; [done|].
    intros lk. destruct (decide (lk = LkPtable)) as [->|Hne]; [by rewrite fn_lookup_insert|by rewrite !fn_lookup_insert_ne]. }
  eauto 10.
Qed.

(** A scheduler that gets past [acquire] found the lock free. *)
Lemma sched_free (s : sys K) cs h X c r : sys_inv_at s cs h X -> modes s !! c = Some (MRun None [] []) ->
  scheduler cfg c (ks s) = Ok r -> h LkPtable = None.
Proof using.
  intros HI Hm Hrun. destruct (lks_here _ _ _ _ _ _ HI Hm) as (z & (H1 & H2 & H3 & _) & y & -> & HL).
  pose proof (cpu_lt _ _ _ _ _ _ HI Hm) as Hlt.
  destruct (set_cpu_S (fun _ => True) (kk (ks s)) cs h c (fun y => y = z) (cpu_run (c_apicid z) None []) Hlt (set_c_if true))
    with (s := ks s) as ([] & s1 & E1 & _ & _ & y & Hy & HL1).
  { intros ? ->. by split_and!. }
  { split_and!; [done..|]. by exists z. }
  destruct r as [r sr]. unfold scheduler in Hrun. rewrite (bind_Ok _ _ _ _ _ E1) in Hrun.
  apply bind_inv in Hrun as ([] & s2 & E2 & _). eapply lock_free; [exact Hlt|exact HL1| |exact E2].
  eapply cpu_run_calm; [|exact Hy]. simpl. lia.
Qed.

Lemma sched_inv (s : sys K) cs h X c o k' : sys_inv_at s cs h X -> modes s !! c = Some (MRun None [] []) ->
  scheduler cfg c (ks s) = Ok (o, k') -> sys_inv (mkSys k' (<[c := after_round o]> (modes s)) (saved s)).
Proof using.
  intros HI Hm Hrun. pose proof (sched_free _ _ _ _ _ _ HI Hm Hrun) as Hh.
  destruct (sched_run _ _ _ _ _ HI Hm Hh) as (o2 & k2 & aid & Hrun2 & Hpost).
  rewrite Hrun in Hrun2. injection Hrun2 as <- <-. eapply round_next; try done; [|by left].
  intros lk Hin. by apply elem_of_nil in Hin.
Qed.

(** ** Resuming a process *)
Lemma run_at_p {A} P Q L L' (m : M (kst K) A) s a s' :
  (forall k, triple (at_pt P k L) m (fun _ => at_pt Q k L')) -> at_p P L s -> m s = Ok (a, s') -> at_p Q L' s'.
Proof using. intros H. exact (at_p_of_at_pt P m (fun _ => Q) L (fun _ => L') H s a s'). Qed.

Section OnResume.
Context (s : sys K) (cs : list cpu) (h : lockid -> option nat) (X : option (nat * bool)) (c p : nat) (k : kont K).
Context (HI : sys_inv_at s cs h X) (Hm : modes s !! c = Some (MResume p)) (Hk : saved s !! p = Some k).

#[local] Abbreviation G := (good (modes s) (saved s)).
#[local] Abbreviation R := (running (modes s)).
#[local] Abbreviation E := (all_embs (modes s) (saved s)).

Lemma resume_pre : h LkPtable = Some c /\ X = None /\ p ∈ R /\
  exists aid, at_p (pt_inv cfg G R E None) (LkS cs h c (cpu_is aid (Some p) 1 false None)) (ks s).
Proof using HI Hm.
  assert (Hh : h LkPtable = Some c) by (apply (mine _ _ _ _ _ _ HI Hm); by left).
  pose proof (X_mine _ _ _ _ _ _ HI Hm Hh ltac:(done)) as EX.
  destruct (runner_state _ _ _ _ _ _ HI Hm p eq_refl) as (HpR & _).
  destruct (lks_here _ _ _ _ _ _ HI Hm) as (z & Hz & y & -> & HL).
  split_and!; try done. exists (c_apicid z). split; [rewrite <- EX; apply HI|by exists z].
Qed.

Lemma resume_next rest k' aid : wf_prog [] rest -> embs rest = embs_kont k ->
  at_p (pt_inv cfg G R E None) (LkS cs (<[LkPtable := None]> h) c (cpu_run aid (Some p) [])) k' ->
  sys_inv (mkSys k' (<[c := MRun (Some p) rest []]> (modes s)) (<[p := KNone]> (saved s))).
Proof using HI Hm Hk.
  intros Hw He [Hpt HL]. destruct resume_pre as (Hh & _ & HpR & _).
  set (m' := MRun (Some p) rest []).
  destruct (running_split _ _ _ Hm) as (r & ER & ER'). specialize (ER' m'). simpl in ER, ER'. rewrite <- ER in ER'.
  destruct (embs_split _ _ _ _ _ _ Hm Hk) as (r2 & EE & EE'). specialize (EE' m' KNone).
  simpl in EE, EE'. rewrite He, <- EE in EE'.
  assert (Hlt : (p < length (saved s))%nat) by by eapply lookup_lt_Some.
  assert (Hgood : forall i b, G i b -> good (<[c := m']> (modes s)) (<[p := KNone]> (saved s)) i b).
  { intros i b Hg. destruct (decide (i = p)) as [->|Hne].
    - destruct b; simpl; [left; by rewrite ER'|]. rewrite list_lookup_insert_eq by done. naive_solver.
    - eapply (good_running (modes s)); [intros j; by rewrite ER'|]. destruct b; simpl in *; by rewrite list_lookup_insert_ne by done. }
  eapply (sys_next cfg s cs h X c _ m' _ None _ _ _ HI Hm HL); try done.
  - intros z Hz. pose proof Hz as [Ha _]. simpl. by rewrite Ha.
  - eapply pt_inv_mono; [exact Hpt|intros j; by rewrite ER'|by rewrite <- EE'|auto..].
  - intros lk. simpl. split; [|by intros ?%elem_of_nil]. destruct (decide (lk = LkPtable)) as [->|Hne].
    + by rewrite fn_lookup_insert.
    + rewrite fn_lookup_insert_ne by done. intros Hc. apply (mine _ _ _ _ _ _ HI Hm), list_elem_of_singleton in Hc. done.
  - intros lk c' Hne. destruct (decide (lk = LkPtable)) as [->|Hne2].
    + rewrite fn_lookup_insert, Hh. naive_solver.
    + by rewrite fn_lookup_insert_ne.
  - rewrite ER'. apply HI.
  - rewrite EE'. apply HI.
  - eapply X_set_none; eauto.
  - split_and!; try done; [constructor|by intros ?%elem_of_nil|simpl; lia|].
    intros q [= <-]. by apply list_lookup_insert_eq.
  - intros c' m2 Hne H2. apply mode_ok_upd; [by eapply (si_mode _ _ _ _ _ HI)|].
    by apply (runner_other _ _ _ _ _ _ HI Hm p c' m2).
  - by apply kont_ok_upd; [apply HI|].
  - rewrite length_insert. apply HI.
  - intros np st Hin Hst. rewrite EE' in Hin. rewrite list_lookup_insert_ne; [by apply (si_stage _ _ _ _ _ HI np st)|].
    intros ->. destruct (pi_emb _ _ _ _ _ _ Hpt _ _ Hin) as (y & Hy & Hs & _).
    apply (pi_run _ _ _ _ _ _ Hpt _ _ Hy) in HpR. congruence.
Qed.

Lemma forkret_inv k' : k = KForkret -> forkret c (ks s) = Ok (tt, k') ->
  sys_inv (mkSys k' (<[c := MRun (Some p) [] []]> (modes s)) (<[p := KNone]> (saved s))).
Proof using HI Hm Hk.
  intros Ek Hrun. destruct resume_pre as (Hh & _ & HpR & aid & Hpre).
  apply (resume_next [] k' aid); [done|by rewrite Ek|].
  eapply run_at_p; [|exact Hpre|exact Hrun]. intros k0. apply forkret_tr; [by eapply cpu_lt|done].
Qed.

Lemma yielded_inv i rest k' : k = KYield i rest -> yield_return c i (ks s) = Ok (tt, k') ->
  sys_inv (mkSys k' (<[c := MRun (Some p) rest []]> (modes s)) (<[p := KNone]> (saved s))).
Proof using HI Hm Hk.
  intros Ek Hrun. destruct resume_pre as (Hh & _ & HpR & aid & Hpre).
  pose proof (si_kont _ _ _ _ _ HI _ _ Hk) as Hok. rewrite Ek in Hok.
  apply (resume_next rest k' aid); [done|by rewrite Ek|].
  eapply run_at_p; [|exact Hpre|exact Hrun]. intros k0. apply yield_return_tr; [by eapply cpu_lt|done].
Qed.

Lemma slept_inv lk i rest k' : k = KSleep lk i rest -> sleep_return c p i lk (ks s) = Ok (tt, k') ->
  sys_inv (mkSys k' (<[c := MRun (Some p) (ALock lk :: rest) []]> (modes s)) (<[p := KNone]> (saved s))).
Proof using HI Hm Hk.
  intros Ek Hrun. destruct resume_pre as (Hh & _ & HpR & aid & Hpre).
  pose proof (si_kont _ _ _ _ _ HI _ _ Hk) as Hok. rewrite Ek in Hok. destruct Hok as [Hne Hw].
  apply (resume_next (ALock lk :: rest) k' aid); [|by rewrite Ek|].
  { simpl. split_and!; try done; [by intros ?%elem_of_nil|lia]. }
  assert (H : forall k0 : K, triple (at_pt (pt_inv cfg G R E None) k0 (LkS cs h c (cpu_is aid (Some p) 1 false None)))
    (sleep_return c p i lk) (fun _ => at_pt (pt_inv cfg G R E None) k0 (LkS cs (<[LkPtable := None]> h) c (cpu_run aid (Some p) [])))).
  { intros k0. pose proof (sleep_return_tr cfg (G := G) cs h c aid p R E (cpu_lt _ _ _ _ _ _ HI Hm) Hh HpR k0 i lk None) as T.
    by rewrite decide_False in T by done. }
  by eapply run_at_p; [exact H|..].
Qed.

Lemma waited_inv w i rest e k' : k = KWait w i rest -> wait_resume cfg c p i w (ks s) = Ok (inl e, k') ->
  sys_inv (mkSys k' (<[c := MRun (Some p) rest []]> (modes s)) (<[p := KNone]> (saved s))).
Proof using HI Hm Hk.
  intros Ek Hrun. destruct resume_pre as (Hh & _ & HpR & aid & Hpre).
  pose proof (si_kont _ _ _ _ _ HI _ _ Hk) as Hok. rewrite Ek in Hok.
  apply (resume_next rest k' aid); [done|by rewrite Ek|].
  exact (wait_resume_post cfg cs h c aid p R E (cpu_lt _ _ _ _ _ _ HI Hm) Hh HpR i w _ _ _ Hpre Hrun).
Qed.

Lemma waiting_inv w i rest j k' : k = KWait w i rest -> wait_resume cfg c p i w (ks s) = Ok (inr j, k') ->
  sys_inv (mkSys k' (<[c := MBack p]> (modes s)) (<[p := KWait w j rest]> (saved s))).
Proof using HI Hm Hk.
  intros Ek Hrun. destruct resume_pre as (Hh & _ & HpR & aid & Hpre).
  pose proof (si_kont _ _ _ _ _ HI _ _ Hk) as Hok. rewrite Ek in Hok.
  pose proof (wait_resume_post cfg cs h c aid p R E (cpu_lt _ _ _ _ _ _ HI Hm) Hh HpR i w _ _ _ Hpre Hrun) as HP.
  destruct (embs_split _ _ _ _ _ _ Hm Hk) as (r2 & EE & EE'). specialize (EE' (MBack p) (KWait w j rest)).
  rewrite Ek in EE. simpl in EE, EE'. rewrite <- EE in EE'.
  eapply (off_next s cs h X c _ p _ h k' aid false SLEEPING); try done; [by right|left; by left|].
  split; [|done]. intros lk. by rewrite (mine _ _ _ _ _ _ HI Hm).
Qed.
End OnResume.

(** Every step keeps the invariant. *)
Lemma step_inv (s s' : sys K) : sys_inv s -> step cfg s s' -> sys_inv s'.
Proof using.
  intros (cs & h & X & HI) Hs. destruct Hs.
  - by eapply act_inv.
  - by eapply off_inv.
  - by eapply back_inv.
  - by eapply sched_inv.
  - by eapply forkret_inv.
  - by eapply yielded_inv.
  - by eapply slept_inv.
  - by eapply waited_inv.
  - by eapply waiting_inv.
  - eapply prog_next; [done..|apply H0|]. by destruct H0 as [_ ->].
  - by eapply interrupt_inv.
Qed.

Lemma reachable_inv (s s' : sys K) : sys_inv s -> rtc (step cfg) s s' -> sys_inv s'.
Proof using. intros HI Hs. exact (rtc_invariant _ _ step_inv _ _ Hs HI). Qed.
End Steps.
