(* ===== verification/Boot.v ===== *)
(** * Booting

    The kernel's initial data, and [userinit] as [main] runs it on the boot
    CPU: the state it leaves satisfies [sys_inv].  Then the main theorems on
    reachable states. *)

From stdpp Require Import prelude strings functions relations.
From S2P Require Import Prelude CString Console Spinlock ProcData Queue Mlfq Kalloc Proc Sched Aging Inv Lifecycle ProcThms SchedInv SchedThms System Actions SysInv Reachable.

Open Scope Z_scope.

#[local] Arguments for_each : simpl never.
#[local] Arguments for_until : simpl never.
#[local] Arguments seq : simpl never.

(** ** Initial data *)

(** [ncpu] CPUs with their index as APIC id, interrupts off. *)
Definition cpus0 (ncpu : nat) : list cpu := (fun i => mkCpu (Z.of_nat i) None 0 false false 0 0) <$> seq 0 ncpu.

Definition locks0 (ncpu : nat) : lockst := mkLs (cpus0 ncpu) (fun _ => mkLock 0 None).

Section Boot.
Context {K : Type} {KS : KernelSvc K} (cfg : config).

(** Every CPU in its scheduler, and the first process ready to start in
    [forkret]. *)
Definition idle (ncpu : nat) : list (mode K) := replicate ncpu (MRun None [] []).
Definition saved0 : list (kont K) := <[0%nat := KForkret]> (replicate NPROC KNone).

Definition booted (ncpu : nat) (k : K) (s : sys K) : Prop := exists k',
  userinit cfg 0 (mkKst ptab0 k (locks0 ncpu)) = Ok (tt, k') /\ s = mkSys k' (idle ncpu) saved0.

#[local] Abbreviation G0 n := (good (idle n) saved0).

Lemma running_idle n : running (idle n) = [].
Proof using. unfold running, idle. by induction n. Qed.

Lemma embs_idle n : all_embs (idle n) saved0 = [].
Proof using.
  unfold all_embs. assert (concat (embs_mode <$> idle n) = []) as ->.
  { unfold idle. by induction n. }
  done.
Qed.

Lemma ptab0_inv (G : nat -> bool -> Prop) : (forall i, G i false) -> pt_inv cfg G [] [] None ptab0.
Proof using.
  intros HG.
  assert (Hp : forall i p, procs ptab0 !! i = Some p -> p = zero_proc).
  { intros i p Hi. by apply lookup_replicate in Hi as [-> _]. }
  split; try done.
  - intros i p Hi. rewrite (Hp _ _ Hi). split; [done|]. by intros ?%elem_of_nil.
  - by intros i ?%elem_of_nil.
  - intros i p Hi. rewrite (Hp _ _ Hi). by intros [?|[?|?]].
  - intros i p Hi. by rewrite (Hp _ _ Hi).
  - by intros i st ?%elem_of_nil.
  - intros _. exists (replicate NQ []). split; try done.
    + intros q l Hq. apply lookup_replicate in Hq as [-> Hq]. split; unfold ptab0; cbn [q_tail queues].
      * by rewrite lookup_replicate_2.
      * exists (replicate NPROC None). rewrite lookup_replicate_2 by done. split_and!; try done. simpl. lia.
    + constructor.
    + intros q l i Hq Hi. apply lookup_replicate in Hq as [-> Hq]. by apply elem_of_nil in Hi.
    + intros i p Hi. by rewrite (Hp _ _ Hi).
    + intros i j p p' Hi Hj. by rewrite (Hp _ _ Hi).
    + intros i p Hi. by rewrite (Hp _ _ Hi).
    + intros i p Hi. by rewrite (Hp _ _ Hi).
Qed.

Lemma locks0_Lk n : Lk (cpus0 n) (fun _ => None) (locks0 n).
Proof using.
  split_and!; [done| |done]. unfold distinct_ids, locks0, cpus0. cbn [cpus].
  rewrite <- list_fmap_compose. apply NoDup_fmap_2; [|apply NoDup_seq]. intros i j. simpl. lia.
Qed.

(** The slot [allocproc] finds is the first UNUSED one. *)
Lemma alloc_slot_first c (s s' : kst K) i : alloc_slot c s = Ok (Some i, s') ->
  find_state UNUSED (procs (pt s)) = Some i.
Proof using.
  unfold alloc_slot, locked_section. intros H. apply bind_inv in H as ([] & s1 & E1 & H).
  assert (Ept : pt s1 = pt s).
  { unfold lock, on_l in E1. destruct (acquire c LkPtable (lks s)) as [[? ?]| |]; by simplify_eq. }
  apply bind_inv in H as (r & s2 & E2 & H). rewrite (bind_Ok get _ _ _ _ eq_refl), Ept in E2.
  apply bind_inv in H as (u & s3 & _ & H). apply ret_inv in H as [<- _].
  destruct (find_state UNUSED (procs (pt s))) as [j|]; [|by apply ret_inv in E2 as [? _]].
  by repeat (apply bind_inv in E2 as (? & ? & _ & E2)); apply ret_inv in E2 as [[= ->] _].
Qed.

(** ** userinit *)
Section Userinit.
Context (n : nat) (Hn : (0 < n)%nat).

#[local] Abbreviation inv := (pt_inv cfg (G0 n)).
#[local] Abbreviation cpu0 := (mkCpu 0 None 0 false false 0 0).
#[local] Abbreviation L := (LkC (cpus0 n) (fun _ => None) 0 cpu0).

Lemma cpu0_lt : (0 < length (cpus0 n))%nat.
Proof using Hn. unfold cpus0. by rewrite length_fmap, length_seq. Qed.

Lemma cpu0_calm : calm cpu0.
Proof using. by repeat split. Qed.

Lemma saved0_at i kt : saved0 !! i = Some kt -> kt = KForkret \/ kt = KNone.
Proof using.
  unfold saved0. intros H. apply list_lookup_insert_Some in H as [(_ & -> & _)|(_ & H)]; [by left|].
  apply lookup_replicate in H as [-> _]. by right.
Qed.

Lemma boot_good_false i : G0 n i false.
Proof using. intros kt Hk. by destruct (saved0_at _ _ Hk) as [-> | ->]. Qed.

Lemma allocproc_boot k :
  post (fun s => s = mkKst ptab0 k (locks0 n)) (allocproc cfg 0)
    (fun o s => match o with Some p => p = 0%nat /\ at_p (inv [] [(0%nat, 2%nat)] None) L s | None => True end).
Proof using Hn.
  unfold allocproc. eapply (post_bind _ _ _ (fun o s => match o with
    | Some p => p = 0%nat /\ at_p (inv [] [(0%nat, 0%nat)] None) L s | None => True end)).
  - intros s o s' -> Hrun. destruct o as [i|]; [|done].
    pose proof (alloc_slot_first _ _ _ _ Hrun) as Hi. vm_compute in Hi. injection Hi as <-. split; [done|].
    destruct (alloc_slot_tr cfg (G := G0 n) [] [] None k (cpus0 n) (fun _ => None) 0 cpu0 cpu0_lt cpu0_calm eq_refl)
      with (mkKst ptab0 k (locks0 n)) as (o & s2 & E2 & HI & _ & HL).
    { split_and!; [|by vm_compute|done|].
      - apply ptab0_inv. intros i. apply boot_good_false.
      - exists cpu0. split; [done|]. rewrite list_insert_id; [apply locks0_Lk|]. unfold cpus0. by destruct n; [lia|]. }
    rewrite Hrun in E2. injection E2 as <- <-. by destruct HI as [HI _].
  - intros [p|]; [|by apply post_ret]. simpl.
    eapply (post_bind _ _ _ (fun b s => p = 0%nat /\ at_p (inv [] (if (b : bool) then [(0%nat, 2%nat)] else []) None) L s)).
    + intros s b s' [-> Hs] Hrun. split; [done|]. eapply init_slot_post; [|exact Hs|exact Hrun]. intros st. by intros ?%elem_of_nil.
    + intros [|]; apply post_ret; [|done]. by intros s ?.
Qed.

Lemma userinit_boot k :
  post (fun s => s = mkKst ptab0 k (locks0 n)) (userinit cfg 0) (fun _ => at_p (inv [] [] None) L).
Proof using Hn.
  assert (Hni : forall st : nat, (0%nat, st) ∉ ([] : list (nat * nat))) by (intros st; by intros ?%elem_of_nil).
  unfold userinit. eapply post_bind; [apply allocproc_boot|]. intros np. simpl.
  eapply (post_bind _ _ _ (fun p s => at_p (inv [] [(0%nat, 2%nat)] None) L s /\ p = 0%nat)).
  { destruct np as [p|]; [|by intros s a s' _ ?]. by intros s a s' [? ?] [= <- <-]. }
  intros p. apply post_pure. intros ->.
  eapply (post_bind _ _ _ (fun _ => at_p (inv [] [(0%nat, 2%nat)] None) L)).
  { apply (post_on_pt _ _ (fun _ => inv [] [(0%nat, 2%nat)] None)). intros s [] s' Hs [= <-]. by eapply pt_inv_ext. }
  intros []. eapply post_bind; [apply post_on_k|intros d; simpl]. destruct (Z.eqb_spec d 0) as [->|Hd].
  { eapply post_bind; [apply (emb_set cfg [] [] None 0 2 2); [done|emb]|intros []; simpl]. by intros s x s' _ ?. }
  eapply post_bind; [apply (emb_set cfg [] [] None 0 2 3); [done|emb]|intros []; simpl].
  eapply post_bind; [apply post_on_k|intros []; simpl].
  do 2 (eapply post_bind; [apply (emb_set cfg [] [] None 0 3 3); [done|emb]|intros []; simpl]).
  eapply post_bind; [by apply set_name_post|intros []; simpl].
  eapply post_bind; [apply post_on_k|intros r; simpl].
  eapply post_bind; [apply (emb_set cfg [] [] None 0 3 3); [done|emb]|intros []; simpl].
  apply (at_p_of_at_pt _ _ (fun _ => _) _ (fun _ => _)). intros k0. apply publish_tr; try done.
  - apply cpu0_lt.
  - right. by exists KForkret.
Qed.
End Userinit.

Lemma boot_inv n k s : booted n k s -> sys_inv cfg s.
Proof using.
  intros (k' & Hrun & ->). destruct (decide (n = 0%nat)) as [->|Hn].
  { exfalso. revert Hrun. unfold userinit, allocproc, alloc_slot, locked_section, lock, on_l. done. }
  destruct (userinit_boot n ltac:(lia) k _ _ _ eq_refl Hrun) as [Hpt (z & Hz & HL)].
  exists (<[0%nat := z]> (cpus0 n)), (fun _ => None), None.
  assert (Hid : forall c m, idle n !! c = Some m -> m = MRun None [] []) by (by intros c m [-> _]%lookup_replicate).
  split; simpl; rewrite ?running_idle, ?embs_idle; try done.
  - unfold cpus0, idle. by rewrite length_insert, length_fmap, length_seq, length_replicate.
  - intros c m y Hm Hy. rewrite (Hid _ _ Hm). simpl. destruct (decide (c = 0%nat)) as [->|Hne].
    + apply list_lookup_insert_Some in Hy as [(_ & -> & _)|(? & _)]; [|done]. destruct Hz as (H1 & H2 & H3 & H4). split_and!; [done|by rewrite H2|by rewrite H3|done].
    + rewrite list_lookup_insert_ne in Hy by done. unfold cpus0 in Hy. rewrite list_lookup_fmap in Hy.
      destruct (seq 0 n !! c); [|done]. injection Hy as <-. by split_and!.
  - intros c m lk Hm. rewrite (Hid _ _ Hm). simpl. split; [done|]. by intros ?%elem_of_nil.
  - constructor.
  - constructor.
  - split; [|done]. intros c p Hm. by apply Hid in Hm.
  - intros c m Hm. rewrite (Hid _ _ Hm). split_and!; try done; [constructor|by intros ?%elem_of_nil|simpl; lia].
  - intros p kt Hk. by destruct (saved0_at _ _ Hk) as [-> | ->].
  - intros np st Hin. by apply elem_of_nil in Hin.
Qed.

(** ** Reachable states *)
Definition reachable (ncpu : nat) (k : K) (s : sys K) : Prop :=
  exists s0, booted ncpu k s0 /\ rtc (step cfg) s0 s.

Lemma reachable_sys_inv n k s : reachable n k s -> sys_inv cfg s.
Proof using. intros (s0 & Hb & Hs). eapply reachable_inv; [by eapply boot_inv|done]. Qed.

(** CPU [c] runs process [p], or has just switched to it. *)
Definition on_cpu (s : sys K) (c p : nat) : Prop := exists m, modes s !! c = Some m /\ runner m = Some p.




End Boot.

(** ** A concrete system

    The layers below reduced to a page counter; two CPUs; the MLFQ build.
    After boot, CPU 1 schedules the first process, which takes a timer tick,
    and CPU 0 finds nothing to run. *)
#[local] Instance page_svc : KernelSvc Z := {
  svc_kalloc := k ← get; put (k + PGSIZE);; mret k;
  svc_kfree _ := mret tt;
  svc_setupkvm := k ← get; put (k + PGSIZE);; mret k;
  svc_inituvm _ _ := mret tt;
  svc_allocuvm _ _ n := mret n;
  svc_deallocuvm _ _ n := mret n;
  svc_copyuvm _ _ := k ← get; put (k + PGSIZE);; mret k;
  svc_freevm _ := mret tt;
  svc_store_user _ _ _ := mret tt;
  svc_filedup f := mret f;
  svc_fileclose _ := mret [];
  svc_idup i := mret i;
  svc_iput _ := mret [];
  svc_begin_op := mret tt;
  svc_end_op := mret [];
  svc_namei _ := mret (Some 0%nat)
}.

Definition sample_cfg : config :=
  {| pol := MLFQ; forkret_pc := KERNBASE + 100; trapret_pc := KERNBASE + 200; initcode := [0]; kpgdir := KERNBASE + 4096 |}.

Definition run_of {A} (r : result (A * kst Z)) : kst Z :=
  match r with Ok (_, s) => s | _ => mkKst ptab0 0 (locks0 0) end.

Definition sample0 : kst Z := mkKst ptab0 (KERNBASE + 8192) (locks0 2).
Definition sample1 : kst Z := run_of (userinit sample_cfg 0 sample0).
Definition sample2 : kst Z := run_of (scheduler sample_cfg 1 sample1).
Definition sample3 : kst Z := run_of (forkret 1 sample2).
Definition sample_sys2 : sys Z := mkSys sample2 [MRun None [] []; MResume 0] saved0.
Definition sample_sys3 : sys Z := mkSys sample3 [MRun None [] []; MRun (Some 0%nat) [] []] (replicate NPROC KNone).

Lemma sample_booted : booted sample_cfg 2 (KERNBASE + 8192) (mkSys sample1 (idle 2) saved0).
Proof. exists sample1. split; [vm_compute; reflexivity|reflexivity]. Qed.

Lemma sample_reachable2 : reachable sample_cfg 2 (KERNBASE + 8192) sample_sys2.
Proof.
  eexists. split; [exact sample_booted|]. apply rtc_once.
  assert (E : scheduler sample_cfg 1 sample1 = Ok (Some 0%nat, sample2)) by (vm_compute; reflexivity).
  exact (step_sched sample_cfg (mkSys sample1 (idle 2) saved0) 1 (Some 0%nat) sample2 eq_refl E).
Qed.

Lemma sample_reachable3 : reachable sample_cfg 2 (KERNBASE + 8192) sample_sys3.
Proof.
  destruct sample_reachable2 as (s0 & Hb & Hs). exists s0. split; [exact Hb|]. eapply rtc_r; [exact Hs|].
  assert (E : forkret 1 sample2 = Ok (tt, sample3)) by (vm_compute; reflexivity).
  exact (step_forkret sample_cfg sample_sys2 1 0 sample3 eq_refl eq_refl E).
Qed.

Definition sample_init : proc := default zero_proc (procs (pt sample3) !! 0%nat).





(** The first process runs on CPU 1 at level 0: two ticks, then it yields. *)
Lemma mlfq_slice_witness :
  exists s', run_ticks sample_cfg 1 0 (Z.to_nat 2 + 1) (ks sample_sys3) = Ok (replicate (Z.to_nat 2) Stay ++ [Yield], s') /\
    exists x', procs (pt s') !! 0%nat = Some x' /\ p_change_q x' = 1 /\ p_queue x' = Z.of_nat 0.
Proof.
  destruct (reachable_sys_inv _ _ _ _ sample_reachable3) as (cs & h & X & HI).
  assert (Hm : modes sample_sys3 !! 1%nat = Some (MRun (Some 0%nat) [] [])) by reflexivity.
  destruct (lks_here _ _ _ _ _ _ _ HI Hm) as (z & Hz & y & -> & HL).
  assert (Hf : h LkPtable = None).
  { destruct (si_lk _ _ _ _ _ HI) as (_ & _ & Hl). specialize (Hl LkPtable).
    replace (locks (lks (ks sample_sys3)) LkPtable) with (mkLock 0 None) in Hl by (vm_compute; reflexivity).
    destruct (h LkPtable); [discriminate Hl|reflexivity]. }
  refine (mlfq_slice sample_cfg (running (modes sample_sys3)) (all_embs (modes sample_sys3) (saved sample_sys3)) X (kk (ks sample_sys3))
    cs h 1 z 0 0 2 (cpu_lt _ _ _ _ _ _ _ HI Hm) (cpu_run_calm _ _ [] _ (Nat.le_0_l _) Hz) Hf eq_refl
    (proj1 (runner_state _ _ _ _ _ _ _ HI Hm 0%nat eq_refl)) eq_refl sample_init _ _ (ks sample_sys3) _).
  - vm_compute; reflexivity.
  - vm_compute; reflexivity.
  - split; [split; [exact (si_pt _ _ _ _ _ HI)|vm_compute; reflexivity]|].
    split; [reflexivity|]. exists z. split; [repeat split|exact HL].
Defined.

(** ** A thread from creation to [join]

    The first process creates a thread, CPU 0 runs it until it exits, and
    the first process collects it. *)
Definition with_thread : kst Z := run_of (clone sample_cfg 1 0 64 0 8192 sample3).
Definition thread_runs : kst Z := run_of (forkret 0 (run_of (scheduler sample_cfg 0 with_thread))).
Definition thread_exits : kst Z := run_of (exit_zombie sample_cfg 0 1 thread_runs).
Definition thread_zombie : kst Z := run_of (scheduler_return sample_cfg 0 1 thread_exits).
Definition thread_joined : kst Z := run_of (join_reap 0 4092 1 thread_zombie).

Definition slot_of (s : kst Z) (i : nat) : proc := default zero_proc (procs (pt s) !! i).


Lemma clone_creates_thread_witness :
  2 = nextpid (pt sample3) /\
  exists np y x, procs (pt sample3) !! np = Some y /\ p_state y = UNUSED /\ procs (pt with_thread) !! np = Some x /\
    p_state x = RUNNABLE /\ p_pid x = 2 /\ p_kstack x <> 0 /\ cx_eip (p_ctx x) = forkret_pc sample_cfg /\
    cloned 0 sample_init 64 8192 x.
Proof.
  assert (E : clone sample_cfg 1 0 64 0 8192 sample3 = Ok (2, with_thread)) by (vm_compute; reflexivity).
  refine (clone_creates_thread sample_cfg 1 0 sample_init sample3 with_thread 2 64 0 8192 _ _ E _).
  - vm_compute; reflexivity.
  - vm_compute; discriminate.
  - discriminate.
Defined.

(** The first process has no child and is not killed; [wait] sleeps. *)
Definition sample3_locked : kst Z := run_of (lock 1 LkPtable sample3).

Lemma wait_never_fails_witness :
  existsb (waitx_kid 0 sample_init) (procs (pt sample3_locked)) = false /\ WaitSleep <> WaitError.
Proof.
  split; [vm_compute; reflexivity|].
  refine (wait_never_fails sample_cfg 1 0 sample_init sample3_locked sample3_locked WaitSleep _ _ _); vm_compute; reflexivity.
Defined.

(** The thread closes its files and exits. *)
Definition thread_exited : kst Z := run_of (exit sample_cfg 0 1 thread_runs).



(** [kill(0)] finds a slot that is not in use: it reports success
    and sets [killed] there, and the next process created in that slot is
    born killed, because [allocproc] does not clear the flag. *)
Example kill_zero_hits_free_slot :
  kill sample_cfg 1 0 sample3 = Ok (0, run_of (kill sample_cfg 1 0 sample3)) /\
  p_state (slot_of sample3 1) = UNUSED /\
  fork sample_cfg 1 0 (run_of (kill sample_cfg 1 0 sample3)) = Ok (2, run_of (fork sample_cfg 1 0 (run_of (kill sample_cfg 1 0 sample3)))) /\
  p_pid (slot_of (run_of (fork sample_cfg 1 0 (run_of (kill sample_cfg 1 0 sample3)))) 1) = 2 /\
  p_killed (slot_of (run_of (fork sample_cfg 1 0 (run_of (kill sample_cfg 1 0 sample3)))) 1) = 1.
Proof. do 4 (split; [vm_compute; reflexivity|]). vm_compute; reflexivity. Qed.

(** ** Round robin with one process, which is never run *)
Definition rr_state : kst Z := run_of (lock 1 LkPtable sample1).

