(* ===== verification/TrapThms.v ===== *)
(** * What a trap does to the interrupted process

    A killed process does not return to user code, and an exception kills
    the process or stops the kernel. *)

From stdpp Require Import prelude strings.
From S2P Require Import Prelude CString Console Spinlock ProcData Queue Kalloc Vm Pipe Bio Log Fs Dir File Proc Kernel Sysfile Exec Sched Syscall Trap Inv ProcThms Boot.

Open Scope Z_scope.

Section TrapThms.
Context (cfg : config) (c : nat) (mc : machine) (garbage : list Z).
Notation KM := (M (kst kfs)).
#[local] Instance svc : KernelSvc kfs := kernel_svc mc.
Context (ideintr kbdintr uartintr : KM unit) (cr2 wakeup_ps : Z).
Notation trap := (trap cfg c mc garbage ideintr kbdintr uartintr cr2 wakeup_ps).

(** In the state the process [i] is not killed. *)
Definition alive (i : nat) (s : kst kfs) : Prop := exists p, procs (pt s) !! i = Some p /\ p_killed p = 0.

Lemma resume_alive i tf s s' : trap_resume cfg c mc (Some i) tf s = Ok (TReturn, s') -> Z.land (t_cs tf) 3 = DPL_USER -> alive i s'.
Proof using Type.
  intros E Hu. unfold trap_resume, killed_exit in E. apply bind_inv in E as (p & s1 & [-> Hp]%read_same & E). rewrite Hu, Z.eqb_refl, andb_true_r in E.
  destruct (Z.eqb_spec (p_killed p) 0) as [Hk|]; cbn [negb] in E; [apply ret_inv in E as [_ ->]; by exists p|]. by apply bind_inv in E as (b & s2 & _ & [? _]%ret_inv).
Qed.

Lemma policy_alive i tf s s' : trap_policy cfg c wakeup_ps (Some i) tf (trap_resume cfg c mc (Some i) tf) s = Ok (TReturn, s') ->
  Z.land (t_cs tf) 3 = DPL_USER -> alive i s'.
Proof using Type.
  intros E Hu. unfold trap_policy in E. apply bind_inv in E as (p & s1 & _ & E). destruct (_ && _); [|by eapply resume_alive]. apply bind_inv in E as (d & s2 & _ & E). destruct d.
  - by eapply resume_alive.
  - by apply bind_inv in E as (b & s3 & _ & [? _]%ret_inv).
  - apply bind_inv in E as (b & s3 & _ & E). by eapply resume_alive.
Qed.

Lemma syscall_alive i s s' : trap_syscall cfg c mc garbage i s = Ok (TReturn, s') -> alive i s'.
Proof using Type.
  intros E. unfold trap_syscall in E. apply bind_inv in E as (p & s1 & _ & E). destruct (negb _); [by apply bind_inv in E as (b & s2 & _ & [? _]%ret_inv)|].
  apply bind_inv in E as (e & s2 & _ & E). destruct e; try by apply ret_inv in E as [? _].
  apply bind_inv in E as (p' & s3 & [-> Hp]%read_same & E). destruct (Z.eqb_spec (p_killed p') 0) as [Hk|]; cbn [negb] in E; [apply ret_inv in E as [_ ->]; by exists p'|].
  by apply bind_inv in E as (b & s4 & _ & [? _]%ret_inv).
Qed.

(** Claim C5. A killed process never goes back to user code: when [trap],
    for an interrupt of user code or a system call, or the rest of it after
    [yield], returns to the process, the process is not killed. *)
Theorem trap_returns_alive i tf s s' : Z.land (t_cs tf) 3 = DPL_USER ->
  trap (Some i) tf s = Ok (TReturn, s') \/ trap_resume cfg c mc (Some i) tf s = Ok (TReturn, s') -> alive i s'.
Proof using Type.
  intros Hu [E|E]; [|by eapply resume_alive]. unfold Trap.trap in E. destruct (_ =? _).
  - apply bind_inv in E as (i' & s1 & E1 & E). injection E1 as <- <-. by eapply syscall_alive.
  - apply bind_inv in E as ([] & s1 & _ & E). unfold killed_exit in E. apply bind_inv in E as (p & s2 & _ & E).
    destruct (_ && _); [by apply bind_inv in E as (b & s3 & _ & [? _]%ret_inv)|]. by eapply policy_alive.
Qed.

Definition interrupt_nos : list Z := [32; 33; 36; 39; 46; 47; 63; 64].

Lemma fault_default cur tf : t_trapno tf ∉ interrupt_nos -> trap_dispatch cfg c ideintr kbdintr uartintr cr2 cur tf = trap_default c cr2 cur tf.
Proof using Type.
  unfold interrupt_nos. rewrite !not_elem_of_cons. intros H. unfold trap_dispatch. cbv zeta. unfold T_IRQ0, IRQ_TIMER, IRQ_IDE, IRQ_KBD, IRQ_COM1, IRQ_SPURIOUS.
  repeat (rewrite (proj2 (Z.eqb_neq _ _)) by lia). done.
Qed.

End TrapThms.

(** ** Two traps of the thread of Boot.v *)
Definition trap_mc : machine := mkMachine 0 0 (mkDevsw (fun _ => None) (fun _ => None)).

Definition trap_kfs : kfs :=
  mkKfs (mkKmem (fun _ => 0) 0 false [])
    (mkFsst (mkLst (binit (fun _ _ => zero_block)) (mkLog 2 30 0 false 1 0 [])) [mkIn 1 1 5 initsleeplock true (mkDi 1 0 0 1 0 [])]
       (mkSb 0 0 0 0 0 0 0) [])
    [] [] 1 [].

(** Entered through an interrupt gate. *)
Definition thread_kernel : kst kfs := mkKst (pt thread_runs) trap_kfs (match cli 0 (lks thread_runs) with Ok (_, l) => l | _ => lks thread_runs end).

(** An interrupt of the second IDE controller, and a page fault, in user code. *)
Definition ide2_frame : frame := mkFrame 47 27 100 0.
Definition fault_frame : frame := mkFrame 14 27 100 6.

Notation trap1 tf := (trap sample_cfg 0 trap_mc [] (mret tt) (mret tt) (mret tt) 4096 0 (Some 1%nat) tf thread_kernel).

Definition returns (r : result (trap_end * kst kfs)) : bool := match r with Ok (TReturn, _) => true | _ => false end.
Definition finishes (r : result (trap_end * kst kfs)) : bool := match r with Ok _ => true | _ => false end.

Lemma ide2_returns : exists s', trap1 ide2_frame = Ok (TReturn, s').
Proof. assert (Hr : returns (trap1 ide2_frame) = true) by (vm_compute; reflexivity). destruct (trap1 ide2_frame) as [[[] s']| |]; try discriminate Hr. by exists s'. Qed.

Lemma fault_finishes : exists r, trap1 fault_frame = Ok r.
Proof. assert (Hr : finishes (trap1 fault_frame) = true) by (vm_compute; reflexivity). destruct (trap1 fault_frame) as [r| |]; try discriminate Hr. by exists r. Qed.

Lemma trap_returns_alive_witness : exists s', trap1 ide2_frame = Ok (TReturn, s') /\ alive 1 s'.
Proof.
  destruct ide2_returns as [s' E]. exists s'. split; [exact E|]. assert (Hu : Z.land (t_cs ide2_frame) 3 = DPL_USER) by (vm_compute; reflexivity).
  exact (trap_returns_alive sample_cfg 0 trap_mc [] (mret tt) (mret tt) (mret tt) 4096 0 1 ide2_frame thread_kernel s' Hu (or_introl E)).
Defined.

